(** * usbredir: filter, wire codec and host engine, embedded in Rocq

    The development follows the C sources
      jni/libusbredir/usbredirparser/usbredirfilter.c
      jni/libusbredir/usbredirparser/usbredirparser.c
      jni/libusbredir/usbredirhost/usbredirhost.c
    function by function.  C integers are [Z] with the conversions between
    integer types written out; C strings are lists of characters without
    their terminating NUL; heap objects reached through a pointer that may
    be NULL are [option]s; callbacks that leave the library are recorded in
    traces. *)

From Stdlib Require Import ZArith List Ascii String Bool Lia.
From stdpp Require Import base list.
From Equations Require Import Equations.
Import ListNotations.
Open Scope Z_scope.

#[local] Obligation Tactic := idtac.

(* ===================================================================== *)
(** * Part I: definitions                                                 *)
(* ===================================================================== *)

(* --------------------------------------------------------------------- *)
(** ** The C environment                                                  *)
(* --------------------------------------------------------------------- *)

(** The width of [long] is the one thing of the C data model the sources
    depend on ([strtol] returns a [long] that the filter parser stores in an
    [int]); [int] is 32 bits in both models. *)
Inductive data_model := ILP32 | LP64.

Definition LONG_BITS (dm : data_model) : Z :=
  match dm with ILP32 => 32 | LP64 => 64 end.
Definition LONG_MAX (dm : data_model) : Z := 2 ^ (LONG_BITS dm - 1) - 1.
Definition LONG_MIN (dm : data_model) : Z := - 2 ^ (LONG_BITS dm - 1).

(** Conversion to [int] / [int32_t]: reduction modulo 2^32 into
    [-2^31, 2^31). *)
Definition to_int (z : Z) : Z := (z + 2 ^ 31) mod 2 ^ 32 - 2 ^ 31.
(** Conversion to [unsigned int] / [uint32_t], [uint16_t], [uint8_t]. *)
Definition to_uint (z : Z) : Z := z mod 2 ^ 32.
Definition to_uint16 (z : Z) : Z := z mod 2 ^ 16.
Definition to_uint8 (z : Z) : Z := z mod 2 ^ 8.
(** Conversion to [uint64_t]. *)
Definition to_uint64 (z : Z) : Z := z mod 2 ^ 64.

(** <errno.h> (Linux values). *)
Definition EPERM : Z := 1.
Definition ENOENT : Z := 2.
Definition ENOMEM : Z := 12.
Definition EINVAL : Z := 22.

(** Case analysis that keeps the equation, for definitions by well-founded
    recursion. *)
Definition inspect {A} (a : A) : {b | a = b} := exist _ a eq_refl.

(** A C string: the characters before the terminating NUL. *)
Definition cstr := list ascii.

Definition chr (c : ascii) : Z := Z.of_N (N_of_ascii c).

Definition in_set (c : ascii) (set : cstr) : bool :=
  existsb (Ascii.eqb c) set.

(** [strspn s accept]: length of the initial segment of [s] made of
    characters of [accept]. *)
Fixpoint strspn (s accept : cstr) : nat :=
  match s with
  | c :: s' => if in_set c accept then S (strspn s' accept) else O
  | [] => O
  end.

(** [strcspn s reject]: length of the initial segment of [s] free of
    characters of [reject]. *)
Fixpoint strcspn (s reject : cstr) : nat :=
  match s with
  | c :: s' => if in_set c reject then O else S (strcspn s' reject)
  | [] => O
  end.

(** [strtok_r s delim &save]: [s] is the position to scan from (the string
    on the first call, the save pointer on the later ones).  Returns the
    token and the new save pointer, or [None] for NULL.  The delimiter that
    ends the token is overwritten by NUL, so the token is the span alone. *)
Definition strtok_r (s delim : cstr) : option (cstr * cstr) :=
  let s1 := skipn (strspn s delim) s in
  match s1 with
  | [] => None
  | _ :: _ =>
      let n := strcspn s1 delim in
      match skipn n s1 with
      | [] => Some (firstn n s1, [])
      | _ :: rest => Some (firstn n s1, rest)
      end
  end.

(** [isspace] in the C locale. *)
Definition isspace (c : ascii) : bool :=
  (chr c =? 32) || ((9 <=? chr c) && (chr c <=? 13)).

(** Value of a digit character for [strtol]: decimal digits, then letters
    of either case from 10 on. *)
Definition digit_val (c : ascii) : option Z :=
  let n := chr c in
  if (48 <=? n) && (n <=? 57) then Some (n - 48)
  else if (97 <=? n) && (n <=? 122) then Some (n - 87)
  else if (65 <=? n) && (n <=? 90) then Some (n - 55)
  else None.

(** The digit loop of [strtol]: consumes the digits valid in [base],
    accumulating the magnitude; returns it with the unread rest. *)
Fixpoint strtol_digits (base : Z) (s : cstr) (acc : Z) : Z * cstr :=
  match s with
  | c :: s' =>
      match digit_val c with
      | Some d => if d <? base then strtol_digits base s' (acc * base + d)
                  else (acc, s)
      | None => (acc, s)
      end
  | [] => (acc, s)
  end.

Definition is_x (c : ascii) : bool := (chr c =? 120) || (chr c =? 88).

(** [strtol nptr &endptr base] for [base] 0 or 2..36: skips white space,
    reads an optional sign, selects the base from a [0x] / [0] prefix when
    [base] is 0 (skips a [0x] prefix when it is 16), reads the digits and
    saturates at [LONG_MIN] / [LONG_MAX].  Without any digit the result is
    0 and [endptr] is [nptr], except after a bare [0x], where the [0] is
    the number and [endptr] points at the [x]. *)
Definition strtol (dm : data_model) (nptr : cstr) (base : Z) : Z * cstr :=
  let s := skipn (strspn nptr [" "; "009"; "010"; "011"; "012"; "013"]%char) nptr in
  let '(negative, s) :=
    match s with
    | "-"%char :: s' => (true, s')
    | "+"%char :: s' => (false, s')
    | _ => (false, s)
    end in
  let '(base, save, after_0x) :=
    match s with
    | "0"%char :: x :: s' =>
        if ((base =? 0) || (base =? 16)) && is_x x then (16, s', true)
        else if base =? 0 then (8, s, false) else (base, s, false)
    | "0"%char :: [] => if base =? 0 then (8, s, false) else (base, s, false)
    | _ => if base =? 0 then (10, s, false) else (base, s, false)
    end in
  let '(i, rest) := strtol_digits base save 0 in
  if (length rest =? length save)%nat then
    (* no conversion *)
    if after_0x then
      match s with
      | _ :: xrest => (0, xrest)
      | [] => (0, nptr)
      end
    else (0, nptr)
  else if negative then (Z.max (- i) (LONG_MIN dm), rest)
  else (Z.min i (LONG_MAX dm), rest).

(** Output of [sprintf] conversions. *)
Definition hex_digit (d : Z) : ascii :=
  nth (Z.to_nat d)
      ["0"; "1"; "2"; "3"; "4"; "5"; "6"; "7";
       "8"; "9"; "a"; "b"; "c"; "d"; "e"; "f"]%char "0"%char.

(** Hexadecimal digits of [n], most significant first; an [unsigned int]
    has at most eight. *)
Fixpoint hex_digits (fuel : nat) (n : Z) (acc : cstr) : cstr :=
  match fuel with
  | O => acc
  | S fuel' =>
      if n <? 16 then hex_digit n :: acc
      else hex_digits fuel' (n / 16) (hex_digit (n mod 16) :: acc)
  end.

(** ["%0<width>x"] applied to an [int] argument, read as [unsigned]. *)
Definition sprintf_0x (width : nat) (v : Z) : cstr :=
  let ds := hex_digits 8 (to_uint v) [] in
  repeat "0"%char (width - length ds) ++ ds.

(* --------------------------------------------------------------------- *)
(** ** usbredirfilter.c                                                   *)
(* --------------------------------------------------------------------- *)

(** [struct usbredirfilter_rule]: five [int]s, in this order (the parser
    fills a rule through an [int *]). *)
Record usbredirfilter_rule := mk_rule {
  device_class : Z;
  vendor_id : Z;
  product_id : Z;
  device_version_bcd : Z;
  allow : Z
}.

(** The flag bits of usbredirfilter.h, whose declaration is not part of the
    sources at hand: kept as parameters.  The second one must be an actual
    bit for [usbredirfilter_check] to make sense. *)
Class usbredirfilter_h := {
  usbredirfilter_fl_default_allow : Z;
  usbredirfilter_fl_dont_skip_non_boot_hid : Z;
  usbredirfilter_fl_dont_skip_nonzero :
    usbredirfilter_fl_dont_skip_non_boot_hid <> 0
}.

(** [usbredirfilter_verify rules rules_count]; the array and its length are
    one list. *)
Fixpoint usbredirfilter_verify (rules : list usbredirfilter_rule) : Z :=
  match rules with
  | [] => 0
  | r :: rules' =>
      if (device_class r <? -1) || (device_class r >? 255) then - EINVAL
      else if (vendor_id r <? -1) || (vendor_id r >? 65535) then - EINVAL
      else if (product_id r <? -1) || (product_id r >? 65535) then - EINVAL
      else if (device_version_bcd r <? -1) || (device_version_bcd r >? 65535)
      then - EINVAL
      else usbredirfilter_verify rules'
  end.

(** What [strspn] stops at is not a separator, so the token that follows
    is not empty: the loops over the tokens terminate. *)
Lemma strspn_stops s set c s1 :
  skipn (strspn s set) s = c :: s1 -> in_set c set = false.
Proof.
  induction s as [|a s IH]; simpl; [discriminate|].
  destruct (in_set a set) eqn:Ea; simpl; [exact IH|].
  intros [= -> _]. exact Ea.
Qed.

Lemma strtok_r_shorter s delim tok rest :
  strtok_r s delim = Some (tok, rest) -> (length rest < length s)%nat.
Proof.
  unfold strtok_r.
  destruct (skipn (strspn s delim) s) as [|c s1] eqn:E; [discriminate|].
  assert (Hl : (length (c :: s1) <= length s)%nat)
    by (rewrite <- E, length_skipn; lia).
  destruct (skipn (strcspn (c :: s1) delim) (c :: s1)) as [|d r] eqn:E2;
    intros [= _ <-]; simpl in *; [lia|].
  assert (Hr : (length (d :: r) <= length (c :: s1))%nat)
    by (rewrite <- E2, length_skipn; lia).
  simpl in *. lia.
Qed.

(** The first pass of [usbredirfilter_string_to_rules]: an upper bound on
    the number of rules, used to size the array. *)
Equations? count_rules (rule_sep r : cstr) (rules_count : Z) : Z
  by wf (length r) lt :=
count_rules rule_sep r rules_count
  with inspect (skipn (strspn r rule_sep) r) := {
  | exist _ [] _ := rules_count;
  | exist _ (c :: r1) H :=
      count_rules rule_sep (skipn (strcspn (c :: r1) rule_sep) (c :: r1))
                  (rules_count + 1) }.
Proof.
  assert (Hl : (length (c :: r1) <= length r)%nat)
    by (rewrite <- H, length_skipn; lia).
  apply strspn_stops in H.
  rewrite length_skipn. simpl in *. rewrite H. lia.
Qed.

(** The [for] loop over the tokens of one rule.  [n] counts the iterations
    left ([5 - i]); [token] is the current token with its save pointer.
    Returns [i], the token at exit and the five values. *)
Fixpoint parse_tokens (dm : data_model) (token_sep : cstr) (n i : nat)
    (token : option (cstr * cstr)) (values : list Z)
  : nat * option (cstr * cstr) * list Z :=
  match n, token with
  | S n', Some (tok, saveptr) =>
      let '(v, ep) := strtol dm tok 0 in
      let values := <[i := to_int v]> values in
      match ep with
      | _ :: _ => (i, token, values)
      | [] => parse_tokens dm token_sep n' (S i)
                           (strtok_r saveptr token_sep) values
      end
  | _, _ => (i, token, values)
  end.

Definition rule_of_values (values : list Z) : usbredirfilter_rule :=
  mk_rule (nth 0 values 0) (nth 1 values 0) (nth 2 values 0)
          (nth 3 values 0) (nth 4 values 0).

(** The body of the [while (rule)] loop: [Some] the rule stored in the
    array, or [None] for the jump to [leave] with [-EINVAL]. *)
Definition parse_rule (dm : data_model) (token_sep rule : cstr)
  : option usbredirfilter_rule :=
  let '(i, token, values) :=
    parse_tokens dm token_sep 5 0 (strtok_r rule token_sep) [0; 0; 0; 0; 0] in
  let r := rule_of_values values in
  if negb (i =? 5)%nat || (match token with Some _ => true | None => false end)
     || negb (usbredirfilter_verify [r] =? 0)
  then None else Some r.

(** The [while (rule)] loop; [buf] is the position [strtok_r] scans from. *)
Equations? parse_rules (dm : data_model) (token_sep rule_sep buf : cstr)
    (rules : list usbredirfilter_rule) : Z * list usbredirfilter_rule
  by wf (length buf) lt :=
parse_rules dm token_sep rule_sep buf rules
  with inspect (strtok_r buf rule_sep) := {
  | exist _ None _ := (0, rules);
  | exist _ (Some (rule, saveptr)) H with parse_rule dm token_sep rule := {
    | None := (- EINVAL, []);
    | Some r := parse_rules dm token_sep rule_sep saveptr (rules ++ [r]) } }.
Proof.
  exact (strtok_r_shorter _ _ _ _ H).
Qed.

(** [usbredirfilter_string_to_rules]: the return value and the rule array
    handed back ([*rules_ret], [*rules_count_ret]); allocation succeeds. *)
Definition usbredirfilter_string_to_rules (dm : data_model)
    (filter_str token_sep rule_sep : cstr) : Z * list usbredirfilter_rule :=
  if (length token_sep =? 0)%nat || (length rule_sep =? 0)%nat
  then (- EINVAL, [])
  else parse_rules dm token_sep rule_sep filter_str [].

(** One rule of [usbredirfilter_rules_to_string]; [last] tells whether the
    rule separator is left out. *)
Definition rule_to_string (ts rs : ascii) (r : usbredirfilter_rule)
    (last : bool) : cstr :=
  (if negb (device_class r =? -1)
   then ["0"; "x"]%char ++ sprintf_0x 2 (device_class r) ++ [ts]
   else ["-"; "1"]%char ++ [ts]) ++
  (if negb (vendor_id r =? -1)
   then ["0"; "x"]%char ++ sprintf_0x 4 (vendor_id r) ++ [ts]
   else ["-"; "1"]%char ++ [ts]) ++
  (if negb (product_id r =? -1)
   then ["0"; "x"]%char ++ sprintf_0x 4 (product_id r) ++ [ts]
   else ["-"; "1"]%char ++ [ts]) ++
  (if negb (device_version_bcd r =? -1)
   then ["0"; "x"]%char ++ sprintf_0x 4 (device_version_bcd r) ++ [ts]
   else ["-"; "1"]%char ++ [ts]) ++
  [if negb (allow r =? 0) then "1"%char else "0"%char] ++
  (if last then [] else [rs]).

Fixpoint rules_to_string_loop (ts rs : ascii)
    (rules : list usbredirfilter_rule) : cstr :=
  match rules with
  | [] => []
  | r :: rules' =>
      rule_to_string ts rs r (match rules' with [] => true | _ => false end)
      ++ rules_to_string_loop ts rs rules'
  end.

(** [malloc] with an argument of type [int]: the conversion to [size_t]
    turns a negative [int] into a size above [PTRDIFF_MAX], which no
    allocator grants; every other request is taken to succeed. *)
Definition SIZE_MAX (dm : data_model) : Z := 2 ^ LONG_BITS dm - 1.
Definition PTRDIFF_MAX (dm : data_model) : Z := 2 ^ (LONG_BITS dm - 1) - 1.
Definition to_size_t (dm : data_model) (z : Z) : Z := z mod 2 ^ LONG_BITS dm.
Definition malloc (dm : data_model) (size : Z) : bool :=
  to_size_t dm size <=? PTRDIFF_MAX dm.

(** [usbredirfilter_rules_to_string].  [Some None] is the return of NULL,
    [Some (Some str)] that of the string.  The size handed to [malloc],
    [28 * rules_count + 1], is computed in [int] and wraps.  Each
    [sprintf] writes its characters and a NUL at [p] and moves [p] by the
    characters, and [*p = 0] ends the string, so the writes stay in the
    buffer when the whole string and its NUL fit in it; when they do not,
    the behaviour is undefined, [None]. *)
Definition usbredirfilter_rules_to_string (dm : data_model)
    (rules : list usbredirfilter_rule) (token_sep rule_sep : cstr)
  : option (option cstr) :=
  let rules_count := Z.of_nat (length rules) in
  if negb (usbredirfilter_verify rules =? 0) then Some None
  else match token_sep, rule_sep with
       | ts :: _, rs :: _ =>
           let size := to_int (28 * rules_count + 1) in
           if negb (malloc dm size) then Some None
           else
             let str := rules_to_string_loop ts rs rules in
             if Z.of_nat (length str) + 1 <=? to_size_t dm size
             then Some (Some str)
             else None
       | _, _ => Some None
       end.

(** One numeric field as [usbredirfilter_rules_to_string] prints it,
    without the separator. *)
Definition field_to_string (width : nat) (v : Z) : cstr :=
  if negb (v =? -1) then ["0"; "x"]%char ++ sprintf_0x width v
  else ["-"; "1"]%char.

(** What a rule has become once written and read back: the flag is printed
    as [allow ? 1 : 0]. *)
Definition normalize_allow (r : usbredirfilter_rule) : usbredirfilter_rule :=
  mk_rule (device_class r) (vendor_id r) (product_id r)
          (device_version_bcd r) (if allow r =? 0 then 0 else 1).

(** The separators the codec uses on the wire, [","] and ["|"]. *)
Definition comma : cstr := [","%char].
Definition bar : cstr := ["|"%char].

(** The bounds [usbredirfilter_verify] checks on one rule. *)
Definition rule_in_range (r : usbredirfilter_rule) : Prop :=
  -1 <= device_class r <= 255 /\ -1 <= vendor_id r <= 65535 /\
  -1 <= product_id r <= 65535 /\ -1 <= device_version_bcd r <= 65535.

(** The text of one rule, without the rule separator. *)
Definition rule_body (r : usbredirfilter_rule) : cstr :=
  rule_to_string "," "|" r true.

(** [usbredirfilter_check1]. *)
Fixpoint usbredirfilter_check1 (rules : list usbredirfilter_rule)
    (dev_class vendor product bcd default_allow : Z) : Z :=
  match rules with
  | [] => if negb (default_allow =? 0) then 0 else - ENOENT
  | r :: rules' =>
      if ((device_class r =? -1) || (device_class r =? dev_class)) &&
         ((vendor_id r =? -1) || (vendor_id r =? vendor)) &&
         ((product_id r =? -1) || (product_id r =? product)) &&
         ((device_version_bcd r =? -1) || (device_version_bcd r =? bcd))
      then (if negb (allow r =? 0) then 0 else - EPERM)
      else usbredirfilter_check1 rules' dev_class vendor product bcd
                                 default_allow
  end.

(** One entry of the three parallel arrays [interface_class],
    [interface_subclass], [interface_protocol]. *)
Record interface_row := mk_intf {
  interface_class : Z;
  interface_subclass : Z;
  interface_protocol : Z
}.

Section FilterCheck.
Context `{usbredirfilter_h}.

(** The loop over the interfaces: [inl rc] when a row returned [rc], else
    [inr num_skipped]. *)
Fixpoint check_interfaces (rules : list usbredirfilter_rule)
    (interface_count : Z) (rows : list interface_row)
    (vendor product bcd flags num_skipped : Z) : Z + Z :=
  match rows with
  | [] => inr num_skipped
  | row :: rows' =>
      if (Z.land flags usbredirfilter_fl_dont_skip_non_boot_hid =? 0) &&
         (interface_count >? 1) && (interface_class row =? 0x03) &&
         (interface_subclass row =? 0x00) && (interface_protocol row =? 0x00)
      then check_interfaces rules interface_count rows' vendor product bcd
                            flags (num_skipped + 1)
      else
        let rc := usbredirfilter_check1 rules (interface_class row) vendor
                    product bcd (Z.land flags usbredirfilter_fl_default_allow) in
        if negb (rc =? 0) then inl rc
        else check_interfaces rules interface_count rows' vendor product bcd
                              flags num_skipped
  end.

Lemma check_interfaces_skipped rules n rows v p b flags k k' :
  check_interfaces rules n rows v p b flags k = inr k' ->
  k <> k' -> Z.land flags usbredirfilter_fl_dont_skip_non_boot_hid = 0.
Proof.
  revert k. induction rows as [|row rows IH]; simpl; intros k Hk Hne.
  - congruence.
  - destruct (Z.land flags usbredirfilter_fl_dont_skip_non_boot_hid =? 0) eqn:E.
    + now apply Z.eqb_eq.
    + simpl in Hk.
      destruct (negb (usbredirfilter_check1 _ _ _ _ _ _ =? 0));
        [discriminate | eauto].
Qed.

(** The body of [usbredirfilter_check] up to its recursive call: [Some rc]
    when it returns [rc], [None] when it calls itself with
    [flags | usbredirfilter_fl_dont_skip_non_boot_hid].  The interface
    arrays are one list of rows and [interface_count] is its length. *)
Definition usbredirfilter_check_pass (rules : list usbredirfilter_rule)
    (dev_class : Z) (rows : list interface_row)
    (vendor product bcd flags : Z) : option Z :=
  let interface_count := Z.of_nat (length rows) in
  if negb (usbredirfilter_verify rules =? 0) then Some (- EINVAL)
  else
    let rc :=
      if negb (dev_class =? 0x00) && negb (dev_class =? 0xef)
      then usbredirfilter_check1 rules dev_class vendor product bcd
             (Z.land flags usbredirfilter_fl_default_allow)
      else 0 in
    if negb (rc =? 0) then Some rc
    else
      match check_interfaces rules interface_count rows vendor product bcd
                             flags 0 with
      | inl rc => Some rc
      | inr num_skipped =>
          if (interface_count >? 0) && (num_skipped =? interface_count)
          then None
          else Some 0
      end.

Lemma usbredirfilter_check_pass_recurses rules dc rows v p b flags :
  usbredirfilter_check_pass rules dc rows v p b flags = None ->
  Z.land flags usbredirfilter_fl_dont_skip_non_boot_hid = 0.
Proof.
  unfold usbredirfilter_check_pass.
  destruct (negb (usbredirfilter_verify rules =? 0)); [discriminate|].
  destruct (negb (_ =? 0)); [discriminate|].
  destruct (check_interfaces _ _ _ _ _ _ _ _) as [rc|k] eqn:E; [discriminate|].
  destruct ((Z.of_nat (length rows) >? 0) && (k =? Z.of_nat (length rows)))
    eqn:Hall; [|discriminate].
  intros _. apply andb_true_iff in Hall as [Hpos Heq].
  apply Z.eqb_eq in Heq. apply Z.gtb_lt in Hpos.
  apply (check_interfaces_skipped _ _ _ _ _ _ _ _ _ E). lia.
Qed.

(** [usbredirfilter_check]. *)
Equations? usbredirfilter_check (rules : list usbredirfilter_rule)
    (dev_class dev_subclass dev_protocol : Z) (rows : list interface_row)
    (vendor product bcd flags : Z) : Z
  by wf (if Z.land flags usbredirfilter_fl_dont_skip_non_boot_hid =? 0
         then 1%nat else 0%nat) lt :=
usbredirfilter_check rules dev_class dev_subclass dev_protocol rows
                     vendor product bcd flags
  with inspect (usbredirfilter_check_pass rules dev_class rows vendor
                  product bcd flags) := {
  | exist _ (Some rc) _ := rc;
  | exist _ None Hrec :=
      usbredirfilter_check rules dev_class dev_subclass dev_protocol rows
        vendor product bcd
        (Z.lor flags usbredirfilter_fl_dont_skip_non_boot_hid) }.
Proof.
  rewrite (usbredirfilter_check_pass_recurses _ _ _ _ _ _ _ Hrec).
  simpl.
  rewrite Z.land_comm, Z.land_lor_distr_r, Z.land_diag.
  destruct (Z.eqb_spec
              (Z.lor (Z.land usbredirfilter_fl_dont_skip_non_boot_hid flags)
                     usbredirfilter_fl_dont_skip_non_boot_hid) 0) as [E|E];
    [|lia].
  exfalso. apply Z.lor_eq_0_iff in E as [_ E].
  now apply usbredirfilter_fl_dont_skip_nonzero.
Qed.

End FilterCheck.

(** The values of the two flags in the library's public header, for running
    the model. *)
Definition usbredirfilter_h_0_12 : usbredirfilter_h :=
  {| usbredirfilter_fl_default_allow := 0x01;
     usbredirfilter_fl_dont_skip_non_boot_hid := 0x02;
     usbredirfilter_fl_dont_skip_nonzero := ltac:(discriminate) |}.

(* --------------------------------------------------------------------- *)
(** ** The filter check in the words of the specification                 *)
(* --------------------------------------------------------------------- *)

(** A rule matches a row when each of its four wildcardable fields is the
    wildcard or equals the row's value. *)
Definition spec_rule_matches (cls vendor product bcd : Z)
    (r : usbredirfilter_rule) : bool :=
  ((device_class r =? -1) || (device_class r =? cls)) &&
  ((vendor_id r =? -1) || (vendor_id r =? vendor)) &&
  ((product_id r =? -1) || (product_id r =? product)) &&
  ((device_version_bcd r =? -1) || (device_version_bcd r =? bcd)).

(** The first matching rule decides a row; a row without one defers to the
    default policy. *)
Definition spec_row_verdict (rules : list usbredirfilter_rule)
    (default_allow : bool) (vendor product bcd cls : Z) : Z :=
  match List.find (spec_rule_matches cls vendor product bcd) rules with
  | Some r => if allow r =? 0 then - EPERM else 0
  | None => if default_allow then 0 else - ENOENT
  end.

Section FilterSpec.
Context `{usbredirfilter_h}.

Definition spec_default_allow (flags : Z) : bool :=
  negb (Z.land flags usbredirfilter_fl_default_allow =? 0).

Definition spec_dont_skip (flags : Z) : bool :=
  negb (Z.land flags usbredirfilter_fl_dont_skip_non_boot_hid =? 0).

(** An interface row is skipped exactly when the flag is clear, there is
    more than one interface and the row is a non-boot HID one. *)
Definition spec_skipped (flags : Z) (rows : list interface_row)
    (row : interface_row) : bool :=
  negb (spec_dont_skip flags) && (1 <? Z.of_nat (length rows)) &&
  (interface_class row =? 0x03) && (interface_subclass row =? 0x00) &&
  (interface_protocol row =? 0x00).

(** The classes of the rows that are considered, in order: the device row
    unless its class is 0x00 or 0xEF, then the interface rows that are not
    skipped. *)
Definition spec_considered (flags dev_class : Z) (rows : list interface_row)
  : list Z :=
  (if (dev_class =? 0x00) || (dev_class =? 0xef) then [] else [dev_class]) ++
  map interface_class
      (List.filter (fun row => negb (spec_skipped flags rows row)) rows).

(** One evaluation: the first refusal among the considered rows, 0 when
    there is none. *)
Definition spec_evaluate (rules : list usbredirfilter_rule)
    (dev_class : Z) (rows : list interface_row)
    (vendor product bcd flags : Z) : Z :=
  match List.find (fun rc => negb (rc =? 0))
          (map (spec_row_verdict rules (spec_default_allow flags)
                                 vendor product bcd)
               (spec_considered flags dev_class rows)) with
  | Some rc => rc
  | None => 0
  end.

(** The whole check: one evaluation, redone once with the flag forced on
    when it refused nothing and every one of at least one interface row was
    skipped. *)
Definition spec_check (rules : list usbredirfilter_rule)
    (dev_class : Z) (rows : list interface_row)
    (vendor product bcd flags : Z) : Z :=
  let rc := spec_evaluate rules dev_class rows vendor product bcd flags in
  if negb (rc =? 0) then rc
  else if (0 <? Z.of_nat (length rows)) &&
          forallb (spec_skipped flags rows) rows
  then spec_evaluate rules dev_class rows vendor product bcd
         (Z.lor flags usbredirfilter_fl_dont_skip_non_boot_hid)
  else 0.

End FilterSpec.

(* --------------------------------------------------------------------- *)
(** ** usbredirhost.c                                                     *)
(* --------------------------------------------------------------------- *)

(** Enumerations of usbredirproto.h and libusb.h that the host engine uses
    by name only. *)
Inductive usb_redir_type_t :=
| usb_redir_type_control | usb_redir_type_iso | usb_redir_type_bulk
| usb_redir_type_interrupt | usb_redir_type_invalid.

Inductive usb_redir_status_t :=
| usb_redir_success | usb_redir_cancelled | usb_redir_inval
| usb_redir_ioerror | usb_redir_stall | usb_redir_timeout | usb_redir_babble.

(** A transfer status or a libusb error code (the two sets of values do not
    overlap); [LIBUSB_OTHER] stands for every code the sources do not
    name. *)
Inductive libusb_code :=
| LIBUSB_TRANSFER_COMPLETED | LIBUSB_TRANSFER_ERROR | LIBUSB_TRANSFER_TIMED_OUT
| LIBUSB_TRANSFER_CANCELLED | LIBUSB_TRANSFER_STALL | LIBUSB_TRANSFER_NO_DEVICE
| LIBUSB_TRANSFER_OVERFLOW
| LIBUSB_ERROR_INVALID_PARAM | LIBUSB_ERROR_NO_DEVICE | LIBUSB_ERROR_TIMEOUT
| LIBUSB_OTHER (code : Z).

Definition usb_redir_type_eqb (a b : usb_redir_type_t) : bool :=
  match a, b with
  | usb_redir_type_control, usb_redir_type_control
  | usb_redir_type_iso, usb_redir_type_iso
  | usb_redir_type_bulk, usb_redir_type_bulk
  | usb_redir_type_interrupt, usb_redir_type_interrupt
  | usb_redir_type_invalid, usb_redir_type_invalid => true
  | _, _ => false
  end.

Definition usb_redir_status_eqb (a b : usb_redir_status_t) : bool :=
  match a, b with
  | usb_redir_success, usb_redir_success
  | usb_redir_cancelled, usb_redir_cancelled
  | usb_redir_inval, usb_redir_inval
  | usb_redir_ioerror, usb_redir_ioerror
  | usb_redir_stall, usb_redir_stall
  | usb_redir_timeout, usb_redir_timeout
  | usb_redir_babble, usb_redir_babble => true
  | _, _ => false
  end.

Definition MAX_ENDPOINTS : nat := 32.
Definition MAX_TRANSFER_COUNT : Z := 16.
Definition MAX_PACKETS_PER_TRANSFER : Z := 32.
Definition SUBMITTED_IDX : Z := -1.
Definition LIBUSB_ENDPOINT_IN : Z := 0x80.

Definition EP2I (ep_address : Z) : nat :=
  Z.to_nat (Z.lor (Z.shiftr (Z.land ep_address 0x80) 3)
                  (Z.land ep_address 0x0f)).

(** The data packet headers of usbredirproto.h, with the fields the host
    engine names.  The status byte is the enumeration: the host writes it
    in every header it sends and never reads one it received. *)
Record usb_redir_control_packet_header := mk_control_packet {
  cp_endpoint : Z; cp_request : Z; cp_requesttype : Z;
  cp_status : usb_redir_status_t;
  cp_value : Z; cp_index : Z; cp_length : Z
}.

Record usb_redir_bulk_packet_header := mk_bulk_packet {
  bp_endpoint : Z; bp_status : usb_redir_status_t; bp_length : Z;
  bp_stream_id : Z; bp_length_high : Z
}.

Record usb_redir_iso_packet_header := mk_iso_packet {
  isop_endpoint : Z; isop_status : usb_redir_status_t; isop_length : Z
}.

Record usb_redir_interrupt_packet_header := mk_interrupt_packet {
  ip_endpoint : Z; ip_status : usb_redir_status_t; ip_length : Z
}.

Record usb_redir_buffered_bulk_packet_header := mk_buffered_bulk_packet {
  bbp_endpoint : Z; bbp_status : usb_redir_status_t; bbp_length : Z
}.

(** What the host hands to its parser: the [usbredirparser_send_*] calls,
    in order.  A payload pointer with its length is a list; [None] is the
    NULL pointer. *)
Inductive parser_call :=
| usbredirparser_send_device_disconnect
| usbredirparser_send_iso_stream_status (id endpoint : Z)
    (status : usb_redir_status_t)
| usbredirparser_send_bulk_receiving_status (id endpoint : Z)
    (status : usb_redir_status_t)
| usbredirparser_send_interrupt_receiving_status (id endpoint : Z)
    (status : usb_redir_status_t)
| usbredirparser_send_control_packet (id : Z)
    (h : usb_redir_control_packet_header) (data : option (list Z))
| usbredirparser_send_bulk_packet (id : Z)
    (h : usb_redir_bulk_packet_header) (data : option (list Z))
| usbredirparser_send_iso_packet (id : Z)
    (h : usb_redir_iso_packet_header) (data : option (list Z))
| usbredirparser_send_interrupt_packet (id : Z)
    (h : usb_redir_interrupt_packet_header) (data : option (list Z))
| usbredirparser_send_buffered_bulk_packet (id : Z)
    (h : usb_redir_buffered_bulk_packet_header) (data : option (list Z)).

(** [struct usbredirtransfer] as it sits on the list of the non-stream
    transfers.  Those are made by the control, bulk and interrupt packet
    handlers only, each of which stores its own header in the union and
    fills the libusb transfer with its own type: the union and
    [transfer->type] are the one tagged header.  (A bulk transfer with a
    stream id has the libusb type BULK_STREAM, which the code treats as
    BULK.)  [t_transfer] is the address of the record's libusb transfer. *)
Inductive transfer_header :=
| control_packet (h : usb_redir_control_packet_header)
| bulk_packet (h : usb_redir_bulk_packet_header)
| interrupt_packet (h : usb_redir_interrupt_packet_header).

Record usbredirtransfer := mk_transfer {
  t_transfer : nat;
  t_id : Z;
  t_cancelled : Z;
  t_header : transfer_header
}.

(** [struct usbredirtransfer] as it sits in the ring of a stream: the union
    is not used there.  [s_buffer] is the size of the buffer its libusb
    transfer owns, once it has one. *)
Record stream_transfer := mk_stream_transfer {
  s_transfer : nat;
  s_id : Z;
  s_cancelled : Z;
  s_packet_idx : Z;
  s_buffer : option Z
}.

(** [struct usbredirhost_ep], without the fields the functions below do
    not touch (interval, interface, max_streams). *)
Record usbredirhost_ep := mk_ep {
  ep_type : usb_redir_type_t;
  warn_on_drop : Z;
  stream_started : Z;
  ep_pkts_per_transfer : Z;
  ep_transfer_count : Z;
  out_idx : Z;
  drop_packets : Z;
  ep_max_packetsize : Z;
  transfer : list (option stream_transfer)
}.

Record iso_threshold_t := mk_iso_threshold {
  higher : Z;
  lower : Z;
  dropping : bool
}.

(** The parser as the host engine sees it: what
    [usbredirparser_has_data_to_write],
    [usbredirparser_get_bufferered_output_size] and
    [usbredirparser_peer_has_cap (usb_redir_cap_device_disconnect_ack)]
    return, and the calls made so far. *)
Record parser_view := mk_parser_view {
  has_data_to_write : Z;
  bufferered_output_size : Z;
  peer_has_cap_device_disconnect_ack : bool;
  calls : list parser_call
}.

(** The device layer and the allocator: the results of the coming
    allocations ([false]: NULL) and submissions ([None]: success), both
    taken as successful once the list is used up; the libusb transfers
    cancelled and submitted so far; the transfer records that are
    allocated; the stream transfers dropped from their ring while in
    flight. *)
Record device_layer := mk_device_layer {
  alloc_results : list bool;
  submit_results : list (option libusb_code);
  cancel_calls : list nat;
  submit_calls : list nat;
  allocated : list nat;
  next_transfer : nat;
  in_flight : list stream_transfer
}.

(** [struct usbredirhost], likewise without the fields that play no part
    below. *)
Record usbredirhost := mk_host {
  h_flags : Z;
  disconnected : Z;
  wait_disconnect : Z;
  h_reset : Z;
  cancels_pending : Z;
  endpoint : list usbredirhost_ep;
  transfers_head : list usbredirtransfer;
  iso_threshold : iso_threshold_t;
  buffered_output_size_func : option Z;
  parser : parser_view;
  device : device_layer
}.

(** The flag of usbredirhost.h, whose declaration is not part of the
    sources at hand. *)
Class usbredirhost_h := {
  usbredirhost_fl_write_cb_owns_buffer : Z
}.

(** Field updates. *)
Definition set_disconnected (v : Z) (h : usbredirhost) :=
  mk_host (h_flags h) v (wait_disconnect h) (h_reset h) (cancels_pending h)
    (endpoint h) (transfers_head h) (iso_threshold h)
    (buffered_output_size_func h) (parser h) (device h).
Definition set_wait_disconnect (v : Z) (h : usbredirhost) :=
  mk_host (h_flags h) (disconnected h) v (h_reset h) (cancels_pending h)
    (endpoint h) (transfers_head h) (iso_threshold h)
    (buffered_output_size_func h) (parser h) (device h).
Definition set_reset (v : Z) (h : usbredirhost) :=
  mk_host (h_flags h) (disconnected h) (wait_disconnect h) v
    (cancels_pending h) (endpoint h) (transfers_head h) (iso_threshold h)
    (buffered_output_size_func h) (parser h) (device h).
Definition set_cancels_pending (v : Z) (h : usbredirhost) :=
  mk_host (h_flags h) (disconnected h) (wait_disconnect h) (h_reset h) v
    (endpoint h) (transfers_head h) (iso_threshold h)
    (buffered_output_size_func h) (parser h) (device h).
Definition set_endpoints (v : list usbredirhost_ep) (h : usbredirhost) :=
  mk_host (h_flags h) (disconnected h) (wait_disconnect h) (h_reset h)
    (cancels_pending h) v (transfers_head h) (iso_threshold h)
    (buffered_output_size_func h) (parser h) (device h).
Definition set_transfers_head (v : list usbredirtransfer)
    (h : usbredirhost) :=
  mk_host (h_flags h) (disconnected h) (wait_disconnect h) (h_reset h)
    (cancels_pending h) (endpoint h) v (iso_threshold h)
    (buffered_output_size_func h) (parser h) (device h).
Definition set_iso_threshold (v : iso_threshold_t) (h : usbredirhost) :=
  mk_host (h_flags h) (disconnected h) (wait_disconnect h) (h_reset h)
    (cancels_pending h) (endpoint h) (transfers_head h) v
    (buffered_output_size_func h) (parser h) (device h).
Definition set_parser (v : parser_view) (h : usbredirhost) :=
  mk_host (h_flags h) (disconnected h) (wait_disconnect h) (h_reset h)
    (cancels_pending h) (endpoint h) (transfers_head h) (iso_threshold h)
    (buffered_output_size_func h) v (device h).
Definition set_device (v : device_layer) (h : usbredirhost) :=
  mk_host (h_flags h) (disconnected h) (wait_disconnect h) (h_reset h)
    (cancels_pending h) (endpoint h) (transfers_head h) (iso_threshold h)
    (buffered_output_size_func h) (parser h) v.

(** A call of one of the parser's send functions. *)
Definition send (c : parser_call) (h : usbredirhost) : usbredirhost :=
  set_parser (mk_parser_view (has_data_to_write (parser h))
                (bufferered_output_size (parser h))
                (peer_has_cap_device_disconnect_ack (parser h))
                (calls (parser h) ++ [c])) h.

Definition ep_zero : usbredirhost_ep :=
  mk_ep usb_redir_type_control 0 0 0 0 0 0 0 [].

(** [host->endpoint[EP2I(ep)]], read and written. *)
Definition host_ep (h : usbredirhost) (ep : Z) : usbredirhost_ep :=
  nth (EP2I ep) (endpoint h) ep_zero.

Definition set_host_ep (ep : Z) (e : usbredirhost_ep) (h : usbredirhost)
  : usbredirhost :=
  set_endpoints (<[EP2I ep := e]> (endpoint h)) h.

Definition ep_set_transfer (i : nat) (t : option stream_transfer)
    (e : usbredirhost_ep) : usbredirhost_ep :=
  mk_ep (ep_type e) (warn_on_drop e) (stream_started e) (ep_pkts_per_transfer e)
    (ep_transfer_count e) (out_idx e) (drop_packets e) (ep_max_packetsize e)
    (<[i := t]> (transfer e)).

Definition ep_transfer (e : usbredirhost_ep) (i : nat)
  : option stream_transfer :=
  nth i (transfer e) None.

(** [host->endpoint[EP2I(ep)].transfer[i] = t]. *)
Definition set_slot (ep : Z) (i : nat) (t : option stream_transfer)
    (h : usbredirhost) : usbredirhost :=
  set_host_ep ep (ep_set_transfer i t (host_ep h ep)) h.

(** [usbredirhost_handle_disconnect]. *)
Definition usbredirhost_handle_disconnect (h : usbredirhost)
  : usbredirhost :=
  if disconnected h =? 0 then
    let h := send usbredirparser_send_device_disconnect h in
    let h := if peer_has_cap_device_disconnect_ack (parser h)
             then set_wait_disconnect 1 h else h in
    set_disconnected 1 h
  else h.

(** [libusb_status_or_error_to_redir_status]. *)
Definition libusb_status_or_error_to_redir_status (h : usbredirhost)
    (status : libusb_code) : usbredirhost * usb_redir_status_t :=
  match status with
  | LIBUSB_TRANSFER_COMPLETED => (h, usb_redir_success)
  | LIBUSB_TRANSFER_ERROR => (h, usb_redir_ioerror)
  | LIBUSB_TRANSFER_TIMED_OUT => (h, usb_redir_timeout)
  | LIBUSB_TRANSFER_CANCELLED => (h, usb_redir_cancelled)
  | LIBUSB_TRANSFER_STALL => (h, usb_redir_stall)
  | LIBUSB_TRANSFER_NO_DEVICE =>
      (usbredirhost_handle_disconnect h, usb_redir_ioerror)
  | LIBUSB_TRANSFER_OVERFLOW => (h, usb_redir_babble)
  | LIBUSB_ERROR_INVALID_PARAM => (h, usb_redir_inval)
  | LIBUSB_ERROR_NO_DEVICE =>
      (usbredirhost_handle_disconnect h, usb_redir_ioerror)
  | LIBUSB_ERROR_TIMEOUT => (h, usb_redir_timeout)
  | LIBUSB_OTHER _ => (h, usb_redir_ioerror)
  end.

(** One allocation ([calloc], [malloc], [libusb_alloc_transfer]): takes
    the next result. *)
Definition allocate (h : usbredirhost) : usbredirhost * bool :=
  let d := device h in
  match alloc_results d with
  | [] => (h, true)
  | ok :: rest =>
      (set_device (mk_device_layer rest (submit_results d) (cancel_calls d)
                     (submit_calls d) (allocated d) (next_transfer d)
                     (in_flight d)) h, ok)
  end.

(** [usbredirhost_alloc_transfer]: both allocations are made, and the
    record exists when both succeeded. *)
Definition usbredirhost_alloc_transfer (h : usbredirhost)
  : usbredirhost * option stream_transfer :=
  let '(h, redir_transfer) := allocate h in
  let '(h, libusb_transfer) := allocate h in
  if negb redir_transfer || negb libusb_transfer then (h, None)
  else
    let d := device h in
    let a := next_transfer d in
    (set_device (mk_device_layer (alloc_results d) (submit_results d)
                   (cancel_calls d) (submit_calls d) (a :: allocated d)
                   (S a) (in_flight d)) h,
     Some (mk_stream_transfer a 0 0 0 None)).

(** [usbredirhost_free_transfer]: the record, its libusb transfer and the
    buffer of that one go together. *)
Definition usbredirhost_free_transfer (t : option stream_transfer)
    (h : usbredirhost) : usbredirhost :=
  match t with
  | None => h
  | Some t =>
      let d := device h in
      set_device (mk_device_layer (alloc_results d) (submit_results d)
                    (cancel_calls d) (submit_calls d)
                    (List.filter (fun a => negb (a =? s_transfer t)%nat)
                                 (allocated d))
                    (next_transfer d) (in_flight d)) h
  end.

(** [usbredirhost_send_stream_status]. *)
Definition usbredirhost_send_stream_status (id ep : Z)
    (status : usb_redir_status_t) (h : usbredirhost) : usbredirhost :=
  match ep_type (host_ep h ep) with
  | usb_redir_type_iso =>
      send (usbredirparser_send_iso_stream_status id ep status) h
  | usb_redir_type_bulk =>
      send (usbredirparser_send_bulk_receiving_status id ep status) h
  | usb_redir_type_interrupt =>
      send (usbredirparser_send_interrupt_receiving_status id ep status) h
  | _ => h
  end.

(** The loop of [usbredirhost_cancel_stream_unlocked] over the ring slots
    [i .. i + n - 1].  The loop reads [transfer->packet_idx] without a test
    of the pointer: on a NULL slot the behaviour is undefined, [None]. *)
Fixpoint cancel_stream_loop (n i : nat) (ep : Z) (h : usbredirhost)
  : option usbredirhost :=
  match n with
  | O => Some h
  | S n' =>
      match ep_transfer (host_ep h ep) i with
      | None => None
      | Some t =>
          let h :=
            if s_packet_idx t =? SUBMITTED_IDX then
              let d := device h in
              let h :=
                set_device
                  (mk_device_layer (alloc_results d) (submit_results d)
                     (cancel_calls d ++ [s_transfer t]) (submit_calls d)
                     (allocated d) (next_transfer d)
                     (in_flight d ++
                      [mk_stream_transfer (s_transfer t) (s_id t) 1
                         (s_packet_idx t) (s_buffer t)])) h in
              set_cancels_pending (cancels_pending h + 1) h
            else usbredirhost_free_transfer (Some t) h in
          let h := set_slot ep i None h in
          cancel_stream_loop n' (S i) ep h
      end
  end.

(** [usbredirhost_cancel_stream_unlocked]; [None] when the loop has met a
    NULL slot. *)
Definition usbredirhost_cancel_stream_unlocked (ep : Z) (h : usbredirhost)
  : option usbredirhost :=
  match cancel_stream_loop (Z.to_nat (ep_transfer_count (host_ep h ep)))
                           O ep h with
  | None => None
  | Some h =>
      let e := host_ep h ep in
      Some (set_host_ep ep (mk_ep (ep_type e) (warn_on_drop e) 0 0 0 0 0
                                  (ep_max_packetsize e) (transfer e)) h)
  end.

(** One submission to the device layer: takes the next result. *)
Definition libusb_submit_transfer (a : nat) (h : usbredirhost)
  : usbredirhost * option libusb_code :=
  let d := device h in
  let '(r, rest) := match submit_results d with
                    | [] => (None, [])
                    | r :: rest => (r, rest)
                    end in
  (set_device (mk_device_layer (alloc_results d) rest (cancel_calls d)
                 (submit_calls d ++ [a]) (allocated d) (next_transfer d)
                 (in_flight d)) h, r).

(** [usbredirhost_submit_stream_transfer_unlocked] on the transfer in slot
    [i] of the ring of [ep] (which is [transfer->transfer->endpoint]).  The
    function reads [transfer->transfer] without a test of the pointer: on
    a NULL slot the behaviour is undefined, [None].  After a submission
    that failed, the code reads [transfer->id] for the status message
    once [usbredirhost_cancel_stream_unlocked] has run, which frees the
    records of the ring that are not submitted; the message carries the
    id the record held. *)
Definition usbredirhost_submit_stream_transfer_unlocked (ep : Z) (i : nat)
    (h : usbredirhost) : option (usbredirhost * usb_redir_status_t) :=
  let h := set_reset 0 h in
  match ep_transfer (host_ep h ep) i with
  | None => None
  | Some t =>
      let '(h, r) := libusb_submit_transfer (s_transfer t) h in
      match r with
      | Some LIBUSB_ERROR_NO_DEVICE =>
          Some (usbredirhost_handle_disconnect h, usb_redir_stall)
      | Some _ =>
          match usbredirhost_cancel_stream_unlocked ep h with
          | None => None
          | Some h =>
              Some (usbredirhost_send_stream_status (s_id t) ep
                      usb_redir_stall h,
                    usb_redir_stall)
          end
      | None =>
          Some (set_slot ep i
                  (Some (mk_stream_transfer (s_transfer t) (s_id t)
                           (s_cancelled t) SUBMITTED_IDX (s_buffer t))) h,
                usb_redir_success)
      end
  end.

(** The loop of [usbredirhost_start_stream_unlocked]; for an input
    endpoint it writes [transfer[i]->id], again without a test of the
    pointer. *)
Fixpoint start_stream_loop (n i : nat) (ep : Z) (h : usbredirhost)
  : option (usbredirhost * usb_redir_status_t) :=
  match n with
  | O => Some (h, usb_redir_success)
  | S n' =>
      let numbered :=
        if negb (Z.land ep LIBUSB_ENDPOINT_IN =? 0) then
          match ep_transfer (host_ep h ep) i with
          | Some t =>
              Some (set_slot ep i
                      (Some (mk_stream_transfer (s_transfer t)
                               (Z.of_nat i
                                * ep_pkts_per_transfer (host_ep h ep))
                               (s_cancelled t) (s_packet_idx t)
                               (s_buffer t))) h)
          | None => None
          end
        else Some h in
      match numbered with
      | None => None
      | Some h =>
          match usbredirhost_submit_stream_transfer_unlocked ep i h with
          | None => None
          | Some (h, status) =>
              if negb (usb_redir_status_eqb status usb_redir_success)
              then Some (h, status)
              else start_stream_loop n' (S i) ep h
          end
      end
  end.

(** [usbredirhost_start_stream_unlocked]. *)
Definition usbredirhost_start_stream_unlocked (ep : Z) (h : usbredirhost)
  : option (usbredirhost * usb_redir_status_t) :=
  let count := ep_transfer_count (host_ep h ep) in
  let count := if negb (Z.land ep LIBUSB_ENDPOINT_IN =? 0) then count
               else count / 2 in
  match start_stream_loop (Z.to_nat count) O ep h with
  | None => None
  | Some (h, status) =>
      if negb (usb_redir_status_eqb status usb_redir_success)
      then Some (h, status)
      else
        let e := host_ep h ep in
        Some (set_host_ep ep
                (mk_ep (ep_type e) (warn_on_drop e) 1
                       (ep_pkts_per_transfer e) (ep_transfer_count e)
                       (out_idx e) (drop_packets e) (ep_max_packetsize e)
                       (transfer e)) h,
              usb_redir_success)
  end.

(** [usbredirhost_set_iso_threshold]: the arguments are a [uint8_t], a
    [uint8_t] and a [uint16_t]; the product is an [int], converted to
    [uint64_t]. *)
Definition usbredirhost_set_iso_threshold
    (pkts_per_transfer transfer_count max_packetsize : Z)
    (h : usbredirhost) : usbredirhost :=
  let reference :=
    to_uint64 (to_int (to_uint8 pkts_per_transfer * to_uint8 transfer_count
                       * to_uint16 max_packetsize)) in
  set_iso_threshold
    (mk_iso_threshold (to_uint64 (reference * 3)) (reference / 2)
                      (dropping (iso_threshold h))) h.

(** The allocation loop of [usbredirhost_alloc_stream_unlocked], from slot
    [i] on, [n] slots to go: [None] when it ran to its end, [Some i] for
    the jump to [alloc_error] with that [i]. *)
Fixpoint alloc_stream_loop (n i : nat) (ep : Z) (type : usb_redir_type_t)
    (pkts_per_transfer pkt_size transfer_count : Z) (h : usbredirhost)
  : usbredirhost * option nat :=
  match n with
  | O => (h, None)
  | S n' =>
      let '(h, t) := usbredirhost_alloc_transfer h in
      let h := set_slot ep i t h in
      match t with
      | None => (h, Some i)
      | Some t =>
          let buf_size := to_int (pkt_size * pkts_per_transfer) in
          let '(h, buffer) := allocate h in
          if negb buffer then (h, Some i)
          else
            let filled :=
              Some (mk_stream_transfer (s_transfer t) (s_id t)
                      (s_cancelled t) (s_packet_idx t) (Some buf_size)) in
            let h :=
              match type with
              | usb_redir_type_iso =>
                  let h := set_slot ep i filled h in
                  usbredirhost_set_iso_threshold pkts_per_transfer
                    transfer_count (ep_max_packetsize (host_ep h ep)) h
              | usb_redir_type_bulk | usb_redir_type_interrupt =>
                  set_slot ep i filled h
              | _ => h
              end in
            alloc_stream_loop n' (S i) ep type pkts_per_transfer pkt_size
                              transfer_count h
      end
  end.

(** The [do ... while (i >= 0)] loop at [alloc_error]. *)
Fixpoint free_partial_stream (i : nat) (ep : Z) (h : usbredirhost)
  : usbredirhost :=
  let h := usbredirhost_free_transfer (ep_transfer (host_ep h ep) i) h in
  let h := set_slot ep i None h in
  match i with
  | O => h
  | S i' => free_partial_stream i' ep h
  end.

(** [usbredirhost_alloc_stream_unlocked]; [pkts_per_transfer] and
    [transfer_count] are [uint8_t]s, [pkt_size] is an [int].  [None] when
    the start of the stream has met a NULL slot. *)
Definition usbredirhost_alloc_stream_unlocked (id ep : Z)
    (type : usb_redir_type_t)
    (pkts_per_transfer pkt_size transfer_count send_success : Z)
    (h : usbredirhost) : option usbredirhost :=
  if negb (disconnected h =? 0)
  then Some (usbredirhost_send_stream_status id ep usb_redir_stall h)
  else if negb (usb_redir_type_eqb (ep_type (host_ep h ep)) type)
  then Some (usbredirhost_send_stream_status id ep usb_redir_stall h)
  else if (pkts_per_transfer <? 1) ||
          (pkts_per_transfer >? MAX_PACKETS_PER_TRANSFER) ||
          (transfer_count <? 1) ||
          (transfer_count >? MAX_TRANSFER_COUNT) ||
          (ep_max_packetsize (host_ep h ep) =? 0) ||
          negb (Z.rem pkt_size (ep_max_packetsize (host_ep h ep)) =? 0)
  then Some (usbredirhost_send_stream_status id ep usb_redir_stall h)
  else if negb (ep_transfer_count (host_ep h ep) =? 0)
  then Some (usbredirhost_send_stream_status id ep usb_redir_inval h)
  else
    match alloc_stream_loop (Z.to_nat transfer_count) O ep type
            pkts_per_transfer pkt_size transfer_count h with
    | (h, Some i) =>
        let h := free_partial_stream i ep h in
        Some (usbredirhost_send_stream_status id ep usb_redir_stall h)
    | (h, None) =>
        let e := host_ep h ep in
        let h := set_host_ep ep
                   (mk_ep (ep_type e) (warn_on_drop e) (stream_started e)
                          pkts_per_transfer transfer_count 0 0
                          (ep_max_packetsize e) (transfer e)) h in
        match (if negb (Z.land ep LIBUSB_ENDPOINT_IN =? 0)
               then usbredirhost_start_stream_unlocked ep h
               else Some (h, usb_redir_success)) with
        | None => None
        | Some (h, status) =>
            if negb (send_success =? 0) &&
               usb_redir_status_eqb status usb_redir_success
            then Some (usbredirhost_send_stream_status id ep status h)
            else Some h
        end
    end.

Section HostFlags.
Context `{usbredirhost_h}.

(** [usbredirhost_can_write_iso_package]. *)
Definition usbredirhost_can_write_iso_package (h : usbredirhost)
  : usbredirhost * bool :=
  let query :=
    if negb (Z.land (h_flags h) usbredirhost_fl_write_cb_owns_buffer =? 0)
    then buffered_output_size_func h
    else Some (bufferered_output_size (parser h)) in
  match query with
  | None => (h, true)
  | Some size =>
      let t := iso_threshold h in
      let h :=
        if size >=? higher t
        then set_iso_threshold (mk_iso_threshold (higher t) (lower t) true) h
        else if size <? lower t
        then set_iso_threshold (mk_iso_threshold (higher t) (lower t) false) h
        else h in
      (h, negb (dropping (iso_threshold h)))
  end.

(** [usbredirhost_send_stream_data]; [data] are the [len] bytes at the
    pointer. *)
Definition usbredirhost_send_stream_data (id ep : Z)
    (status : usb_redir_status_t) (data : list Z) (h : usbredirhost)
  : usbredirhost :=
  let len := Z.of_nat (length data) in
  if has_data_to_write (parser h) >? 800 then
    if negb (warn_on_drop (host_ep h ep) =? 0) then
      let e := host_ep h ep in
      set_host_ep ep (mk_ep (ep_type e) 0 (stream_started e)
                            (ep_pkts_per_transfer e) (ep_transfer_count e)
                            (out_idx e) (drop_packets e) (ep_max_packetsize e)
                            (transfer e)) h
    else h
  else
    match ep_type (host_ep h ep) with
    | usb_redir_type_iso =>
        let '(h, can_write) := usbredirhost_can_write_iso_package h in
        if can_write
        then send (usbredirparser_send_iso_packet id
                     (mk_iso_packet ep status (to_uint16 len)) (Some data)) h
        else h
    | usb_redir_type_bulk =>
        send (usbredirparser_send_buffered_bulk_packet id
                (mk_buffered_bulk_packet ep status (to_uint len))
                (Some data)) h
    | usb_redir_type_interrupt =>
        send (usbredirparser_send_interrupt_packet id
                (mk_interrupt_packet ep status (to_uint16 len)) (Some data)) h
    | _ => h
    end.

End HostFlags.

(** [libusb_cancel_transfer]. *)
Definition libusb_cancel_transfer (a : nat) (h : usbredirhost)
  : usbredirhost :=
  let d := device h in
  set_device (mk_device_layer (alloc_results d) (submit_results d)
                (cancel_calls d ++ [a]) (submit_calls d) (allocated d)
                (next_transfer d) (in_flight d)) h.

(** The search of [usbredirhost_cancel_data_packet] along the list: the
    first transfer that is not cancelled and has the id. *)
Definition cancel_match (id : Z) (t : usbredirtransfer) : bool :=
  (t_cancelled t =? 0) && (t_id t =? id).

(** [t->cancelled = 1] on the transfer found by that search. *)
Fixpoint mark_cancelled (id : Z) (l : list usbredirtransfer)
  : list usbredirtransfer :=
  match l with
  | [] => []
  | t :: l' =>
      if cancel_match id t
      then mk_transfer (t_transfer t) (t_id t) 1 (t_header t) :: l'
      else t :: mark_cancelled id l'
  end.

(** [usbredirhost_cancel_data_packet]. *)
Definition usbredirhost_cancel_data_packet (id : Z) (h : usbredirhost)
  : usbredirhost :=
  match List.find (cancel_match id) (transfers_head h) with
  | Some t =>
      let h := set_transfers_head (mark_cancelled id (transfers_head h)) h in
      let h := libusb_cancel_transfer (t_transfer t) h in
      match t_header t with
      | control_packet cp =>
          send (usbredirparser_send_control_packet (t_id t)
                  (mk_control_packet (cp_endpoint cp) (cp_request cp)
                     (cp_requesttype cp) usb_redir_cancelled (cp_value cp)
                     (cp_index cp) 0) None) h
      | bulk_packet bp =>
          send (usbredirparser_send_bulk_packet (t_id t)
                  (mk_bulk_packet (bp_endpoint bp) usb_redir_cancelled 0
                     (bp_stream_id bp) 0) None) h
      | interrupt_packet ip =>
          send (usbredirparser_send_interrupt_packet (t_id t)
                  (mk_interrupt_packet (ip_endpoint ip) usb_redir_cancelled 0)
                  None) h
      end
  | None => h
  end.

(** [usbredirhost_remove_and_free_transfer]: unlinks the record from the
    list and frees it. *)
Definition usbredirhost_remove_and_free_transfer (t : usbredirtransfer)
    (h : usbredirhost) : usbredirhost :=
  let h := set_transfers_head
             (List.filter (fun t' => negb (t_transfer t' =? t_transfer t)%nat)
                          (transfers_head h)) h in
  let d := device h in
  set_device (mk_device_layer (alloc_results d) (submit_results d)
                (cancel_calls d) (submit_calls d)
                (List.filter (fun a => negb (a =? t_transfer t)%nat)
                             (allocated d))
                (next_transfer d) (in_flight d)) h.

(** The completion callbacks of the non-stream transfers,
    [usbredirhost_control_packet_complete],
    [usbredirhost_bulk_packet_complete] and
    [usbredirhost_interrupt_out_packet_complete]: libusb calls the one the
    transfer was filled with, on the transfer [t] with its [status], its
    [actual_length] and the data in its buffer (behind the setup packet for
    a control transfer). *)
Definition usbredirhost_control_packet_complete (t : usbredirtransfer)
    (cp : usb_redir_control_packet_header) (status : libusb_code)
    (buffer : list Z) (h : usbredirhost) : usbredirhost :=
  let actual_length := Z.of_nat (length buffer) in
  let '(h, st) := libusb_status_or_error_to_redir_status h status in
  let cp := mk_control_packet (cp_endpoint cp) (cp_request cp)
              (cp_requesttype cp) st (cp_value cp) (cp_index cp)
              (to_uint16 actual_length) in
  let h :=
    if t_cancelled t =? 0 then
      if negb (Z.land (cp_endpoint cp) LIBUSB_ENDPOINT_IN =? 0)
      then send (usbredirparser_send_control_packet (t_id t) cp
                   (Some buffer)) h
      else send (usbredirparser_send_control_packet (t_id t) cp None) h
    else h in
  usbredirhost_remove_and_free_transfer t h.

Definition usbredirhost_bulk_packet_complete (t : usbredirtransfer)
    (bp : usb_redir_bulk_packet_header) (status : libusb_code)
    (buffer : list Z) (h : usbredirhost) : usbredirhost :=
  let actual_length := Z.of_nat (length buffer) in
  let '(h, st) := libusb_status_or_error_to_redir_status h status in
  let bp := mk_bulk_packet (bp_endpoint bp) st (to_uint16 actual_length)
              (bp_stream_id bp)
              (to_uint16 (Z.shiftr actual_length 16)) in
  let h :=
    if t_cancelled t =? 0 then
      if negb (Z.land (bp_endpoint bp) LIBUSB_ENDPOINT_IN =? 0)
      then send (usbredirparser_send_bulk_packet (t_id t) bp (Some buffer)) h
      else send (usbredirparser_send_bulk_packet (t_id t) bp None) h
    else h in
  usbredirhost_remove_and_free_transfer t h.

Definition usbredirhost_interrupt_out_packet_complete (t : usbredirtransfer)
    (ip : usb_redir_interrupt_packet_header) (status : libusb_code)
    (buffer : list Z) (h : usbredirhost) : usbredirhost :=
  let actual_length := Z.of_nat (length buffer) in
  let '(h, st) := libusb_status_or_error_to_redir_status h status in
  let ip := mk_interrupt_packet (ip_endpoint ip) st
              (to_uint16 actual_length) in
  let h :=
    if t_cancelled t =? 0
    then send (usbredirparser_send_interrupt_packet (t_id t) ip None) h
    else h in
  usbredirhost_remove_and_free_transfer t h.

(** The callback libusb invokes for the transfer at address [a]: the
    record is its [user_data], still on the list. *)
Definition transfer_complete (a : nat) (status : libusb_code)
    (buffer : list Z) (h : usbredirhost) : usbredirhost :=
  match List.find (fun t => (t_transfer t =? a)%nat) (transfers_head h) with
  | Some t =>
      match t_header t with
      | control_packet cp =>
          usbredirhost_control_packet_complete t cp status buffer h
      | bulk_packet bp =>
          usbredirhost_bulk_packet_complete t bp status buffer h
      | interrupt_packet ip =>
          usbredirhost_interrupt_out_packet_complete t ip status buffer h
      end
  | None => h
  end.

(** What happens to the host between a cancel and a completion: packets
    from the peer that cancel, and completions of transfers. *)
Inductive host_event :=
| cancel_data_packet (id : Z)
| complete (a : nat) (status : libusb_code) (buffer : list Z).

Definition host_step (e : host_event) (h : usbredirhost) : usbredirhost :=
  match e with
  | cancel_data_packet id => usbredirhost_cancel_data_packet id h
  | complete a status buffer => transfer_complete a status buffer h
  end.

Definition host_run (es : list host_event) (h : usbredirhost)
  : usbredirhost :=
  fold_left (fun h e => host_step e h) es h.

(** The reply made up for a cancelled transfer: its own header, with the
    status cancelled and no length. *)
Definition synthetic_reply (t : usbredirtransfer) : parser_call :=
  match t_header t with
  | control_packet cp =>
      usbredirparser_send_control_packet (t_id t)
        (mk_control_packet (cp_endpoint cp) (cp_request cp)
           (cp_requesttype cp) usb_redir_cancelled (cp_value cp)
           (cp_index cp) 0) None
  | bulk_packet bp =>
      usbredirparser_send_bulk_packet (t_id t)
        (mk_bulk_packet (bp_endpoint bp) usb_redir_cancelled 0
           (bp_stream_id bp) 0) None
  | interrupt_packet ip =>
      usbredirparser_send_interrupt_packet (t_id t)
        (mk_interrupt_packet (ip_endpoint ip) usb_redir_cancelled 0) None
  end.

(** All the records at address [a] are flagged cancelled. *)
Definition cancelled_at (a : nat) (l : list usbredirtransfer) : Prop :=
  Forall (fun t => t_transfer t = a -> t_cancelled t <> 0) l.

(** The calls that carry a data packet to the peer. *)
Definition is_data_packet (c : parser_call) : bool :=
  match c with
  | usbredirparser_send_control_packet _ _ _
  | usbredirparser_send_bulk_packet _ _ _
  | usbredirparser_send_iso_packet _ _ _
  | usbredirparser_send_interrupt_packet _ _ _
  | usbredirparser_send_buffered_bulk_packet _ _ _ => true
  | _ => false
  end.

(** The stream status message of an endpoint of type [ty], if it has
    one. *)
Definition stream_status_message (ty : usb_redir_type_t) (id ep : Z)
    (status : usb_redir_status_t) : list parser_call :=
  match ty with
  | usb_redir_type_iso => [usbredirparser_send_iso_stream_status id ep status]
  | usb_redir_type_bulk =>
      [usbredirparser_send_bulk_receiving_status id ep status]
  | usb_redir_type_interrupt =>
      [usbredirparser_send_interrupt_receiving_status id ep status]
  | _ => []
  end.

(** The value of the flag in the library's public header, for running the
    model. *)
Definition usbredirhost_h_0_12 : usbredirhost_h :=
  {| usbredirhost_fl_write_cb_owns_buffer := 0x01 |}.

(** A host with nothing going on, and one with an isochronous input
    endpoint 0x81 of 512 bytes per packet, for running the model. *)
Definition host_zero : usbredirhost :=
  mk_host 0 0 0 0 0
    (repeat (mk_ep usb_redir_type_invalid 0 0 0 0 0 0 0 (repeat None 16)) 32)
    [] (mk_iso_threshold 0 0 false) None
    (mk_parser_view 0 0 false [])
    (mk_device_layer [] [] [] [] [] 0 []).

Definition host_iso_in : usbredirhost :=
  set_host_ep 0x81
    (mk_ep usb_redir_type_iso 1 0 0 0 0 0 512 (repeat None 16)) host_zero.

(** A bulk input transfer and a control transfer in flight under the same
    id 42, and a host with the first, or both, on its list. *)
Definition transfer_bulk_42 : usbredirtransfer :=
  mk_transfer 1 42 0
    (bulk_packet (mk_bulk_packet 0x81 usb_redir_success 64 0 0)).

Definition transfer_control_42 : usbredirtransfer :=
  mk_transfer 2 42 0
    (control_packet (mk_control_packet 0x80 6 0x80 usb_redir_success
                                       0x0100 0 18)).

Definition host_one_transfer : usbredirhost :=
  set_transfers_head [transfer_bulk_42] host_zero.

Definition host_two_transfers : usbredirhost :=
  set_transfers_head [transfer_bulk_42; transfer_control_42] host_zero.

Section IsoBackpressureTerms.
Context `{usbredirhost_h}.

(** The size the host asks for before it writes an isochronous packet:
    the one of its parser's queue, or what the application's callback
    says; none when the application owns the buffers and has given no
    callback. *)
Definition size_query (h : usbredirhost) : option Z :=
  if negb (Z.land (h_flags h) usbredirhost_fl_write_cb_owns_buffer =? 0)
  then buffered_output_size_func h
  else Some (bufferered_output_size (parser h)).

(** Dropping mode after the size has been looked at. *)
Definition next_dropping (size : Z) (t : iso_threshold_t) : bool :=
  if size >=? higher t then true
  else if size <? lower t then false
  else dropping t.

End IsoBackpressureTerms.

(** The handles of the records in the first [i] slots of a ring, last slot
    first. *)
Fixpoint handles_below (i : nat) (ring : list (option stream_transfer))
  : list nat :=
  match i with
  | O => []
  | S i' =>
      match nth i' ring None with
      | Some t => [s_transfer t]
      | None => []
      end ++ handles_below i' ring
  end.

(** The ring of [ep] while its first [i] slots are being filled: the slot
    of the endpoint exists, the ring has its sixteen slots, the allocated
    records are those of the first [i] slots and the [old] ones, no record
    is counted twice, the addresses to come are new, and the slots from
    [i] on are NULL. *)
Record ring_inv (old : list nat) (ep : Z) (i : nat) (h : usbredirhost)
  : Prop := {
  inv_slot : (EP2I ep < length (endpoint h))%nat;
  inv_ring : length (transfer (host_ep h ep)) = 16%nat;
  inv_allocated :
    allocated (device h) =
    handles_below i (transfer (host_ep h ep)) ++ old;
  inv_fresh :
    Forall (fun a => (a < next_transfer (device h))%nat)
           (allocated (device h));
  inv_nodup : List.NoDup (allocated (device h));
  inv_above :
    forall k, (i <= k)%nat -> nth k (transfer (host_ep h ep)) None = None
}.

(** The slots [i .. i + n - 1] of the ring of [ep] hold records. *)
Definition ring_filled (ep : Z) (i n : nat) (h : usbredirhost) : Prop :=
  forall k, (i <= k < i + n)%nat -> ep_transfer (host_ep h ep) k <> None.

(** From [h] to [h'] the ring of [ep] has kept its length and its
    records, and the counts of the endpoint. *)
Record ring_kept (ep : Z) (h h' : usbredirhost) : Prop := {
  ring_kept_slot : (EP2I ep < length (endpoint h'))%nat;
  ring_kept_records :
    forall k, ep_transfer (host_ep h ep) k <> None ->
              ep_transfer (host_ep h' ep) k <> None;
  ring_kept_count :
    ep_transfer_count (host_ep h' ep) = ep_transfer_count (host_ep h ep)
}.

(** The text of a stream status and what the rest of the host looks like
    when a request for a stream has been refused. *)
Definition refused_with (status : usb_redir_status_t) (id ep : Z)
    (h h' : usbredirhost) : Prop :=
  calls (parser h') =
  calls (parser h) ++
  stream_status_message (ep_type (host_ep h ep)) id ep status.

(** What the allocation of the ring of [ep] leaves alone in the host: the
    calls made to the parser, and the type and the packet size of the
    endpoint. *)
Record kept (ep : Z) (h h' : usbredirhost) : Prop := {
  kept_calls : calls (parser h') = calls (parser h);
  kept_type : ep_type (host_ep h' ep) = ep_type (host_ep h ep);
  kept_max_packetsize :
    ep_max_packetsize (host_ep h' ep) = ep_max_packetsize (host_ep h ep);
  kept_dropping :
    dropping (iso_threshold h') = dropping (iso_threshold h)
}.

(** The thresholds [usbredirhost_set_iso_threshold] is meant to set. *)
Definition thresholds_of (p c m : Z) (t : iso_threshold_t) : Prop :=
  higher t = 3 * (p * c * m) /\ lower t = (p * c * m) / 2.

(** The checks of the arguments at the head of
    [usbredirhost_alloc_stream_unlocked]. *)
Definition alloc_stream_parameters_valid (h : usbredirhost) (ep : Z)
    (type : usb_redir_type_t) (pkts_per_transfer pkt_size transfer_count : Z)
  : Prop :=
  ep_type (host_ep h ep) = type /\
  1 <= pkts_per_transfer <= 32 /\ 1 <= transfer_count <= 16 /\
  ep_max_packetsize (host_ep h ep) <> 0 /\
  Z.rem pkt_size (ep_max_packetsize (host_ep h ep)) = 0.

(** The thresholds once the allocation loop has run [n] turns for a stream
    of the given type, from [h] to [h1]. *)
Definition thresholds_set (n : nat) (type : usb_redir_type_t) (p c m : Z)
    (h h1 : usbredirhost) : Prop :=
  (n = O -> h1 = h) /\
  (n <> O -> type = usb_redir_type_iso ->
   iso_threshold h1 = iso_threshold (usbredirhost_set_iso_threshold p c m h)).

(** The host of the backpressure scenario with its thresholds set, 801
    buffers waiting in the parser and none of their bytes counted. *)
Definition host_iso_congested : usbredirhost :=
  set_parser (mk_parser_view 801 0 false [])
    (set_iso_threshold (mk_iso_threshold 49152 8192 false) host_iso_in).

(** The same host when the second of the allocations to come fails. *)
Definition host_iso_out_of_memory : usbredirhost :=
  set_device (mk_device_layer [true; true; true; true; false]
                [] [] [] [] 0 []) host_iso_in.


(* --------------------------------------------------------------------- *)
(** ** usbredirparser.c: the wire codec                                   *)
(* --------------------------------------------------------------------- *)

(** Memory is bytes, a byte is a [Z] read modulo 256.  The parser stores
    and loads integers in the byte order of the machine; the model is
    little-endian, as the targets of the library are. *)
Definition byte_at (i : nat) (bs : list Z) : Z := nth i bs 0 mod 256.

Definition store32 (v : Z) : list Z :=
  [v mod 256; (v / 2 ^ 8) mod 256; (v / 2 ^ 16) mod 256;
   (v / 2 ^ 24) mod 256].
Definition store64 (v : Z) : list Z :=
  store32 v ++ store32 (v / 2 ^ 32).

Definition load8 (off : nat) (bs : list Z) : Z := byte_at off bs.
Definition load16 (off : nat) (bs : list Z) : Z :=
  byte_at off bs + 2 ^ 8 * byte_at (off + 1) bs.
Definition load32 (off : nat) (bs : list Z) : Z :=
  byte_at off bs + 2 ^ 8 * byte_at (off + 1) bs
  + 2 ^ 16 * byte_at (off + 2) bs + 2 ^ 24 * byte_at (off + 3) bs.
Definition load64 (off : nat) (bs : list Z) : Z :=
  load32 off bs + 2 ^ 32 * load32 (off + 4) bs.

Lemma load32_range off bs : 0 <= load32 off bs < 2 ^ 32.
Proof.
  unfold load32, byte_at.
  pose proof (Z.mod_pos_bound (nth off bs 0) 256 eq_refl).
  pose proof (Z.mod_pos_bound (nth (off + 1) bs 0) 256 eq_refl).
  pose proof (Z.mod_pos_bound (nth (off + 2) bs 0) 256 eq_refl).
  pose proof (Z.mod_pos_bound (nth (off + 3) bs 0) 256 eq_refl).
  change (2 ^ 8) with 256. change (2 ^ 16) with 65536.
  change (2 ^ 24) with 16777216. change (2 ^ 32) with 4294967296.
  lia.
Qed.

(** [len] bytes read at [src]; what lies behind the end of the object is
    read as zero. *)
Definition take_bytes (len : Z) (src : list Z) : list Z :=
  firstn (Z.to_nat len) (src ++ repeat 0 (Z.to_nat len)).

(** [memcpy(dest + off, src, |src|)]. *)
Definition memcpy (dest : list Z) (off : Z) (src : list Z) : list Z :=
  firstn (Z.to_nat off) dest ++ src
  ++ skipn (Z.to_nat off + length src) dest.

(** An array of [uint32_t] seen as bytes, and back. *)
Definition words_bytes (ws : list Z) : list Z := flat_map store32 ws.
Fixpoint bytes_words (n : nat) (off : nat) (bs : list Z) : list Z :=
  match n with
  | O => []
  | S n' => load32 off bs :: bytes_words n' (off + 4) bs
  end.

(** The packet types of usbredirproto.h. *)
Inductive usb_redir_packet_type :=
  | usb_redir_hello
  | usb_redir_device_connect
  | usb_redir_device_disconnect
  | usb_redir_reset
  | usb_redir_interface_info
  | usb_redir_ep_info
  | usb_redir_set_configuration
  | usb_redir_get_configuration
  | usb_redir_configuration_status
  | usb_redir_set_alt_setting
  | usb_redir_get_alt_setting
  | usb_redir_alt_setting_status
  | usb_redir_start_iso_stream
  | usb_redir_stop_iso_stream
  | usb_redir_iso_stream_status
  | usb_redir_start_interrupt_receiving
  | usb_redir_stop_interrupt_receiving
  | usb_redir_interrupt_receiving_status
  | usb_redir_alloc_bulk_streams
  | usb_redir_free_bulk_streams
  | usb_redir_bulk_streams_status
  | usb_redir_cancel_data_packet
  | usb_redir_filter_reject
  | usb_redir_filter_filter
  | usb_redir_device_disconnect_ack
  | usb_redir_start_bulk_receiving
  | usb_redir_stop_bulk_receiving
  | usb_redir_bulk_receiving_status
  | usb_redir_control_packet
  | usb_redir_bulk_packet
  | usb_redir_iso_packet
  | usb_redir_interrupt_packet
  | usb_redir_buffered_bulk_packet.

Definition usb_redir_packet_types : list usb_redir_packet_type :=
  [usb_redir_hello; usb_redir_device_connect; usb_redir_device_disconnect;
   usb_redir_reset; usb_redir_interface_info; usb_redir_ep_info;
   usb_redir_set_configuration; usb_redir_get_configuration;
   usb_redir_configuration_status; usb_redir_set_alt_setting;
   usb_redir_get_alt_setting; usb_redir_alt_setting_status;
   usb_redir_start_iso_stream; usb_redir_stop_iso_stream;
   usb_redir_iso_stream_status; usb_redir_start_interrupt_receiving;
   usb_redir_stop_interrupt_receiving;
   usb_redir_interrupt_receiving_status; usb_redir_alloc_bulk_streams;
   usb_redir_free_bulk_streams; usb_redir_bulk_streams_status;
   usb_redir_cancel_data_packet; usb_redir_filter_reject;
   usb_redir_filter_filter; usb_redir_device_disconnect_ack;
   usb_redir_start_bulk_receiving; usb_redir_stop_bulk_receiving;
   usb_redir_bulk_receiving_status; usb_redir_control_packet;
   usb_redir_bulk_packet; usb_redir_iso_packet;
   usb_redir_interrupt_packet; usb_redir_buffered_bulk_packet].

(** usbredirproto.h is not part of the sources at hand.  What the parser
    takes from it is a parameter: the values of the packet type
    enumerators ([int]s, and distinct, as the [case] labels of one
    [switch] are), the
    positions of the capability bits, the number of capability words, the
    sizes of the type specific headers, and the fields of those headers
    that [usbredirparser_verify_type_header] looks at. *)
Class usbredirproto_h := {
  USB_REDIR_CAPS_SIZE : Z;
  USB_REDIR_CAPS_SIZE_pos : 0 < USB_REDIR_CAPS_SIZE;
  usb_redir_cap_bulk_streams : Z;
  usb_redir_cap_connect_device_version : Z;
  usb_redir_cap_filter : Z;
  usb_redir_cap_device_disconnect_ack : Z;
  usb_redir_cap_ep_info_max_packet_size : Z;
  usb_redir_cap_64bits_ids : Z;
  usb_redir_cap_32bits_bulk_length : Z;
  usb_redir_cap_bulk_receiving : Z;
  packet_type_value : usb_redir_packet_type -> Z;
  packet_type_value_inj t1 t2 :
    packet_type_value t1 = packet_type_value t2 -> t1 = t2;
  packet_type_value_int t : - 2 ^ 31 <= packet_type_value t < 2 ^ 31;
  sizeof_usb_redir_hello_header : Z;
  sizeof_usb_redir_device_connect_header : Z;
  sizeof_usb_redir_device_connect_header_no_device_version : Z;
  sizeof_usb_redir_interface_info_header : Z;
  sizeof_usb_redir_ep_info_header : Z;
  sizeof_usb_redir_ep_info_header_no_max_streams : Z;
  sizeof_usb_redir_ep_info_header_no_max_pktsz : Z;
  sizeof_usb_redir_set_configuration_header : Z;
  sizeof_usb_redir_configuration_status_header : Z;
  sizeof_usb_redir_set_alt_setting_header : Z;
  sizeof_usb_redir_get_alt_setting_header : Z;
  sizeof_usb_redir_alt_setting_status_header : Z;
  sizeof_usb_redir_start_iso_stream_header : Z;
  sizeof_usb_redir_stop_iso_stream_header : Z;
  sizeof_usb_redir_iso_stream_status_header : Z;
  sizeof_usb_redir_start_interrupt_receiving_header : Z;
  sizeof_usb_redir_stop_interrupt_receiving_header : Z;
  sizeof_usb_redir_interrupt_receiving_status_header : Z;
  sizeof_usb_redir_alloc_bulk_streams_header : Z;
  sizeof_usb_redir_free_bulk_streams_header : Z;
  sizeof_usb_redir_bulk_streams_status_header : Z;
  sizeof_usb_redir_start_bulk_receiving_header : Z;
  sizeof_usb_redir_stop_bulk_receiving_header : Z;
  sizeof_usb_redir_bulk_receiving_status_header : Z;
  sizeof_usb_redir_control_packet_header : Z;
  sizeof_usb_redir_bulk_packet_header : Z;
  sizeof_usb_redir_bulk_packet_header_16bit_length : Z;
  sizeof_usb_redir_iso_packet_header : Z;
  sizeof_usb_redir_interrupt_packet_header : Z;
  sizeof_usb_redir_buffered_bulk_packet_header : Z;
  (** [->interface_count] of an interface_info header *)
  interface_info_interface_count : list Z -> Z;
  (** [->endpoint] of the header of the given type *)
  header_endpoint : usb_redir_packet_type -> list Z -> Z;
  (** [->length] of the header of a data packet of the given type *)
  header_length_field : usb_redir_packet_type -> list Z -> Z;
  (** [->bytes_per_transfer] of a start_bulk_receiving header *)
  start_bulk_receiving_bytes_per_transfer : list Z -> Z;
  (** [->length_high] of a bulk_packet header, and the store to it *)
  bulk_packet_length_high : list Z -> Z;
  set_bulk_packet_length_high : Z -> list Z -> list Z
}.

(** usbredirparser.h is not part of the sources either: the flag bits of
    [usbredirparser_init], the value [usbredirparser_do_read] returns on a
    parse error, and the magic number of a serialized state. *)
Class usbredirparser_h := {
  usbredirparser_fl_usb_host : Z;
  usbredirparser_fl_write_cb_owns_buffer : Z;
  usbredirparser_fl_no_hello : Z;
  usbredirparser_read_parse_error : Z;
  USBREDIRPARSER_SERIALIZE_MAGIC : Z
}.

Definition MAX_BULK_TRANSFER_SIZE : Z := 128 * 1024 * 1024.
Definition MAX_PACKET_SIZE : Z := 1024 + MAX_BULK_TRANSFER_SIZE.
Definition USBREDIRPARSER_SERIALIZE_BUF_SIZE : Z := 65536.

(** Modelled from the spec: the two forms of the fixed header,
    [u32 type; u32 length; u64 id] and [u32 type; u32 length; u32 id],
    without padding. *)
Definition sizeof_usb_redir_header : Z := 16.
Definition sizeof_usb_redir_header_32bit_id : Z := 12.
Definition sizeof_type_header : Z := 288.

(** [struct usbredirparser_buf]; the [next] pointers are the list the
    buffers are kept in. *)
Record usbredirparser_buf := mk_buf {
  buf : list Z;
  pos : Z;
  len : Z
}.

(** A call through [parser->callb], by the shape of its arguments: the
    callback of the packet type, and then [priv] alone, a type header, an
    id, both, or id, type header and data; [filter_filter_func] takes the
    rules.  A type header is handed over as the pointer to
    [parser->type_header], hence recorded as the whole buffer.  Calls of
    [log_func] are not recorded. *)
Inductive callb_call :=
  | callb_priv (func : usb_redir_packet_type)
  | callb_header (func : usb_redir_packet_type) (type_header : list Z)
  | callb_id (func : usb_redir_packet_type) (id : Z)
  | callb_id_header (func : usb_redir_packet_type) (id : Z)
      (type_header : list Z)
  | callb_id_header_data (func : usb_redir_packet_type) (id : Z)
      (type_header : list Z) (data : option (list Z)) (data_len : Z)
  | callb_filter_filter (rules : list usbredirfilter_rule) (count : Z).

(** [struct usbredirparser_priv].  The union of the two fixed headers is
    its 16 bytes.  [callb] is the trace of the calls made through the
    callback table, oldest first; [read_input] is what [read_func] has to
    deliver: the bytes the transport holds at the moment. *)
Record usbredirparser_priv := mk_parser {
  flags : Z;
  have_peer_caps : Z;
  our_caps : list Z;
  peer_caps : list Z;
  header : list Z;
  type_header : list Z;
  header_read : Z;
  type_header_len : Z;
  type_header_read : Z;
  data : option (list Z);
  data_len : Z;
  data_read : Z;
  to_skip : Z;
  write_buf_count : Z;
  write_buf : list usbredirparser_buf;
  write_buf_total_size : Z;
  callb : list callb_call;
  read_input : list Z
}.

Definition set_flags v p :=
  mk_parser v (have_peer_caps p) (our_caps p) (peer_caps p) (header p)
    (type_header p) (header_read p) (type_header_len p)
    (type_header_read p) (data p) (data_len p) (data_read p) (to_skip p)
    (write_buf_count p) (write_buf p) (write_buf_total_size p) (callb p)
    (read_input p).
Definition set_have_peer_caps v p :=
  mk_parser (flags p) v (our_caps p) (peer_caps p) (header p)
    (type_header p) (header_read p) (type_header_len p)
    (type_header_read p) (data p) (data_len p) (data_read p) (to_skip p)
    (write_buf_count p) (write_buf p) (write_buf_total_size p) (callb p)
    (read_input p).
Definition set_our_caps v p :=
  mk_parser (flags p) (have_peer_caps p) v (peer_caps p) (header p)
    (type_header p) (header_read p) (type_header_len p)
    (type_header_read p) (data p) (data_len p) (data_read p) (to_skip p)
    (write_buf_count p) (write_buf p) (write_buf_total_size p) (callb p)
    (read_input p).
Definition set_peer_caps v p :=
  mk_parser (flags p) (have_peer_caps p) (our_caps p) v (header p)
    (type_header p) (header_read p) (type_header_len p)
    (type_header_read p) (data p) (data_len p) (data_read p) (to_skip p)
    (write_buf_count p) (write_buf p) (write_buf_total_size p) (callb p)
    (read_input p).
Definition set_header v p :=
  mk_parser (flags p) (have_peer_caps p) (our_caps p) (peer_caps p) v
    (type_header p) (header_read p) (type_header_len p)
    (type_header_read p) (data p) (data_len p) (data_read p) (to_skip p)
    (write_buf_count p) (write_buf p) (write_buf_total_size p) (callb p)
    (read_input p).
Definition set_type_header v p :=
  mk_parser (flags p) (have_peer_caps p) (our_caps p) (peer_caps p)
    (header p) v (header_read p) (type_header_len p)
    (type_header_read p) (data p) (data_len p) (data_read p) (to_skip p)
    (write_buf_count p) (write_buf p) (write_buf_total_size p) (callb p)
    (read_input p).
Definition set_header_read v p :=
  mk_parser (flags p) (have_peer_caps p) (our_caps p) (peer_caps p)
    (header p) (type_header p) v (type_header_len p)
    (type_header_read p) (data p) (data_len p) (data_read p) (to_skip p)
    (write_buf_count p) (write_buf p) (write_buf_total_size p) (callb p)
    (read_input p).
Definition set_type_header_len v p :=
  mk_parser (flags p) (have_peer_caps p) (our_caps p) (peer_caps p)
    (header p) (type_header p) (header_read p) v
    (type_header_read p) (data p) (data_len p) (data_read p) (to_skip p)
    (write_buf_count p) (write_buf p) (write_buf_total_size p) (callb p)
    (read_input p).
Definition set_type_header_read v p :=
  mk_parser (flags p) (have_peer_caps p) (our_caps p) (peer_caps p)
    (header p) (type_header p) (header_read p) (type_header_len p)
    v (data p) (data_len p) (data_read p) (to_skip p)
    (write_buf_count p) (write_buf p) (write_buf_total_size p) (callb p)
    (read_input p).
Definition set_data v p :=
  mk_parser (flags p) (have_peer_caps p) (our_caps p) (peer_caps p)
    (header p) (type_header p) (header_read p) (type_header_len p)
    (type_header_read p) v (data_len p) (data_read p) (to_skip p)
    (write_buf_count p) (write_buf p) (write_buf_total_size p) (callb p)
    (read_input p).
Definition set_data_len v p :=
  mk_parser (flags p) (have_peer_caps p) (our_caps p) (peer_caps p)
    (header p) (type_header p) (header_read p) (type_header_len p)
    (type_header_read p) (data p) v (data_read p) (to_skip p)
    (write_buf_count p) (write_buf p) (write_buf_total_size p) (callb p)
    (read_input p).
Definition set_data_read v p :=
  mk_parser (flags p) (have_peer_caps p) (our_caps p) (peer_caps p)
    (header p) (type_header p) (header_read p) (type_header_len p)
    (type_header_read p) (data p) (data_len p) v (to_skip p)
    (write_buf_count p) (write_buf p) (write_buf_total_size p) (callb p)
    (read_input p).
Definition set_to_skip v p :=
  mk_parser (flags p) (have_peer_caps p) (our_caps p) (peer_caps p)
    (header p) (type_header p) (header_read p) (type_header_len p)
    (type_header_read p) (data p) (data_len p) (data_read p) v
    (write_buf_count p) (write_buf p) (write_buf_total_size p) (callb p)
    (read_input p).
Definition set_write_buf (count : Z) (bufs : list usbredirparser_buf)
    (total_size : Z) p :=
  mk_parser (flags p) (have_peer_caps p) (our_caps p) (peer_caps p)
    (header p) (type_header p) (header_read p) (type_header_len p)
    (type_header_read p) (data p) (data_len p) (data_read p) (to_skip p)
    count bufs total_size (callb p) (read_input p).
Definition set_callb v p :=
  mk_parser (flags p) (have_peer_caps p) (our_caps p) (peer_caps p)
    (header p) (type_header p) (header_read p) (type_header_len p)
    (type_header_read p) (data p) (data_len p) (data_read p) (to_skip p)
    (write_buf_count p) (write_buf p) (write_buf_total_size p) v
    (read_input p).
Definition set_read_input v p :=
  mk_parser (flags p) (have_peer_caps p) (our_caps p) (peer_caps p)
    (header p) (type_header p) (header_read p) (type_header_len p)
    (type_header_read p) (data p) (data_len p) (data_read p) (to_skip p)
    (write_buf_count p) (write_buf p) (write_buf_total_size p) (callb p) v.

(** [parser->callb.f (...)]: one more call in the trace. *)
Definition call (c : callb_call) (p : usbredirparser_priv) :=
  set_callb (callb p ++ [c]) p.

(** The fields of the fixed header in the parser. *)
Definition header_type (p : usbredirparser_priv) : Z := load32 0 (header p).
Definition header_length (p : usbredirparser_priv) : Z :=
  load32 4 (header p).
Definition header_id (p : usbredirparser_priv) : Z := load64 8 (header p).
Definition header_32bit_id_id (p : usbredirparser_priv) : Z :=
  load32 8 (header p).

Section Parser.
Context `{usbredirproto_h} `{usbredirparser_h}.
Variable dm : data_model.

(** [switch (type)] over the packet type enumerators: the enumerator, if
    any, whose value [type] is. *)
Definition packet_type_of (type : Z) : option usb_redir_packet_type :=
  List.find (fun t => packet_type_value t =? type) usb_redir_packet_types.

(** [usbredirparser_create]: [calloc], every field zero; the transport
    and the trace come with it. *)
Definition usbredirparser_create (read_input : list Z)
  : usbredirparser_priv :=
  mk_parser 0 0 (repeat 0 (Z.to_nat USB_REDIR_CAPS_SIZE))
    (repeat 0 (Z.to_nat USB_REDIR_CAPS_SIZE))
    (repeat 0 (Z.to_nat sizeof_usb_redir_header))
    (repeat 0 (Z.to_nat sizeof_type_header))
    0 0 0 None 0 0 0 0 [] 0 [] read_input.

Definition usbredirparser_caps_get_cap (caps : list Z) (cap : Z) : Z :=
  if Z.quot cap 32 >=? USB_REDIR_CAPS_SIZE then 0
  else if negb (Z.land (nth (Z.to_nat (Z.quot cap 32)) caps 0)
                  (Z.shiftl 1 (Z.rem cap 32)) =? 0)
       then 1 else 0.

(** The array is written at index [cap / 32]; an index outside of it is
    not written. *)
Definition usbredirparser_caps_set_cap (caps : list Z) (cap : Z) : list Z :=
  <[Z.to_nat (Z.quot cap 32) :=
      to_uint (Z.lor (nth (Z.to_nat (Z.quot cap 32)) caps 0)
                 (Z.shiftl 1 (Z.rem cap 32)))]> caps.

Definition usbredirparser_verify_caps (caps : list Z) : list Z :=
  if negb (usbredirparser_caps_get_cap caps usb_redir_cap_bulk_streams =? 0)
     && (usbredirparser_caps_get_cap caps
           usb_redir_cap_ep_info_max_packet_size =? 0)
  then <[O := to_uint (Z.land (nth 0 caps 0)
                         (Z.lnot (Z.shiftl 1 usb_redir_cap_bulk_streams)))]>
         caps
  else caps.

Definition usbredirparser_peer_has_cap (p : usbredirparser_priv) (cap : Z)
  : Z := usbredirparser_caps_get_cap (peer_caps p) cap.

Definition usbredirparser_have_cap (p : usbredirparser_priv) (cap : Z) : Z :=
  usbredirparser_caps_get_cap (our_caps p) cap.

Definition usbredirparser_using_32bits_ids (p : usbredirparser_priv) : bool :=
  (usbredirparser_have_cap p usb_redir_cap_64bits_ids =? 0)
  || (usbredirparser_peer_has_cap p usb_redir_cap_64bits_ids =? 0).

Definition usbredirparser_get_header_len (p : usbredirparser_priv) : Z :=
  if usbredirparser_using_32bits_ids p
  then sizeof_usb_redir_header_32bit_id
  else sizeof_usb_redir_header.

(** A capability both sides have. *)
Definition both_have_cap (p : usbredirparser_priv) (cap : Z) : bool :=
  negb (usbredirparser_have_cap p cap =? 0)
  && negb (usbredirparser_peer_has_cap p cap =? 0).

(** [command_for_host] of [usbredirparser_get_type_header_len] and
    [usbredirparser_verify_type_header]. *)
Definition command_for_host (p : usbredirparser_priv) (send : bool) : bool :=
  let host := negb (Z.land (flags p) usbredirparser_fl_usb_host =? 0) in
  if send then negb host else host.

Definition usbredirparser_get_type_header_len (p : usbredirparser_priv)
    (type : Z) (send : bool) : Z :=
  let command_for_host := command_for_host p send in
  let for_host (n : Z) := if command_for_host then n else -1 in
  let for_guest (n : Z) := if negb command_for_host then n else -1 in
  match packet_type_of type with
  | Some usb_redir_hello => sizeof_usb_redir_hello_header
  | Some usb_redir_device_connect =>
      for_guest
        (if both_have_cap p usb_redir_cap_connect_device_version
         then sizeof_usb_redir_device_connect_header
         else sizeof_usb_redir_device_connect_header_no_device_version)
  | Some usb_redir_device_disconnect => for_guest 0
  | Some usb_redir_reset => for_host 0
  | Some usb_redir_interface_info =>
      for_guest sizeof_usb_redir_interface_info_header
  | Some usb_redir_ep_info =>
      for_guest
        (if both_have_cap p usb_redir_cap_bulk_streams
         then sizeof_usb_redir_ep_info_header
         else if both_have_cap p usb_redir_cap_ep_info_max_packet_size
         then sizeof_usb_redir_ep_info_header_no_max_streams
         else sizeof_usb_redir_ep_info_header_no_max_pktsz)
  | Some usb_redir_set_configuration =>
      for_host sizeof_usb_redir_set_configuration_header
  | Some usb_redir_get_configuration => for_host 0
  | Some usb_redir_configuration_status =>
      for_guest sizeof_usb_redir_configuration_status_header
  | Some usb_redir_set_alt_setting =>
      for_host sizeof_usb_redir_set_alt_setting_header
  | Some usb_redir_get_alt_setting =>
      for_host sizeof_usb_redir_get_alt_setting_header
  | Some usb_redir_alt_setting_status =>
      for_guest sizeof_usb_redir_alt_setting_status_header
  | Some usb_redir_start_iso_stream =>
      for_host sizeof_usb_redir_start_iso_stream_header
  | Some usb_redir_stop_iso_stream =>
      for_host sizeof_usb_redir_stop_iso_stream_header
  | Some usb_redir_iso_stream_status =>
      for_guest sizeof_usb_redir_iso_stream_status_header
  | Some usb_redir_start_interrupt_receiving =>
      for_host sizeof_usb_redir_start_interrupt_receiving_header
  | Some usb_redir_stop_interrupt_receiving =>
      for_host sizeof_usb_redir_stop_interrupt_receiving_header
  | Some usb_redir_interrupt_receiving_status =>
      for_guest sizeof_usb_redir_interrupt_receiving_status_header
  | Some usb_redir_alloc_bulk_streams =>
      for_host sizeof_usb_redir_alloc_bulk_streams_header
  | Some usb_redir_free_bulk_streams =>
      for_host sizeof_usb_redir_free_bulk_streams_header
  | Some usb_redir_bulk_streams_status =>
      for_guest sizeof_usb_redir_bulk_streams_status_header
  | Some usb_redir_cancel_data_packet => for_host 0
  | Some usb_redir_filter_reject => for_host 0
  | Some usb_redir_filter_filter => 0
  | Some usb_redir_device_disconnect_ack => for_host 0
  | Some usb_redir_start_bulk_receiving =>
      for_host sizeof_usb_redir_start_bulk_receiving_header
  | Some usb_redir_stop_bulk_receiving =>
      for_host sizeof_usb_redir_stop_bulk_receiving_header
  | Some usb_redir_bulk_receiving_status =>
      for_guest sizeof_usb_redir_bulk_receiving_status_header
  | Some usb_redir_control_packet => sizeof_usb_redir_control_packet_header
  | Some usb_redir_bulk_packet =>
      if both_have_cap p usb_redir_cap_32bits_bulk_length
      then sizeof_usb_redir_bulk_packet_header
      else sizeof_usb_redir_bulk_packet_header_16bit_length
  | Some usb_redir_iso_packet => sizeof_usb_redir_iso_packet_header
  | Some usb_redir_interrupt_packet =>
      sizeof_usb_redir_interrupt_packet_header
  | Some usb_redir_buffered_bulk_packet =>
      for_guest sizeof_usb_redir_buffered_bulk_packet_header
  | None => -1
  end.

(** [switch (parser->header.type)]: the controlling expression is a
    [uint32_t], the labels are the enumerators, which are [int]s. *)
Definition usbredirparser_expect_extra_data (p : usbredirparser_priv) : bool :=
  match packet_type_of (to_int (header_type p)) with
  | Some usb_redir_hello
  | Some usb_redir_filter_filter
  | Some usb_redir_control_packet
  | Some usb_redir_bulk_packet
  | Some usb_redir_iso_packet
  | Some usb_redir_interrupt_packet
  | Some usb_redir_buffered_bulk_packet => true
  | _ => false
  end.

Definition usbredirparser_verify_bulk_recv_cap (p : usbredirparser_priv)
    (send : bool) : Z :=
  if (send && (usbredirparser_peer_has_cap p usb_redir_cap_bulk_receiving
               =? 0))
     || (negb send && (usbredirparser_have_cap p usb_redir_cap_bulk_receiving
                       =? 0))
  then 0 else 1.

(** A capability test of [usbredirparser_verify_type_header]: the peer's
    on sending, ours on receiving. *)
Definition verify_cap (p : usbredirparser_priv) (send : bool) (cap : Z)
  : bool :=
  negb ((send && (usbredirparser_peer_has_cap p cap =? 0))
        || (negb send && (usbredirparser_have_cap p cap =? 0))).

(** The end of [usbredirparser_verify_type_header], for the types that
    set [ep]: [length] is a [uint32_t], [data_len] an [int] compared with
    it as unsigned. *)
Definition verify_data_direction (p : usbredirparser_priv)
    (type : usb_redir_packet_type) (ep length : Z) (data : option (list Z))
    (data_len : Z) (send : bool) : Z :=
  let command_for_host := command_for_host p send in
  let expect_extra_data :=
    (negb (Z.land ep 0x80 =? 0) && negb command_for_host)
    || ((Z.land ep 0x80 =? 0) && command_for_host) in
  if expect_extra_data then
    if negb (to_uint data_len =? length) then 0 else 1
  else if (match data with Some _ => true | None => false end)
          || negb (data_len =? 0) then 0
  else match type with
       | usb_redir_iso_packet => 0
       | usb_redir_interrupt_packet => if command_for_host then 0 else 1
       | usb_redir_buffered_bulk_packet => 0
       | _ => 1
       end.

(** [usbredirparser_verify_type_header]: the verdict, and the header,
    which the bulk packet case may write to. *)
Definition usbredirparser_verify_type_header (p : usbredirparser_priv)
    (type : Z) (hdr : list Z) (data : option (list Z)) (data_len : Z)
    (send : bool) : Z * list Z :=
  let input_ep (t : usb_redir_packet_type) : Z :=
    if Z.land (header_endpoint t hdr) 0x80 =? 0 then 0 else 1 in
  match packet_type_of type with
  | Some usb_redir_interface_info =>
      (if interface_info_interface_count hdr >? 32 then 0 else 1, hdr)
  | Some usb_redir_start_interrupt_receiving =>
      (input_ep usb_redir_start_interrupt_receiving, hdr)
  | Some usb_redir_stop_interrupt_receiving =>
      (input_ep usb_redir_stop_interrupt_receiving, hdr)
  | Some usb_redir_interrupt_receiving_status =>
      (input_ep usb_redir_interrupt_receiving_status, hdr)
  | Some usb_redir_filter_reject =>
      (if verify_cap p send usb_redir_cap_filter then 1 else 0, hdr)
  | Some usb_redir_filter_filter =>
      (if negb (verify_cap p send usb_redir_cap_filter) then 0
       else if data_len <? 1 then 0
       else if negb (nth (Z.to_nat (data_len - 1))
                       (match data with Some d => d | None => [] end) 0
                     =? 0) then 0
       else 1, hdr)
  | Some usb_redir_device_disconnect_ack =>
      (if verify_cap p send usb_redir_cap_device_disconnect_ack
       then 1 else 0, hdr)
  | Some usb_redir_start_bulk_receiving =>
      (if usbredirparser_verify_bulk_recv_cap p send =? 0 then 0
       else if start_bulk_receiving_bytes_per_transfer hdr
               >? MAX_BULK_TRANSFER_SIZE then 0
       else input_ep usb_redir_start_bulk_receiving, hdr)
  | Some usb_redir_stop_bulk_receiving =>
      (if usbredirparser_verify_bulk_recv_cap p send =? 0 then 0
       else input_ep usb_redir_stop_bulk_receiving, hdr)
  | Some usb_redir_bulk_receiving_status =>
      (if usbredirparser_verify_bulk_recv_cap p send =? 0 then 0
       else input_ep usb_redir_bulk_receiving_status, hdr)
  | Some usb_redir_control_packet =>
      (verify_data_direction p usb_redir_control_packet
         (header_endpoint usb_redir_control_packet hdr)
         (header_length_field usb_redir_control_packet hdr)
         data data_len send, hdr)
  | Some usb_redir_bulk_packet =>
      let wide := both_have_cap p usb_redir_cap_32bits_bulk_length in
      let length :=
        if wide
        then Z.lor (to_uint (Z.shiftl (bulk_packet_length_high hdr) 16))
               (header_length_field usb_redir_bulk_packet hdr)
        else header_length_field usb_redir_bulk_packet hdr in
      let hdr' :=
        if negb wide && negb send then set_bulk_packet_length_high 0 hdr
        else hdr in
      if length >? MAX_BULK_TRANSFER_SIZE then (0, hdr')
      else (verify_data_direction p usb_redir_bulk_packet
              (header_endpoint usb_redir_bulk_packet hdr') length
              data data_len send, hdr')
  | Some usb_redir_iso_packet =>
      (verify_data_direction p usb_redir_iso_packet
         (header_endpoint usb_redir_iso_packet hdr)
         (header_length_field usb_redir_iso_packet hdr)
         data data_len send, hdr)
  | Some usb_redir_interrupt_packet =>
      (verify_data_direction p usb_redir_interrupt_packet
         (header_endpoint usb_redir_interrupt_packet hdr)
         (header_length_field usb_redir_interrupt_packet hdr)
         data data_len send, hdr)
  | Some usb_redir_buffered_bulk_packet =>
      if usbredirparser_verify_bulk_recv_cap p send =? 0 then (0, hdr)
      else if header_length_field usb_redir_buffered_bulk_packet hdr
              >? MAX_BULK_TRANSFER_SIZE then (0, hdr)
      else (verify_data_direction p usb_redir_buffered_bulk_packet
              (header_endpoint usb_redir_buffered_bulk_packet hdr)
              (header_length_field usb_redir_buffered_bulk_packet hdr)
              data data_len send, hdr)
  | _ => (1, hdr)
  end.

(** [usbredirparser_queue]: one buffer [header, type header, data] at the
    tail of the write queue.  [type] is a [uint32_t], [id] a [uint64_t],
    [data_len] and the sizes are [int]s. *)
Definition usbredirparser_queue (type id : Z) (type_header_in : list Z)
    (data_in : option (list Z)) (data_len : Z) (p : usbredirparser_priv)
  : usbredirparser_priv :=
  let header_len := usbredirparser_get_header_len p in
  let type_header_len :=
    usbredirparser_get_type_header_len p (to_int type) true in
  if type_header_len <? 0 then p
  else if fst (usbredirparser_verify_type_header p (to_int type)
                 type_header_in data_in data_len true) =? 0 then p
  else
    let total_size := to_int (header_len + type_header_len + data_len) in
    if negb (malloc dm total_size) then p
    else
      let hdr :=
        store32 type ++ store32 (to_uint (type_header_len + data_len))
        ++ (if usbredirparser_using_32bits_ids p
            then store32 id else store64 id) in
      let new_wbuf :=
        mk_buf (hdr ++ take_bytes type_header_len type_header_in
                ++ take_bytes data_len
                     (match data_in with Some d => d | None => [] end))
          0 total_size in
      set_write_buf (to_int (write_buf_count p + 1))
        (write_buf p ++ [new_wbuf])
        (to_uint64 (write_buf_total_size p + total_size)) p.

Definition sizeof_peer_caps : Z := USB_REDIR_CAPS_SIZE * 4.

(** [usbredirparser_handle_hello]; [hello_func] is taken to be set.  The
    comparison of [data_len] with [sizeof(parser->peer_caps)] is in
    [size_t]. *)
Definition usbredirparser_handle_hello (hello : list Z)
    (data : option (list Z)) (data_len : Z) (p : usbredirparser_priv)
  : usbredirparser_priv :=
  if negb (have_peer_caps p =? 0) then p
  else
    let data_len :=
      if to_size_t dm data_len >? sizeof_peer_caps then sizeof_peer_caps
      else data_len in
    let n := Z.to_nat (to_size_t dm data_len / 4) in
    let caps :=
      bytes_words n 0 (match data with Some d => d | None => [] end)
      ++ repeat 0 (Z.to_nat USB_REDIR_CAPS_SIZE - n) in
    let p := set_peer_caps (usbredirparser_verify_caps caps) p in
    let p := set_have_peer_caps 1 p in
    call (callb_header usb_redir_hello hello) p.

(** The characters of the C string at [data]. *)
Fixpoint c_string (data : list Z) : cstr :=
  match data with
  | [] => []
  | b :: data' =>
      if b =? 0 then [] else ascii_of_nat (Z.to_nat b) :: c_string data'
  end.

(** The id of the packet in the parser, as
    [usbredirparser_call_type_func] takes it from the fixed header. *)
Definition packet_id (p : usbredirparser_priv) : Z :=
  if usbredirparser_using_32bits_ids p then header_32bit_id_id p
  else header_id p.

Definition usbredirparser_call_type_func (p : usbredirparser_priv)
  : usbredirparser_priv :=
  let id := packet_id p in
  match packet_type_of (to_int (header_type p)) with
  | None => p
  | Some t =>
      match t with
      | usb_redir_hello =>
          usbredirparser_handle_hello (type_header p) (data p) (data_len p) p
      | usb_redir_device_disconnect =>
          let p := call (callb_priv usb_redir_device_disconnect) p in
          if negb (usbredirparser_peer_has_cap p
                     usb_redir_cap_device_disconnect_ack =? 0)
          then usbredirparser_queue
                 (to_uint
                    (packet_type_value usb_redir_device_disconnect_ack))
                 0 [] None 0 p
          else p
      | usb_redir_filter_filter =>
          let '(r, rules) :=
            usbredirfilter_string_to_rules dm
              (c_string (match data p with Some d => d | None => [] end))
              comma bar in
          if negb (r =? 0) then p
          else call (callb_filter_filter rules (Z.of_nat (length rules))) p
      | usb_redir_reset | usb_redir_filter_reject
      | usb_redir_device_disconnect_ack => call (callb_priv t) p
      | usb_redir_device_connect | usb_redir_interface_info
      | usb_redir_ep_info => call (callb_header t (type_header p)) p
      | usb_redir_get_configuration | usb_redir_cancel_data_packet =>
          call (callb_id t id) p
      | usb_redir_control_packet | usb_redir_bulk_packet
      | usb_redir_iso_packet | usb_redir_interrupt_packet
      | usb_redir_buffered_bulk_packet =>
          call (callb_id_header_data t id (type_header p) (data p)
                  (data_len p)) p
      | _ => call (callb_id_header t id (type_header p)) p
      end
  end.

(** [parser->callb.read_func (priv, dest, count)]: as many of the bytes
    at hand as are asked for; [0], the read would block, when none is. *)
Definition read_func (count : Z) (input : list Z) : Z * list Z * list Z :=
  let n := Nat.min (Z.to_nat count) (length input) in
  (Z.of_nat n, firstn n input, skipn n input).

(** The skip loop at the head of [usbredirparser_do_read], with the
    [sizeof(buf)] of its local buffer.  [Some r]: the function returns
    [r]. *)
Definition skip_buf_size : Z := 65536.

Definition skip_step (p : usbredirparser_priv)
  : Z * usbredirparser_priv :=
  let r := if to_skip p >? skip_buf_size then skip_buf_size else to_skip p in
  let '(r, _, rest) := read_func r (read_input p) in
  (r, set_read_input rest p).

Lemma skip_step_shorter p r p' :
  skip_step p = (r, p') -> (r <=? 0) = false ->
  (length (read_input p') < length (read_input p))%nat.
Proof.
  unfold skip_step, read_func. intros [= <- <-] Hr. cbn.
  apply Z.leb_gt in Hr. rewrite length_skipn. lia.
Qed.

Equations? skip_loop (p : usbredirparser_priv)
  : option Z * usbredirparser_priv
  by wf (length (read_input p)) lt :=
skip_loop p with inspect (to_skip p >? 0) := {
  | exist _ false _ := (None, p);
  | exist _ true _ with inspect (skip_step p) := {
    | exist _ (r, p') Hstep with inspect (r <=? 0) := {
      | exist _ true _ := (Some r, p');
      | exist _ false Hr :=
          skip_loop (set_to_skip (to_int (to_skip p' - r)) p') } } }.
Proof.
  exact (skip_step_shorter _ _ _ Hstep Hr).
Qed.

(** One turn of the [while (1)] loop of [usbredirparser_do_read] ends in
    the next turn, with the local [header_len], or in a [return]. *)
Inductive loop_step :=
  | loop_continue (header_len : Z) (p : usbredirparser_priv)
  | loop_return (r : Z) (p : usbredirparser_priv).

(** The four error exits after a complete fixed header:
    [parser->to_skip = parser->header.length], a [uint32_t] stored in an
    [int]. *)
Definition skip_packet (p : usbredirparser_priv) : loop_step :=
  loop_return usbredirparser_read_parse_error
    (set_header_read 0 (set_to_skip (to_int (header_length p)) p)).

(** The block under [if (parser->header_read == header_len)]. *)
Definition do_read_header_complete (header_len : Z)
    (p : usbredirparser_priv) : loop_step :=
  let type_header_len :=
    usbredirparser_get_type_header_len p (to_int (header_type p)) false in
  if type_header_len <? 0 then skip_packet p
  else if type_header_len >? sizeof_type_header then skip_packet p
  else if header_length p >? MAX_PACKET_SIZE then skip_packet p
  else if (to_int (header_length p) <? type_header_len)
          || ((to_int (header_length p) >? type_header_len)
              && negb (usbredirparser_expect_extra_data p))
  then skip_packet p
  else
    let data_len := to_int (header_length p - type_header_len) in
    if negb (data_len =? 0) then
      if malloc dm data_len then
        loop_continue header_len
          (set_data_len data_len
             (set_type_header_len type_header_len
                (set_data (Some (repeat 0 (Z.to_nat data_len))) p)))
      else skip_packet p
    else
      loop_continue header_len
        (set_data_len data_len (set_type_header_len type_header_len p)).

(** The block under [if (parser->data_read == parser->data_len)]: the
    packet is complete. *)
Definition do_read_packet_complete (p : usbredirparser_priv) : loop_step :=
  let '(r, hdr) :=
    usbredirparser_verify_type_header p (to_int (header_type p))
      (type_header p) (data p) (data_len p) false in
  let p := set_type_header hdr p in
  let p := if negb (r =? 0) then usbredirparser_call_type_func p else p in
  let p :=
    set_data None
      (set_data_read 0
         (set_data_len 0
            (set_type_header_read 0
               (set_type_header_len 0 (set_header_read 0 p))))) in
  if r =? 0 then loop_return usbredirparser_read_parse_error p
  else loop_continue (usbredirparser_get_header_len p) p.

(** Where the next bytes go. *)
Inductive read_dest := dest_header | dest_type_header | dest_data.

Definition do_read_dest (header_len : Z) (p : usbredirparser_priv)
  : Z * read_dest :=
  if header_read p <? header_len
  then (header_len - header_read p, dest_header)
  else if type_header_read p <? type_header_len p
  then (type_header_len p - type_header_read p, dest_type_header)
  else (data_len p - data_read p, dest_data).

(** [r = parser->callb.read_func(parser->callb.priv, dest, r)]. *)
Definition read_to (dest : read_dest) (count : Z) (p : usbredirparser_priv)
  : Z * usbredirparser_priv :=
  let '(r, bytes, rest) := read_func count (read_input p) in
  let p := set_read_input rest p in
  (r, match dest with
      | dest_header => set_header (memcpy (header p) (header_read p) bytes) p
      | dest_type_header =>
          set_type_header
            (memcpy (type_header p) (type_header_read p) bytes) p
      | dest_data =>
          set_data
            (match data p with
             | Some d => Some (memcpy d (data_read p) bytes)
             | None => None
             end) p
      end).

(** The second half of a turn: the bytes read are accounted for.  The
    cursors are [int]s that stay far from overflow. *)
Definition do_read_account (header_len r : Z) (p : usbredirparser_priv)
  : loop_step :=
  if header_read p <? header_len then
    let p := set_header_read (header_read p + r) p in
    if header_read p =? header_len
    then do_read_header_complete header_len p
    else loop_continue header_len p
  else if type_header_read p <? type_header_len p then
    loop_continue header_len
      (set_type_header_read (type_header_read p + r) p)
  else
    let p := set_data_read (data_read p + r) p in
    if data_read p =? data_len p
    then do_read_packet_complete p
    else loop_continue header_len p.

Definition do_read_turn (header_len : Z) (p : usbredirparser_priv)
  : loop_step :=
  let '(r, dest) := do_read_dest header_len p in
  if r >? 0 then
    let '(r, p) := read_to dest r p in
    if r <=? 0 then loop_return r p
    else do_read_account header_len r p
  else do_read_account header_len r p.

(** Termination of the loop: a turn that reads takes bytes from the
    transport; a turn that does not read completes a packet, and the turn
    after it asks for a header. *)
Definition do_read_measure (header_len : Z) (p : usbredirparser_priv) : nat :=
  (2 * length (read_input p)
   + (if ((header_read p <? header_len)
          || (type_header_read p <? type_header_len p))%Z
      then 0 else 1))%nat.

Lemma usbredirparser_queue_read_input type id th d dl p :
  read_input (usbredirparser_queue type id th d dl p) = read_input p.
Proof.
  unfold usbredirparser_queue.
  repeat match goal with
         | |- context [if ?b then _ else _] => destruct b
         end; reflexivity.
Qed.

Lemma usbredirparser_call_type_func_read_input p :
  read_input (usbredirparser_call_type_func p) = read_input p.
Proof.
  unfold usbredirparser_call_type_func.
  destruct (packet_type_of _) as [t|]; [|reflexivity].
  destruct t; try reflexivity.
  - unfold usbredirparser_handle_hello.
    destruct (negb _); reflexivity.
  - destruct (negb _); [|reflexivity].
    rewrite usbredirparser_queue_read_input. reflexivity.
  - destruct (usbredirfilter_string_to_rules _ _ _ _) as [r rules].
    destruct (negb _); reflexivity.
Qed.

Lemma usbredirparser_get_header_len_pos p :
  0 < usbredirparser_get_header_len p.
Proof.
  unfold usbredirparser_get_header_len.
  destruct (usbredirparser_using_32bits_ids p); reflexivity.
Qed.

Lemma do_read_packet_complete_continue p header_len' p' :
  do_read_packet_complete p = loop_continue header_len' p' ->
  read_input p' = read_input p /\ header_read p' = 0 /\ 0 < header_len'.
Proof.
  unfold do_read_packet_complete.
  destruct (usbredirparser_verify_type_header _ _ _ _ _ _) as [r hdr].
  destruct (r =? 0); [discriminate|]. cbn [negb].
  intros [= <- <-]. cbn.
  split; [|split; [reflexivity | apply usbredirparser_get_header_len_pos]].
  rewrite usbredirparser_call_type_func_read_input. reflexivity.
Qed.

Lemma do_read_header_complete_continue header_len p header_len' p' :
  do_read_header_complete header_len p = loop_continue header_len' p' ->
  read_input p' = read_input p.
Proof.
  unfold do_read_header_complete, skip_packet.
  repeat match goal with
         | |- context [if ?b then _ else _] => destruct b
         end; try discriminate; intros [= <- <-]; reflexivity.
Qed.

Lemma do_read_account_read_input header_len r p header_len' p' :
  do_read_account header_len r p = loop_continue header_len' p' ->
  read_input p' = read_input p.
Proof.
  unfold do_read_account.
  destruct (header_read p <? header_len).
  - match goal with
    | |- context [if ?b then _ else _] => destruct b
    end.
    + intros Hc. apply do_read_header_complete_continue in Hc. exact Hc.
    + intros [= <- <-]. reflexivity.
  - destruct (type_header_read p <? type_header_len p).
    + intros [= <- <-]. reflexivity.
    + match goal with
      | |- context [if ?b then _ else _] => destruct b
      end.
      * intros Hc. apply do_read_packet_complete_continue in Hc.
        destruct Hc as [Hc _]. exact Hc.
      * intros [= <- <-]. reflexivity.
Qed.

Lemma read_to_shorter dest count r p p' :
  read_to dest count p = (r, p') -> (r <=? 0) = false ->
  (length (read_input p') < length (read_input p))%nat.
Proof.
  unfold read_to, read_func. intros [= <- <-] Hr.
  apply Z.leb_gt in Hr.
  destruct dest; cbn; rewrite length_skipn; lia.
Qed.

Lemma do_read_turn_decreases header_len p header_len' p' :
  do_read_turn header_len p = loop_continue header_len' p' ->
  (do_read_measure header_len' p' < do_read_measure header_len p)%nat.
Proof.
  assert (Hread : forall dest count,
             (let '(r, p) := read_to dest count p in
              if r <=? 0 then loop_return r p
              else do_read_account header_len r p)
             = loop_continue header_len' p' ->
             (do_read_measure header_len' p' < do_read_measure header_len p)%nat).
  { intros dest count.
    destruct (read_to dest count p) as [r p1] eqn:Hread.
    destruct (r <=? 0) eqn:Hr0; [discriminate|].
    intros Hc. apply do_read_account_read_input in Hc.
    pose proof (read_to_shorter _ _ _ _ _ Hread Hr0) as Hlt.
    unfold do_read_measure. rewrite Hc.
    repeat match goal with
           | |- context [if ?b then _ else _] => destruct b
           end; lia. }
  unfold do_read_turn, do_read_dest.
  destruct (header_read p <? header_len) eqn:Hh;
    [|destruct (type_header_read p <? type_header_len p) eqn:Ht].
  - apply Z.ltb_lt in Hh.
    replace (header_len - header_read p >? 0) with true
      by (symmetry; apply Z.gtb_lt; lia).
    apply Hread.
  - apply Z.ltb_lt in Ht.
    replace (type_header_len p - type_header_read p >? 0) with true
      by (symmetry; apply Z.gtb_lt; lia).
    apply Hread.
  - destruct (data_len p - data_read p >? 0) eqn:Hr; [apply Hread|].
    unfold do_read_account. rewrite Hh, Ht.
    match goal with
    | |- context [if ?b then _ else _] => destruct b eqn:Hd
    end.
    + intros Hc. apply do_read_packet_complete_continue in Hc.
      destruct Hc as (Hi & Hz & Hpos).
      unfold do_read_measure. rewrite Hh, Ht, Hi, Hz.
      apply Z.ltb_lt in Hpos. rewrite Hpos. cbn. lia.
    + cbn in Hd. apply Z.eqb_neq in Hd. lia.
Qed.

(** [while (1)]: consume data until a read would block or a packet is
    refused. *)
Equations? do_read_loop (header_len : Z) (p : usbredirparser_priv)
  : Z * usbredirparser_priv
  by wf (do_read_measure header_len p) lt :=
do_read_loop header_len p with inspect (do_read_turn header_len p) := {
  | exist _ (loop_return r p') _ := (r, p');
  | exist _ (loop_continue header_len' p') Hturn :=
      do_read_loop header_len' p' }.
Proof.
  exact (do_read_turn_decreases _ _ _ _ Hturn).
Qed.

(** [usbredirparser_do_read]: the return value and the parser after the
    call. *)
Definition usbredirparser_do_read (p : usbredirparser_priv)
  : Z * usbredirparser_priv :=
  let header_len := usbredirparser_get_header_len p in
  match skip_loop p with
  | (Some r, p) => (r, p)
  | (None, p) => do_read_loop header_len p
  end.

(** [snprintf(hello.version, sizeof(hello.version), "%s", version)] into
    the zeroed header. *)
Definition hello_header (version : cstr) : list Z :=
  take_bytes sizeof_usb_redir_hello_header
    (firstn (Z.to_nat (sizeof_usb_redir_hello_header - 1))
       (map (fun c => Z.of_nat (nat_of_ascii c)) version)).

(** [usbredirparser_init]. *)
Definition usbredirparser_init (version : cstr) (caps : list Z)
    (caps_len : Z) (flags_in : Z) (p : usbredirparser_priv)
  : usbredirparser_priv :=
  let p :=
    set_flags (Z.land flags_in (Z.lnot usbredirparser_fl_no_hello)) p in
  let caps_len :=
    if caps_len >? USB_REDIR_CAPS_SIZE then USB_REDIR_CAPS_SIZE
    else caps_len in
  let p :=
    set_our_caps
      (firstn (Z.to_nat caps_len) caps
       ++ skipn (Z.to_nat caps_len) (our_caps p)) p in
  let p :=
    if Z.land flags_in usbredirparser_fl_usb_host =? 0
    then set_our_caps
           (usbredirparser_caps_set_cap (our_caps p)
              usb_redir_cap_device_disconnect_ack) p
    else p in
  let p := set_our_caps (usbredirparser_verify_caps (our_caps p)) p in
  if Z.land flags_in usbredirparser_fl_no_hello =? 0
  then usbredirparser_queue (to_uint (packet_type_value usb_redir_hello)) 0
         (hello_header version) (Some (words_bytes (our_caps p)))
         (USB_REDIR_CAPS_SIZE * 4) p
  else p.

Definition usbredirparser_has_data_to_write (p : usbredirparser_priv) : Z :=
  write_buf_count p.

Definition usbredirparser_get_bufferered_output_size
    (p : usbredirparser_priv) : Z :=
  write_buf_total_size p.

(** *** Serialization *)

(** The state under construction is the list of the bytes written so
    far; [serialize_alloc] is taken to succeed. *)
Definition serialize_int (val : Z) (state : list Z) : list Z :=
  state ++ store32 val.

Definition serialize_data (data : list Z) (len : Z) (state : list Z)
  : list Z :=
  state ++ store32 len ++ take_bytes len data.

Definition serialize_write_bufs (bufs : list usbredirparser_buf)
    (state : list Z) : list Z * Z :=
  fold_left
    (fun '(state, write_buf_count) wbuf =>
       (serialize_data (skipn (Z.to_nat (pos wbuf)) (buf wbuf))
          (to_uint (len wbuf - pos wbuf)) state,
        to_uint (write_buf_count + 1)))
    bufs (state, 0).

(** [usbredirparser_serialize]: the return value, [*state_dest] and
    [*state_len]. *)
Definition usbredirparser_serialize (p : usbredirparser_priv)
  : Z * list Z * Z :=
  let state := serialize_int USBREDIRPARSER_SERIALIZE_MAGIC [] in
  let state := serialize_int 0 state in
  let state :=
    serialize_data (words_bytes (our_caps p)) (USB_REDIR_CAPS_SIZE * 4)
      state in
  let state :=
    if negb (have_peer_caps p =? 0)
    then serialize_data (words_bytes (peer_caps p))
           (USB_REDIR_CAPS_SIZE * 4) state
    else serialize_int 0 state in
  let state := serialize_int (to_uint (to_skip p)) state in
  let state := serialize_data (header p) (to_uint (header_read p)) state in
  let state :=
    serialize_data (type_header p) (to_uint (type_header_read p)) state in
  let state :=
    serialize_data (match data p with Some d => d | None => [] end)
      (to_uint (data_read p)) state in
  let write_buf_count_pos := Z.of_nat (length state) in
  let state := serialize_int 0 state in
  let '(state, write_buf_count) :=
    serialize_write_bufs (write_buf p) state in
  let state := memcpy state write_buf_count_pos (store32 write_buf_count) in
  let len := to_uint (Z.of_nat (length state)) in
  let state := memcpy state 4 (store32 len) in
  (0, state, to_int len).

(** [unserialize_int]: the value, and [*pos], [*remain] after it. *)
Definition unserialize_int (state : list Z) (remain : Z)
  : option (Z * list Z * Z) :=
  if remain <? 4 then None
  else Some (load32 0 state, skipn 4 state, remain - 4).

(** [unserialize_data]: [*data] and [*len_in_out] after the call, then
    [*pos] and [*remain].  [len] is a [uint32_t] handed to [malloc]. *)
Definition unserialize_data (state : list Z) (remain : Z)
    (data : option (list Z)) (len_in_out : Z)
  : option (option (list Z) * Z * list Z * Z) :=
  if remain <? 4 then None
  else
    let len := load32 0 state in
    let state := skipn 4 state in
    let remain := remain - 4 in
    if remain <? len then None
    else
      let copy (d : list Z) :=
        Some (Some (memcpy d 0 (take_bytes len state)), len,
              skipn (Z.to_nat len) state, remain - len) in
      match data with
      | None =>
          if len >? 0 then
            if malloc dm len then copy (repeat 0 (Z.to_nat len)) else None
          else if len_in_out <? len then None
          else Some (None, len, skipn (Z.to_nat len) state, remain - len)
      | Some d => if len_in_out <? len then None else copy d
      end.

(** The [while (i)] loop over the write buffers, and the end of
    [usbredirparser_unserialize]. *)
Equations? unserialize_write_bufs (i : Z) (state : list Z) (remain : Z)
    (p : usbredirparser_priv) : Z * usbredirparser_priv
  by wf (Z.to_nat remain) lt :=
unserialize_write_bufs i state remain p with inspect (i =? 0) := {
  | exist _ true _ := if negb (remain =? 0) then (-1, p) else (0, p);
  | exist _ false _ with inspect (unserialize_data state remain None 0) := {
    | exist _ None _ := (-1, p);
    | exist _ (Some (b, l, state', remain')) Hd with inspect (l =? 0) := {
      | exist _ true _ := (-1, p);
      | exist _ false Hl :=
          unserialize_write_bufs (to_uint (i - 1)) state' remain'
            (set_write_buf (to_int (write_buf_count p + 1))
               (write_buf p
                ++ [mk_buf (match b with Some d => d | None => [] end) 0
                      (to_int l)])
               (to_uint64 (write_buf_total_size p + to_int l)) p) } } }.
Proof.
  unfold unserialize_data in Hd.
  destruct (remain <? 4) eqn:H4; [discriminate|].
  destruct (remain - 4 <? load32 0 state) eqn:Hlen; [discriminate|].
  apply Z.ltb_ge in H4, Hlen. apply Z.eqb_neq in Hl.
  assert (l = load32 0 state /\ remain' = remain - 4 - l) as [-> ->].
  { cbn in Hd.
    destruct (load32 0 state >? 0); [destruct (malloc _ _)|];
      try discriminate; try (destruct (0 <? load32 0 state); [discriminate|]);
      injection Hd as _ <- _ <-; split; reflexivity. }
  pose proof (load32_range 0 state). lia.
Qed.

(** The test for a pristine parser. *)
Definition pristine (p : usbredirparser_priv) : bool :=
  (write_buf_count p =? 0)
  && (match write_buf p with [] => true | _ => false end)
  && (write_buf_total_size p =? 0)
  && (match data p with None => true | Some _ => false end)
  && (header_read p =? 0) && (type_header_read p =? 0)
  && (data_read p =? 0).

(** [parser->our_caps[i] & ~orig_caps[i]] for some [i]: the source has a
    capability we have not. *)
Definition caps_mismatch (caps orig_caps : list Z) : bool :=
  existsb (fun '(c, o) => negb (Z.land c (Z.lnot o) =? 0))
    (combine caps orig_caps).

(** [usbredirparser_unserialize], from the packet data on: the header and
    the type header are in place. *)
Definition unserialize_packet_data (header_len : Z) (state : list Z)
    (remain : Z) (p : usbredirparser_priv) : Z * usbredirparser_priv :=
  let alloc :=
    if type_header_read p =? type_header_len p then
      let p :=
        set_data_len (to_int (header_length p - type_header_len p)) p in
      if negb (data_len p =? 0) then
        if malloc dm (data_len p)
        then Some (set_data (Some (repeat 0 (Z.to_nat (data_len p)))) p)
        else None
      else Some p
    else Some p in
  match alloc with
  | None =>
      (-1, set_data None
             (set_data_len (to_int (header_length p - type_header_len p))
                p))
  | Some p =>
      match unserialize_data state remain (data p) (to_uint (data_len p))
      with
      | None => (-1, set_data_len 0 (set_data None p))
      | Some (d, i, state, remain) =>
          let p := set_data d p in
          let p :=
            if (to_uint (header_read p) =? header_len)
               && (type_header_read p =? type_header_len p)
               && (data_len p >? 0)
            then set_data_read (to_int i) p
            else match data p with
                 | Some _ => set_data_len 0 (set_data None p)
                 | None => p
                 end in
          match unserialize_int state remain with
          | None => (-1, p)
          | Some (i, state, remain) =>
              unserialize_write_bufs i state remain p
          end
      end
  end.

(** From the fixed header on: the capabilities and [to_skip] are in
    place. *)
Definition unserialize_packet (state : list Z) (remain : Z)
    (p : usbredirparser_priv) : Z * usbredirparser_priv :=
  let header_len := to_uint (usbredirparser_get_header_len p) in
  match unserialize_data state remain (Some (header p)) header_len with
  | None => (-1, p)
  | Some (d, i, state, remain) =>
      let p :=
        set_header (match d with Some d => d | None => header p end) p in
      let p := set_type_header_len 0 (set_header_read (to_int i) p) in
      let checked :=
        if to_uint (header_read p) =? header_len then
          if header_length p >? MAX_PACKET_SIZE then None
          else
            let type_header_len :=
              usbredirparser_get_type_header_len p
                (to_int (header_type p)) false in
            if (type_header_len <? 0)
               || (type_header_len >? sizeof_type_header)
               || (header_length p <? to_uint type_header_len)
               || ((header_length p >? to_uint type_header_len)
                   && negb (usbredirparser_expect_extra_data p))
            then None
            else Some (set_type_header_len type_header_len p)
        else Some p in
      match checked with
      | None => (-1, p)
      | Some p =>
          match unserialize_data state remain (Some (type_header p))
                  (to_uint (type_header_len p)) with
          | None => (-1, p)
          | Some (d, i, state, remain) =>
              let p :=
                set_type_header
                  (match d with Some d => d | None => type_header p end)
                  p in
              let p :=
                if to_uint (header_read p) =? header_len
                then set_type_header_read (to_int i) p else p in
              unserialize_packet_data header_len state remain p
          end
      end
  end.

(** [usbredirparser_unserialize (parser, state, len)]: the return value
    and the parser after the call, which on [-1] keeps what was stored
    before the failure. *)
Definition usbredirparser_unserialize (state : list Z) (len : Z)
    (p : usbredirparser_priv) : Z * usbredirparser_priv :=
  let remain := to_uint len in
  match unserialize_int state remain with
  | None => (-1, p)
  | Some (i, state, remain) =>
      if negb (i =? USBREDIRPARSER_SERIALIZE_MAGIC) then (-1, p)
      else if negb (pristine p) then (-1, p)
      else
        match unserialize_int state remain with
        | None => (-1, p)
        | Some (i, state, remain) =>
            if negb (i =? to_uint len) then (-1, p)
            else
              let orig_caps := our_caps p in
              match unserialize_data state remain
                      (Some (words_bytes (our_caps p)))
                      (USB_REDIR_CAPS_SIZE * 4) with
              | None => (-1, p)
              | Some (d, _, state, remain) =>
                  let p :=
                    set_our_caps
                      (bytes_words (Z.to_nat USB_REDIR_CAPS_SIZE) 0
                         (match d with Some d => d | None => [] end)) p in
                  if caps_mismatch (our_caps p) orig_caps then (-1, p)
                  else
                    match unserialize_data state remain
                            (Some (words_bytes (peer_caps p)))
                            (USB_REDIR_CAPS_SIZE * 4) with
                    | None => (-1, p)
                    | Some (d, i, state, remain) =>
                        let p :=
                          set_peer_caps
                            (bytes_words (Z.to_nat USB_REDIR_CAPS_SIZE) 0
                               (match d with Some d => d | None => [] end))
                            p in
                        let p :=
                          if negb (i =? 0) then set_have_peer_caps 1 p
                          else p in
                        match unserialize_int state remain with
                        | None => (-1, p)
                        | Some (i, state, remain) =>
                            unserialize_packet state remain
                              (set_to_skip (to_int i) p)
                        end
                    end
              end
        end
  end.

(** The parser once [hdr], a fixed header of [header_len] bytes, has
    been read from the transport, which goes on with [rest]. *)
Definition header_received (header_len : Z) (hdr rest : list Z)
    (p : usbredirparser_priv) : usbredirparser_priv :=
  set_header_read header_len
    (set_header (memcpy (header p) 0 hdr) (set_read_input rest p)).

(** The framing violations of a complete fixed header: an unknown type,
    a declared length above [MAX_PACKET_SIZE], a length below that of the
    type specific header, or above it for a type without extra data. *)
Definition framing_violation (p : usbredirparser_priv) : Prop :=
  let type_header_len :=
    usbredirparser_get_type_header_len p (to_int (header_type p)) false in
  type_header_len < 0
  \/ MAX_PACKET_SIZE < header_length p
  \/ to_int (header_length p) < type_header_len
  \/ (type_header_len < to_int (header_length p)
      /\ usbredirparser_expect_extra_data p = false).

(** Until a hello of the peer has been handled the peer's capability
    words are the zeros [usbredirparser_create] left there. *)
Definition peer_caps_clear (p : usbredirparser_priv) : Prop :=
  have_peer_caps p = 0 ->
  peer_caps p = repeat 0 (Z.to_nat USB_REDIR_CAPS_SIZE).

(** The parsers a user of the library can get to: created and
    initialised, then driven by reads, by the sending functions, which
    all end in [usbredirparser_queue], and by unserialization, while the
    transport delivers bytes. *)
Inductive parser_reachable : usbredirparser_priv -> Prop :=
  | reach_init version caps caps_len flags_in transport :
      parser_reachable
        (usbredirparser_init version caps caps_len flags_in
           (usbredirparser_create transport))
  | reach_receive bytes p :
      parser_reachable p ->
      parser_reachable (set_read_input (read_input p ++ bytes) p)
  | reach_do_read p :
      parser_reachable p ->
      parser_reachable (snd (usbredirparser_do_read p))
  | reach_queue type id type_header_in data_in data_len p :
      parser_reachable p ->
      parser_reachable
        (usbredirparser_queue type id type_header_in data_in data_len p)
  | reach_unserialize state len p :
      parser_reachable p ->
      parser_reachable (snd (usbredirparser_unserialize state len p)).

End Parser.

(** The values of usbredirproto.h and usbredirparser.h in usbredir 0.12,
    with the packed layouts of the type specific headers, to run the
    parser on concrete packets. *)
Definition packet_type_value_0_12 (t : usb_redir_packet_type) : Z :=
  match t with
  | usb_redir_hello => 0
  | usb_redir_device_connect => 1
  | usb_redir_device_disconnect => 2
  | usb_redir_reset => 3
  | usb_redir_interface_info => 4
  | usb_redir_ep_info => 5
  | usb_redir_set_configuration => 6
  | usb_redir_get_configuration => 7
  | usb_redir_configuration_status => 8
  | usb_redir_set_alt_setting => 9
  | usb_redir_get_alt_setting => 10
  | usb_redir_alt_setting_status => 11
  | usb_redir_start_iso_stream => 12
  | usb_redir_stop_iso_stream => 13
  | usb_redir_iso_stream_status => 14
  | usb_redir_start_interrupt_receiving => 15
  | usb_redir_stop_interrupt_receiving => 16
  | usb_redir_interrupt_receiving_status => 17
  | usb_redir_alloc_bulk_streams => 18
  | usb_redir_free_bulk_streams => 19
  | usb_redir_bulk_streams_status => 20
  | usb_redir_cancel_data_packet => 21
  | usb_redir_filter_reject => 22
  | usb_redir_filter_filter => 23
  | usb_redir_device_disconnect_ack => 24
  | usb_redir_start_bulk_receiving => 25
  | usb_redir_stop_bulk_receiving => 26
  | usb_redir_bulk_receiving_status => 27
  | usb_redir_control_packet => 100
  | usb_redir_bulk_packet => 101
  | usb_redir_iso_packet => 102
  | usb_redir_interrupt_packet => 103
  | usb_redir_buffered_bulk_packet => 104
  end.

Lemma packet_type_value_0_12_inj t1 t2 :
  packet_type_value_0_12 t1 = packet_type_value_0_12 t2 -> t1 = t2.
Proof.
  destruct t1, t2; intros E; try reflexivity; discriminate E.
Qed.

Lemma packet_type_value_0_12_int t :
  - 2 ^ 31 <= packet_type_value_0_12 t < 2 ^ 31.
Proof.
  destruct t; cbn; lia.
Qed.

Definition header_endpoint_0_12 (t : usb_redir_packet_type) (hdr : list Z)
  : Z :=
  match t with
  | usb_redir_interrupt_receiving_status => load8 1 hdr
  | usb_redir_start_bulk_receiving => load8 8 hdr
  | usb_redir_stop_bulk_receiving | usb_redir_bulk_receiving_status =>
      load8 4 hdr
  | usb_redir_buffered_bulk_packet => load8 8 hdr
  | _ => load8 0 hdr
  end.

Definition header_length_field_0_12 (t : usb_redir_packet_type)
    (hdr : list Z) : Z :=
  match t with
  | usb_redir_control_packet => load16 8 hdr
  | usb_redir_buffered_bulk_packet => load32 4 hdr
  | _ => load16 2 hdr
  end.

#[local] Instance usbredirproto_h_0_12 : usbredirproto_h := {|
  USB_REDIR_CAPS_SIZE := 1;
  USB_REDIR_CAPS_SIZE_pos := eq_refl;
  usb_redir_cap_bulk_streams := 0;
  usb_redir_cap_connect_device_version := 1;
  usb_redir_cap_filter := 2;
  usb_redir_cap_device_disconnect_ack := 3;
  usb_redir_cap_ep_info_max_packet_size := 4;
  usb_redir_cap_64bits_ids := 5;
  usb_redir_cap_32bits_bulk_length := 6;
  usb_redir_cap_bulk_receiving := 7;
  packet_type_value := packet_type_value_0_12;
  packet_type_value_inj := packet_type_value_0_12_inj;
  packet_type_value_int := packet_type_value_0_12_int;
  sizeof_usb_redir_hello_header := 64;
  sizeof_usb_redir_device_connect_header := 10;
  sizeof_usb_redir_device_connect_header_no_device_version := 8;
  sizeof_usb_redir_interface_info_header := 132;
  sizeof_usb_redir_ep_info_header := 288;
  sizeof_usb_redir_ep_info_header_no_max_streams := 160;
  sizeof_usb_redir_ep_info_header_no_max_pktsz := 96;
  sizeof_usb_redir_set_configuration_header := 1;
  sizeof_usb_redir_configuration_status_header := 2;
  sizeof_usb_redir_set_alt_setting_header := 2;
  sizeof_usb_redir_get_alt_setting_header := 1;
  sizeof_usb_redir_alt_setting_status_header := 3;
  sizeof_usb_redir_start_iso_stream_header := 3;
  sizeof_usb_redir_stop_iso_stream_header := 1;
  sizeof_usb_redir_iso_stream_status_header := 2;
  sizeof_usb_redir_start_interrupt_receiving_header := 1;
  sizeof_usb_redir_stop_interrupt_receiving_header := 1;
  sizeof_usb_redir_interrupt_receiving_status_header := 2;
  sizeof_usb_redir_alloc_bulk_streams_header := 8;
  sizeof_usb_redir_free_bulk_streams_header := 4;
  sizeof_usb_redir_bulk_streams_status_header := 9;
  sizeof_usb_redir_start_bulk_receiving_header := 10;
  sizeof_usb_redir_stop_bulk_receiving_header := 5;
  sizeof_usb_redir_bulk_receiving_status_header := 6;
  sizeof_usb_redir_control_packet_header := 10;
  sizeof_usb_redir_bulk_packet_header := 10;
  sizeof_usb_redir_bulk_packet_header_16bit_length := 8;
  sizeof_usb_redir_iso_packet_header := 4;
  sizeof_usb_redir_interrupt_packet_header := 4;
  sizeof_usb_redir_buffered_bulk_packet_header := 10;
  interface_info_interface_count := load32 0;
  header_endpoint := header_endpoint_0_12;
  header_length_field := header_length_field_0_12;
  start_bulk_receiving_bytes_per_transfer := load32 4;
  bulk_packet_length_high := load16 8;
  set_bulk_packet_length_high v hdr := memcpy hdr 8 [v mod 256; v / 256 mod 256]
|}.

#[local] Instance usbredirparser_h_0_12 : usbredirparser_h := {|
  usbredirparser_fl_usb_host := 0x01;
  usbredirparser_fl_write_cb_owns_buffer := 0x02;
  usbredirparser_fl_no_hello := 0x04;
  usbredirparser_read_parse_error := -2;
  USBREDIRPARSER_SERIALIZE_MAGIC := 0x55525031
|}.

(** Parsers to run: a host side parser that sends no hello, and a guest
    side parser, both offering the filter and the 64-bit id capabilities,
    on a machine with 64-bit pointers.  [transport] is what the peer has
    sent so far. *)
Definition parser_host (transport : list Z) : usbredirparser_priv :=
  usbredirparser_init (H0 := usbredirparser_h_0_12) LP64
    (list_ascii_of_string "usbredirhost 0.12") [0x24] 1 0x05
    (usbredirparser_create (H := usbredirproto_h_0_12) transport).

Definition parser_guest (transport : list Z) : usbredirparser_priv :=
  usbredirparser_init (H0 := usbredirparser_h_0_12) LP64
    (list_ascii_of_string "usbredirguest 0.12") [0x24] 1 0x00
    (usbredirparser_create (H := usbredirproto_h_0_12) transport).

(** A fixed header on the wire, in the 32-bit id and in the 64-bit id
    form. *)
Definition fixed_header_32 (type length id : Z) : list Z :=
  store32 type ++ store32 length ++ store32 id.
Definition fixed_header_64 (type length id : Z) : list Z :=
  store32 type ++ store32 length ++ store64 id.

(** The transport delivers more bytes. *)
Definition receive (bytes : list Z) (p : usbredirparser_priv)
  : usbredirparser_priv :=
  set_read_input (read_input p ++ bytes) p.

(** [usbredirparser_unserialize] of the serialized state of [P], on a
    fresh host side parser with the capabilities [P] was set up with. *)
Definition restore (P : usbredirparser_priv) : Z * usbredirparser_priv :=
  let '(_, state, len) :=
    usbredirparser_serialize (H := usbredirproto_h_0_12)
      (H0 := usbredirparser_h_0_12) P in
  usbredirparser_unserialize (H := usbredirproto_h_0_12)
    (H0 := usbredirparser_h_0_12) LP64 state len (parser_host []).

(** A host side parser that has read the first eight bytes of a fixed
    header, whose length field is [0xFFFFFFFF]. *)
Definition parser_partial_header : usbredirparser_priv :=
  snd (usbredirparser_do_read (H := usbredirproto_h_0_12)
         (H0 := usbredirparser_h_0_12) LP64
         (parser_host (store32 21 ++ store32 0xFFFFFFFF))).

(** A hello packet of the peer: the fixed header, then the 64 bytes of
    the version and one word of capabilities. *)
Definition hello_fixed_header : list Z := fixed_header_32 0 68 0.
Definition hello_payload : list Z :=
  hello_header (H := usbredirproto_h_0_12) (list_ascii_of_string "peer")
  ++ store32 0x24.

(** A host side parser that has read the fixed header of the hello and
    nothing of what follows it. *)
Definition parser_partial_hello : usbredirparser_priv :=
  snd (usbredirparser_do_read (H := usbredirproto_h_0_12)
         (H0 := usbredirparser_h_0_12) LP64
         (parser_host hello_fixed_header)).
(* --------------------------------------------------------------------- *)
(** ** usbredirhost.c: terms of the properties below                      *)
(* --------------------------------------------------------------------- *)

(** The id and the status of a data packet handed to the parser. *)
Definition data_packet_id (c : parser_call) : option Z :=
  match c with
  | usbredirparser_send_control_packet id _ _
  | usbredirparser_send_bulk_packet id _ _
  | usbredirparser_send_iso_packet id _ _
  | usbredirparser_send_interrupt_packet id _ _
  | usbredirparser_send_buffered_bulk_packet id _ _ => Some id
  | _ => None
  end.

Definition data_packet_status (c : parser_call)
  : option usb_redir_status_t :=
  match c with
  | usbredirparser_send_control_packet _ h _ => Some (cp_status h)
  | usbredirparser_send_bulk_packet _ h _ => Some (bp_status h)
  | usbredirparser_send_iso_packet _ h _ => Some (isop_status h)
  | usbredirparser_send_interrupt_packet _ h _ => Some (ip_status h)
  | usbredirparser_send_buffered_bulk_packet _ h _ => Some (bbp_status h)
  | _ => None
  end.

(** The handles of the records in the slots [i .. i + n - 1] of a ring, in
    the order of the slots: those that are submitted, or those that are
    not.  It is used for rings whose slots hold records; a NULL slot has
    no handle. *)
Fixpoint ring_handles (submitted : bool) (n i : nat)
    (ring : list (option stream_transfer)) : list nat :=
  match n with
  | O => []
  | S n' =>
      match nth i ring None with
      | Some t =>
          if Bool.eqb (s_packet_idx t =? SUBMITTED_IDX) submitted
          then [s_transfer t] else []
      | None => []
      end ++ ring_handles submitted n' (S i) ring
  end.



(** A call that sends a device_disconnect, and the device_disconnect
    packets the host has handed to the parser. *)
Definition is_disconnect (c : parser_call) : bool :=
  match c with
  | usbredirparser_send_device_disconnect => true
  | _ => false
  end.

Definition device_disconnects (h : usbredirhost) : nat :=
  length (List.filter is_disconnect (calls (parser h))).

(** What a function did about the disconnect: nothing, or the one
    report. *)
Definition disconnect_step (h h' : usbredirhost) : Prop :=
  (device_disconnects h' = device_disconnects h
   /\ disconnected h' = disconnected h)
  \/ (disconnected h = 0 /\ disconnected h' = 1
      /\ device_disconnects h' = S (device_disconnects h)).

(** A function that sends no device_disconnect and leaves the flag
    alone. *)
Definition quiet (h h' : usbredirhost) : Prop :=
  device_disconnects h' = device_disconnects h
  /\ disconnected h' = disconnected h.

Section HostCalls.
Context `{usbredirhost_h}.

(** The functions of the host that packets from the guest and completions
    of transfers lead to, with their arguments. *)
Inductive host_call :=
| call_cancel_data_packet (id : Z)
| call_transfer_complete (a : nat) (status : libusb_code) (buffer : list Z)
| call_cancel_stream (ep : Z)
| call_submit_stream_transfer (ep : Z) (i : nat)
| call_start_stream (ep : Z)
| call_alloc_stream (id ep : Z) (type : usb_redir_type_t)
    (pkts_per_transfer pkt_size transfer_count send_success : Z)
| call_send_stream_data (id ep : Z) (status : usb_redir_status_t)
    (data : list Z).

(** A call on the host; [None] when it dereferences a NULL slot of a
    ring. *)
Definition host_call_do (c : host_call) (h : usbredirhost)
  : option usbredirhost :=
  match c with
  | call_cancel_data_packet id => Some (usbredirhost_cancel_data_packet id h)
  | call_transfer_complete a status buffer =>
      Some (transfer_complete a status buffer h)
  | call_cancel_stream ep => usbredirhost_cancel_stream_unlocked ep h
  | call_submit_stream_transfer ep i =>
      option_map fst (usbredirhost_submit_stream_transfer_unlocked ep i h)
  | call_start_stream ep =>
      option_map fst (usbredirhost_start_stream_unlocked ep h)
  | call_alloc_stream id ep type pkts_per_transfer pkt_size transfer_count
      send_success =>
      usbredirhost_alloc_stream_unlocked id ep type pkts_per_transfer
        pkt_size transfer_count send_success h
  | call_send_stream_data id ep status data =>
      Some (usbredirhost_send_stream_data id ep status data h)
  end.

Fixpoint host_calls (cs : list host_call) (h : usbredirhost)
  : option usbredirhost :=
  match cs with
  | [] => Some h
  | c :: cs' =>
      match host_call_do c h with
      | None => None
      | Some h' => host_calls cs' h'
      end
  end.

End HostCalls.

(* --------------------------------------------------------------------- *)
(** ** usbredirparser.c: the parts of a turn of the reading loop         *)
(* --------------------------------------------------------------------- *)

(** A turn's outcome with the transport replaced. *)
Definition step_input (x : list Z) (s : loop_step) : loop_step :=
  match s with
  | loop_continue header_len p => loop_continue header_len (set_read_input x p)
  | loop_return r p => loop_return r (set_read_input x p)
  end.

(** The store of [read_to], and the step of the cursor that
    [do_read_account] takes for it. *)
Definition read_store (dest : read_dest) (bytes : list Z)
    (p : usbredirparser_priv) : usbredirparser_priv :=
  match dest with
  | dest_header => set_header (memcpy (header p) (header_read p) bytes) p
  | dest_type_header =>
      set_type_header (memcpy (type_header p) (type_header_read p) bytes) p
  | dest_data =>
      set_data
        (match data p with
         | Some d => Some (memcpy d (data_read p) bytes)
         | None => None
         end) p
  end.

Definition read_advance (dest : read_dest) (r : Z)
    (p : usbredirparser_priv) : usbredirparser_priv :=
  match dest with
  | dest_header => set_header_read (header_read p + r) p
  | dest_type_header => set_type_header_read (type_header_read p + r) p
  | dest_data => set_data_read (data_read p + r) p
  end.

(* --------------------------------------------------------------------- *)
(** ** usbredirparser.c: writing                                          *)
(* --------------------------------------------------------------------- *)

(** [parser->callb.write_func (priv, data, count)].  The callback is the
    user's; what the model knows of it is the room it has at each call:
    with room it takes as many of the [count] bytes as fit and returns
    their number, without room it returns the room itself, [0] for "would
    block", a negative number for an error. *)
Definition write_func (room count : Z) : Z :=
  if room <=? 0 then room else Z.min room count.

(** The bytes of a write buffer that are still to be written:
    [wbuf->buf + wbuf->pos], [wbuf->len - wbuf->pos] of them. *)
Definition unwritten (wbuf : usbredirparser_buf) : list Z :=
  firstn (Z.to_nat (len wbuf - pos wbuf))
    (skipn (Z.to_nat (pos wbuf)) (buf wbuf)).

(** What [usbredirparser_assert_invariants] asserts of one write buffer,
    with the range of the [int] [len] and the size of the allocation
    [buf] points to. *)
Definition write_buf_ok (wbuf : usbredirparser_buf) : Prop :=
  0 <= pos wbuf <= len wbuf /\ len wbuf < 2 ^ 31
  /\ Z.of_nat (length (buf wbuf)) = len wbuf.

(** ... and of the queue: [write_buf_count] counts the buffers and
    [write_buf_total_size] adds up their lengths, in [int] and [uint64_t]
    arithmetic. *)
Definition write_invariants (p : usbredirparser_priv) : Prop :=
  Forall write_buf_ok (write_buf p)
  /\ write_buf_count p = to_int (Z.of_nat (length (write_buf p)))
  /\ write_buf_total_size p
     = to_uint64 (fold_right Z.add 0 (map len (write_buf p))).

Section ParserWriting.
Context `{usbredirproto_h} `{usbredirparser_h}.

(** The loop of [usbredirparser_do_write] over the calls of the callback,
    whose rooms are [rooms]; behind the last of them the callback is
    taken to block.  [written] collects the bytes the callback has taken.
    [None]: the function has called [abort ()]. *)
Fixpoint do_write_loop (rooms : list Z) (p : usbredirparser_priv)
    (written : list Z) : option (Z * usbredirparser_priv * list Z) :=
  match write_buf p, rooms with
  | [], _ => Some (0, p, written)
  | _ :: _, [] => Some (0, p, written)
  | wbuf :: next, room :: rooms' =>
      let w := write_func room (to_int (len wbuf - pos wbuf)) in
      if w <=? 0 then Some (w, p, written)
      else if negb (Z.land (flags p) usbredirparser_fl_write_cb_owns_buffer
                    =? 0)
              && negb (w =? len wbuf)
      then None
      else
        let written :=
          written ++ firstn (Z.to_nat w)
                       (skipn (Z.to_nat (pos wbuf)) (buf wbuf)) in
        let pos' := to_int (pos wbuf + w) in
        if pos' =? len wbuf then
          do_write_loop rooms'
            (set_write_buf (to_int (write_buf_count p - 1)) next
               (to_uint64 (write_buf_total_size p - len wbuf)) p)
            written
        else
          do_write_loop rooms'
            (set_write_buf (write_buf_count p)
               (mk_buf (buf wbuf) pos' (len wbuf) :: next)
               (write_buf_total_size p) p)
            written
  end.

(** [usbredirparser_do_write]: the return value, the parser after the
    call and the bytes handed to the callback, in order. *)
Definition usbredirparser_do_write (rooms : list Z)
    (p : usbredirparser_priv)
  : option (Z * usbredirparser_priv * list Z) :=
  do_write_loop rooms p [].

(** The capability arrays are arrays of [USB_REDIR_CAPS_SIZE] words of
    type [uint32_t]. *)
Definition caps_array (caps : list Z) : Prop :=
  Z.of_nat (length caps) = USB_REDIR_CAPS_SIZE
  /\ Forall (fun w => 0 <= w < 2 ^ 32) caps.

(** What [usbredirparser_serialize] writes for one write buffer: the
    number of its unwritten bytes, and those bytes. *)
Definition serialized_buf (wbuf : usbredirparser_buf) : list Z :=
  store32 (to_uint (len wbuf - pos wbuf))
  ++ take_bytes (to_uint (len wbuf - pos wbuf))
       (skipn (Z.to_nat (pos wbuf)) (buf wbuf)).

(** The write buffer [usbredirparser_unserialize] builds from it: the
    unwritten bytes, none of them written. *)
Definition restored (wbuf : usbredirparser_buf) : usbredirparser_buf :=
  mk_buf (unwritten wbuf) 0 (len wbuf - pos wbuf).

(** The serialized state of a parser between two packets, behind the
    magic and the length. *)
Definition serialized_body (P : usbredirparser_priv) : list Z :=
  (store32 (USB_REDIR_CAPS_SIZE * 4) ++ words_bytes (our_caps P))
  ++ (if have_peer_caps P =? 0 then store32 0
      else store32 (USB_REDIR_CAPS_SIZE * 4) ++ words_bytes (peer_caps P))
  ++ store32 (to_uint (to_skip P))
  ++ store32 0 ++ store32 0 ++ store32 0
  ++ store32 (to_uint (Z.of_nat (length (write_buf P))))
  ++ flat_map serialized_buf (write_buf P).

(** The capabilities of [P] stored in [q]; the peer's only when [P] has
    them. *)
Definition restored_caps (P q : usbredirparser_priv) : usbredirparser_priv :=
  let q := set_our_caps (our_caps P) q in
  if have_peer_caps P =? 0 then q
  else set_have_peer_caps 1 (set_peer_caps (peer_caps P) q).

(** The read side of [usbredirparser_assert_invariants], with the buffers
    the cursors point into: the fixed header of 16 bytes and [data] of
    [data_len] bytes; and while the fixed header is incomplete nothing of
    the packet behind it has been read. *)
Definition read_invariants (p : usbredirparser_priv) : Prop :=
  0 <= header_read p <= usbredirparser_get_header_len p
  /\ 0 <= type_header_read p <= type_header_len p
  /\ type_header_len p <= sizeof_type_header
  /\ 0 <= data_read p <= data_len p
  /\ data_len p <= MAX_PACKET_SIZE
  /\ match data p with
     | Some d => data_len p <> 0 /\ Z.of_nat (length d) = data_len p
     | None => data_len p = 0
     end
  /\ Z.of_nat (length (header p)) = sizeof_usb_redir_header
  /\ (header_read p < usbredirparser_get_header_len p ->
      type_header_read p = 0 /\ data_read p = 0 /\ data p = None).

(** [usbredirparser_send_cancel_data_packet]. *)
Definition usbredirparser_send_cancel_data_packet (dm : data_model) (id : Z)
    (p : usbredirparser_priv) : usbredirparser_priv :=
  usbredirparser_queue dm
    (to_uint (packet_type_value usb_redir_cancel_data_packet)) id [] None 0
    p.

(** The bytes of a hello packet: the fixed header in its 32-bit id form,
    the hello header and the capability words. *)
Definition hello_fixed (dl : Z) : list Z :=
  store32 (to_uint (packet_type_value usb_redir_hello))
  ++ store32 (to_uint (sizeof_usb_redir_hello_header + dl))
  ++ store32 0.

Definition hello_packet (hello : list Z) (caps : list Z) : list Z :=
  hello_fixed (USB_REDIR_CAPS_SIZE * 4) ++ hello ++ words_bytes caps.

(** The runs of a parser: it is created and initialised, and then the
    transport delivers bytes, the user reads, sends (every sending
    function ends in [usbredirparser_queue], here with a data length that
    is not negative and a packet size within an [int]), writes, and
    unserializes a state of a length that is not negative. *)
Inductive parser_run (dm : data_model) : usbredirparser_priv -> Prop :=
  | run_init version caps caps_len flags_in transport :
      parser_run dm
        (usbredirparser_init dm version caps caps_len flags_in
           (usbredirparser_create transport))
  | run_receive bytes p :
      parser_run dm p ->
      parser_run dm (set_read_input (read_input p ++ bytes) p)
  | run_do_read p :
      parser_run dm p -> parser_run dm (snd (usbredirparser_do_read dm p))
  | run_queue type id type_header_in data_in data_len p :
      parser_run dm p -> 0 <= data_len ->
      usbredirparser_get_header_len p
      + usbredirparser_get_type_header_len p (to_int type) true + data_len
      < 2 ^ 31 ->
      parser_run dm
        (usbredirparser_queue dm type id type_header_in data_in data_len p)
  | run_do_write rooms p r p' written :
      parser_run dm p ->
      usbredirparser_do_write rooms p = Some (r, p', written) ->
      parser_run dm p'
  | run_unserialize state len p :
      parser_run dm p -> 0 <= len < 2 ^ 31 ->
      parser_run dm (snd (usbredirparser_unserialize dm state len p)).

End ParserWriting.

(* --------------------------------------------------------------------- *)
(** ** usbredirparser.c: sending a filter                                 *)
(* --------------------------------------------------------------------- *)

(** The bytes of a C string, with its terminating NUL. *)
Definition c_string_bytes (str : cstr) : list Z :=
  map (fun c => Z.of_nat (nat_of_ascii c)) str ++ [0].

Section SendFilter.
Context `{usbredirproto_h} `{usbredirparser_h}.

(** [usbredirparser_send_filter_filter]; the rule array with its count is
    the list, [strlen(str) + 1] is a [size_t] handed over as an [int].
    [None] when [usbredirfilter_rules_to_string] is undefined. *)
Definition usbredirparser_send_filter_filter (dm : data_model)
    (rules : list usbredirfilter_rule) (p : usbredirparser_priv)
  : option usbredirparser_priv :=
  if usbredirparser_peer_has_cap p usb_redir_cap_filter =? 0 then Some p
  else
    match usbredirfilter_rules_to_string dm rules comma bar with
    | None => None
    | Some None => Some p
    | Some (Some str) =>
        Some (usbredirparser_queue dm
                (to_uint (packet_type_value usb_redir_filter_filter)) 0 []
                (Some (c_string_bytes str))
                (to_int (Z.of_nat (length str) + 1)) p)
    end.

End SendFilter.
(* ===================================================================== *)
(** * Part II: properties                                                 *)
(* ===================================================================== *)

(* --------------------------------------------------------------------- *)
(** ** The filter check                                                   *)
(* --------------------------------------------------------------------- *)

Section FilterCheckProperties.
Context `{usbredirfilter_h}.

Lemma usbredirfilter_check_eq rules dc dsc dp rows v p b flags :
  usbredirfilter_check rules dc dsc dp rows v p b flags =
  match usbredirfilter_check_pass rules dc rows v p b flags with
  | Some rc => rc
  | None => usbredirfilter_check rules dc dsc dp rows v p b
              (Z.lor flags usbredirfilter_fl_dont_skip_non_boot_hid)
  end.
Proof.
  funelim (usbredirfilter_check rules dc dsc dp rows v p b flags).
  - rewrite e. reflexivity.
  - rewrite Hrec. reflexivity.
Qed.

Lemma dont_skip_forced flags :
  (Z.land (Z.lor flags usbredirfilter_fl_dont_skip_non_boot_hid)
          usbredirfilter_fl_dont_skip_non_boot_hid =? 0) = false.
Proof.
  apply Z.eqb_neq. intros E.
  rewrite Z.land_comm, Z.land_lor_distr_r, Z.land_diag in E.
  apply Z.lor_eq_0_iff in E as [_ E].
  now apply usbredirfilter_fl_dont_skip_nonzero.
Qed.

(** The recursive call never recurses again. *)
Lemma usbredirfilter_check_pass_forced rules dc rows v p b flags :
  usbredirfilter_check_pass rules dc rows v p b
    (Z.lor flags usbredirfilter_fl_dont_skip_non_boot_hid) <> None.
Proof.
  intros E. apply usbredirfilter_check_pass_recurses in E.
  pose proof (dont_skip_forced flags) as F. apply Z.eqb_neq in F. auto.
Qed.

Lemma usbredirfilter_check1_spec rules cls v p b da :
  usbredirfilter_check1 rules cls v p b da =
  spec_row_verdict rules (negb (da =? 0)) v p b cls.
Proof.
  unfold spec_row_verdict.
  induction rules as [|r rules IH]; simpl; [reflexivity|].
  unfold spec_rule_matches at 1.
  destruct (_ && _ && _ && _); [|exact IH].
  destruct (allow r =? 0); reflexivity.
Qed.

Lemma spec_skipped_cons_count flags rows row :
  spec_skipped flags rows row =
  (Z.land flags usbredirfilter_fl_dont_skip_non_boot_hid =? 0) &&
  (Z.of_nat (length rows) >? 1) && (interface_class row =? 0x03) &&
  (interface_subclass row =? 0x00) && (interface_protocol row =? 0x00).
Proof.
  unfold spec_skipped, spec_dont_skip. rewrite negb_involutive.
  rewrite Z.gtb_ltb. reflexivity.
Qed.

(** The interface loop against the words: it returns the first refusal
    among the rows that are not skipped, and otherwise has counted the
    skipped ones. *)
Lemma check_interfaces_spec rules all rows v p b flags k :
  check_interfaces rules (Z.of_nat (length all)) rows v p b flags k =
  match List.find (fun rc => negb (rc =? 0))
          (map (spec_row_verdict rules (spec_default_allow flags) v p b)
               (map interface_class
                  (List.filter (fun row => negb (spec_skipped flags all row))
                               rows))) with
  | Some rc => inl rc
  | None =>
      inr (k + Z.of_nat (length (List.filter (spec_skipped flags all) rows)))
  end.
Proof.
  revert k. induction rows as [|row rows IH]; intros k.
  - simpl. f_equal. lia.
  - cbn [check_interfaces List.filter].
    rewrite <- spec_skipped_cons_count.
    destruct (spec_skipped flags all row) eqn:Es; cbn [negb].
    + rewrite IH. destruct (List.find _ _); [reflexivity|].
      f_equal. cbn [length]. lia.
    + cbn [map List.find]. rewrite usbredirfilter_check1_spec.
      fold (spec_default_allow flags).
      destruct (negb (_ =? 0)); [reflexivity|]. apply IH.
Qed.

Lemma filter_all_length {A} (f : A -> bool) (l : list A) :
  (length (List.filter f l) = length l)%nat <-> forallb f l = true.
Proof.
  induction l as [|a l IH]; simpl; [tauto|].
  pose proof (filter_length_le f l) as Hle.
  destruct (f a); simpl.
  - rewrite <- IH. lia.
  - split; [lia | discriminate].
Qed.

(** One pass of the code is one evaluation of the specification, together
    with the decision to redo it. *)
Lemma usbredirfilter_check_pass_spec rules dc rows v p b flags :
  usbredirfilter_verify rules = 0 ->
  usbredirfilter_check_pass rules dc rows v p b flags =
  let rc := spec_evaluate rules dc rows v p b flags in
  if negb (rc =? 0) then Some rc
  else if (0 <? Z.of_nat (length rows)) &&
          forallb (spec_skipped flags rows) rows
  then None else Some 0.
Proof.
  intros Hv. unfold usbredirfilter_check_pass, spec_evaluate, spec_considered.
  rewrite Hv. cbn [Z.eqb negb].
  rewrite check_interfaces_spec.
  assert (Hnz : forall rc, negb (rc =? 0) = true ->
                           (if negb (rc =? 0) then Some rc else Some 0)
                           = Some rc)
    by (intros rc ->; reflexivity).
  destruct ((dc =? 0) || (dc =? 239)) eqn:Edc.
  - replace (negb (dc =? 0) && negb (dc =? 239)) with false
      by (rewrite <- negb_orb, Edc; reflexivity).
    cbn [Z.eqb negb app].
    destruct (List.find _ _) as [rc|] eqn:Ef.
    + apply find_some in Ef as [_ Ef]. rewrite Ef. reflexivity.
    + cbn [Z.eqb negb]. rewrite Z.gtb_ltb.
      destruct (0 <? Z.of_nat (length rows)); [|reflexivity].
      cbn [andb].
      destruct (forallb (spec_skipped flags rows) rows) eqn:Ea.
      * apply filter_all_length in Ea. rewrite Ea, Z.add_0_l, Z.eqb_refl.
        reflexivity.
      * destruct (Z.eqb_spec
          (0 + Z.of_nat (length (List.filter (spec_skipped flags rows) rows)))
          (Z.of_nat (length rows))) as [E|E]; [|reflexivity].
        assert (E' : (length (List.filter (spec_skipped flags rows) rows)
                      = length rows)%nat) by lia.
        apply filter_all_length in E'. congruence.
  - replace (negb (dc =? 0) && negb (dc =? 239)) with true
      by (rewrite <- negb_orb, Edc; reflexivity).
    cbn [app map List.find].
    rewrite usbredirfilter_check1_spec. fold (spec_default_allow flags).
    destruct (negb (spec_row_verdict _ _ _ _ _ dc =? 0)) eqn:Ed.
    + rewrite Ed. reflexivity.
    + destruct (List.find _ _) as [rc|] eqn:Ef.
      * apply find_some in Ef as [_ Ef]. rewrite Ef. reflexivity.
      * cbn [Z.eqb negb]. rewrite Z.gtb_ltb.
        destruct (0 <? Z.of_nat (length rows)); [|reflexivity].
        cbn [andb].
        destruct (forallb (spec_skipped flags rows) rows) eqn:Ea.
        -- apply filter_all_length in Ea. rewrite Ea, Z.add_0_l, Z.eqb_refl.
           reflexivity.
        -- destruct (Z.eqb_spec
             (0 + Z.of_nat (length (List.filter (spec_skipped flags rows) rows)))
             (Z.of_nat (length rows))) as [E|E]; [|reflexivity].
           assert (E' : (length (List.filter (spec_skipped flags rows) rows)
                         = length rows)%nat) by lia.
           apply filter_all_length in E'. congruence.
Qed.

(** When nothing is skipped a pass cannot ask for a second one. *)
Lemma spec_skipped_forced flags rows row :
  spec_skipped (Z.lor flags usbredirfilter_fl_dont_skip_non_boot_hid)
               rows row = false.
Proof.
  unfold spec_skipped, spec_dont_skip. rewrite dont_skip_forced. reflexivity.
Qed.

(** C7. For a verified rule list, [usbredirfilter_check] computes what the
    specification describes: the device row (unless its class is 0x00 or
    0xEF) and the interface rows are evaluated in order, an interface row
    being skipped exactly when the flag is clear, there are several
    interfaces and the row is 0x03/0x00/0x00; in each considered row the
    first matching rule decides (allow: 0, deny: -EPERM) and a row without a
    match gives 0 under default_allow and -ENOENT otherwise; when every one
    of at least one interface row was skipped the check is redone once with
    dont_skip_non_boot_hid forced on. *)
Theorem usbredirfilter_check_refines_spec rules dc dsc dp rows v p b flags :
  usbredirfilter_verify rules = 0 ->
  usbredirfilter_check rules dc dsc dp rows v p b flags =
  spec_check rules dc rows v p b flags.
Proof.
  intros Hv. rewrite usbredirfilter_check_eq.
  rewrite (usbredirfilter_check_pass_spec _ _ _ _ _ _ _ Hv).
  unfold spec_check. cbv zeta.
  destruct (negb (spec_evaluate rules dc rows v p b flags =? 0));
    [reflexivity|].
  destruct ((0 <? Z.of_nat (length rows)) &&
            forallb (spec_skipped flags rows) rows) eqn:Eall; [|reflexivity].
  rewrite usbredirfilter_check_eq.
  rewrite (usbredirfilter_check_pass_spec _ _ _ _ _ _ _ Hv). cbv zeta.
  destruct (negb (spec_evaluate rules dc rows v p b
                    (Z.lor flags usbredirfilter_fl_dont_skip_non_boot_hid)
                  =? 0)) eqn:E2; [reflexivity|].
  apply negb_false_iff, Z.eqb_eq in E2. rewrite E2.
  apply andb_true_iff in Eall as [Hpos _]. rewrite Hpos. cbn [andb].
  destruct rows as [|row rows]; [discriminate|].
  cbn [forallb]. rewrite spec_skipped_forced. reflexivity.
Qed.

(** C10. For a verified rule list, a device of class 0x00 or 0xEF without
    any interface is allowed whatever the rules, the ids and the flags: no
    row is evaluated. *)
Theorem usbredirfilter_check_no_rows rules dc dsc dp v p b flags :
  usbredirfilter_verify rules = 0 ->
  dc = 0x00 \/ dc = 0xef ->
  usbredirfilter_check rules dc dsc dp [] v p b flags = 0.
Proof.
  intros Hv Hdc. rewrite usbredirfilter_check_eq.
  unfold usbredirfilter_check_pass. rewrite Hv.
  destruct Hdc as [-> | ->]; reflexivity.
Qed.

End FilterCheckProperties.

Lemma usbredirfilter_check_refines_spec_witness :
  let rules := [mk_rule 0x03 (-1) (-1) (-1) 0; mk_rule (-1) (-1) (-1) (-1) 1] in
  let rows := [mk_intf 0x03 0 0; mk_intf 0x03 0 0] in
  usbredirfilter_verify rules = 0 /\
  usbredirfilter_check (H := usbredirfilter_h_0_12) rules 0 0 0 rows
                       0x1234 0x5678 0x0100 0 =
  spec_check (H := usbredirfilter_h_0_12) rules 0 rows 0x1234 0x5678 0x0100 0.
Proof.
  split; [reflexivity|].
  apply (usbredirfilter_check_refines_spec (H := usbredirfilter_h_0_12)).
  reflexivity.
Defined.

Lemma usbredirfilter_check_no_rows_witness :
  let rules := [mk_rule (-1) (-1) (-1) (-1) 0] in
  usbredirfilter_verify rules = 0 /\ (0xef = 0x00 \/ 0xef = 0xef) /\
  usbredirfilter_check (H := usbredirfilter_h_0_12) rules 0xef 2 1 []
                       0x1234 0x5678 0x0100 0 = 0.
Proof.
  split; [reflexivity|]. split; [right; reflexivity|].
  apply (usbredirfilter_check_no_rows (H := usbredirfilter_h_0_12));
    [reflexivity | right; reflexivity].
Defined.

(* --------------------------------------------------------------------- *)
(** ** Tokens and numbers                                                 *)
(* --------------------------------------------------------------------- *)

Lemma strspn_none s set :
  Forall (fun c => in_set c set = false) s ->
  forall rest, strspn (s ++ rest) set = strspn rest set \/ s <> [] /\
               strspn (s ++ rest) set = O.
Proof.
  intros Hs rest. destruct Hs as [|c s Hc Hs]; [left; reflexivity|].
  right. split; [discriminate|]. simpl. rewrite Hc. reflexivity.
Qed.

Lemma strcspn_token tok set rest :
  Forall (fun c => in_set c set = false) tok ->
  strcspn (tok ++ rest) set = (length tok + strcspn rest set)%nat.
Proof.
  induction 1 as [|c tok Hc _ IH]; simpl; [reflexivity|].
  rewrite Hc, IH. reflexivity.
Qed.

(** A non-empty span without delimiters, followed by a delimiter, is the
    next token, and the save pointer is just behind the delimiter. *)
Lemma strtok_r_token tok d rest delim :
  tok <> [] ->
  Forall (fun c => in_set c delim = false) tok ->
  in_set d delim = true ->
  strtok_r (tok ++ d :: rest) delim = Some (tok, rest).
Proof.
  intros Hne Htok Hd. unfold strtok_r.
  destruct tok as [|c tok]; [congruence|].
  inversion Htok as [|? ? Hc Htok']; subst.
  cbn [app strspn]. rewrite Hc. cbn [skipn].
  change (c :: tok ++ d :: rest) with ((c :: tok) ++ d :: rest).
  rewrite (strcspn_token _ _ _ Htok). cbn [strcspn]. rewrite Hd, Nat.add_0_r.
  rewrite skipn_app, skipn_all, Nat.sub_diag, firstn_app, firstn_all,
    Nat.sub_diag.
  cbn [skipn firstn app]. rewrite app_nil_r. reflexivity.
Qed.

Lemma strcspn_all tok set :
  Forall (fun c => in_set c set = false) tok ->
  strcspn tok set = length tok.
Proof.
  intros Htok. rewrite <- (app_nil_r tok) at 1.
  rewrite (strcspn_token _ _ _ Htok). simpl. lia.
Qed.

(** At the end of the string the token is what is left. *)
Lemma strtok_r_last tok delim :
  tok <> [] ->
  Forall (fun c => in_set c delim = false) tok ->
  strtok_r tok delim = Some (tok, []).
Proof.
  intros Hne Htok. unfold strtok_r.
  destruct tok as [|c tok]; [congruence|].
  pose proof (strcspn_all _ _ Htok) as Hn.
  inversion Htok as [|? ? Hc Htok']; subst.
  cbn [strspn]. rewrite Hc. cbn [skipn]. rewrite Hn.
  rewrite skipn_all, firstn_all. reflexivity.
Qed.

Lemma digit_val_hex_digit d :
  0 <= d < 16 -> digit_val (hex_digit d) = Some d.
Proof.
  intros Hd.
  assert (Hc : d = 0 \/ d = 1 \/ d = 2 \/ d = 3 \/ d = 4 \/ d = 5 \/ d = 6 \/
               d = 7 \/ d = 8 \/ d = 9 \/ d = 10 \/ d = 11 \/ d = 12 \/
               d = 13 \/ d = 14 \/ d = 15) by lia.
  repeat (destruct Hc as [-> | Hc]; [reflexivity|]). subst. reflexivity.
Qed.

Lemma hex_digit_cases d :
  In (hex_digit d)
     ["0"; "1"; "2"; "3"; "4"; "5"; "6"; "7";
      "8"; "9"; "a"; "b"; "c"; "d"; "e"; "f"]%char.
Proof.
  unfold hex_digit.
  destruct (Nat.lt_ge_cases (Z.to_nat d) 16) as [Hlt | Hge].
  - apply nth_In. exact Hlt.
  - rewrite nth_overflow by exact Hge. left. reflexivity.
Qed.

(** Reading back the digits that [hex_digits] wrote. *)
Lemma strtol_digits_hex_digits fuel n acc :
  0 <= n < 16 ^ Z.of_nat fuel ->
  strtol_digits 16 (hex_digits fuel n acc) 0 = strtol_digits 16 acc n.
Proof.
  revert n acc. induction fuel as [|fuel IH]; intros n acc Hn.
  - assert (n = 0) by (simpl in Hn; lia). subst n. reflexivity.
  - cbn [hex_digits]. destruct (Z.ltb_spec n 16) as [Hlt | Hge].
    + cbn [strtol_digits]. rewrite digit_val_hex_digit by lia.
      destruct (Z.ltb_spec n 16); [|lia]. reflexivity.
    + rewrite IH.
      * cbn [strtol_digits].
        rewrite digit_val_hex_digit by (apply Z.mod_pos_bound; lia).
        destruct (Z.ltb_spec (n mod 16) 16) as [_ | Hm];
          [|pose proof (Z.mod_pos_bound n 16); lia].
        f_equal. pose proof (Z.div_mod n 16). lia.
      * rewrite Nat2Z.inj_succ, Z.pow_succ_r in Hn by lia.
        split; [apply Z.div_pos; lia|].
        apply Z.div_lt_upper_bound; lia.
Qed.

Lemma strtol_digits_zeros k ds :
  strtol_digits 16 (repeat "0"%char k ++ ds) 0 = strtol_digits 16 ds 0.
Proof.
  induction k as [|k IH]; [reflexivity|]. exact IH.
Qed.

Lemma hex_digits_nonempty fuel n acc :
  fuel <> O -> hex_digits fuel n acc <> [].
Proof.
  revert n acc. induction fuel as [|fuel IH]; intros n acc Hf; [congruence|].
  cbn [hex_digits]. destruct (n <? 16); [discriminate|].
  destruct fuel as [|fuel]; [discriminate|]. apply IH. discriminate.
Qed.

Lemma hex_digits_chars (P : ascii -> Prop) fuel n acc :
  (forall d, P (hex_digit d)) -> Forall P acc ->
  Forall P (hex_digits fuel n acc).
Proof.
  intros Hd. revert n acc. induction fuel as [|fuel IH]; intros n acc Hacc;
    [exact Hacc|].
  cbn [hex_digits]. destruct (n <? 16); [constructor; auto|].
  apply IH. constructor; auto.
Qed.

Lemma sprintf_0x_chars (P : ascii -> Prop) w v :
  (forall d, P (hex_digit d)) -> Forall P (sprintf_0x w v).
Proof.
  intros Hd. unfold sprintf_0x. apply Forall_app. split.
  - apply List.Forall_forall. intros c Hc. apply repeat_spec in Hc. subst c.
    exact (Hd 0).
  - apply hex_digits_chars; [exact Hd | constructor].
Qed.

Lemma sprintf_0x_nonempty w v : sprintf_0x w v <> [].
Proof.
  unfold sprintf_0x. intros E. apply app_eq_nil in E as [_ E].
  revert E. apply hex_digits_nonempty. discriminate.
Qed.

(** [strtol] with base 0 reads back ["0x%0<w>x"]. *)
Lemma strtol_sprintf_0x dm w v :
  0 <= v < 2 ^ 31 ->
  strtol dm (["0"; "x"]%char ++ sprintf_0x w v) 0 = (v, []).
Proof.
  intros Hv. unfold strtol.
  cbn [app strspn in_set existsb Ascii.eqb Bool.eqb orb skipn].
  destruct (sprintf_0x w v) as [|c body] eqn:Eb;
    [now apply sprintf_0x_nonempty in Eb|].
  cbn [Z.eqb orb andb is_x chr N_of_ascii].
  change (is_x "x") with true. cbn [andb]. rewrite <- Eb.
  unfold sprintf_0x at 1. rewrite strtol_digits_zeros.
  assert (Hu : to_uint v = v) by (unfold to_uint; apply Z.mod_small; lia).
  rewrite Hu, strtol_digits_hex_digits by (change (16 ^ Z.of_nat 8) with (2 ^ 32); lia).
  cbn [strtol_digits]. rewrite Eb. cbn [length Nat.eqb].
  f_equal. apply Z.min_l. destruct dm; cbv [LONG_MAX LONG_BITS]; lia.
Qed.

Lemma to_int_small v : - 2 ^ 31 <= v < 2 ^ 31 -> to_int v = v.
Proof.
  intros Hv. unfold to_int. rewrite Z.mod_small; lia.
Qed.

(* --------------------------------------------------------------------- *)
(** ** Writing a rule list and reading it back                            *)
(* --------------------------------------------------------------------- *)


Lemma rule_to_string_fields r last :
  rule_to_string "," "|" r last =
  field_to_string 2 (device_class r) ++ ","%char ::
  field_to_string 4 (vendor_id r) ++ ","%char ::
  field_to_string 4 (product_id r) ++ ","%char ::
  field_to_string 4 (device_version_bcd r) ++ ","%char ::
  (if negb (allow r =? 0) then "1"%char else "0"%char) ::
  (if last then [] else bar).
Proof.
  unfold rule_to_string, field_to_string.
  destruct (negb (device_class r =? -1)), (negb (vendor_id r =? -1)),
    (negb (product_id r =? -1)), (negb (device_version_bcd r =? -1));
    repeat (rewrite <- ?app_assoc; cbn [app]); destruct last; reflexivity.
Qed.

Lemma hex_digit_no_sep d : in_set (hex_digit d) [","; "|"]%char = false.
Proof.
  pose proof (hex_digit_cases d) as Hd. cbn [In] in Hd.
  repeat (destruct Hd as [<- | Hd]; [reflexivity|]). contradiction.
Qed.

Lemma field_to_string_chars w v :
  Forall (fun c => in_set c [","; "|"]%char = false) (field_to_string w v).
Proof.
  unfold field_to_string. destruct (negb (v =? -1)).
  - repeat constructor. apply sprintf_0x_chars. exact hex_digit_no_sep.
  - repeat constructor.
Qed.

Lemma no_sep_comma s :
  Forall (fun c => in_set c [","; "|"]%char = false) s ->
  Forall (fun c => in_set c comma = false) s.
Proof.
  apply List.Forall_impl. intros c. unfold comma. cbn [in_set existsb].
  destruct (Ascii.eqb c ","); [discriminate | reflexivity].
Qed.

Lemma no_sep_bar s :
  Forall (fun c => in_set c [","; "|"]%char = false) s ->
  Forall (fun c => in_set c bar = false) s.
Proof.
  apply List.Forall_impl. intros c. unfold bar. cbn [in_set existsb].
  destruct (Ascii.eqb c ","), (Ascii.eqb c "|"); try discriminate; reflexivity.
Qed.

Lemma field_to_string_nonempty w v : field_to_string w v <> [].
Proof.
  unfold field_to_string. destruct (negb (v =? -1)); discriminate.
Qed.

(** Every field is read back as the number it was printed from. *)
Lemma strtol_field_to_string dm w v :
  -1 <= v < 2 ^ 31 -> strtol dm (field_to_string w v) 0 = (v, []).
Proof.
  intros Hv. unfold field_to_string.
  destruct (Z.eqb_spec v (-1)) as [-> | Hne]; cbn [negb].
  - destruct dm; reflexivity.
  - apply strtol_sprintf_0x. lia.
Qed.

Lemma parse_tokens_step dm ts n i tok save values v :
  strtol dm tok 0 = (v, []) ->
  parse_tokens dm ts (S n) i (Some (tok, save)) values =
  parse_tokens dm ts n (S i) (strtok_r save ts) (<[i := to_int v]> values).
Proof.
  intros Hv. cbn [parse_tokens]. rewrite Hv. reflexivity.
Qed.


Lemma usbredirfilter_verify_cons r rules :
  usbredirfilter_verify (r :: rules) = 0 <->
  rule_in_range r /\ usbredirfilter_verify rules = 0.
Proof.
  unfold rule_in_range. cbn [usbredirfilter_verify].
  destruct (Z.ltb_spec (device_class r) (-1)),
    (Z.gtb_spec (device_class r) 255),
    (Z.ltb_spec (vendor_id r) (-1)), (Z.gtb_spec (vendor_id r) 65535),
    (Z.ltb_spec (product_id r) (-1)), (Z.gtb_spec (product_id r) 65535),
    (Z.ltb_spec (device_version_bcd r) (-1)),
    (Z.gtb_spec (device_version_bcd r) 65535);
    cbn [orb]; try (split; [discriminate | lia]); split; [intros E; split; [lia | exact E] | tauto].
Qed.


Lemma rule_body_no_bar r :
  Forall (fun c => in_set c bar = false) (rule_body r).
Proof.
  unfold rule_body. rewrite rule_to_string_fields.
  repeat (apply Forall_app; split;
          [apply no_sep_bar, field_to_string_chars|];
          apply Forall_cons; split; [reflexivity|]).
  destruct (negb (allow r =? 0)); repeat constructor.
Qed.

Lemma rule_body_nonempty r : rule_body r <> [].
Proof.
  unfold rule_body. rewrite rule_to_string_fields.
  pose proof (field_to_string_nonempty 2 (device_class r)).
  destruct (field_to_string 2 (device_class r)); [congruence | discriminate].
Qed.

Lemma rule_to_string_body r :
  rule_to_string "," "|" r false = rule_body r ++ bar.
Proof.
  unfold rule_body. rewrite !rule_to_string_fields.
  repeat (rewrite <- ?app_assoc; cbn [app]; f_equal).
Qed.

(** Reading one printed rule gives the rule back, up to its flag. *)
Lemma parse_rule_rule_body dm r :
  rule_in_range r ->
  parse_rule dm comma (rule_body r) = Some (normalize_allow r).
Proof.
  intros (Hc & Hv & Hp & Hb). unfold parse_rule, rule_body.
  rewrite rule_to_string_fields.
  rewrite strtok_r_token;
    [| apply field_to_string_nonempty
     | apply no_sep_comma, field_to_string_chars | reflexivity].
  rewrite (parse_tokens_step _ _ _ _ _ _ _ (device_class r))
    by (apply strtol_field_to_string; lia).
  rewrite strtok_r_token;
    [| apply field_to_string_nonempty
     | apply no_sep_comma, field_to_string_chars | reflexivity].
  rewrite (parse_tokens_step _ _ _ _ _ _ _ (vendor_id r))
    by (apply strtol_field_to_string; lia).
  rewrite strtok_r_token;
    [| apply field_to_string_nonempty
     | apply no_sep_comma, field_to_string_chars | reflexivity].
  rewrite (parse_tokens_step _ _ _ _ _ _ _ (product_id r))
    by (apply strtol_field_to_string; lia).
  rewrite strtok_r_token;
    [| apply field_to_string_nonempty
     | apply no_sep_comma, field_to_string_chars | reflexivity].
  rewrite (parse_tokens_step _ _ _ _ _ _ _ (device_version_bcd r))
    by (apply strtol_field_to_string; lia).
  rewrite !to_int_small by lia.
  assert (Hlast : parse_tokens dm comma 1 4
            (strtok_r ((if negb (allow r =? 0) then "1"%char else "0"%char)
                       :: []) comma)
            (<[3%nat := device_version_bcd r]>
               (<[2%nat := product_id r]>
                  (<[1%nat := vendor_id r]>
                     (<[0%nat := device_class r]> [0; 0; 0; 0; 0])))) =
          (5%nat, None,
           [device_class r; vendor_id r; product_id r; device_version_bcd r;
            if allow r =? 0 then 0 else 1])).
  { destruct (allow r =? 0), dm; reflexivity. }
  cbn [app] in *. rewrite Hlast.
  change (rule_of_values _) with (normalize_allow r).
  cbn [Nat.eqb negb orb].
  rewrite (proj2 (usbredirfilter_verify_cons (normalize_allow r) []))
    by (split; [repeat split; cbn; lia | reflexivity]).
  reflexivity.
Qed.

Lemma parse_rules_eq dm ts rs buf rules :
  parse_rules dm ts rs buf rules =
  match strtok_r buf rs with
  | None => (0, rules)
  | Some (rule, saveptr) =>
      match parse_rule dm ts rule with
      | None => (- EINVAL, [])
      | Some r => parse_rules dm ts rs saveptr (rules ++ [r])
      end
  end.
Proof.
  funelim (parse_rules dm ts rs buf rules).
  - rewrite e. reflexivity.
  - rewrite H, Heq. reflexivity.
  - rewrite H, Heq. reflexivity.
Qed.

(** The reading loop on the output of the writing loop. *)
Lemma parse_rules_rules_to_string dm rules acc :
  usbredirfilter_verify rules = 0 ->
  parse_rules dm comma bar (rules_to_string_loop "," "|" rules) acc =
  (0, acc ++ map normalize_allow rules).
Proof.
  revert acc. induction rules as [|r rules IH]; intros acc Hv.
  - rewrite parse_rules_eq. cbn. rewrite app_nil_r. reflexivity.
  - apply usbredirfilter_verify_cons in Hv as [Hr Hv].
    rewrite parse_rules_eq. cbn [rules_to_string_loop].
    destruct rules as [|r' rules].
    + cbn [rules_to_string_loop]. rewrite app_nil_r.
      fold (rule_body r).
      rewrite strtok_r_last by (apply rule_body_nonempty || apply rule_body_no_bar).
      rewrite parse_rule_rule_body by exact Hr.
      rewrite parse_rules_eq. reflexivity.
    + rewrite rule_to_string_body. unfold bar at 1.
      rewrite <- app_assoc. cbn [app].
      rewrite strtok_r_token;
        [| apply rule_body_nonempty | apply rule_body_no_bar | reflexivity].
      rewrite parse_rule_rule_body by exact Hr.
      rewrite IH by exact Hv.
      rewrite <- app_assoc. reflexivity.
Qed.

Lemma hex_digits_length fuel :
  forall n acc k,
    0 <= n < 16 ^ Z.of_nat k -> (1 <= k <= fuel)%nat ->
    (length (hex_digits fuel n acc) <= k + length acc)%nat.
Proof.
  induction fuel as [|fuel IH]; intros n acc k Hn Hk; [lia|].
  cbn [hex_digits]. destruct (n <? 16) eqn:E; [cbn [length]; lia|].
  apply Z.ltb_ge in E.
  destruct k as [|[|k]]; [lia | change (16 ^ Z.of_nat 1) with 16 in Hn; lia |].
  specialize (IH (n / 16) (hex_digit (n mod 16) :: acc) (S k)).
  cbn [length] in IH.
  assert (Hdiv : 0 <= n / 16 < 16 ^ Z.of_nat (S k)).
  { split; [apply Z.div_pos; lia|].
    apply Z.div_lt_upper_bound; [lia|].
    replace (Z.of_nat (S (S k))) with (Z.succ (Z.of_nat (S k))) in Hn by lia.
    rewrite Z.pow_succ_r in Hn by lia. lia. }
  specialize (IH Hdiv ltac:(lia)). lia.
Qed.

Lemma sprintf_0x_length w v :
  (1 <= w <= 8)%nat -> 0 <= v < 16 ^ Z.of_nat w ->
  length (sprintf_0x w v) = w.
Proof.
  intros Hw Hv. unfold sprintf_0x.
  assert (Hu : to_uint v = v).
  { unfold to_uint. apply Z.mod_small. split; [lia|].
    apply Z.lt_le_trans with (16 ^ Z.of_nat w); [lia|].
    change (2 ^ 32) with (16 ^ Z.of_nat 8).
    apply Z.pow_le_mono_r; lia. }
  rewrite Hu.
  pose proof (hex_digits_length 8 v [] w Hv ltac:(lia)) as Hlen.
  cbn [length] in Hlen.
  rewrite length_app, repeat_length. lia.
Qed.

Lemma rule_to_string_length ts rs r last :
  rule_in_range r -> (length (rule_to_string ts rs r last) <= 28)%nat.
Proof.
  intros (Hc & Hv & Hp & Hb). unfold rule_to_string.
  assert (Hfield : forall (w : nat) (v hi : Z),
             (1 <= w <= 8)%nat -> hi = 16 ^ Z.of_nat w - 1 -> -1 <= v <= hi ->
             (length (if negb (v =? -1)%Z
                      then ["0"; "x"]%char ++ sprintf_0x w v ++ [ts]
                      else ["-"; "1"]%char ++ [ts]) <= w + 3)%nat).
  { intros w v hi Hw -> Hr.
    destruct (v =? -1) eqn:E; cbn [negb]; [cbn [length app]; lia|].
    apply Z.eqb_neq in E.
    rewrite !length_app, sprintf_0x_length by lia. cbn [length]. lia. }
  pose proof (Hfield 2%nat (device_class r) 255 ltac:(lia) eq_refl Hc).
  pose proof (Hfield 4%nat (vendor_id r) 65535 ltac:(lia) eq_refl Hv).
  pose proof (Hfield 4%nat (product_id r) 65535 ltac:(lia) eq_refl Hp).
  pose proof (Hfield 4%nat (device_version_bcd r) 65535 ltac:(lia) eq_refl
                Hb).
  repeat rewrite length_app. cbn [length].
  destruct last; cbn [length]; lia.
Qed.

Lemma rules_to_string_loop_length ts rs rules :
  usbredirfilter_verify rules = 0 ->
  (length (rules_to_string_loop ts rs rules) <= 28 * length rules)%nat.
Proof.
  induction rules as [|r rules IH]; intros Hv; [cbn; lia|].
  apply usbredirfilter_verify_cons in Hv as [Hr Hv].
  cbn [rules_to_string_loop length]. rewrite length_app.
  pose proof (rule_to_string_length ts rs r
                (match rules with [] => true | _ => false end) Hr).
  specialize (IH Hv). lia.
Qed.

(** [malloc] grants what fits in a non-negative [int]. *)
Lemma malloc_grants dm size : 0 <= size < 2 ^ 31 -> malloc dm size = true.
Proof.
  intros Hs. unfold malloc, to_size_t, PTRDIFF_MAX. apply Z.leb_le.
  rewrite Z.mod_small by (destruct dm; cbn; lia).
  destruct dm; cbn; lia.
Qed.




(* --------------------------------------------------------------------- *)
(** ** The host engine: cancelling a data packet                          *)
(* --------------------------------------------------------------------- *)

Lemma calls_send c h : calls (parser (send c h)) = calls (parser h) ++ [c].
Proof. reflexivity. Qed.

Lemma usbredirhost_cancel_data_packet_found id t h :
  List.find (cancel_match id) (transfers_head h) = Some t ->
  calls (parser (usbredirhost_cancel_data_packet id h)) =
  calls (parser h) ++ [synthetic_reply t] /\
  transfers_head (usbredirhost_cancel_data_packet id h) =
  mark_cancelled id (transfers_head h).
Proof.
  intros Hf. unfold usbredirhost_cancel_data_packet, synthetic_reply.
  rewrite Hf. destruct (t_header t); split; reflexivity.
Qed.

Lemma usbredirhost_cancel_data_packet_not_found id h :
  List.find (cancel_match id) (transfers_head h) = None ->
  usbredirhost_cancel_data_packet id h = h.
Proof.
  intros Hf. unfold usbredirhost_cancel_data_packet. rewrite Hf. reflexivity.
Qed.


Lemma mark_cancelled_keeps a id l :
  cancelled_at a l -> cancelled_at a (mark_cancelled id l).
Proof.
  induction 1 as [|t l Ht Hl IH]; cbn [mark_cancelled]; [constructor|].
  destruct (cancel_match id t).
  - constructor; [intros _; discriminate | exact Hl].
  - constructor; [exact Ht | exact IH].
Qed.

Lemma mark_cancelled_found id l t :
  List.NoDup (map t_transfer l) ->
  List.find (cancel_match id) l = Some t ->
  cancelled_at (t_transfer t) (mark_cancelled id l).
Proof.
  intros Hnd. induction l as [|t' l IH]; cbn [List.find mark_cancelled];
    [discriminate|].
  cbn [map] in Hnd. inversion Hnd as [|? ? Hnotin Hnd']; subst.
  destruct (cancel_match id t') eqn:Em.
  - intros [= ->]. constructor; [intros _; discriminate|].
    apply List.Forall_forall. intros t'' Hin Heq. exfalso. apply Hnotin.
    rewrite <- Heq. apply in_map. exact Hin.
  - intros Hf. constructor; [|apply IH; assumption].
    intros Heq. exfalso. apply Hnotin. rewrite Heq.
    apply in_map. apply (find_some _ _ Hf).
Qed.

Lemma filter_keeps a (f : usbredirtransfer -> bool) l :
  cancelled_at a l -> cancelled_at a (List.filter f l).
Proof.
  intros Hc. apply List.Forall_forall. intros t Hin.
  apply filter_In in Hin as [Hin _].
  exact (proj1 (List.Forall_forall _ _) Hc t Hin).
Qed.

Lemma transfers_head_handle_disconnect h :
  transfers_head (usbredirhost_handle_disconnect h) = transfers_head h.
Proof.
  unfold usbredirhost_handle_disconnect.
  destruct (disconnected h =? 0); [|reflexivity].
  cbn. destruct (peer_has_cap_device_disconnect_ack (parser h)); reflexivity.
Qed.

Lemma transfers_head_status h status :
  transfers_head (fst (libusb_status_or_error_to_redir_status h status)) =
  transfers_head h.
Proof.
  destruct status; cbn; try reflexivity; apply transfers_head_handle_disconnect.
Qed.

(** What a completion does to the list: it unlinks the one record. *)
Lemma transfers_head_transfer_complete a status buffer h :
  exists f, transfers_head (transfer_complete a status buffer h) =
            List.filter f (transfers_head h).
Proof.
  unfold transfer_complete.
  destruct (List.find _ (transfers_head h)) as [t|].
  - exists (fun t' => negb (t_transfer t' =? t_transfer t)%nat).
    destruct (t_header t);
      [unfold usbredirhost_control_packet_complete
      |unfold usbredirhost_bulk_packet_complete
      |unfold usbredirhost_interrupt_out_packet_complete];
      pose proof (transfers_head_status h status) as Hs;
      destruct (libusb_status_or_error_to_redir_status h status) as [h1 st];
      cbn [fst] in Hs; cbn [usbredirhost_remove_and_free_transfer];
      repeat match goal with
             | |- context [if ?b then _ else _] => destruct b
             end; cbn; rewrite Hs; reflexivity.
  - exists (fun _ => true). clear. induction (transfers_head h) as [|t l IH];
      [reflexivity|]. cbn. f_equal. exact IH.
Qed.

Lemma host_step_keeps a e h :
  cancelled_at a (transfers_head h) ->
  cancelled_at a (transfers_head (host_step e h)).
Proof.
  intros Hc. destruct e as [id | a' status buffer]; cbn [host_step].
  - destruct (List.find (cancel_match id) (transfers_head h)) as [t|] eqn:Ef.
    + rewrite (proj2 (usbredirhost_cancel_data_packet_found _ _ _ Ef)).
      apply mark_cancelled_keeps. exact Hc.
    + rewrite usbredirhost_cancel_data_packet_not_found by exact Ef. exact Hc.
  - destruct (transfers_head_transfer_complete a' status buffer h) as [f ->].
    apply filter_keeps. exact Hc.
Qed.

Lemma host_run_keeps a es h :
  cancelled_at a (transfers_head h) ->
  cancelled_at a (transfers_head (host_run es h)).
Proof.
  revert h. induction es as [|e es IH]; intros h Hc; [exact Hc|].
  cbn [host_run fold_left]. apply IH. apply host_step_keeps. exact Hc.
Qed.

Lemma calls_handle_disconnect h :
  exists extra,
    calls (parser (usbredirhost_handle_disconnect h)) =
    calls (parser h) ++ extra /\
    Forall (fun c => is_data_packet c = false) extra.
Proof.
  unfold usbredirhost_handle_disconnect.
  destruct (disconnected h =? 0).
  - exists [usbredirparser_send_device_disconnect]. split.
    + cbn. destruct (peer_has_cap_device_disconnect_ack (parser h));
        reflexivity.
    + repeat constructor.
  - exists []. split; [symmetry; apply app_nil_r | constructor].
Qed.

Lemma calls_status h status :
  exists extra,
    calls (parser (fst (libusb_status_or_error_to_redir_status h status))) =
    calls (parser h) ++ extra /\
    Forall (fun c => is_data_packet c = false) extra.
Proof.
  destruct status; cbn [libusb_status_or_error_to_redir_status fst];
    try apply calls_handle_disconnect;
    (exists []; split; [symmetry; apply app_nil_r | constructor]).
Qed.

(** The completion of a transfer that is flagged cancelled sends no data
    packet. *)
Lemma transfer_complete_cancelled a status buffer h :
  cancelled_at a (transfers_head h) ->
  exists extra,
    calls (parser (transfer_complete a status buffer h)) =
    calls (parser h) ++ extra /\
    Forall (fun c => is_data_packet c = false) extra.
Proof.
  intros Hc. unfold transfer_complete.
  destruct (List.find _ (transfers_head h)) as [t|] eqn:Ef.
  - apply find_some in Ef as [Hin Ha]. apply Nat.eqb_eq in Ha.
    pose proof (proj1 (List.Forall_forall _ _) Hc t Hin Ha) as Hct.
    apply Z.eqb_neq in Hct.
    destruct (calls_status h status) as (extra & He & Hd).
    exists extra. split; [|exact Hd].
    destruct (t_header t);
      [unfold usbredirhost_control_packet_complete
      |unfold usbredirhost_bulk_packet_complete
      |unfold usbredirhost_interrupt_out_packet_complete];
      destruct (libusb_status_or_error_to_redir_status h status) as [h1 st];
      cbn [fst] in He; rewrite Hct; cbn; exact He.
  - exists []. split; [symmetry; apply app_nil_r | constructor].
Qed.

(** C6, as amended.  A cancel_data_packet finds the first transfer on the
    list of the non-stream transfers that has the id and is not yet flagged
    cancelled.  It then sends exactly one reply, made of that transfer's own
    packet header with the status cancelled and the length 0, under its id;
    and whatever cancels and completions follow, the completion callback of
    that transfer sends no data packet.  When no transfer on the list has
    the id and is not yet cancelled, the host is left as it was: nothing is
    sent. *)
Theorem usbredirhost_cancel_data_packet_once id h :
  List.NoDup (map t_transfer (transfers_head h)) ->
  match List.find (cancel_match id) (transfers_head h) with
  | Some t =>
      calls (parser (usbredirhost_cancel_data_packet id h)) =
      calls (parser h) ++ [synthetic_reply t] /\
      forall es status buffer,
        let h1 := host_run es (usbredirhost_cancel_data_packet id h) in
        exists extra,
          calls (parser (transfer_complete (t_transfer t) status buffer h1)) =
          calls (parser h1) ++ extra /\
          Forall (fun c => is_data_packet c = false) extra
  | None => usbredirhost_cancel_data_packet id h = h
  end.
Proof.
  intros Hnd.
  destruct (List.find (cancel_match id) (transfers_head h)) as [t|] eqn:Ef.
  - destruct (usbredirhost_cancel_data_packet_found _ _ _ Ef) as [Hcalls Hl].
    split; [exact Hcalls|].
    intros es status buffer h1. apply transfer_complete_cancelled.
    apply host_run_keeps. rewrite Hl.
    apply (mark_cancelled_found id _ t Hnd Ef).
  - apply usbredirhost_cancel_data_packet_not_found. exact Ef.
Qed.

Lemma usbredirhost_cancel_data_packet_once_witness :
  List.NoDup (map t_transfer (transfers_head host_one_transfer)) /\
  match List.find (cancel_match 42) (transfers_head host_one_transfer) with
  | Some t =>
      calls (parser (usbredirhost_cancel_data_packet 42 host_one_transfer)) =
      calls (parser host_one_transfer) ++ [synthetic_reply t] /\
      forall es status buffer,
        let h1 :=
          host_run es (usbredirhost_cancel_data_packet 42 host_one_transfer) in
        exists extra,
          calls (parser (transfer_complete (t_transfer t) status buffer h1)) =
          calls (parser h1) ++ extra /\
          Forall (fun c => is_data_packet c = false) extra
  | None => usbredirhost_cancel_data_packet 42 host_one_transfer
            = host_one_transfer
  end.
Proof.
  assert (Hnd : List.NoDup (map t_transfer (transfers_head host_one_transfer)))
    by (repeat constructor; intros []).
  split; [exact Hnd|].
  exact (usbredirhost_cancel_data_packet_once 42 host_one_transfer Hnd).
Defined.

(** Two transfers in flight under the id 42, neither cancelled: the cancel
    answers with the header of the first one, a bulk packet, not with the
    control header of the second; the second one stays live and its
    completion sends its reply. *)
Lemma usbredirhost_cancel_data_packet_counterexample :
  let h := host_two_transfers in
  let t := transfer_control_42 in
  let h' := usbredirhost_cancel_data_packet (t_id t) h in
  In t (transfers_head h) /\ t_cancelled t = 0 /\
  calls (parser h') <> calls (parser h) ++ [synthetic_reply t] /\
  calls (parser (transfer_complete (t_transfer t) LIBUSB_TRANSFER_COMPLETED
                                   [] h')) =
  calls (parser h') ++
  [usbredirparser_send_control_packet 42
     (mk_control_packet 0x80 6 0x80 usb_redir_success 0x0100 0 0) (Some [])].
Proof.
  cbv zeta. split; [right; left; reflexivity|].
  split; [reflexivity|]. split; [discriminate | reflexivity].
Qed.

(* --------------------------------------------------------------------- *)
(** ** The host engine: dropping isochronous packets                      *)
(* --------------------------------------------------------------------- *)

Section IsoBackpressure.
Context `{usbredirhost_h}.

Lemma usbredirhost_can_write_iso_package_spec h :
  match size_query h with
  | Some size =>
      snd (usbredirhost_can_write_iso_package h) =
      negb (next_dropping size (iso_threshold h)) /\
      dropping (iso_threshold (fst (usbredirhost_can_write_iso_package h))) =
      next_dropping size (iso_threshold h)
  | None => usbredirhost_can_write_iso_package h = (h, true)
  end.
Proof.
  unfold usbredirhost_can_write_iso_package, size_query, next_dropping.
  destruct (if negb _ then _ else _) as [size|]; [|reflexivity].
  destruct (size >=? higher (iso_threshold h));
    [split; reflexivity|].
  destruct (size <? lower (iso_threshold h)); split; reflexivity.
Qed.

Lemma calls_can_write_iso_package h :
  calls (parser (fst (usbredirhost_can_write_iso_package h))) =
  calls (parser h).
Proof.
  unfold usbredirhost_can_write_iso_package.
  destruct (if negb _ then _ else _) as [size|]; [|reflexivity].
  destruct (size >=? higher (iso_threshold h)); [reflexivity|].
  destruct (size <? lower (iso_threshold h)); reflexivity.
Qed.

Lemma ep_type_can_write_iso_package h ep :
  host_ep (fst (usbredirhost_can_write_iso_package h)) ep = host_ep h ep.
Proof.
  unfold usbredirhost_can_write_iso_package.
  destruct (if negb _ then _ else _) as [size|]; [|reflexivity].
  destruct (size >=? higher (iso_threshold h)); [reflexivity|].
  destruct (size <? lower (iso_threshold h)); reflexivity.
Qed.

(** What [usbredirhost_send_stream_data] hands to the parser for a packet
    of an isochronous endpoint. *)
Lemma usbredirhost_send_stream_data_iso id ep status data h :
  ep_type (host_ep h ep) = usb_redir_type_iso ->
  calls (parser (usbredirhost_send_stream_data id ep status data h)) =
  calls (parser h) ++
  (if (has_data_to_write (parser h) <=? 800) &&
      snd (usbredirhost_can_write_iso_package h)
   then [usbredirparser_send_iso_packet id
           (mk_iso_packet ep status (to_uint16 (Z.of_nat (length data))))
           (Some data)]
   else []).
Proof.
  intros Hiso. unfold usbredirhost_send_stream_data.
  rewrite Z.gtb_ltb, Z.ltb_antisym.
  destruct (has_data_to_write (parser h) <=? 800); cbn [negb andb].
  - rewrite Hiso.
    pose proof (calls_can_write_iso_package h) as Hc.
    destruct (usbredirhost_can_write_iso_package h) as [h1 [|]];
      cbn [fst snd] in *.
    + rewrite calls_send, Hc. reflexivity.
    + rewrite Hc, app_nil_r. reflexivity.
  - rewrite app_nil_r.
    destruct (negb (warn_on_drop (host_ep h ep) =? 0)); reflexivity.
Qed.

End IsoBackpressure.

(* --------------------------------------------------------------------- *)
(** ** The host engine: allocating a stream                               *)
(* --------------------------------------------------------------------- *)

Lemma host_ep_set_host_ep ep e h :
  (EP2I ep < length (endpoint h))%nat ->
  host_ep (set_host_ep ep e h) ep = e.
Proof.
  intros Hlt. unfold host_ep, set_host_ep. cbn [endpoint set_endpoints].
  rewrite nth_lookup, list_lookup_insert_eq by exact Hlt. reflexivity.
Qed.

Lemma length_endpoint_set_host_ep ep e h :
  length (endpoint (set_host_ep ep e h)) = length (endpoint h).
Proof. unfold set_host_ep. cbn. apply length_insert. Qed.

(** The parts of the host that an operation leaves alone. *)
Record same_but_endpoints_and_device (h h' : usbredirhost) : Prop := {
  same_iso_threshold : iso_threshold h' = iso_threshold h;
  same_calls : calls (parser h') = calls (parser h);
  same_length : length (endpoint h') = length (endpoint h)
}.

Lemma same_refl h : same_but_endpoints_and_device h h.
Proof. split; reflexivity. Qed.

Lemma same_trans h1 h2 h3 :
  same_but_endpoints_and_device h1 h2 ->
  same_but_endpoints_and_device h2 h3 ->
  same_but_endpoints_and_device h1 h3.
Proof.
  intros [A1 B1 C1] [A2 B2 C2]. split; congruence.
Qed.

Lemma same_set_host_ep ep e h :
  same_but_endpoints_and_device h (set_host_ep ep e h).
Proof.
  split; try reflexivity. apply length_endpoint_set_host_ep.
Qed.

Lemma same_set_device d h : same_but_endpoints_and_device h (set_device d h).
Proof. split; reflexivity. Qed.

Lemma same_allocate h : same_but_endpoints_and_device h (fst (allocate h)).
Proof.
  unfold allocate. destruct (alloc_results (device h));
    [apply same_refl | apply same_set_device].
Qed.

Lemma same_alloc_transfer h :
  same_but_endpoints_and_device h (fst (usbredirhost_alloc_transfer h)).
Proof.
  unfold usbredirhost_alloc_transfer.
  pose proof (same_allocate h) as H1.
  destruct (allocate h) as [h1 r1]. cbn [fst] in H1.
  pose proof (same_allocate h1) as H2.
  destruct (allocate h1) as [h2 r2]. cbn [fst] in H2.
  destruct (negb r1 || negb r2); cbn [fst].
  - eapply same_trans; eassumption.
  - eapply same_trans; [eassumption|].
    eapply same_trans; [eassumption | apply same_set_device].
Qed.

Lemma same_free_transfer t h :
  same_but_endpoints_and_device h (usbredirhost_free_transfer t h).
Proof.
  destruct t; [apply same_set_device | apply same_refl].
Qed.

Lemma same_free_partial_stream i ep h :
  same_but_endpoints_and_device h (free_partial_stream i ep h).
Proof.
  revert h. induction i as [|i IH]; intros h; cbn [free_partial_stream].
  - eapply same_trans; [apply same_free_transfer | apply same_set_host_ep].
  - eapply same_trans; [|apply IH].
    eapply same_trans; [apply same_free_transfer | apply same_set_host_ep].
Qed.

Lemma calls_send_stream_status id ep status h :
  calls (parser (usbredirhost_send_stream_status id ep status h)) =
  calls (parser h) ++
  stream_status_message (ep_type (host_ep h ep)) id ep status.
Proof.
  unfold usbredirhost_send_stream_status, stream_status_message.
  destruct (ep_type (host_ep h ep)); cbn; rewrite ?app_nil_r; reflexivity.
Qed.

Lemma usb_redir_type_eqb_eq a b : usb_redir_type_eqb a b = true <-> a = b.
Proof. destruct a, b; cbn; split; congruence. Qed.

(** A failed check sends the request to [error]. *)
Lemma usbredirhost_alloc_stream_unlocked_invalid id ep type p size c s h :
  ~ alloc_stream_parameters_valid h ep type p size c ->
  usbredirhost_alloc_stream_unlocked id ep type p size c s h =
  Some (usbredirhost_send_stream_status id ep usb_redir_stall h).
Proof.
  intros Hinv. unfold usbredirhost_alloc_stream_unlocked.
  destruct (negb (disconnected h =? 0)); [reflexivity|].
  destruct (usb_redir_type_eqb (ep_type (host_ep h ep)) type) eqn:Et;
    [|reflexivity].
  apply usb_redir_type_eqb_eq in Et. cbn [negb].
  destruct ((p <? 1) || (p >? MAX_PACKETS_PER_TRANSFER) || (c <? 1) ||
            (c >? MAX_TRANSFER_COUNT) ||
            (ep_max_packetsize (host_ep h ep) =? 0) ||
            negb (Z.rem size (ep_max_packetsize (host_ep h ep)) =? 0))
    eqn:Ev; [reflexivity|].
  exfalso. apply Hinv. unfold alloc_stream_parameters_valid.
  unfold MAX_PACKETS_PER_TRANSFER, MAX_TRANSFER_COUNT in Ev.
  repeat (apply orb_false_iff in Ev as [Ev ?]).
  repeat match goal with
         | H : negb _ = false |- _ => apply negb_false_iff in H
         | H : (_ =? _) = true |- _ => apply Z.eqb_eq in H
         | H : (_ =? _) = false |- _ => apply Z.eqb_neq in H
         | H : (_ <? _) = false |- _ => apply Z.ltb_ge in H
         | H : (_ >? _) = false |- _ => rewrite Z.gtb_ltb in H
         end.
  repeat split; try assumption; lia.
Qed.

Lemma nth_insert_same {A} (l : list A) k x d :
  (k < length l)%nat -> nth k (<[k := x]> l) d = x.
Proof.
  intros Hk. rewrite nth_lookup, list_lookup_insert_eq by exact Hk.
  reflexivity.
Qed.

Lemma nth_insert_other {A} (l : list A) k k' x d :
  k <> k' -> nth k' (<[k := x]> l) d = nth k' l d.
Proof.
  intros Hk. rewrite !nth_lookup, list_lookup_insert_ne by exact Hk.
  reflexivity.
Qed.

Lemma handles_below_insert i k x ring :
  (i <= k)%nat -> handles_below i (<[k := x]> ring) = handles_below i ring.
Proof.
  induction i as [|i IH]; intros Hk; [reflexivity|].
  cbn [handles_below]. rewrite nth_insert_other by lia.
  rewrite IH by lia. reflexivity.
Qed.

Lemma transfer_set_slot ep i t h :
  (EP2I ep < length (endpoint h))%nat ->
  transfer (host_ep (set_slot ep i t h) ep) =
  <[i := t]> (transfer (host_ep h ep)).
Proof.
  intros Hs. unfold set_slot. rewrite host_ep_set_host_ep by exact Hs.
  reflexivity.
Qed.

Lemma ep_fields_set_slot ep i t h :
  (EP2I ep < length (endpoint h))%nat ->
  ep_type (host_ep (set_slot ep i t h) ep) = ep_type (host_ep h ep) /\
  ep_max_packetsize (host_ep (set_slot ep i t h) ep) =
  ep_max_packetsize (host_ep h ep).
Proof.
  intros Hs. unfold set_slot. rewrite host_ep_set_host_ep by exact Hs.
  split; reflexivity.
Qed.

Lemma ring_inv_set_none old ep i h :
  (i < 16)%nat ->
  ring_inv old ep i h ->
  ring_inv old ep (S i) (set_slot ep i None h).
Proof.
  intros Hi [Hs Hr Ha Hf Hn Hab].
  assert (Hs' : (EP2I ep < length (endpoint (set_slot ep i None h)))%nat)
    by (unfold set_slot; rewrite length_endpoint_set_host_ep; exact Hs).
  split; try assumption.
  - rewrite transfer_set_slot, length_insert by exact Hs. exact Hr.
  - rewrite transfer_set_slot by exact Hs. cbn [handles_below].
    rewrite nth_insert_same by lia. cbn [app].
    rewrite handles_below_insert by lia. exact Ha.
  - intros k Hk. rewrite transfer_set_slot by exact Hs.
    rewrite nth_insert_other by lia. apply Hab. lia.
Qed.

(** Replacing the record in slot [i] by one of the same address. *)
Lemma ring_inv_refill old ep i t t' h :
  (i < 16)%nat ->
  nth i (transfer (host_ep h ep)) None = Some t ->
  s_transfer t' = s_transfer t ->
  ring_inv old ep (S i) h ->
  ring_inv old ep (S i) (set_slot ep i (Some t') h).
Proof.
  intros Hi Hslot Heq [Hs Hr Ha Hf Hn Hab].
  assert (Hs' : (EP2I ep < length (endpoint (set_slot ep i (Some t') h)))%nat)
    by (unfold set_slot; rewrite length_endpoint_set_host_ep; exact Hs).
  split; try assumption.
  - rewrite transfer_set_slot, length_insert by exact Hs. exact Hr.
  - rewrite transfer_set_slot by exact Hs. cbn [handles_below] in *.
    rewrite nth_insert_same by lia. rewrite Hslot in Ha.
    rewrite handles_below_insert by lia. rewrite Heq. exact Ha.
  - intros k Hk. rewrite transfer_set_slot by exact Hs.
    rewrite nth_insert_other by lia. apply Hab. lia.
Qed.

(** Changes of the device layer that keep the records. *)
Lemma ring_inv_device old ep i d h :
  allocated d = allocated (device h) ->
  next_transfer d = next_transfer (device h) ->
  ring_inv old ep i h -> ring_inv old ep i (set_device d h).
Proof.
  intros Ea En [Hs Hr Ha Hf Hn Hab].
  split; cbn [device set_device]; try assumption.
  - rewrite Ea. exact Ha.
  - rewrite Ea, En. exact Hf.
  - rewrite Ea. exact Hn.
Qed.

Lemma ring_inv_allocate old ep i h :
  ring_inv old ep i h -> ring_inv old ep i (fst (allocate h)).
Proof.
  intros Hinv. unfold allocate.
  destruct (alloc_results (device h)); [exact Hinv|].
  apply ring_inv_device; [reflexivity | reflexivity | exact Hinv].
Qed.

Lemma ring_inv_set_iso_threshold old ep i p c m h :
  ring_inv old ep i h ->
  ring_inv old ep i (usbredirhost_set_iso_threshold p c m h).
Proof.
  intros [Hs Hr Ha Hf Hn Hab]. split; assumption.
Qed.

(** What [usbredirhost_alloc_transfer] returns. *)
Lemma usbredirhost_alloc_transfer_result old ep i h :
  (i < 16)%nat ->
  ring_inv old ep i h ->
  match usbredirhost_alloc_transfer h with
  | (h1, None) => ring_inv old ep i h1
  | (h1, Some t) =>
      ring_inv old ep (S i) (set_slot ep i (Some t) h1) /\
      s_buffer t = None
  end.
Proof.
  intros Hi Hinv. unfold usbredirhost_alloc_transfer.
  pose proof (ring_inv_allocate _ _ _ _ Hinv) as H1.
  destruct (allocate h) as [h1 r1]. cbn [fst] in H1.
  pose proof (ring_inv_allocate _ _ _ _ H1) as H2.
  destruct (allocate h1) as [h2 r2]. cbn [fst] in H2.
  destruct (negb r1 || negb r2); [exact H2|].
  split; [|reflexivity].
  destruct H2 as [Hs Hr Ha Hf Hn Hab].
  set (a := next_transfer (device h2)) in *.
  set (h3 := set_device _ h2).
  assert (Hs3 : (EP2I ep < length (endpoint h3))%nat) by exact Hs.
  assert (Hs' : (EP2I ep < length
                   (endpoint (set_slot ep i
                      (Some (mk_stream_transfer a 0 0 0 None)) h3)))%nat)
    by (unfold set_slot; rewrite length_endpoint_set_host_ep; exact Hs).
  assert (Hnotin : ~ In a (allocated (device h2))).
  { intros Hin. pose proof (proj1 (List.Forall_forall _ _) Hf a Hin) as X.
    cbn in X. lia. }
  split; try assumption.
  - rewrite transfer_set_slot, length_insert by exact Hs3. exact Hr.
  - rewrite transfer_set_slot by exact Hs3. cbn [handles_below].
    rewrite nth_insert_same by (change (host_ep h3 ep) with (host_ep h2 ep); lia).
    rewrite handles_below_insert by lia.
    change (host_ep h3 ep) with (host_ep h2 ep).
    cbn. rewrite Ha. reflexivity.
  - cbn. constructor; [lia|].
    eapply List.Forall_impl; [|exact Hf]. cbn. intros; lia.
  - cbn. constructor; assumption.
  - intros k Hk. rewrite transfer_set_slot by exact Hs3.
    rewrite nth_insert_other by lia. apply Hab. lia.
Qed.

Lemma kept_refl ep h : kept ep h h.
Proof. split; reflexivity. Qed.

Lemma kept_trans ep h1 h2 h3 : kept ep h1 h2 -> kept ep h2 h3 -> kept ep h1 h3.
Proof. intros [A B C D] [A' B' C' D']. split; congruence. Qed.

Lemma kept_set_device ep d h : kept ep h (set_device d h).
Proof. split; reflexivity. Qed.

Lemma kept_allocate ep h : kept ep h (fst (allocate h)).
Proof.
  unfold allocate. destruct (alloc_results (device h));
    [apply kept_refl | apply kept_set_device].
Qed.

Lemma kept_alloc_transfer ep h :
  kept ep h (fst (usbredirhost_alloc_transfer h)).
Proof.
  unfold usbredirhost_alloc_transfer.
  pose proof (kept_allocate ep h) as H1.
  destruct (allocate h) as [h1 r1]. cbn [fst] in H1.
  pose proof (kept_allocate ep h1) as H2.
  destruct (allocate h1) as [h2 r2]. cbn [fst] in H2.
  destruct (negb r1 || negb r2); cbn [fst].
  - eapply kept_trans; eassumption.
  - eapply kept_trans; [eassumption|].
    eapply kept_trans; [eassumption | apply kept_set_device].
Qed.

Lemma kept_set_slot ep i t h :
  (EP2I ep < length (endpoint h))%nat -> kept ep h (set_slot ep i t h).
Proof.
  intros Hs. destruct (ep_fields_set_slot ep i t h Hs) as [Ht Hm].
  split; try assumption; reflexivity.
Qed.

Lemma kept_free_transfer ep t h :
  kept ep h (usbredirhost_free_transfer t h).
Proof. destruct t; [apply kept_set_device | apply kept_refl]. Qed.

Lemma filter_remove_head (a : nat) l :
  List.NoDup (a :: l) ->
  List.filter (fun x => negb (x =? a)%nat) (a :: l) = l.
Proof.
  intros Hnd. inversion Hnd as [|? ? Hnotin _]; subst.
  cbn [List.filter]. rewrite Nat.eqb_refl. cbn [negb].
  clear Hnd. induction l as [|b l IH]; [reflexivity|].
  cbn [List.filter]. destruct (Nat.eqb_spec b a) as [-> | Hne].
  - exfalso. apply Hnotin. left. reflexivity.
  - cbn [negb]. f_equal. apply IH. intros Hin. apply Hnotin. right. exact Hin.
Qed.

(** One turn of the loop at [alloc_error]. *)
Lemma ring_inv_free_slot old ep j h :
  (j < 16)%nat ->
  ring_inv old ep (S j) h ->
  ring_inv old ep j
    (set_slot ep j None
       (usbredirhost_free_transfer (ep_transfer (host_ep h ep) j) h)).
Proof.
  intros Hj [Hs Hr Ha Hf Hn Hab]. unfold ep_transfer.
  cbn [handles_below] in Ha.
  set (h1 := usbredirhost_free_transfer _ h).
  assert (E1 : endpoint h1 = endpoint h)
    by (unfold h1; destruct (nth j _ _); reflexivity).
  assert (Hep : host_ep h1 ep = host_ep h ep)
    by (unfold host_ep; rewrite E1; reflexivity).
  assert (Hs1 : (EP2I ep < length (endpoint h1))%nat) by (rewrite E1; exact Hs).
  assert (Hd : allocated (device h1) =
               handles_below j (transfer (host_ep h ep)) ++ old /\
               next_transfer (device h1) = next_transfer (device h)).
  { unfold h1. destruct (nth j (transfer (host_ep h ep)) None) as [t|].
    - cbn. rewrite Ha in *. cbn [app] in *.
      rewrite filter_remove_head by exact Hn. split; reflexivity.
    - cbn [usbredirhost_free_transfer]. split; [exact Ha | reflexivity]. }
  destruct Hd as [Hd1 Hd2].
  assert (Hsub : forall a, In a (allocated (device h1)) ->
                           In a (allocated (device h))).
  { intros a. rewrite Hd1, Ha, <- app_assoc. intros Hin.
    apply in_or_app. right. exact Hin. }
  split.
  - unfold set_slot. rewrite length_endpoint_set_host_ep. exact Hs1.
  - rewrite transfer_set_slot, length_insert, Hep by exact Hs1. exact Hr.
  - rewrite transfer_set_slot, Hep by exact Hs1.
    rewrite handles_below_insert by lia. exact Hd1.
  - apply List.Forall_forall. intros a Hin. cbn in Hin |- *.
    change (device (set_slot ep j None h1)) with (device h1).
    change (device (set_slot ep j None h1)) with (device h1) in Hin.
    rewrite Hd2. apply (proj1 (List.Forall_forall _ _) Hf). auto.
  - change (device (set_slot ep j None h1)) with (device h1).
    rewrite Hd1. rewrite Ha in Hn.
    destruct (nth j (transfer (host_ep h ep)) None);
      [inversion Hn; assumption | exact Hn].
  - intros k Hk. rewrite transfer_set_slot, Hep by exact Hs1.
    destruct (Nat.eq_dec j k) as [<- | Hne].
    + rewrite nth_insert_same by lia. reflexivity.
    + rewrite nth_insert_other by exact Hne. apply Hab. lia.
Qed.

Lemma kept_free_slot ep j t h :
  (EP2I ep < length (endpoint h))%nat ->
  kept ep h (set_slot ep j None (usbredirhost_free_transfer t h)).
Proof.
  intros Hs. eapply kept_trans; [apply kept_free_transfer|].
  apply kept_set_slot. destruct t; exact Hs.
Qed.

(** The loop at [alloc_error] frees every record of the ring and leaves
    the ring empty. *)
Lemma free_partial_stream_frees old ep j h :
  (j < 16)%nat ->
  ring_inv old ep (S j) h ->
  ring_inv old ep 0 (free_partial_stream j ep h) /\
  kept ep h (free_partial_stream j ep h).
Proof.
  revert h. induction j as [|j IH]; intros h Hj Hinv;
    cbn [free_partial_stream];
    pose proof (ring_inv_free_slot _ _ _ _ Hj Hinv) as Hstep.
  - split; [exact Hstep|].
    apply kept_free_slot, (inv_slot _ _ _ _ Hinv).
  - destruct (IH _ ltac:(lia) Hstep) as [Hr Hk'].
    split; [exact Hr|]. eapply kept_trans; [|exact Hk'].
    apply kept_free_slot, (inv_slot _ _ _ _ Hinv).
Qed.

Lemma kept_set_iso_threshold ep p c m h :
  kept ep h (usbredirhost_set_iso_threshold p c m h).
Proof. split; reflexivity. Qed.

Lemma endpoint_allocate h : endpoint (fst (allocate h)) = endpoint h.
Proof.
  unfold allocate. destruct (alloc_results (device h)); reflexivity.
Qed.

(** The allocation loop: when it jumps to [alloc_error] with [j], the
    records allocated so far are those of the slots up to [j]; when it runs
    to its end for an isochronous stream it has set the thresholds. *)
Lemma alloc_stream_loop_spec old ep type p size c n :
  forall i h,
    (i + n <= 16)%nat ->
    ring_inv old ep i h ->
    match alloc_stream_loop n i ep type p size c h with
    | (h1, Some j) => ring_inv old ep (S j) h1 /\ (j < 16)%nat /\ kept ep h h1
    | (h1, None) =>
        kept ep h h1 /\ (EP2I ep < length (endpoint h1))%nat /\
        thresholds_set n type p c (ep_max_packetsize (host_ep h ep)) h h1
    end.
Proof.
  induction n as [|n IH]; intros i h Hn Hinv.
  - cbn [alloc_stream_loop]. split; [apply kept_refl|].
    split; [apply (inv_slot _ _ _ _ Hinv)|].
    split; [reflexivity | congruence].
  - cbn [alloc_stream_loop].
    pose proof (usbredirhost_alloc_transfer_result old ep i h ltac:(lia) Hinv)
      as Hres.
    pose proof (kept_alloc_transfer ep h) as Hk1.
    destruct (usbredirhost_alloc_transfer h) as [h1 [t|]]; cbn [fst] in Hk1.
    + destruct Hres as [Hinv2 _].
      assert (Hs1 : (EP2I ep < length (endpoint h1))%nat).
      { pose proof (inv_slot _ _ _ _ Hinv2) as X. unfold set_slot in X.
        rewrite length_endpoint_set_host_ep in X. exact X. }
      pose proof (kept_set_slot ep i (Some t) h1 Hs1) as Hk2.
      set (h2 := set_slot ep i (Some t) h1) in *.
      pose proof (ring_inv_allocate _ _ _ _ Hinv2) as Hinv3.
      pose proof (kept_allocate ep h2) as Hk3.
      pose proof (endpoint_allocate h2) as He3.
      destruct (allocate h2) as [h3 buffer]. cbn [fst] in *.
      assert (Hk03 : kept ep h h3)
        by (eapply kept_trans; [exact Hk1|];
            eapply kept_trans; [exact Hk2 | exact Hk3]).
      destruct buffer; cbn [negb].
      * assert (Hs3 : (EP2I ep < length (endpoint h3))%nat)
          by apply (inv_slot _ _ _ _ Hinv3).
        assert (Hslot : nth i (transfer (host_ep h3 ep)) None = Some t).
        { unfold host_ep at 1. rewrite He3. fold (host_ep h2 ep).
          unfold h2. rewrite transfer_set_slot by exact Hs1.
          apply nth_insert_same.
          pose proof (inv_ring _ _ _ _ Hinv2) as X. unfold h2 in X.
          rewrite transfer_set_slot, length_insert in X by exact Hs1. lia. }
        set (filled := Some (mk_stream_transfer (s_transfer t) (s_id t)
                               (s_cancelled t) (s_packet_idx t)
                               (Some (to_int (size * p))))).
        assert (Hinv4 : ring_inv old ep (S i) (set_slot ep i filled h3))
          by (apply (ring_inv_refill _ _ _ t); [lia | exact Hslot
                                               | reflexivity | exact Hinv3]).
        pose proof (kept_set_slot ep i filled h3 Hs3) as Hk4.
        destruct type.
        -- (* control: nothing is filled in *)
           specialize (IH (S i) h3 ltac:(lia) Hinv3).
           destruct (alloc_stream_loop n (S i) ep usb_redir_type_control
                       p size c h3) as [h5 [j|]].
           ++ destruct IH as (A & B & C). split; [exact A|]. split; [exact B|].
              apply (kept_trans _ _ _ _ Hk03 C).
           ++ destruct IH as (A & B & C). split; [|split; [exact B|]].
              ** apply (kept_trans _ _ _ _ Hk03 A).
              ** split; [discriminate | intros _ Hty; discriminate].
        -- (* iso *)
           pose proof (kept_set_iso_threshold ep p c
                         (ep_max_packetsize
                            (host_ep (set_slot ep i filled h3) ep))
                         (set_slot ep i filled h3)) as Hk5.
           pose proof (ring_inv_set_iso_threshold _ _ _ p c
                         (ep_max_packetsize
                            (host_ep (set_slot ep i filled h3) ep)) _ Hinv4)
             as Hinv5.
           set (h5 := usbredirhost_set_iso_threshold _ _ _ _) in *.
           assert (Hk05 : kept ep h h5)
             by (eapply kept_trans; [exact Hk03|];
                 eapply kept_trans; [exact Hk4 | exact Hk5]).
           specialize (IH (S i) h5 ltac:(lia) Hinv5).
           destruct (alloc_stream_loop n (S i) ep usb_redir_type_iso
                       p size c h5) as [h6 [j|]].
           ++ destruct IH as (A & B & C). split; [exact A|]. split; [exact B|].
              apply (kept_trans _ _ _ _ Hk05 C).
           ++ destruct IH as (A & B & C). split; [|split; [exact B|]].
              ** apply (kept_trans _ _ _ _ Hk05 A).
              ** split; [discriminate|]. intros _ _.
                 assert (E5 : iso_threshold h5 =
                              iso_threshold
                                (usbredirhost_set_iso_threshold p c
                                   (ep_max_packetsize (host_ep h ep)) h)).
                 { unfold h5, usbredirhost_set_iso_threshold.
                   cbn [iso_threshold set_iso_threshold].
                   rewrite (kept_max_packetsize _ _ _
                              (kept_trans _ _ _ _ Hk03 Hk4)).
                   change (iso_threshold (set_slot ep i filled h3))
                     with (iso_threshold h3).
                   rewrite (kept_dropping _ _ _ Hk03). reflexivity. }
                 destruct C as [C0 C1]. destruct n as [|n].
                 --- rewrite (C0 eq_refl). exact E5.
                 --- rewrite (C1 ltac:(discriminate) eq_refl).
                     unfold usbredirhost_set_iso_threshold.
                     cbn [iso_threshold set_iso_threshold].
                     rewrite (kept_max_packetsize _ _ _ Hk05).
                     rewrite (kept_dropping _ _ _ Hk05). reflexivity.
        -- (* bulk *)
           specialize (IH (S i) _ ltac:(lia) Hinv4).
           destruct (alloc_stream_loop n (S i) ep usb_redir_type_bulk
                       p size c (set_slot ep i filled h3)) as [h5 [j|]].
           ++ destruct IH as (A & B & C). split; [exact A|]. split; [exact B|].
              apply (kept_trans _ _ _ _
                                (kept_trans _ _ _ _ Hk03 Hk4) C).
           ++ destruct IH as (A & B & C). split; [|split; [exact B|]].
              ** apply (kept_trans _ _ _ _ (kept_trans _ _ _ _ Hk03 Hk4) A).
              ** split; [discriminate | intros _ Hty; discriminate].
        -- (* interrupt *)
           specialize (IH (S i) _ ltac:(lia) Hinv4).
           destruct (alloc_stream_loop n (S i) ep usb_redir_type_interrupt
                       p size c (set_slot ep i filled h3)) as [h5 [j|]].
           ++ destruct IH as (A & B & C). split; [exact A|]. split; [exact B|].
              apply (kept_trans _ _ _ _
                                (kept_trans _ _ _ _ Hk03 Hk4) C).
           ++ destruct IH as (A & B & C). split; [|split; [exact B|]].
              ** apply (kept_trans _ _ _ _ (kept_trans _ _ _ _ Hk03 Hk4) A).
              ** split; [discriminate | intros _ Hty; discriminate].
        -- (* invalid *)
           specialize (IH (S i) h3 ltac:(lia) Hinv3).
           destruct (alloc_stream_loop n (S i) ep usb_redir_type_invalid
                       p size c h3) as [h5 [j|]].
           ++ destruct IH as (A & B & C). split; [exact A|]. split; [exact B|].
              apply (kept_trans _ _ _ _ Hk03 C).
           ++ destruct IH as (A & B & C). split; [|split; [exact B|]].
              ** apply (kept_trans _ _ _ _ Hk03 A).
              ** split; [discriminate | intros _ Hty; discriminate].
      * split; [exact Hinv3|]. split; [lia | exact Hk03].
    + assert (Hs1 : (EP2I ep < length (endpoint h1))%nat)
        by apply (inv_slot _ _ _ _ Hres).
      split; [apply ring_inv_set_none; [lia | exact Hres]|].
      split; [lia|].
      eapply kept_trans; [exact Hk1 | apply kept_set_slot; exact Hs1].
Qed.

Lemma device_send_stream_status id ep status h :
  device (usbredirhost_send_stream_status id ep status h) = device h /\
  endpoint (usbredirhost_send_stream_status id ep status h) = endpoint h /\
  iso_threshold (usbredirhost_send_stream_status id ep status h) =
  iso_threshold h.
Proof.
  unfold usbredirhost_send_stream_status.
  destruct (ep_type (host_ep h ep)); repeat split; reflexivity.
Qed.

(** C5, as amended.  In the allocation of a stream a failed check of the
    arguments (packets per transfer outside 1..32, transfer count outside
    1..16, a packet size of the endpoint of zero, a packet size that is no
    multiple of it, or an endpoint of another type) is answered with the
    status STALL, in the stream status message of the type of the
    endpoint, and with nothing when that type has no such message (control,
    invalid); INVAL is the answer to a request for an endpoint that has a
    stream already.  When an allocation fails the records allocated so far
    are freed, the ring is left empty and the answer is STALL. *)
Theorem usbredirhost_alloc_stream_unlocked_refusals id ep type p size c s h :
  let r := usbredirhost_alloc_stream_unlocked id ep type p size c s h in
  (~ alloc_stream_parameters_valid h ep type p size c ->
   exists h', r = Some h' /\ refused_with usb_redir_stall id ep h h') /\
  (alloc_stream_parameters_valid h ep type p size c ->
   disconnected h = 0 -> ep_transfer_count (host_ep h ep) <> 0 ->
   exists h', r = Some h' /\ refused_with usb_redir_inval id ep h h') /\
  (alloc_stream_parameters_valid h ep type p size c ->
   disconnected h = 0 -> ep_transfer_count (host_ep h ep) = 0 ->
   ring_inv (allocated (device h)) ep 0 h ->
   forall h1 j,
     alloc_stream_loop (Z.to_nat c) 0 ep type p size c h = (h1, Some j) ->
     exists h',
       r = Some h' /\
       refused_with usb_redir_stall id ep h h' /\
       allocated (device h') = allocated (device h) /\
       forall k, nth k (transfer (host_ep h' ep)) None = None).
Proof.
  cbv zeta. split; [|split].
  - intros Hinv. rewrite usbredirhost_alloc_stream_unlocked_invalid
      by exact Hinv.
    eexists. split; [reflexivity|].
    apply calls_send_stream_status.
  - intros (Hty & Hp & Hc & Hm & Hrem) Hd Htc.
    unfold usbredirhost_alloc_stream_unlocked, refused_with.
    rewrite Hd. cbn [Z.eqb negb].
    rewrite (proj2 (usb_redir_type_eqb_eq _ _) Hty). cbn [negb].
    unfold MAX_PACKETS_PER_TRANSFER, MAX_TRANSFER_COUNT.
    rewrite Hrem, (proj2 (Z.eqb_neq _ _) Hm), (proj2 (Z.eqb_neq _ _) Htc).
    destruct (Z.ltb_spec p 1), (Z.gtb_spec p 32), (Z.ltb_spec c 1),
      (Z.gtb_spec c 16); try lia.
    cbn [orb negb]. eexists. split; [reflexivity|].
    apply calls_send_stream_status.
  - intros (Hty & Hp & Hc & Hm & Hrem) Hd Htc Hinv h1 j Hloop.
    unfold usbredirhost_alloc_stream_unlocked, refused_with.
    rewrite Hd. cbn [Z.eqb negb].
    rewrite (proj2 (usb_redir_type_eqb_eq _ _) Hty). cbn [negb].
    unfold MAX_PACKETS_PER_TRANSFER, MAX_TRANSFER_COUNT.
    rewrite Hrem, (proj2 (Z.eqb_neq _ _) Hm), Htc.
    destruct (Z.ltb_spec p 1), (Z.gtb_spec p 32), (Z.ltb_spec c 1),
      (Z.gtb_spec c 16); try lia.
    cbn [orb Z.eqb negb]. rewrite Hloop.
    pose proof (alloc_stream_loop_spec (allocated (device h)) ep type p size c
                  (Z.to_nat c) 0 h ltac:(lia) Hinv) as Hspec.
    rewrite Hloop in Hspec. destruct Hspec as (Hinv1 & Hj & Hk1).
    destruct (free_partial_stream_frees _ _ _ _ Hj Hinv1) as [Hinv2 Hk2].
    set (h2 := free_partial_stream j ep h1) in *.
    destruct (device_send_stream_status id ep usb_redir_stall h2)
      as (Ed & Ee & _).
    eexists. split; [reflexivity|].
    split; [|split].
    + unfold refused_with. rewrite calls_send_stream_status.
      rewrite (kept_calls _ _ _ (kept_trans _ _ _ _ Hk1 Hk2)).
      rewrite (kept_type _ _ _ (kept_trans _ _ _ _ Hk1 Hk2)). reflexivity.
    + rewrite Ed. exact (inv_allocated _ _ _ _ Hinv2).
    + intros k. unfold host_ep. rewrite Ee. fold (host_ep h2 ep).
      apply (inv_above _ _ _ _ Hinv2). lia.
Qed.

Lemma ring_inv_host_iso_out_of_memory :
  ring_inv (allocated (device host_iso_out_of_memory)) 0x81 0
           host_iso_out_of_memory.
Proof.
  split.
  - apply Nat.ltb_lt. reflexivity.
  - reflexivity.
  - reflexivity.
  - constructor.
  - constructor.
  - intros k _. change (nth k (repeat (@None stream_transfer) 16) None = None).
    do 16 (destruct k as [|k]; [reflexivity|]). destruct k; reflexivity.
Qed.

Lemma usbredirhost_alloc_stream_unlocked_refusals_witness :
  let h := host_iso_out_of_memory in
  let h1 := fst (alloc_stream_loop (Z.to_nat 4) 0 0x81 usb_redir_type_iso
                   8 512 4 h) in
  (~ alloc_stream_parameters_valid h 0x81 usb_redir_type_iso 0 512 4 /\
   exists h',
     usbredirhost_alloc_stream_unlocked 7 0x81 usb_redir_type_iso 0 512 4 1
                                        h = Some h' /\
     refused_with usb_redir_stall 7 0x81 h h') /\
  (alloc_stream_parameters_valid h 0x81 usb_redir_type_iso 8 512 4 /\
   disconnected h = 0 /\ ep_transfer_count (host_ep h 0x81) = 0 /\
   alloc_stream_loop (Z.to_nat 4) 0 0x81 usb_redir_type_iso 8 512 4 h =
   (h1, Some 1%nat) /\
   exists h',
     usbredirhost_alloc_stream_unlocked 7 0x81 usb_redir_type_iso
       8 512 4 1 h = Some h' /\
     refused_with usb_redir_stall 7 0x81 h h' /\
     allocated (device h') = allocated (device h) /\
     forall k, nth k (transfer (host_ep h' 0x81)) None = None).
Proof.
  intros h h1.
  assert (Hinv : ~ alloc_stream_parameters_valid h 0x81
                   usb_redir_type_iso 0 512 4)
    by (intros (_ & Hp & _); lia).
  assert (Hval : alloc_stream_parameters_valid h 0x81
                   usb_redir_type_iso 8 512 4)
    by (repeat split; try (vm_compute; reflexivity); try lia; discriminate).
  assert (Hd : disconnected h = 0) by (vm_compute; reflexivity).
  assert (Htc : ep_transfer_count (host_ep h 0x81) = 0)
    by (vm_compute; reflexivity).
  assert (Hloop : alloc_stream_loop (Z.to_nat 4) 0 0x81 usb_redir_type_iso
                    8 512 4 h = (h1, Some 1%nat))
    by (vm_compute; reflexivity).
  split.
  - split; [exact Hinv|].
    exact (proj1 (usbredirhost_alloc_stream_unlocked_refusals 7 0x81
                    usb_redir_type_iso 0 512 4 1 h) Hinv).
  - split; [exact Hval|]. split; [exact Hd|]. split; [exact Htc|].
    split; [exact Hloop|].
    exact (proj2 (proj2 (usbredirhost_alloc_stream_unlocked_refusals 7 0x81
                    usb_redir_type_iso 8 512 4 1 h))
                 Hval Hd Htc ring_inv_host_iso_out_of_memory
                 h1 1%nat Hloop).
Defined.

(** A request for an isochronous stream with no packet per transfer fails
    the check of its arguments: the answer is the iso stream status STALL,
    and no INVAL is sent. *)
Lemma usbredirhost_alloc_stream_unlocked_counterexample :
  exists h',
    usbredirhost_alloc_stream_unlocked 7 0x81 usb_redir_type_iso
      0 512 4 1 host_iso_in = Some h'
    /\ ~ alloc_stream_parameters_valid host_iso_in 0x81 usb_redir_type_iso
          0 512 4
    /\ calls (parser h') =
       [usbredirparser_send_iso_stream_status 7 0x81 usb_redir_stall]
    /\ ~ In (usbredirparser_send_iso_stream_status 7 0x81 usb_redir_inval)
         (calls (parser h')).
Proof.
  eexists. split; [reflexivity|].
  split; [intros (_ & Hp & _); lia|].
  split; [reflexivity|]. cbn. intros [E | []]. discriminate.
Qed.

(* --------------------------------------------------------------------- *)
(** ** The host engine: the thresholds of an isochronous stream           *)
(* --------------------------------------------------------------------- *)

Lemma iso_threshold_handle_disconnect h :
  iso_threshold (usbredirhost_handle_disconnect h) = iso_threshold h.
Proof.
  unfold usbredirhost_handle_disconnect.
  destruct (disconnected h =? 0); [|reflexivity].
  cbn. destruct (peer_has_cap_device_disconnect_ack (parser h)); reflexivity.
Qed.

Lemma iso_threshold_free_transfer t h :
  iso_threshold (usbredirhost_free_transfer t h) = iso_threshold h.
Proof. destruct t; reflexivity. Qed.

Lemma iso_threshold_send_stream_status id ep status h :
  iso_threshold (usbredirhost_send_stream_status id ep status h) =
  iso_threshold h.
Proof. apply device_send_stream_status. Qed.

Lemma ring_kept_refl ep h :
  (EP2I ep < length (endpoint h))%nat -> ring_kept ep h h.
Proof. intros Hs. split; [exact Hs | auto | reflexivity]. Qed.

Lemma ring_kept_trans ep h1 h2 h3 :
  ring_kept ep h1 h2 -> ring_kept ep h2 h3 -> ring_kept ep h1 h3.
Proof.
  intros [A1 A2 A3] [B1 B2 B3]. split; [exact B1 | auto | congruence].
Qed.

(** What leaves the endpoints alone keeps the rings. *)
Lemma ring_kept_endpoint ep h h' :
  (EP2I ep < length (endpoint h))%nat -> endpoint h' = endpoint h ->
  ring_kept ep h h'.
Proof.
  intros Hs He. unfold host_ep.
  split; unfold host_ep; rewrite He; [exact Hs | auto | reflexivity].
Qed.

Lemma ring_kept_set_slot ep i t h :
  (EP2I ep < length (endpoint h))%nat ->
  ring_kept ep h (set_slot ep i (Some t) h).
Proof.
  intros Hs. split.
  - unfold set_slot. rewrite length_endpoint_set_host_ep. exact Hs.
  - intros k Hk. unfold ep_transfer in *.
    rewrite transfer_set_slot by exact Hs.
    destruct (Nat.eq_dec i k) as [<- | Hne].
    + rewrite nth_insert_same; [discriminate|].
      destruct (Nat.lt_ge_cases i (length (transfer (host_ep h ep))))
        as [Hlt | Hge]; [exact Hlt|].
      rewrite nth_overflow in Hk by exact Hge. contradiction.
    + rewrite nth_insert_other by exact Hne. exact Hk.
  - unfold set_slot. rewrite host_ep_set_host_ep by exact Hs. reflexivity.
Qed.

Lemma ring_filled_kept ep i n h h' :
  ring_kept ep h h' -> ring_filled ep i n h -> ring_filled ep i n h'.
Proof.
  intros Hk Hf k Hr. apply (ring_kept_records _ _ _ Hk), Hf, Hr.
Qed.

Lemma endpoint_handle_disconnect h :
  endpoint (usbredirhost_handle_disconnect h) = endpoint h.
Proof.
  unfold usbredirhost_handle_disconnect.
  destruct (disconnected h =? 0); [|reflexivity].
  cbn. destruct (peer_has_cap_device_disconnect_ack (parser h)); reflexivity.
Qed.

(** The loop of [usbredirhost_cancel_stream_unlocked] runs to its end on
    slots that hold records. *)
Lemma cancel_stream_loop_returns n :
  forall i ep h,
    (EP2I ep < length (endpoint h))%nat ->
    ring_filled ep i n h ->
    exists h',
      cancel_stream_loop n i ep h = Some h'
      /\ iso_threshold h' = iso_threshold h
      /\ length (endpoint h') = length (endpoint h).
Proof.
  induction n as [|n IH]; intros i ep h Hs Hf.
  - exists h. repeat split; reflexivity.
  - cbn [cancel_stream_loop].
    destruct (ep_transfer (host_ep h ep) i) as [t|] eqn:Et;
      [|exfalso; apply (Hf i); [lia | exact Et]].
    set (h1 := if s_packet_idx t =? SUBMITTED_IDX then _ else _).
    assert (He1 : endpoint h1 = endpoint h
                  /\ iso_threshold h1 = iso_threshold h)
      by (unfold h1; destruct (s_packet_idx t =? SUBMITTED_IDX);
          split; reflexivity).
    destruct He1 as [He1 Hi1].
    assert (Hs1 : (EP2I ep < length (endpoint h1))%nat)
      by (rewrite He1; exact Hs).
    destruct (IH (S i) ep (set_slot ep i None h1)) as (h' & E & Hi & Hl).
    + unfold set_slot. rewrite length_endpoint_set_host_ep. exact Hs1.
    + intros k Hk. unfold ep_transfer.
      rewrite transfer_set_slot by exact Hs1.
      rewrite nth_insert_other by lia.
      unfold host_ep. rewrite He1. apply (Hf k). lia.
    + exists h'. split; [exact E|]. split.
      * rewrite Hi. exact Hi1.
      * rewrite Hl. unfold set_slot.
        rewrite length_endpoint_set_host_ep, He1. reflexivity.
Qed.

Lemma usbredirhost_cancel_stream_unlocked_returns ep h :
  (EP2I ep < length (endpoint h))%nat ->
  ring_filled ep 0 (Z.to_nat (ep_transfer_count (host_ep h ep))) h ->
  exists h',
    usbredirhost_cancel_stream_unlocked ep h = Some h'
    /\ iso_threshold h' = iso_threshold h.
Proof.
  intros Hs Hf. unfold usbredirhost_cancel_stream_unlocked.
  destruct (cancel_stream_loop_returns _ 0 ep h Hs Hf) as (h1 & E & Hi & _).
  rewrite E. eexists. split; [reflexivity | exact Hi].
Qed.

Lemma iso_threshold_cancel_stream_loop n :
  forall i ep h h',
    cancel_stream_loop n i ep h = Some h' ->
    iso_threshold h' = iso_threshold h.
Proof.
  induction n as [|n IH]; intros i ep h h'; cbn [cancel_stream_loop].
  - intros [= <-]. reflexivity.
  - destruct (ep_transfer (host_ep h ep) i) as [t|]; [|discriminate].
    intros E. rewrite (IH _ _ _ _ E).
    destruct (s_packet_idx t =? SUBMITTED_IDX); reflexivity.
Qed.

Lemma iso_threshold_cancel_stream_unlocked ep h h' :
  usbredirhost_cancel_stream_unlocked ep h = Some h' ->
  iso_threshold h' = iso_threshold h.
Proof.
  unfold usbredirhost_cancel_stream_unlocked.
  destruct (cancel_stream_loop _ 0 ep h) as [h1|] eqn:E; [|discriminate].
  intros [= <-]. cbn. exact (iso_threshold_cancel_stream_loop _ _ _ _ _ E).
Qed.

(** A submission on a slot that holds a record, in a ring that holds its
    records, returns; when it succeeds the ring is as full as before. *)
Lemma usbredirhost_submit_stream_transfer_unlocked_returns ep i h :
  (EP2I ep < length (endpoint h))%nat ->
  ep_transfer (host_ep h ep) i <> None ->
  ring_filled ep 0 (Z.to_nat (ep_transfer_count (host_ep h ep))) h ->
  exists h' status,
    usbredirhost_submit_stream_transfer_unlocked ep i h = Some (h', status)
    /\ iso_threshold h' = iso_threshold h
    /\ (status = usb_redir_success -> ring_kept ep h h').
Proof.
  intros Hs Hi Hf. unfold usbredirhost_submit_stream_transfer_unlocked.
  cbv zeta.
  change (host_ep (set_reset 0 h) ep) with (host_ep h ep).
  destruct (ep_transfer (host_ep h ep) i) as [t|]; [|contradiction].
  unfold libusb_submit_transfer. cbv zeta.
  destruct (match submit_results (device (set_reset 0 h)) with
            | [] => (None, [])
            | r :: rest => (r, rest)
            end) as [r rest].
  match goal with
  | |- context [set_device ?d (set_reset 0 h)] =>
      set (h1 := set_device d (set_reset 0 h))
  end.
  assert (He1 : endpoint h1 = endpoint h) by reflexivity.
  assert (Hi1 : iso_threshold h1 = iso_threshold h) by reflexivity.
  assert (Hs1 : (EP2I ep < length (endpoint h1))%nat)
    by (rewrite He1; exact Hs).
  destruct r as [code|].
  - assert (Hcancel : exists h2,
               usbredirhost_cancel_stream_unlocked ep h1 = Some h2
               /\ iso_threshold h2 = iso_threshold h1).
    { apply usbredirhost_cancel_stream_unlocked_returns; [exact Hs1|].
      exact Hf. }
    destruct Hcancel as (h2 & E2 & Hi2).
    destruct code;
      try (rewrite E2; eexists; eexists; split; [reflexivity|];
           split; [rewrite iso_threshold_send_stream_status; congruence
                  | discriminate]).
    eexists. eexists. split; [reflexivity|].
    split; [|discriminate].
    rewrite iso_threshold_handle_disconnect. exact Hi1.
  - eexists. eexists. split; [reflexivity|].
    split; [reflexivity|]. intros _.
    eapply ring_kept_trans;
      [apply (ring_kept_endpoint ep h h1 Hs He1)
      | apply ring_kept_set_slot; exact Hs1].
Qed.

Lemma iso_threshold_submit ep i h r :
  usbredirhost_submit_stream_transfer_unlocked ep i h = Some r ->
  iso_threshold (fst r) = iso_threshold h.
Proof.
  unfold usbredirhost_submit_stream_transfer_unlocked.
  destruct (ep_transfer (host_ep (set_reset 0 h) ep) i) as [t|];
    [|discriminate].
  unfold libusb_submit_transfer.
  destruct (submit_results (device (set_reset 0 h))) as [|[code|] rest];
    try (intros [= <-]; reflexivity).
  destruct code;
    try (match goal with
         | |- context [usbredirhost_cancel_stream_unlocked ep ?h1] =>
             destruct (usbredirhost_cancel_stream_unlocked ep h1)
               as [h2|] eqn:E; [|discriminate];
             intros [= <-]; cbn [fst];
             rewrite iso_threshold_send_stream_status,
               (iso_threshold_cancel_stream_unlocked _ _ _ E); reflexivity
         end).
  intros [= <-]. cbn [fst].
  rewrite iso_threshold_handle_disconnect. reflexivity.
Qed.

(** The loop of [usbredirhost_start_stream_unlocked] returns on a ring
    that holds its records. *)
Lemma start_stream_loop_returns ep n :
  forall i h,
    (EP2I ep < length (endpoint h))%nat ->
    ring_filled ep 0 (Z.to_nat (ep_transfer_count (host_ep h ep))) h ->
    (i + n <= Z.to_nat (ep_transfer_count (host_ep h ep)))%nat ->
    exists h' status,
      start_stream_loop n i ep h = Some (h', status)
      /\ iso_threshold h' = iso_threshold h.
Proof.
  induction n as [|n IH]; intros i h Hs Hf Hn.
  - exists h, usb_redir_success. split; reflexivity.
  - cbn [start_stream_loop].
    assert (Hi : ep_transfer (host_ep h ep) i <> None)
      by (apply Hf; lia).
    assert (Hnum : exists h0,
               (if negb (Z.land ep LIBUSB_ENDPOINT_IN =? 0)
                then match ep_transfer (host_ep h ep) i with
                     | Some t =>
                         Some (set_slot ep i
                                 (Some (mk_stream_transfer (s_transfer t)
                                          (Z.of_nat i
                                           * ep_pkts_per_transfer
                                               (host_ep h ep))
                                          (s_cancelled t) (s_packet_idx t)
                                          (s_buffer t))) h)
                     | None => None
                     end
                else Some h) = Some h0
               /\ ring_kept ep h h0
               /\ iso_threshold h0 = iso_threshold h).
    { destruct (negb (Z.land ep LIBUSB_ENDPOINT_IN =? 0)).
      - destruct (ep_transfer (host_ep h ep) i) as [t|]; [|contradiction].
        eexists. split; [reflexivity|].
        split; [apply ring_kept_set_slot; exact Hs | reflexivity].
      - exists h. split; [reflexivity|].
        split; [apply ring_kept_refl; exact Hs | reflexivity]. }
    destruct Hnum as (h0 & E0 & Hk0 & Hi0). rewrite E0.
    assert (Hf0 : ring_filled ep 0
                    (Z.to_nat (ep_transfer_count (host_ep h0 ep))) h0).
    { rewrite (ring_kept_count _ _ _ Hk0).
      apply (ring_filled_kept _ _ _ _ _ Hk0 Hf). }
    destruct (usbredirhost_submit_stream_transfer_unlocked_returns ep i h0
                (ring_kept_slot _ _ _ Hk0)
                (ring_kept_records _ _ _ Hk0 _ Hi) Hf0)
      as (h1 & status & E1 & Hi1 & Hk1).
    rewrite E1.
    destruct (usb_redir_status_eqb status usb_redir_success) eqn:Est;
      cbn [negb].
    + assert (Hst : status = usb_redir_success)
        by (destruct status; try discriminate; reflexivity).
      specialize (Hk1 Hst).
      assert (Hk01 : ring_kept ep h h1)
        by (eapply ring_kept_trans; [exact Hk0 | exact Hk1]).
      destruct (IH (S i) h1) as (h' & status' & E & Hi').
      * exact (ring_kept_slot _ _ _ Hk01).
      * rewrite (ring_kept_count _ _ _ Hk01).
        apply (ring_filled_kept _ _ _ _ _ Hk01 Hf).
      * rewrite (ring_kept_count _ _ _ Hk01). lia.
      * exists h', status'. split; [exact E|]. congruence.
    + exists h1, status. split; [reflexivity|]. congruence.
Qed.

Lemma usbredirhost_start_stream_unlocked_returns ep h :
  (EP2I ep < length (endpoint h))%nat ->
  ring_filled ep 0 (Z.to_nat (ep_transfer_count (host_ep h ep))) h ->
  exists h' status,
    usbredirhost_start_stream_unlocked ep h = Some (h', status)
    /\ iso_threshold h' = iso_threshold h.
Proof.
  intros Hs Hf. unfold usbredirhost_start_stream_unlocked. cbv zeta.
  set (count := if negb (Z.land ep LIBUSB_ENDPOINT_IN =? 0)
                then ep_transfer_count (host_ep h ep)
                else ep_transfer_count (host_ep h ep) / 2).
  assert (Hcount : (0 + Z.to_nat count
                    <= Z.to_nat (ep_transfer_count (host_ep h ep)))%nat).
  { unfold count. destruct (negb (Z.land ep LIBUSB_ENDPOINT_IN =? 0));
      [lia|].
    destruct (Z_le_gt_dec 0 (ep_transfer_count (host_ep h ep))) as [Hp | Hn].
    - pose proof (Z.div_le_upper_bound (ep_transfer_count (host_ep h ep)) 2
                    (ep_transfer_count (host_ep h ep)) ltac:(lia)
                    ltac:(lia)). lia.
    - pose proof (Z.div_lt_upper_bound (ep_transfer_count (host_ep h ep)) 2 0
                    ltac:(lia) ltac:(lia)). lia. }
  destruct (start_stream_loop_returns ep _ 0 h Hs Hf Hcount)
    as (h1 & status & E & Hi).
  rewrite E.
  destruct (negb (usb_redir_status_eqb status usb_redir_success)).
  - exists h1, status. split; [reflexivity | exact Hi].
  - eexists. eexists. split; [reflexivity | exact Hi].
Qed.

(** The allocation loop that has run to its end has put a record in each
    of its slots and has kept those of the slots before. *)
Lemma alloc_stream_loop_filled ep type p size c n :
  forall i h h1,
    (EP2I ep < length (endpoint h))%nat ->
    (i + n <= length (transfer (host_ep h ep)))%nat ->
    alloc_stream_loop n i ep type p size c h = (h1, None) ->
    ring_filled ep 0 i h -> ring_filled ep 0 (i + n) h1.
Proof.
  induction n as [|n IH]; intros i h h1 Hs Hlen.
  - cbn [alloc_stream_loop]. intros [= <-] Hf.
    rewrite Nat.add_0_r. exact Hf.
  - cbn [alloc_stream_loop].
    assert (Ha : endpoint (fst (usbredirhost_alloc_transfer h))
                 = endpoint h).
    { unfold usbredirhost_alloc_transfer.
      pose proof (endpoint_allocate h) as E1.
      destruct (allocate h) as [ha ra]. cbn [fst] in E1.
      pose proof (endpoint_allocate ha) as E2.
      destruct (allocate ha) as [hb rb]. cbn [fst] in E2.
      destruct (negb ra || negb rb); cbn [fst endpoint set_device];
        congruence. }
    destruct (usbredirhost_alloc_transfer h) as [ha [t|]];
      cbn [fst] in Ha; [|discriminate].
    assert (Hsa : (EP2I ep < length (endpoint ha))%nat)
      by (rewrite Ha; exact Hs).
    set (h2 := set_slot ep i (Some t) ha).
    pose proof (endpoint_allocate h2) as E3.
    destruct (allocate h2) as [h3 buffer]. cbn [fst] in E3.
    destruct buffer; cbn [negb]; [|discriminate].
    assert (Hs2 : (EP2I ep < length (endpoint h2))%nat)
      by (unfold h2, set_slot; rewrite length_endpoint_set_host_ep;
          exact Hsa).
    assert (Hs3 : (EP2I ep < length (endpoint h3))%nat)
      by (rewrite E3; exact Hs2).
    assert (Hring2 : transfer (host_ep h2 ep)
                     = <[i := Some t]> (transfer (host_ep h ep))).
    { unfold h2. rewrite transfer_set_slot by exact Hsa.
      unfold host_ep. rewrite Ha. reflexivity. }
    assert (Hring3 : transfer (host_ep h3 ep) = transfer (host_ep h2 ep))
      by (unfold host_ep; rewrite E3; reflexivity).
    set (filled := Some (mk_stream_transfer (s_transfer t) (s_id t)
                           (s_cancelled t) (s_packet_idx t)
                           (Some (to_int (size * p))))).
    assert (Hstep : forall h4,
               (EP2I ep < length (endpoint h4))%nat ->
               (transfer (host_ep h4 ep) = transfer (host_ep h3 ep)
                \/ transfer (host_ep h4 ep)
                   = <[i := filled]> (transfer (host_ep h3 ep))) ->
               alloc_stream_loop n (S i) ep type p size c h4 = (h1, None) ->
               ring_filled ep 0 i h -> ring_filled ep 0 (i + S n) h1).
    { intros h4 Hs4 Hring4 Hloop Hf.
      replace (i + S n)%nat with (S i + n)%nat by lia.
      apply (IH (S i) h4 h1 Hs4).
      - destruct Hring4 as [-> | ->];
          rewrite ?length_insert, Hring3, Hring2, length_insert; lia.
      - exact Hloop.
      - intros k Hk. unfold ep_transfer.
        destruct (Nat.eq_dec k i) as [-> | Hne].
        + destruct Hring4 as [-> | ->].
          * rewrite Hring3, Hring2, nth_insert_same by lia. discriminate.
          * rewrite nth_insert_same; [discriminate|].
            rewrite Hring3, Hring2, length_insert. lia.
        + assert (Hold : nth k (transfer (host_ep h ep)) None <> None)
            by (apply (Hf k); lia).
          destruct Hring4 as [E4 | E4]; rewrite E4.
          * rewrite Hring3, Hring2. rewrite nth_insert_other by lia.
            exact Hold.
          * rewrite nth_insert_other by lia. rewrite Hring3, Hring2.
            rewrite nth_insert_other by lia. exact Hold. }
    destruct type.
    + apply Hstep; [exact Hs3 | left; reflexivity].
    + apply Hstep.
      * unfold usbredirhost_set_iso_threshold, set_slot.
        cbn [endpoint set_iso_threshold].
        rewrite length_endpoint_set_host_ep. exact Hs3.
      * right.
        change (host_ep (usbredirhost_set_iso_threshold ?a ?b ?m ?x) ep)
          with (host_ep x ep).
        apply transfer_set_slot. exact Hs3.
    + apply Hstep.
      * unfold set_slot. rewrite length_endpoint_set_host_ep. exact Hs3.
      * right. apply transfer_set_slot. exact Hs3.
    + apply Hstep.
      * unfold set_slot. rewrite length_endpoint_set_host_ep. exact Hs3.
      * right. apply transfer_set_slot. exact Hs3.
    + apply Hstep; [exact Hs3 | left; reflexivity].
Qed.

(** What [usbredirhost_set_iso_threshold] computes for the arguments that
    pass the checks of the allocation. *)
Lemma usbredirhost_set_iso_threshold_value p c m h :
  1 <= p <= 32 -> 1 <= c <= 16 -> 0 <= m <= 65535 ->
  thresholds_of p c m
    (iso_threshold (usbredirhost_set_iso_threshold p c m h)).
Proof.
  intros Hp Hc Hm. unfold thresholds_of, usbredirhost_set_iso_threshold.
  cbn [iso_threshold set_iso_threshold higher lower].
  assert (Hpc0 : 0 <= p * c <= 512) by nia.
  assert (Hpc : 0 <= p * c * m <= 32 * 16 * 65535) by nia.
  unfold to_uint8, to_uint16, to_uint64.
  rewrite (Z.mod_small p), (Z.mod_small c), (Z.mod_small m) by lia.
  rewrite to_int_small by lia.
  rewrite (Z.mod_small (p * c * m)) by lia.
  rewrite Z.mod_small by lia. split; [lia | reflexivity].
Qed.

Section IsoBackpressureTheorem.
Context `{usbredirhost_h}.

Lemma dropping_send_stream_data_iso id ep status data h :
  ep_type (host_ep h ep) = usb_redir_type_iso ->
  dropping (iso_threshold (usbredirhost_send_stream_data id ep status data h))
  = if has_data_to_write (parser h) <=? 800
    then dropping (iso_threshold
                     (fst (usbredirhost_can_write_iso_package h)))
    else dropping (iso_threshold h).
Proof.
  intros Hiso. unfold usbredirhost_send_stream_data.
  rewrite Z.gtb_ltb, Z.ltb_antisym.
  destruct (has_data_to_write (parser h) <=? 800); cbn [negb].
  - rewrite Hiso.
    destruct (usbredirhost_can_write_iso_package h) as [h1 [|]];
      reflexivity.
  - destruct (negb (warn_on_drop (host_ep h ep) =? 0)); reflexivity.
Qed.

(** C4, as amended.  When an isochronous stream is allocated with p
    packets per transfer and c transfers on an endpoint whose packet size
    is m, the thresholds are set to higher = 3*(p*c*m) and
    lower = (p*c*m)/2.  An isochronous input packet is then sent if and
    only if the parser holds no more than 800 buffers to write and
    [usbredirhost_can_write_iso_package] answers yes.  That answer is the
    negation of the dropping mode, once the mode has been turned on for a
    buffered output size >= higher, turned off for a size < lower and left
    as it was in between; when no size is to be had (the application owns
    the buffers and has given no callback to ask for it) the answer is yes
    and the mode is left alone.  For p=8, c=4, m=512 the thresholds are
    higher=49152 and lower=8192. *)
Theorem usbredirhost_iso_backpressure :
  (forall id ep p size c s h h1,
     alloc_stream_parameters_valid h ep usb_redir_type_iso p size c ->
     disconnected h = 0 -> ep_transfer_count (host_ep h ep) = 0 ->
     0 <= ep_max_packetsize (host_ep h ep) <= 65535 ->
     ring_inv (allocated (device h)) ep 0 h ->
     alloc_stream_loop (Z.to_nat c) 0 ep usb_redir_type_iso p size c h =
     (h1, None) ->
     exists h',
       usbredirhost_alloc_stream_unlocked id ep usb_redir_type_iso p size c
                                          s h = Some h' /\
       thresholds_of p c (ep_max_packetsize (host_ep h ep))
         (iso_threshold h')) /\
  (forall id ep status data h,
     ep_type (host_ep h ep) = usb_redir_type_iso ->
     let h' := usbredirhost_send_stream_data id ep status data h in
     calls (parser h') =
     calls (parser h) ++
     (if (has_data_to_write (parser h) <=? 800) &&
         snd (usbredirhost_can_write_iso_package h)
      then [usbredirparser_send_iso_packet id
              (mk_iso_packet ep status (to_uint16 (Z.of_nat (length data))))
              (Some data)]
      else []) /\
     match size_query h with
     | Some size =>
         snd (usbredirhost_can_write_iso_package h) =
         negb (next_dropping size (iso_threshold h)) /\
         dropping (iso_threshold h') =
         if has_data_to_write (parser h) <=? 800
         then next_dropping size (iso_threshold h)
         else dropping (iso_threshold h)
     | None =>
         snd (usbredirhost_can_write_iso_package h) = true /\
         dropping (iso_threshold h') = dropping (iso_threshold h)
     end) /\
  (exists h',
     usbredirhost_alloc_stream_unlocked 7 0x81 usb_redir_type_iso
       8 512 4 1 host_iso_in = Some h' /\
     higher (iso_threshold h') = 49152 /\ lower (iso_threshold h') = 8192).
Proof.
  split; [|split].
  - intros id ep p size c s h h1 Hval Hd Htc Hm Hinv Hloop.
    destruct Hval as (Hty & Hp & Hc & Hm0 & Hrem).
    unfold usbredirhost_alloc_stream_unlocked.
    rewrite Hd. cbn [Z.eqb negb].
    rewrite (proj2 (usb_redir_type_eqb_eq _ _) Hty). cbn [negb].
    unfold MAX_PACKETS_PER_TRANSFER, MAX_TRANSFER_COUNT.
    rewrite Hrem, (proj2 (Z.eqb_neq _ _) Hm0), Htc.
    destruct (Z.ltb_spec p 1), (Z.gtb_spec p 32), (Z.ltb_spec c 1),
      (Z.gtb_spec c 16); try lia.
    cbn [orb Z.eqb negb]. rewrite Hloop.
    pose proof (alloc_stream_loop_spec (allocated (device h)) ep
                  usb_redir_type_iso p size c (Z.to_nat c) 0 h
                  ltac:(lia) Hinv) as Hspec.
    rewrite Hloop in Hspec. destruct Hspec as (_ & Hs1 & _ & Hth).
    specialize (Hth ltac:(lia) eq_refl).
    pose proof (alloc_stream_loop_filled ep usb_redir_type_iso p size c
                  (Z.to_nat c) 0 h h1 (inv_slot _ _ _ _ Hinv)
                  ltac:(rewrite (inv_ring _ _ _ _ Hinv); lia) Hloop
                  ltac:(intros k Hk; lia)) as Hfull.
    set (h2 := set_host_ep ep _ h1).
    assert (E2 : iso_threshold h2 = iso_threshold h1) by reflexivity.
    assert (Hs2 : (EP2I ep < length (endpoint h2))%nat)
      by (unfold h2; rewrite length_endpoint_set_host_ep; exact Hs1).
    assert (Hfull2 : ring_filled ep 0
                       (Z.to_nat (ep_transfer_count (host_ep h2 ep))) h2).
    { unfold h2. rewrite host_ep_set_host_ep by exact Hs1.
      cbn [ep_transfer_count]. intros k Hk.
      rewrite host_ep_set_host_ep by exact Hs1.
      apply (Hfull k). lia. }
    assert (Hstart : exists h3 status,
               (if negb (Z.land ep LIBUSB_ENDPOINT_IN =? 0)
                then usbredirhost_start_stream_unlocked ep h2
                else Some (h2, usb_redir_success)) = Some (h3, status)
               /\ iso_threshold h3 = iso_threshold h2).
    { destruct (negb (Z.land ep LIBUSB_ENDPOINT_IN =? 0)).
      - apply usbredirhost_start_stream_unlocked_returns; assumption.
      - exists h2, usb_redir_success. split; reflexivity. }
    destruct Hstart as (h3 & status & E3 & Hi3). rewrite E3.
    assert (Hvalue : thresholds_of p c (ep_max_packetsize (host_ep h ep))
                       (iso_threshold h3)).
    { rewrite Hi3, E2, Hth.
      apply usbredirhost_set_iso_threshold_value; assumption. }
    destruct (negb (s =? 0) &&
              usb_redir_status_eqb status usb_redir_success).
    + eexists. split; [reflexivity|].
      rewrite iso_threshold_send_stream_status. exact Hvalue.
    + eexists. split; [reflexivity | exact Hvalue].
  - intros id ep status data h Hiso h'. unfold h'.
    split; [apply usbredirhost_send_stream_data_iso; exact Hiso|].
    rewrite (dropping_send_stream_data_iso _ _ _ _ _ Hiso).
    pose proof (usbredirhost_can_write_iso_package_spec h) as Hcw.
    destruct (size_query h) as [size|].
    + destruct Hcw as [Ha Hb]. rewrite Hb. split; [exact Ha | reflexivity].
    + rewrite Hcw. cbn [fst snd]. split; [reflexivity|].
      destruct (has_data_to_write (parser h) <=? 800); reflexivity.
  - eexists. split; [vm_compute; reflexivity|].
    vm_compute. split; reflexivity.
Qed.

End IsoBackpressureTheorem.

(** The stream of the scenario is allocated; 801 small buffers wait in the
    parser and dropping mode is off, before and after: the packet is not
    sent. *)
Lemma usbredirhost_iso_backpressure_counterexample :
  let h := host_iso_congested in
  let h' := usbredirhost_send_stream_data (H := usbredirhost_h_0_12)
              7 0x81 usb_redir_success [1; 2; 3] h in
  ep_type (host_ep h 0x81) = usb_redir_type_iso /\
  dropping (iso_threshold h) = false /\
  dropping (iso_threshold h') = false /\
  bufferered_output_size (parser h) < lower (iso_threshold h) /\
  calls (parser h') = calls (parser h).
Proof.
  cbv zeta. repeat split; reflexivity.
Qed.

Lemma ring_inv_host_iso_in :
  ring_inv (allocated (device host_iso_in)) 0x81 0 host_iso_in.
Proof.
  split.
  - apply Nat.ltb_lt. reflexivity.
  - reflexivity.
  - reflexivity.
  - constructor.
  - constructor.
  - intros k _. change (nth k (repeat (@None stream_transfer) 16) None = None).
    do 16 (destruct k as [|k]; [reflexivity|]). destruct k; reflexivity.
Qed.

Lemma usbredirhost_iso_backpressure_witness :
  let h := host_iso_in in
  let h1 := fst (alloc_stream_loop (Z.to_nat 4) 0 0x81 usb_redir_type_iso
                   8 512 4 h) in
  (alloc_stream_parameters_valid h 0x81 usb_redir_type_iso 8 512 4 /\
   disconnected h = 0 /\ ep_transfer_count (host_ep h 0x81) = 0 /\
   0 <= ep_max_packetsize (host_ep h 0x81) <= 65535 /\
   alloc_stream_loop (Z.to_nat 4) 0 0x81 usb_redir_type_iso 8 512 4 h =
   (h1, None) /\
   exists h',
     usbredirhost_alloc_stream_unlocked 7 0x81 usb_redir_type_iso 8 512
                                        4 1 h = Some h' /\
     thresholds_of 8 4 (ep_max_packetsize (host_ep h 0x81))
       (iso_threshold h')) /\
  (ep_type (host_ep host_iso_congested 0x81) = usb_redir_type_iso /\
   calls (parser (usbredirhost_send_stream_data (H := usbredirhost_h_0_12)
                    7 0x81 usb_redir_success [1; 2; 3] host_iso_congested))
   = calls (parser host_iso_congested) ++
     (if (has_data_to_write (parser host_iso_congested) <=? 800) &&
         snd (usbredirhost_can_write_iso_package (H := usbredirhost_h_0_12)
                host_iso_congested)
      then [usbredirparser_send_iso_packet 7
              (mk_iso_packet 0x81 usb_redir_success
                 (to_uint16 (Z.of_nat (length [1; 2; 3]))))
              (Some [1; 2; 3])]
      else [])).
Proof.
  intros h h1.
  assert (Hval : alloc_stream_parameters_valid h 0x81
                   usb_redir_type_iso 8 512 4)
    by (repeat split; try (vm_compute; reflexivity); try lia; discriminate).
  assert (Hd : disconnected h = 0) by (vm_compute; reflexivity).
  assert (Htc : ep_transfer_count (host_ep h 0x81) = 0)
    by (vm_compute; reflexivity).
  assert (Hm : 0 <= ep_max_packetsize (host_ep h 0x81) <= 65535)
    by (vm_compute; split; discriminate).
  assert (Hloop : alloc_stream_loop (Z.to_nat 4) 0 0x81 usb_redir_type_iso
                    8 512 4 h = (h1, None))
    by (vm_compute; reflexivity).
  assert (Hiso : ep_type (host_ep host_iso_congested 0x81)
                 = usb_redir_type_iso) by (vm_compute; reflexivity).
  split.
  - split; [exact Hval|]. split; [exact Hd|]. split; [exact Htc|].
    split; [exact Hm|]. split; [exact Hloop|].
    exact (proj1 (usbredirhost_iso_backpressure (H := usbredirhost_h_0_12))
             7 0x81 8 512 4 1 h h1 Hval Hd Htc Hm ring_inv_host_iso_in
             Hloop).
  - split; [exact Hiso|].
    exact (proj1 (proj1 (proj2 (usbredirhost_iso_backpressure
                                  (H := usbredirhost_h_0_12)))
                   7 0x81 usb_redir_success [1; 2; 3] host_iso_congested
                   Hiso)).
Defined.

(** * Reading a filter string: what is refused and what is not *)

(** An empty token or rule separator is refused before anything is read. *)
Lemma usbredirfilter_string_to_rules_empty_separator dm filter_str ts rs :
  ts = [] \/ rs = [] ->
  usbredirfilter_string_to_rules dm filter_str ts rs = (- EINVAL, []).
Proof.
  intros [-> | ->]; unfold usbredirfilter_string_to_rules; cbn.
  - reflexivity.
  - rewrite orb_true_r. reflexivity.
Qed.

Lemma usbredirfilter_verify_app rules1 rules2 :
  usbredirfilter_verify rules1 = 0 ->
  usbredirfilter_verify rules2 = 0 ->
  usbredirfilter_verify (rules1 ++ rules2) = 0.
Proof.
  induction rules1 as [|r rules1 IH]; cbn [app usbredirfilter_verify];
    [tauto|].
  intros H1 H2.
  repeat match goal with
         | |- context [if ?b then _ else _] =>
             destruct b; [discriminate H1 || exact H1|]
         end.
  apply IH; assumption.
Qed.

(** A rule that [parse_rule] hands back has passed [usbredirfilter_verify]:
    the range test is on the five [int]s that were stored. *)
Lemma parse_rule_verified dm ts rule r :
  parse_rule dm ts rule = Some r -> usbredirfilter_verify [r] = 0.
Proof.
  unfold parse_rule.
  destruct (parse_tokens dm ts 5 0 (strtok_r rule ts) [0; 0; 0; 0; 0])
    as [[i token] values].
  destruct (usbredirfilter_verify [rule_of_values values] =? 0) eqn:Hv.
  - destruct (negb (i =? 5)%nat || _ || _); [discriminate|].
    intros [= <-]. apply Z.eqb_eq. exact Hv.
  - rewrite orb_true_r. discriminate.
Qed.

(** The return value is [0] or [-EINVAL], and on [-EINVAL] no rule is
    handed back. *)
Lemma parse_rules_result dm ts rs buf rules :
  usbredirfilter_verify rules = 0 ->
  (exists rules', parse_rules dm ts rs buf rules = (0, rules')
                  /\ usbredirfilter_verify rules' = 0)
  \/ parse_rules dm ts rs buf rules = (- EINVAL, []).
Proof.
  remember (length buf) as n eqn:Hn.
  revert buf rules Hn.
  induction n as [n IH] using lt_wf_ind.
  intros buf rules Hn Hv.
  rewrite parse_rules_eq.
  destruct (strtok_r buf rs) as [[rule saveptr]|] eqn:Htok.
  - destruct (parse_rule dm ts rule) as [r|] eqn:Hr; [|right; reflexivity].
    apply (IH (length saveptr)).
    + subst n. exact (strtok_r_shorter _ _ _ _ Htok).
    + reflexivity.
    + apply usbredirfilter_verify_app; [exact Hv|].
      exact (parse_rule_verified _ _ _ _ Hr).
  - left. exists rules. split; [reflexivity | exact Hv].
Qed.

(** Every rule handed back on success is within the ranges of
    [usbredirfilter_verify]. *)
Lemma usbredirfilter_string_to_rules_verified dm filter_str ts rs rules :
  usbredirfilter_string_to_rules dm filter_str ts rs = (0, rules) ->
  usbredirfilter_verify rules = 0.
Proof.
  unfold usbredirfilter_string_to_rules.
  destruct ((length ts =? 0)%nat || (length rs =? 0)%nat);
    [discriminate|].
  intros H.
  destruct (parse_rules_result dm ts rs filter_str [] eq_refl)
    as [(rules' & H' & Hv) | H'];
    rewrite H' in H; [|discriminate].
  injection H as <-. exact Hv.
Qed.

(** The range tests of the four numeric fields on their first values out
    of range, in both directions, and rules with an extra, a missing or a
    non-numeric field, are refused whatever the width of [long]. *)
Lemma usbredirfilter_string_to_rules_refused dm :
  Forall (fun s =>
            usbredirfilter_string_to_rules dm (list_ascii_of_string s)
              comma bar = (- EINVAL, []))
    ["0x100,-1,-1,-1,0"; "-2,-1,-1,-1,0"; "0x03,0x10000,-1,-1,0";
     "0x03,-2,-1,-1,0"; "0x03,-1,0x10000,-1,0"; "0x03,-1,-2,-1,0";
     "0x03,-1,-1,0x10000,0"; "0x03,-1,-1,-2,0"; "0x03,-1,-1,-1,0,1";
     "0x03,-1,-1,-1"; "0x03,-1,-1,-1,a"; "0x03,-1,-1,-1,1x"]%string.
Proof.
  destruct dm; repeat constructor.
Qed.

(** Empty rules between, before and after rule separators are passed
    over. *)
Lemma usbredirfilter_string_to_rules_empty_rules dm :
  usbredirfilter_string_to_rules dm
    (list_ascii_of_string "||0x03,-1,-1,-1,0||-1,-1,-1,-1,1|") comma bar
  = (0, [mk_rule 3 (-1) (-1) (-1) 0; mk_rule (-1) (-1) (-1) (-1) 1]).
Proof.
  destruct dm; vm_compute; reflexivity.
Qed.

(** What [strtol] gives for the class field of the input below, and the
    [int] it is stored as. *)
Lemma strtol_0x100000003 :
  strtol LP64 (list_ascii_of_string "0x100000003") 0 = (4294967299, [])
  /\ to_int 4294967299 = 3
  /\ strtol ILP32 (list_ascii_of_string "0x100000003") 0 = (2147483647, []).
Proof.
  vm_compute. repeat split; reflexivity.
Qed.

(** C9, the code at the failing input.  With a 64-bit [long] the rule
    ["0x100000003,-1,-1,-1,0"], whose class field [0x100000003] is far
    outside [-1..255], is not refused: [strtol] returns 4294967299, the
    assignment to the [int] field keeps the low 32 bits, 3, and
    [usbredirfilter_verify] sees a class within range.  The call returns
    [0] and hands back one rule of class [0x03]. *)
Theorem usbredirfilter_string_to_rules_class_wraps :
  usbredirfilter_string_to_rules LP64
    (list_ascii_of_string "0x100000003,-1,-1,-1,0") comma bar
  = (0, [mk_rule 3 (-1) (-1) (-1) 0]).
Proof.
  vm_compute. reflexivity.
Qed.

(** * The parser: the loops unfolded *)

Section ParserLoops.
Context `{usbredirproto_h} `{usbredirparser_h}.
Variable dm : data_model.

Lemma skip_loop_eq p :
  skip_loop p =
  if to_skip p >? 0 then
    let '(r, p') := skip_step p in
    if r <=? 0 then (Some r, p')
    else skip_loop (set_to_skip (to_int (to_skip p' - r)) p')
  else (None, p).
Proof.
  funelim (skip_loop p).
  - rewrite e. reflexivity.
  - rewrite e. cbv beta iota zeta delta [skip_step read_func].
    rewrite e0. reflexivity.
  - rewrite e. cbv beta iota zeta delta [skip_step read_func].
    rewrite Hr. reflexivity.
Qed.

Lemma do_read_loop_eq header_len p :
  do_read_loop dm header_len p =
  match do_read_turn dm header_len p with
  | loop_return r p' => (r, p')
  | loop_continue header_len' p' => do_read_loop dm header_len' p'
  end.
Proof.
  funelim (do_read_loop dm header_len p).
  - rewrite Hturn. reflexivity.
  - rewrite e. reflexivity.
Qed.

Lemma unserialize_write_bufs_eq i state remain p :
  unserialize_write_bufs dm i state remain p =
  if i =? 0 then if negb (remain =? 0) then (-1, p) else (0, p)
  else
    match unserialize_data dm state remain None 0 with
    | None => (-1, p)
    | Some (b, l, state', remain') =>
        if l =? 0 then (-1, p)
        else
          unserialize_write_bufs dm (to_uint (i - 1)) state' remain'
            (set_write_buf (to_int (write_buf_count p + 1))
               (write_buf p
                ++ [mk_buf (match b with Some d => d | None => [] end) 0
                      (to_int l)])
               (to_uint64 (write_buf_total_size p + to_int l)) p)
    end.
Proof.
  funelim (unserialize_write_bufs dm i state remain p).
  - rewrite e. reflexivity.
  - rewrite e, e0. reflexivity.
  - rewrite e, Hd, e0. reflexivity.
  - rewrite e, Hd, Hl. reflexivity.
Qed.

Lemma usb_redir_packet_types_complete t : In t usb_redir_packet_types.
Proof.
  destruct t; cbn; tauto.
Qed.

(** The [switch] finds the enumerator of its value. *)
Lemma packet_type_of_value t :
  packet_type_of (packet_type_value t) = Some t.
Proof.
  unfold packet_type_of.
  destruct (List.find _ _) as [t'|] eqn:E.
  - apply List.find_some in E as [_ E]. apply Z.eqb_eq in E.
    apply packet_type_value_inj in E. congruence.
  - apply List.find_none with (x := t) in E;
      [|apply usb_redir_packet_types_complete].
    rewrite Z.eqb_refl in E. discriminate.
Qed.

Lemma packet_type_of_sound v t :
  packet_type_of v = Some t -> packet_type_value t = v.
Proof.
  unfold packet_type_of. intros E.
  apply List.find_some in E as [_ E]. apply Z.eqb_eq in E. exact E.
Qed.

(** Two parser states built by field updates are compared field by
    field. *)
Ltac parser_fields :=
  unfold call, set_flags, set_have_peer_caps, set_our_caps, set_peer_caps,
    set_header, set_type_header, set_header_read, set_type_header_len,
    set_type_header_read, set_data, set_data_len, set_data_read,
    set_to_skip, set_write_buf, set_callb, set_read_input in *;
  cbn [flags have_peer_caps our_caps peer_caps header type_header
       header_read type_header_len type_header_read data data_len
       data_read to_skip write_buf_count write_buf write_buf_total_size
       callb read_input] in *.

(** ** The skip loop *)

Lemma skip_loop_nothing p : to_skip p <= 0 -> skip_loop p = (None, p).
Proof.
  intros Hs. rewrite skip_loop_eq.
  destruct (to_skip p >? 0) eqn:E; [apply Z.gtb_lt in E; lia | reflexivity].
Qed.

(** With [to_skip = |junk|] and [junk] at the head of the transport, the
    loop discards [junk], in pieces of at most 65536 bytes, and nothing
    else. *)
Lemma skip_loop_discards junk :
  forall p rest,
    to_skip p = Z.of_nat (length junk) -> to_skip p < 2 ^ 31 ->
    read_input p = junk ++ rest ->
    skip_loop p = (None, set_to_skip 0 (set_read_input rest p)).
Proof.
  remember (length junk) as n eqn:Hn. revert junk Hn.
  induction n as [n IH] using lt_wf_ind.
  intros junk Hn p rest Hs Hmax Hin.
  destruct n as [|n'].
  - destruct junk; [|discriminate].
    rewrite skip_loop_nothing by lia.
    destruct p; cbn in *. subst. reflexivity.
  - rewrite skip_loop_eq.
    replace (to_skip p >? 0) with true by (symmetry; apply Z.gtb_lt; lia).
    unfold skip_step, read_func.
    set (r := if to_skip p >? skip_buf_size then skip_buf_size
              else to_skip p).
    assert (Hr : 0 < r <= to_skip p).
    { subst r. unfold skip_buf_size.
      destruct (to_skip p >? 65536) eqn:E; [apply Z.gtb_lt in E|]; lia. }
    assert (Hmin : Nat.min (Z.to_nat r) (length (read_input p)) = Z.to_nat r).
    { rewrite Hin, length_app. lia. }
    rewrite Hmin. cbv zeta.
    replace (Z.of_nat (Z.to_nat r) <=? 0) with false
      by (symmetry; apply Z.leb_gt; lia).
    rewrite (IH (n' - (Z.to_nat r - 1))%nat ltac:(lia)
               (skipn (Z.to_nat r) junk) ltac:(rewrite length_skipn; lia)
               _ rest).
    + destruct p; reflexivity.
    + cbn. rewrite to_int_small by lia. lia.
    + cbn. rewrite to_int_small by lia. lia.
    + cbn. rewrite Hin. rewrite skipn_app.
      replace (Z.to_nat r - length junk)%nat with O by lia.
      reflexivity.
Qed.

(** When the transport holds fewer bytes than are to be skipped, the call
    discards them all, returns 0 and keeps the count of what is left to
    skip. *)
Lemma skip_loop_starved junk :
  forall p,
    Z.of_nat (length junk) < to_skip p < 2 ^ 31 ->
    read_input p = junk ->
    skip_loop p
    = (Some 0, set_to_skip (to_skip p - Z.of_nat (length junk))
                 (set_read_input [] p)).
Proof.
  remember (length junk) as n eqn:Hn. revert junk Hn.
  induction n as [n IH] using lt_wf_ind.
  intros junk Hn p Hs Hin.
  rewrite skip_loop_eq.
  replace (to_skip p >? 0) with true by (symmetry; apply Z.gtb_lt; lia).
  unfold skip_step, read_func.
  set (r := if to_skip p >? skip_buf_size then skip_buf_size
            else to_skip p).
  assert (Hr : 0 < r <= to_skip p).
  { subst r. unfold skip_buf_size.
    destruct (to_skip p >? 65536) eqn:E; [apply Z.gtb_lt in E|]; lia. }
  set (m := Nat.min (Z.to_nat r) (length (read_input p))).
  cbv zeta.
  destruct n as [|n'].
  - destruct junk; [|discriminate].
    assert (Hm : m = O) by (subst m; rewrite Hin; cbn; lia).
    rewrite Hm. destruct p; parser_fields. subst. cbn.
    rewrite Z.sub_0_r. reflexivity.
  - assert (Hm : (0 < m <= S n')%nat) by (subst m; rewrite Hin; lia).
    replace (Z.of_nat m <=? 0) with false
      by (symmetry; apply Z.leb_gt; lia).
    change (to_skip (set_read_input (skipn m (read_input p)) p))
      with (to_skip p).
    rewrite to_int_small by lia.
    rewrite (IH (S n' - m)%nat ltac:(lia) (skipn m junk)
               ltac:(rewrite length_skipn; lia)).
    + f_equal. destruct p; parser_fields. f_equal. lia.
    + parser_fields. lia.
    + parser_fields. rewrite Hin. reflexivity.
Qed.

(** ** A turn that reads a whole fixed header *)

Lemma do_read_turn_header header_len hdr rest p :
  0 < header_len -> header_read p = 0 ->
  Z.of_nat (length hdr) = header_len ->
  read_input p = hdr ++ rest ->
  do_read_turn dm header_len p
  = do_read_header_complete dm header_len
      (header_received header_len hdr rest p).
Proof.
  intros Hpos Hread Hlen Hin.
  unfold do_read_turn, do_read_dest. rewrite Hread.
  replace (0 <? header_len) with true by (symmetry; apply Z.ltb_lt; lia).
  rewrite Z.sub_0_r.
  replace (header_len >? 0) with true by (symmetry; apply Z.gtb_lt; lia).
  unfold read_to, read_func. rewrite Hin.
  replace (Nat.min (Z.to_nat header_len) (length (hdr ++ rest)))
    with (length hdr) by (rewrite length_app; lia).
  rewrite firstn_app, Nat.sub_diag, firstn_all, firstn_O, app_nil_r.
  rewrite skipn_app, Nat.sub_diag, skipn_all. cbn [app skipn].
  cbv zeta.
  replace (Z.of_nat (length hdr) <=? 0) with false
    by (symmetry; apply Z.leb_gt; lia).
  unfold do_read_account. parser_fields. rewrite Hread.
  replace (0 <? header_len) with true by (symmetry; apply Z.ltb_lt; lia).
  rewrite Hlen, Z.add_0_l, Z.eqb_refl.
  unfold header_received. parser_fields. reflexivity.
Qed.

Lemma do_read_header_complete_violation header_len p :
  framing_violation p ->
  do_read_header_complete dm header_len p = skip_packet p.
Proof.
  unfold framing_violation, do_read_header_complete. cbv zeta.
  set (thl := usbredirparser_get_type_header_len p (to_int (header_type p))
                false).
  intros Hv.
  destruct (thl <? 0) eqn:E1; [reflexivity|].
  destruct (thl >? sizeof_type_header) eqn:E2; [reflexivity|].
  destruct (header_length p >? MAX_PACKET_SIZE) eqn:E3; [reflexivity|].
  destruct (to_int (header_length p) <? thl) eqn:E4; [reflexivity|].
  destruct (to_int (header_length p) >? thl) eqn:E5;
    destruct (usbredirparser_expect_extra_data p) eqn:E6; cbn [negb andb orb];
    try reflexivity;
    exfalso;
    apply Z.ltb_ge in E1, E4; apply Z.gtb_ltb in E3 || idtac;
    rewrite Z.gtb_ltb in E3; apply Z.ltb_ge in E3;
    rewrite Z.gtb_ltb in E5;
    (apply Z.ltb_ge in E5 || apply Z.ltb_lt in E5);
    destruct Hv as [Hv | [Hv | [Hv | [Hv Hv']]]]; try lia; discriminate.
Qed.

(** ** [usbredirparser_do_read] on a framing violation *)

Lemma usbredirparser_do_read_no_skip p :
  to_skip p <= 0 ->
  usbredirparser_do_read dm p
  = do_read_loop dm (usbredirparser_get_header_len p) p.
Proof.
  intros Hs. unfold usbredirparser_do_read.
  rewrite skip_loop_nothing by exact Hs. reflexivity.
Qed.

(** The call that completes a fixed header with a framing violation
    returns the parse error, with the declared length, as an [int], in
    [to_skip] and the header cursor back at zero. *)
Lemma usbredirparser_do_read_violation hdr rest p :
  to_skip p <= 0 -> header_read p = 0 ->
  Z.of_nat (length hdr) = usbredirparser_get_header_len p ->
  read_input p = hdr ++ rest ->
  let q := header_received (usbredirparser_get_header_len p) hdr rest p in
  framing_violation q ->
  usbredirparser_do_read dm p
  = (usbredirparser_read_parse_error,
     set_header_read 0 (set_to_skip (to_int (header_length q)) q)).
Proof.
  intros Hs Hread Hlen Hin q Hv.
  rewrite usbredirparser_do_read_no_skip by exact Hs.
  rewrite do_read_loop_eq.
  rewrite (do_read_turn_header _ hdr rest)
    by (try apply usbredirparser_get_header_len_pos; assumption).
  fold q. rewrite do_read_header_complete_violation by exact Hv.
  reflexivity.
Qed.

(** A call with [to_skip = |junk|] below 2^31 and [junk] at the head of
    the transport does what a call with nothing to skip does on the rest
    of the transport: exactly [junk] is discarded. *)
Lemma usbredirparser_do_read_discards junk rest p :
  to_skip p = Z.of_nat (length junk) -> to_skip p < 2 ^ 31 ->
  read_input p = junk ++ rest ->
  usbredirparser_do_read dm p
  = usbredirparser_do_read dm (set_to_skip 0 (set_read_input rest p)).
Proof.
  intros Hs Hmax Hin. unfold usbredirparser_do_read.
  rewrite (skip_loop_discards junk p rest Hs Hmax Hin).
  rewrite (skip_loop_nothing (set_to_skip 0 (set_read_input rest p)))
    by (cbn; lia).
  reflexivity.
Qed.

(** For a declared length of 2^31 or more, which is a framing violation
    whatever the type, the skip count is negative and the next call
    discards nothing. *)
Lemma usbredirparser_do_read_skips_nothing hdr rest p :
  to_skip p <= 0 -> header_read p = 0 ->
  Z.of_nat (length hdr) = usbredirparser_get_header_len p ->
  read_input p = hdr ++ rest ->
  let q := header_received (usbredirparser_get_header_len p) hdr rest p in
  2 ^ 31 <= header_length q ->
  exists p1,
    usbredirparser_do_read dm p = (usbredirparser_read_parse_error, p1)
    /\ to_skip p1 = header_length q - 2 ^ 32 /\ header_read p1 = 0
    /\ read_input p1 = rest
    /\ usbredirparser_do_read dm p1
       = do_read_loop dm (usbredirparser_get_header_len p1) p1.
Proof.
  intros Hs Hread Hlen Hin q HL.
  pose proof (load32_range 4 (header q)) as Hrange.
  fold (header_length q) in Hrange.
  assert (Hv : framing_violation q).
  { right. left. unfold MAX_PACKET_SIZE, MAX_BULK_TRANSFER_SIZE. lia. }
  assert (Hskip : to_int (header_length q) = header_length q - 2 ^ 32).
  { unfold to_int.
    replace (header_length q + 2 ^ 31)
      with (header_length q - 2 ^ 31 + 1 * 2 ^ 32) by lia.
    rewrite Z.mod_add by lia. rewrite Z.mod_small by lia. lia. }
  eexists. split; [apply usbredirparser_do_read_violation; eassumption|].
  fold q. split; [exact Hskip|]. split; [reflexivity|].
  split; [reflexivity|].
  apply usbredirparser_do_read_no_skip. cbn. rewrite Hskip. lia.
Qed.

(** ** What keeps the peer's capabilities clear *)

(** An invariant of the turns is an invariant of the loop. *)
Lemma do_read_loop_invariant (P : usbredirparser_priv -> Prop) :
  (forall header_len p, P p ->
     match do_read_turn dm header_len p with
     | loop_continue _ p' | loop_return _ p' => P p'
     end) ->
  forall header_len p, P p -> P (snd (do_read_loop dm header_len p)).
Proof.
  intros Hturn header_len p.
  remember (do_read_measure header_len p) as n eqn:Hn.
  revert header_len p Hn.
  induction n as [n IH] using lt_wf_ind.
  intros header_len p Hn HP.
  rewrite do_read_loop_eq.
  pose proof (Hturn header_len p HP) as Hstep.
  destruct (do_read_turn dm header_len p) as [header_len' p' | r p'] eqn:E.
  - apply (IH (do_read_measure header_len' p')); [|reflexivity | exact Hstep].
    subst n. exact (do_read_turn_decreases dm _ _ _ _ E).
  - exact Hstep.
Qed.

Lemma skip_loop_invariant (P : usbredirparser_priv -> Prop) :
  (forall p v, P p -> P (set_to_skip v p)) ->
  (forall p v, P p -> P (set_read_input v p)) ->
  forall p, P p -> P (snd (skip_loop p)).
Proof.
  intros Hskip Hinput p.
  remember (length (read_input p)) as n eqn:Hn.
  revert p Hn.
  induction n as [n IH] using lt_wf_ind.
  intros p Hn HP.
  rewrite skip_loop_eq.
  destruct (to_skip p >? 0); [|exact HP].
  destruct (skip_step p) as [r p'] eqn:E.
  assert (HP' : P p').
  { unfold skip_step, read_func in E. injection E as _ <-.
    apply Hinput. exact HP. }
  destruct (r <=? 0) eqn:Hr; [exact HP'|].
  apply (IH (length (read_input p'))); [|reflexivity|].
  - subst n. exact (skip_step_shorter _ _ _ E Hr).
  - apply Hskip. exact HP'.
Qed.

Lemma usbredirparser_queue_peer_caps type id th d dl p :
  have_peer_caps (usbredirparser_queue dm type id th d dl p)
  = have_peer_caps p
  /\ peer_caps (usbredirparser_queue dm type id th d dl p) = peer_caps p.
Proof.
  unfold usbredirparser_queue.
  repeat match goal with
         | |- context [if ?b then _ else _] => destruct b
         end; split; reflexivity.
Qed.

Lemma usbredirparser_queue_clear type id th d dl p :
  peer_caps_clear p ->
  peer_caps_clear (usbredirparser_queue dm type id th d dl p).
Proof.
  unfold peer_caps_clear.
  destruct (usbredirparser_queue_peer_caps type id th d dl p) as [-> ->].
  tauto.
Qed.

Lemma usbredirparser_call_type_func_clear p :
  peer_caps_clear p -> peer_caps_clear (usbredirparser_call_type_func dm p).
Proof.
  intros Hc. unfold usbredirparser_call_type_func.
  destruct (packet_type_of _) as [t|]; [|exact Hc].
  destruct t; try exact Hc.
  - unfold usbredirparser_handle_hello.
    destruct (negb (have_peer_caps p =? 0)); [exact Hc|].
    intros E. discriminate E.
  - destruct (negb _); [|exact Hc].
    apply usbredirparser_queue_clear. exact Hc.
  - destruct (usbredirfilter_string_to_rules _ _ _ _) as [r rules].
    destruct (negb _); exact Hc.
Qed.

Lemma do_read_turn_clear header_len p :
  peer_caps_clear p ->
  match do_read_turn dm header_len p with
  | loop_continue _ p' | loop_return _ p' => peer_caps_clear p'
  end.
Proof.
  intros Hc.
  assert (Hcomplete : forall q, peer_caps_clear q ->
            match do_read_packet_complete dm q with
            | loop_continue _ p' | loop_return _ p' => peer_caps_clear p'
            end).
  { intros q Hq. unfold do_read_packet_complete.
    destruct (usbredirparser_verify_type_header _ _ _ _ _ _) as [r hdr].
    assert (Hq' : peer_caps_clear
                    (if negb (r =? 0)
                     then usbredirparser_call_type_func dm
                            (set_type_header hdr q)
                     else set_type_header hdr q)).
    { destruct (negb (r =? 0));
        [apply usbredirparser_call_type_func_clear|]; exact Hq. }
    destruct (r =? 0); exact Hq'. }
  assert (Hheader : forall q, peer_caps_clear q ->
            match do_read_header_complete dm header_len q with
            | loop_continue _ p' | loop_return _ p' => peer_caps_clear p'
            end).
  { intros q Hq. unfold do_read_header_complete, skip_packet.
    repeat match goal with
           | |- context [if ?b then _ else _] => destruct b
           end; exact Hq. }
  assert (Haccount : forall r q, peer_caps_clear q ->
            match do_read_account dm header_len r q with
            | loop_continue _ p' | loop_return _ p' => peer_caps_clear p'
            end).
  { intros r q Hq. unfold do_read_account.
    destruct (header_read q <? header_len).
    - match goal with
      | |- context [if ?b then _ else _] => destruct b
      end; [apply Hheader|]; exact Hq.
    - destruct (type_header_read q <? type_header_len q); [exact Hq|].
      match goal with
      | |- context [if ?b then _ else _] => destruct b
      end; [apply Hcomplete|]; exact Hq. }
  unfold do_read_turn.
  destruct (do_read_dest header_len p) as [r dest].
  destruct (r >? 0); [|apply Haccount; exact Hc].
  destruct (read_to dest r p) as [r' p'] eqn:E.
  assert (Hp' : peer_caps_clear p').
  { unfold read_to, read_func in E. injection E as _ <-.
    destruct dest; exact Hc. }
  destruct (r' <=? 0); [exact Hp' | apply Haccount; exact Hp'].
Qed.

Lemma usbredirparser_do_read_clear p :
  peer_caps_clear p -> peer_caps_clear (snd (usbredirparser_do_read dm p)).
Proof.
  intros Hc. unfold usbredirparser_do_read.
  pose proof (skip_loop_invariant peer_caps_clear
                ltac:(intros ? ? Hq; exact Hq)
                ltac:(intros ? ? Hq; exact Hq) p Hc) as Hskip.
  destruct (skip_loop p) as [[r|] p1]; [exact Hskip|].
  apply (do_read_loop_invariant peer_caps_clear do_read_turn_clear).
  exact Hskip.
Qed.

Lemma byte_at_zeros i n : byte_at i (repeat 0 n) = 0.
Proof.
  unfold byte_at. rewrite nth_repeat. reflexivity.
Qed.

Lemma load32_zeros off n : load32 off (repeat 0 n) = 0.
Proof.
  unfold load32. rewrite !byte_at_zeros. reflexivity.
Qed.

Lemma words_bytes_zeros n : words_bytes (repeat 0 n) = repeat 0 (4 * n).
Proof.
  induction n as [|n IH]; [reflexivity|].
  unfold words_bytes in *. cbn [repeat flat_map]. rewrite IH.
  replace (4 * S n)%nat with (4 + 4 * n)%nat by lia. reflexivity.
Qed.

Lemma bytes_words_zeros n off m :
  bytes_words n off (repeat 0 m) = repeat 0 n.
Proof.
  revert off. induction n as [|n IH]; intros off; [reflexivity|].
  cbn [bytes_words repeat]. rewrite load32_zeros, IH. reflexivity.
Qed.

Lemma memcpy_nothing dest : memcpy dest 0 [] = dest.
Proof.
  unfold memcpy. reflexivity.
Qed.

Lemma memcpy_head dest src :
  memcpy dest 0 src = src ++ skipn (length src) dest.
Proof.
  reflexivity.
Qed.

Lemma unserialize_write_bufs_invariant (P : usbredirparser_priv -> Prop) :
  (forall p c b t, P p -> P (set_write_buf c b t p)) ->
  forall i state remain p,
    P p -> P (snd (unserialize_write_bufs dm i state remain p)).
Proof.
  intros Hset i state remain p.
  remember (Z.to_nat remain) as n eqn:Hn.
  revert i state remain p Hn.
  induction n as [n IH] using lt_wf_ind.
  intros i state remain p Hn HP.
  rewrite unserialize_write_bufs_eq.
  destruct (i =? 0); [destruct (negb _); exact HP|].
  destruct (unserialize_data dm state remain None 0)
    as [[[[b l] state'] remain']|] eqn:E; [|exact HP].
  destruct (l =? 0) eqn:Hl; [exact HP|].
  apply (IH (Z.to_nat remain')); [|reflexivity | apply Hset; exact HP].
  subst n. unfold unserialize_data in E.
  destruct (remain <? 4) eqn:H4; [discriminate|].
  destruct (remain - 4 <? load32 0 state) eqn:Hlen; [discriminate|].
  apply Z.ltb_ge in H4, Hlen. apply Z.eqb_neq in Hl.
  pose proof (load32_range 0 state).
  assert (l = load32 0 state /\ remain' = remain - 4 - l) as [-> ->].
  { cbn in E.
    destruct (load32 0 state >? 0); [destruct (malloc _ _)|];
      try discriminate; try (destruct (0 <? load32 0 state); [discriminate|]);
      injection E as _ <- _ <-; split; reflexivity. }
  lia.
Qed.

Lemma unserialize_packet_data_clear header_len state remain p :
  peer_caps_clear p ->
  peer_caps_clear
    (snd (unserialize_packet_data dm header_len state remain p)).
Proof.
  intros Hc. unfold unserialize_packet_data.
  repeat (cbv beta iota zeta;
          match goal with
          | |- context [if ?b then _ else _] => destruct b
          | |- context [match ?x with _ => _ end] =>
              lazymatch x with
              | context [unserialize_write_bufs] => fail
              | _ => destruct x
              end
          end); try exact Hc.
  all: apply unserialize_write_bufs_invariant;
    [intros ? ? ? ? Hq; exact Hq | exact Hc].
Qed.

Lemma unserialize_packet_clear state remain p :
  peer_caps_clear p ->
  peer_caps_clear (snd (unserialize_packet dm state remain p)).
Proof.
  intros Hc. unfold unserialize_packet.
  repeat (cbv beta iota zeta;
          match goal with
          | |- context [if ?b then _ else _] => destruct b
          | |- context [match ?x with _ => _ end] =>
              lazymatch x with
              | context [unserialize_packet_data] => fail
              | _ => destruct x
              end
          end); try exact Hc.
  all: apply unserialize_packet_data_clear; exact Hc.
Qed.

(** The peer's capability words are only replaced along with a non-zero
    length, which sets [have_peer_caps]. *)
Lemma unserialize_peer_caps_clear state remain p d i state' remain' :
  peer_caps_clear p ->
  unserialize_data dm state remain (Some (words_bytes (peer_caps p)))
    (USB_REDIR_CAPS_SIZE * 4) = Some (d, i, state', remain') ->
  peer_caps_clear
    (let p :=
       set_peer_caps
         (bytes_words (Z.to_nat USB_REDIR_CAPS_SIZE) 0
            (match d with Some d => d | None => [] end)) p in
     if negb (i =? 0) then set_have_peer_caps 1 p else p).
Proof.
  intros Hc E. cbv zeta.
  destruct (i =? 0) eqn:Hi; cbn [negb]; [|intros H1; discriminate H1].
  apply Z.eqb_eq in Hi. subst i.
  unfold unserialize_data in E.
  destruct (remain <? 4); [discriminate|].
  destruct (remain - 4 <? load32 0 state); [discriminate|].
  destruct (USB_REDIR_CAPS_SIZE * 4 <? load32 0 state); [discriminate|].
  injection E as <- E _ _. rewrite E.
  unfold take_bytes. cbn [Z.to_nat firstn]. rewrite memcpy_nothing.
  intros Hh. unfold set_peer_caps. cbn [peer_caps].
  rewrite (Hc Hh), words_bytes_zeros, bytes_words_zeros. reflexivity.
Qed.

Lemma usbredirparser_unserialize_clear state len p :
  peer_caps_clear p ->
  peer_caps_clear (snd (usbredirparser_unserialize dm state len p)).
Proof.
  intros Hc. unfold usbredirparser_unserialize.
  destruct (unserialize_int state (to_uint len))
    as [[[i1 state1] remain1]|]; [|exact Hc].
  destruct (negb (i1 =? _)); [exact Hc|].
  destruct (negb (pristine p)); [exact Hc|].
  destruct (unserialize_int state1 remain1)
    as [[[i2 state2] remain2]|]; [|exact Hc].
  destruct (negb (i2 =? _)); [exact Hc|].
  destruct (unserialize_data dm state2 remain2 _ _)
    as [[[[d3 i3] state3] remain3]|]; [|exact Hc].
  cbv zeta.
  destruct (caps_mismatch _ _); [exact Hc|].
  match goal with
  | |- context [unserialize_data dm state3 remain3 ?d ?l] =>
      destruct (unserialize_data dm state3 remain3 d l)
        as [[[[d4 i4] state4] remain4]|] eqn:E4; [|exact Hc]
  end.
  pose proof (unserialize_peer_caps_clear state3 remain3
                (set_our_caps
                   (bytes_words (Z.to_nat USB_REDIR_CAPS_SIZE) 0
                      (match d3 with Some d => d | None => [] end)) p)
                d4 i4 state4 remain4 Hc E4) as Hc4.
  cbv zeta in Hc4.
  destruct (unserialize_int state4 remain4)
    as [[[i5 state5] remain5]|]; [|exact Hc4].
  apply unserialize_packet_clear. exact Hc4.
Qed.

Lemma usbredirparser_init_clear version caps caps_len flags_in transport :
  peer_caps_clear
    (usbredirparser_init dm version caps caps_len flags_in
       (usbredirparser_create transport)).
Proof.
  unfold usbredirparser_init. cbv zeta.
  match goal with
  | |- context [if ?b then usbredirparser_queue _ _ _ _ _ _ ?q else _] =>
      assert (Hq : peer_caps_clear q);
      [|destruct b; [apply usbredirparser_queue_clear|]; exact Hq]
  end.
  match goal with
  | |- context [if ?b then _ else _] => destruct b
  end; intros _; reflexivity.
Qed.

(** Every parser the library can get to keeps the peer's capabilities
    clear until it has them. *)
Lemma parser_reachable_clear p :
  parser_reachable dm p -> peer_caps_clear p.
Proof.
  induction 1 as [version caps caps_len flags_in transport
                 | bytes p _ IH | p _ IH
                 | type id th d dl p _ IH | state len p _ IH].
  - apply usbredirparser_init_clear.
  - exact IH.
  - apply usbredirparser_do_read_clear. exact IH.
  - apply usbredirparser_queue_clear. exact IH.
  - apply usbredirparser_unserialize_clear. exact IH.
Qed.

Lemma usbredirparser_caps_get_cap_zeros n cap :
  usbredirparser_caps_get_cap (repeat 0 n) cap = 0.
Proof.
  unfold usbredirparser_caps_get_cap.
  destruct (_ >=? _); [reflexivity|].
  rewrite nth_repeat. reflexivity.
Qed.

(** ** Integers in memory *)

Lemma load32_store32 v rest : load32 0 (store32 v ++ rest) = v mod 2 ^ 32.
Proof.
  unfold load32, byte_at, store32. cbn [nth app Nat.add].
  rewrite !Z.mod_mod by lia.
  change (2 ^ 32) with (256 * (256 * (256 * 256))).
  rewrite !Z.rem_mul_r by lia.
  rewrite !Z.div_div by lia.
  change (2 ^ 8) with 256. change (2 ^ 16) with (256 * 256).
  change (2 ^ 24) with (256 * 256 * 256). lia.
Qed.

Lemma load32_behind_word off v rest :
  load32 (4 + off) (store32 v ++ rest) = load32 off rest.
Proof.
  reflexivity.
Qed.

Lemma load64_store64 v rest :
  0 <= v < 2 ^ 64 -> load64 0 (store64 v ++ rest) = v.
Proof.
  intros Hv. unfold load64, store64. rewrite <- app_assoc.
  rewrite load32_store32.
  change (0 + 4)%nat with (4 + 0)%nat.
  rewrite load32_behind_word, load32_store32.
  rewrite (Z.mod_small (v / 2 ^ 32)).
  - change (2 ^ 32) with 4294967296. pose proof (Z.div_mod v 4294967296).
    lia.
  - split; [apply Z.div_pos; lia|].
    apply Z.div_lt_upper_bound; [lia|].
    change (2 ^ 32 * 2 ^ 32) with (2 ^ 64). lia.
Qed.

Lemma to_uint_mod v : to_uint v mod 2 ^ 32 = to_uint v.
Proof.
  unfold to_uint. apply Z.mod_mod. lia.
Qed.

Lemma to_int_to_uint v : - 2 ^ 31 <= v < 2 ^ 31 -> to_int (to_uint v) = v.
Proof.
  intros Hv. unfold to_int, to_uint.
  destruct (Z_lt_dec v 0) as [Hneg|Hpos].
  - replace v with (v + 2 ^ 32 + (-1) * 2 ^ 32) at 1 by lia.
    rewrite Z.mod_add by lia. rewrite (Z.mod_small (v + 2 ^ 32)) by lia.
    replace (v + 2 ^ 32 + 2 ^ 31) with (v + 2 ^ 31 + 1 * 2 ^ 32) by lia.
    rewrite Z.mod_add by lia. rewrite Z.mod_small by lia. lia.
  - rewrite (Z.mod_small v) by lia. rewrite Z.mod_small by lia. lia.
Qed.

(** ** A packet read in the form the capabilities select *)

Lemma do_read_turn_starved header_len p :
  header_read p < header_len -> read_input p = [] ->
  exists p',
    do_read_turn dm header_len p = loop_return 0 p'
    /\ callb p' = callb p /\ read_input p' = []
    /\ header_read p' = header_read p /\ write_buf p' = write_buf p.
Proof.
  intros Hlt Hin. unfold do_read_turn, do_read_dest.
  replace (header_read p <? header_len) with true
    by (symmetry; apply Z.ltb_lt; lia).
  replace (header_len - header_read p >? 0) with true
    by (symmetry; apply Z.gtb_lt; lia).
  unfold read_to, read_func. rewrite Hin. cbn [length].
  rewrite Nat.min_0_r. cbn.
  eexists. split; [reflexivity|]. repeat split; reflexivity.
Qed.

Lemma do_read_packet_complete_cancel q :
  packet_type_of (to_int (header_type q))
  = Some usb_redir_cancel_data_packet ->
  exists p',
    do_read_packet_complete dm q
    = loop_continue (usbredirparser_get_header_len q) p'
    /\ callb p'
       = callb q ++ [callb_id usb_redir_cancel_data_packet (packet_id q)]
    /\ read_input p' = read_input q /\ header_read p' = 0.
Proof.
  intros Hty.
  unfold do_read_packet_complete, usbredirparser_verify_type_header.
  rewrite Hty. cbv beta iota zeta. cbn [Z.eqb negb].
  unfold usbredirparser_call_type_func.
  change (header_type (set_type_header (type_header q) q))
    with (header_type q).
  rewrite Hty.
  eexists. split; [reflexivity|].
  split; [reflexivity|]. split; reflexivity.
Qed.

Lemma header_received_cancel header_len idb rest p :
  let hdr :=
    store32 (to_uint (packet_type_value usb_redir_cancel_data_packet))
    ++ store32 0 ++ idb in
  let q := header_received header_len hdr rest p in
  packet_type_of (to_int (header_type q))
  = Some usb_redir_cancel_data_packet
  /\ header_length q = 0.
Proof.
  cbv zeta. unfold header_type, header_length, header_received.
  parser_fields. rewrite memcpy_head.
  rewrite <- !app_assoc. split.
  - rewrite load32_store32, to_uint_mod.
    rewrite to_int_to_uint by apply packet_type_value_int.
    apply packet_type_of_value.
  - change 4%nat with (4 + 0)%nat.
    rewrite load32_behind_word, load32_store32. reflexivity.
Qed.

End ParserLoops.

(** * The parser: skipping after a framing violation *)

(** A header of an unknown type that declares five bytes: the call
    returns the parse error, the next call discards the five bytes and
    dispatches the packet behind them. *)
Lemma usbredirparser_do_read_skips_five :
  let p := parser_host (fixed_header_32 77 5 9 ++ [1; 2; 3; 4; 5]
                        ++ fixed_header_32 21 0 7) in
  let r1 := usbredirparser_do_read LP64 p in
  let r2 := usbredirparser_do_read LP64 (snd r1) in
  fst r1 = usbredirparser_read_parse_error
  /\ to_skip (snd r1) = 5
  /\ read_input (snd r1) = [1; 2; 3; 4; 5] ++ fixed_header_32 21 0 7
  /\ fst r2 = 0
  /\ to_skip (snd r2) = 0
  /\ callb (snd r2) = [callb_id usb_redir_cancel_data_packet 7]
  /\ read_input (snd r2) = [].
Proof.
  vm_compute. repeat split; reflexivity.
Qed.

(** C2, the code at the failing input.  A host side parser is sent a
    fixed header of the unknown type 77 that declares a length of
    [0x80000000], and behind it the twelve bytes of a cancel_data_packet
    with id 7.  The first call returns the parse error; it has stored the
    length in the [int] [to_skip], which is now [-2^31].  The second
    call, whose skip loop runs while [to_skip > 0], discards nothing: it
    takes the twelve bytes, which are within the [0x80000000] bytes the
    header declared, for the next packet and dispatches it. *)
Theorem usbredirparser_do_read_skip_wraps :
  let p := parser_host (fixed_header_32 77 0x80000000 9
                        ++ fixed_header_32 21 0 7) in
  let r1 := usbredirparser_do_read LP64 p in
  let r2 := usbredirparser_do_read LP64 (snd r1) in
  fst r1 = usbredirparser_read_parse_error
  /\ to_skip (snd r1) = - 2 ^ 31
  /\ read_input (snd r1) = fixed_header_32 21 0 7
  /\ fst r2 = 0
  /\ to_skip (snd r2) = - 2 ^ 31
  /\ callb (snd r2) = [callb_id usb_redir_cancel_data_packet 7]
  /\ read_input (snd r2) = [].
Proof.
  vm_compute. repeat split; reflexivity.
Qed.

(** * The parser: serialized state *)

(** C8, the code at the failing inputs.  First, a parser that holds the
    first eight bytes of a fixed header whose length field is
    [0xFFFFFFFF]: it serializes, but [usbredirparser_unserialize], on a
    pristine parser with the same capabilities, takes the length from the
    incomplete header, computes [data_len = -1], asks [malloc] for that
    many bytes and returns [-1].  Second, a parser that holds the fixed
    header of a hello and none of its 68 bytes of payload:
    [usbredirparser_unserialize] returns [0] and restores capabilities,
    [to_skip], cursors and queue, but leaves [data_len] at [0] where it
    was [4]; when the payload arrives the original parser stores the
    peer's capabilities [0x24], the restored one stores none and takes
    the capability word for the start of the next header. *)
Theorem usbredirparser_unserialize_serialize_diverges :
  (let P := parser_partial_header in
   pristine (parser_host []) = true
   /\ our_caps (parser_host []) = our_caps P
   /\ (header_read P, type_header_read P, data_read P) = (8, 0, 0)
   /\ fst (fst (usbredirparser_serialize P)) = 0
   /\ fst (restore P) = -1)
  /\
  (let P := parser_partial_hello in
   let Q := snd (restore P) in
   let P' := snd (usbredirparser_do_read LP64 (receive hello_payload P)) in
   let Q' := snd (usbredirparser_do_read LP64 (receive hello_payload Q)) in
   our_caps (parser_host []) = our_caps P
   /\ fst (fst (usbredirparser_serialize P)) = 0
   /\ fst (restore P) = 0
   /\ (header_read Q, type_header_read Q, data_read Q)
      = (header_read P, type_header_read P, data_read P)
   /\ (data_len P, data_len Q) = (4, 0)
   /\ (have_peer_caps P', peer_caps P', header_read P') = (1, [0x24], 0)
   /\ (have_peer_caps Q', peer_caps Q', header_read Q') = (1, [0], 4)).
Proof.
  vm_compute. repeat split; reflexivity.
Qed.

(* ===================================================================== *)
(** * Part III: further properties of the code                           *)
(* ===================================================================== *)

(* --------------------------------------------------------------------- *)
(** ** The filter                                                         *)
(* --------------------------------------------------------------------- *)

(** X1.  [usbredirfilter_string_to_rules] has two outcomes: it returns
    [-EINVAL] and hands back no rule, or it returns [0] and every rule it
    hands back passes [usbredirfilter_verify]. *)
Theorem usbredirfilter_string_to_rules_outcomes dm filter_str token_sep
    rule_sep :
  usbredirfilter_string_to_rules dm filter_str token_sep rule_sep
  = (- EINVAL, [])
  \/ exists rules,
       usbredirfilter_string_to_rules dm filter_str token_sep rule_sep
       = (0, rules)
       /\ usbredirfilter_verify rules = 0.
Proof.
  unfold usbredirfilter_string_to_rules.
  destruct ((length token_sep =? 0)%nat || (length rule_sep =? 0)%nat);
    [left; reflexivity|].
  destruct (parse_rules_result dm token_sep rule_sep filter_str [] eq_refl)
    as [Hok | Herr]; [right; exact Hok | left; exact Herr].
Qed.

Lemma usbredirfilter_check1_codes rules c v p b d :
  usbredirfilter_check1 rules c v p b d = 0
  \/ usbredirfilter_check1 rules c v p b d = - EPERM
  \/ usbredirfilter_check1 rules c v p b d = - ENOENT.
Proof.
  induction rules as [|r rules IH]; cbn [usbredirfilter_check1].
  - destruct (negb (d =? 0)); auto.
  - destruct (_ && _ && _ && _); [|exact IH].
    destruct (negb (allow r =? 0)); auto.
Qed.

Section FilterCheckCodes.
Context `{usbredirfilter_h}.

Lemma check_interfaces_codes rules n rows v p b flags k rc :
  check_interfaces rules n rows v p b flags k = inl rc ->
  rc = - EPERM \/ rc = - ENOENT.
Proof.
  revert k. induction rows as [|row rows IH]; intros k; cbn [check_interfaces];
    [discriminate|].
  destruct (_ && _ && _ && _ && _); [apply IH|].
  cbv zeta.
  destruct (usbredirfilter_check1_codes rules (interface_class row) v p b
              (Z.land flags usbredirfilter_fl_default_allow))
    as [E | [E | E]]; rewrite E; cbn [negb Z.eqb Z.opp EPERM ENOENT];
    [apply IH | intros [= <-]; auto | intros [= <-]; auto].
Qed.

Lemma usbredirfilter_check_pass_codes rules dc rows v p b flags rc :
  usbredirfilter_check_pass rules dc rows v p b flags = Some rc ->
  (usbredirfilter_verify rules <> 0 /\ rc = - EINVAL)
  \/ (usbredirfilter_verify rules = 0
      /\ (rc = 0 \/ rc = - EPERM \/ rc = - ENOENT)).
Proof.
  unfold usbredirfilter_check_pass. cbv zeta.
  destruct (usbredirfilter_verify rules =? 0) eqn:Hv; cbn [negb].
  2: { apply Z.eqb_neq in Hv. intros [= <-]. left. split; [exact Hv|reflexivity]. }
  apply Z.eqb_eq in Hv. intros Hrc. right. split; [exact Hv|].
  revert Hrc.
  destruct (negb (dc =? 0) && negb (dc =? 239)).
  - destruct (usbredirfilter_check1_codes rules dc v p b
                (Z.land flags usbredirfilter_fl_default_allow))
      as [E | [E | E]]; rewrite E; cbn [negb Z.eqb Z.opp EPERM ENOENT];
      [| intros [= <-]; auto | intros [= <-]; auto].
    destruct (check_interfaces _ _ _ _ _ _ _ _) as [rc'|k] eqn:Ei.
    + intros [= <-]. apply check_interfaces_codes in Ei. tauto.
    + destruct (_ && _); [discriminate|]. intros [= <-]. auto.
  - cbn [negb Z.eqb].
    destruct (check_interfaces _ _ _ _ _ _ _ _) as [rc'|k] eqn:Ei.
    + intros [= <-]. apply check_interfaces_codes in Ei. tauto.
    + destruct (_ && _); [discriminate|]. intros [= <-]. auto.
Qed.

(** X2.  [usbredirfilter_check] returns [-EINVAL] exactly when the rules
    do not pass [usbredirfilter_verify], and otherwise one of [0],
    [-EPERM] and [-ENOENT], whatever the device, its interfaces and the
    flags. *)
Theorem usbredirfilter_check_codes rules dc dsc dp rows v p b flags :
  let rc := usbredirfilter_check rules dc dsc dp rows v p b flags in
  (usbredirfilter_verify rules <> 0 /\ rc = - EINVAL)
  \/ (usbredirfilter_verify rules = 0
      /\ (rc = 0 \/ rc = - EPERM \/ rc = - ENOENT)).
Proof.
  cbv zeta. rewrite usbredirfilter_check_eq.
  destruct (usbredirfilter_check_pass rules dc rows v p b flags) as [rc|]
    eqn:E1; [exact (usbredirfilter_check_pass_codes _ _ _ _ _ _ _ _ E1)|].
  rewrite usbredirfilter_check_eq.
  destruct (usbredirfilter_check_pass rules dc rows v p b
              (Z.lor flags usbredirfilter_fl_dont_skip_non_boot_hid))
    as [rc|] eqn:E2; [exact (usbredirfilter_check_pass_codes _ _ _ _ _ _ _ _ E2)|].
  apply usbredirfilter_check_pass_recurses in E2.
  pose proof (dont_skip_forced flags) as Hf.
  rewrite E2 in Hf. discriminate Hf.
Qed.

End FilterCheckCodes.

(** X3.  [usbredirfilter_rules_to_string] writes inside the buffer it
    has allocated.  When [28 * rules_count + 1], the size it computes in
    [int], does not overflow, the function returns NULL (the rules are
    not verified or a separator is empty), or it returns a string that
    fits, with its terminating NUL, in the [28 * rules_count + 1] bytes
    it has asked [malloc] for: no rule takes more than 28 characters. *)
Theorem usbredirfilter_rules_to_string_fits dm rules token_sep rule_sep :
  28 * Z.of_nat (length rules) + 1 < 2 ^ 31 ->
  exists r,
    usbredirfilter_rules_to_string dm rules token_sep rule_sep = Some r
    /\ (r = None
        <-> usbredirfilter_verify rules <> 0
            \/ token_sep = [] \/ rule_sep = [])
    /\ forall str,
         r = Some str ->
         Z.of_nat (length str) + 1
         <= to_size_t dm (to_int (28 * Z.of_nat (length rules) + 1))
         /\ to_size_t dm (to_int (28 * Z.of_nat (length rules) + 1))
            = 28 * Z.of_nat (length rules) + 1.
Proof.
  intros Hsize.
  assert (Hint : to_int (28 * Z.of_nat (length rules) + 1)
                 = 28 * Z.of_nat (length rules) + 1)
    by (apply to_int_small; lia).
  assert (Hsz : to_size_t dm (28 * Z.of_nat (length rules) + 1)
                = 28 * Z.of_nat (length rules) + 1).
  { unfold to_size_t. apply Z.mod_small. destruct dm; cbn; lia. }
  unfold usbredirfilter_rules_to_string. cbv zeta.
  destruct (usbredirfilter_verify rules =? 0) eqn:Hv; cbn [negb].
  2:{ apply Z.eqb_neq in Hv. exists None.
      split; [reflexivity|]. split; [|discriminate].
      split; [intros _; left; exact Hv | reflexivity]. }
  apply Z.eqb_eq in Hv.
  destruct token_sep as [|ts ?].
  { exists None. split; [reflexivity|]. split; [|discriminate].
    split; [intros _; right; left; reflexivity | reflexivity]. }
  destruct rule_sep as [|rs ?].
  { exists None. split; [reflexivity|]. split; [|discriminate].
    split; [intros _; right; right; reflexivity | reflexivity]. }
  pose proof (rules_to_string_loop_length ts rs rules Hv) as Hlen.
  rewrite Hint, Hsz, malloc_grants by lia. cbn [negb].
  replace (_ <=? _) with true by (symmetry; apply Z.leb_le; lia).
  eexists. split; [reflexivity|]. split.
  - split; [discriminate|].
    intros [E | [E | E]]; [rewrite Hv in E; contradiction E; reflexivity
                          | discriminate E | discriminate E].
  - intros str [= <-]. split; [lia | reflexivity].
Qed.

Lemma usbredirfilter_rules_to_string_fits_witness :
  let rules := [mk_rule 0xff 0xffff 0xffff 0xffff 1;
                mk_rule 3 (-1) (-1) (-1) 0] in
  28 * Z.of_nat (length rules) + 1 < 2 ^ 31
  /\ exists r,
       usbredirfilter_rules_to_string LP64 rules comma bar = Some r
       /\ (r = None
           <-> usbredirfilter_verify rules <> 0
               \/ comma = [] \/ bar = [])
       /\ forall str,
            r = Some str ->
            Z.of_nat (length str) + 1
            <= to_size_t LP64 (to_int (28 * Z.of_nat (length rules) + 1))
            /\ to_size_t LP64 (to_int (28 * Z.of_nat (length rules) + 1))
               = 28 * Z.of_nat (length rules) + 1.
Proof.
  intros rules.
  assert (Hsize : 28 * Z.of_nat (length rules) + 1 < 2 ^ 31)
    by (vm_compute; reflexivity).
  exact (conj Hsize
           (usbredirfilter_rules_to_string_fits LP64 rules comma bar
              Hsize)).
Defined.

(* --------------------------------------------------------------------- *)
(** ** The parser: reading                                                *)
(* --------------------------------------------------------------------- *)

Section ParserReading.
Context `{usbredirproto_h} `{usbredirparser_h}.
Variable dm : data_model.

(** X4.  When [usbredirparser_do_read] completes a fixed header with a
    framing violation (unknown type, length above [MAX_PACKET_SIZE],
    length below the type header's, or above it for a type without
    data) whose declared length is below 2^31, it returns
    [usbredirparser_read_parse_error] with that length in [to_skip]; the
    next call discards exactly that many bytes of the transport and then
    does what a parser with nothing to skip does on the bytes behind
    them. *)
Theorem usbredirparser_do_read_skips hdr junk rest p :
  to_skip p <= 0 -> header_read p = 0 ->
  Z.of_nat (length hdr) = usbredirparser_get_header_len p ->
  read_input p = hdr ++ junk ++ rest ->
  let q := header_received (usbredirparser_get_header_len p) hdr
             (junk ++ rest) p in
  framing_violation q ->
  header_length q = Z.of_nat (length junk) -> header_length q < 2 ^ 31 ->
  exists p1,
    usbredirparser_do_read dm p = (usbredirparser_read_parse_error, p1)
    /\ to_skip p1 = Z.of_nat (length junk) /\ header_read p1 = 0
    /\ read_input p1 = junk ++ rest
    /\ usbredirparser_do_read dm p1
       = usbredirparser_do_read dm (set_to_skip 0 (set_read_input rest p1)).
Proof.
  intros Hs Hread Hlen Hin q Hv HL Hmax.
  eexists. split; [apply usbredirparser_do_read_violation; eassumption|].
  fold q.
  assert (Hskip : to_skip (set_header_read 0
                             (set_to_skip (to_int (header_length q)) q))
                  = Z.of_nat (length junk)).
  { cbn. rewrite to_int_small by lia. exact HL. }
  split; [exact Hskip|]. split; [reflexivity|]. split; [reflexivity|].
  apply (usbredirparser_do_read_discards dm junk);
    [exact Hskip | | reflexivity].
  rewrite Hskip, <- HL. exact Hmax.
Qed.

(** X5.  Skipping goes on over calls.  When the transport holds fewer
    bytes than are left to skip, the call discards them all and returns
    0; once the transport has delivered the remainder and more, the next
    call discards the remainder, and then does what a parser with
    nothing to skip does on the bytes behind it. *)
Theorem usbredirparser_do_read_skips_in_pieces junk1 junk2 rest p :
  to_skip p = Z.of_nat (length junk1 + length junk2) ->
  to_skip p < 2 ^ 31 -> (0 < length junk2)%nat ->
  read_input p = junk1 ->
  let r1 := usbredirparser_do_read dm p in
  fst r1 = 0
  /\ read_input (snd r1) = []
  /\ to_skip (snd r1) = Z.of_nat (length junk2)
  /\ usbredirparser_do_read dm (receive (junk2 ++ rest) (snd r1))
     = usbredirparser_do_read dm (set_to_skip 0 (set_read_input rest p)).
Proof.
  intros Hs Hmax H2 Hin. cbv zeta.
  assert (E : usbredirparser_do_read dm p
              = (0, set_to_skip (to_skip p - Z.of_nat (length junk1))
                      (set_read_input [] p))).
  { unfold usbredirparser_do_read.
    rewrite (skip_loop_starved junk1 p) by (try exact Hin; lia).
    reflexivity. }
  rewrite E. cbn [fst snd].
  split; [reflexivity|]. split; [reflexivity|].
  split; [cbn; lia|].
  rewrite (usbredirparser_do_read_discards dm junk2 rest);
    [reflexivity | cbn; lia | cbn; lia | reflexivity].
Qed.

(** X6.  Before a hello of the peer has been handled, every parser the
    library can get to, by initialising, reading, queuing and
    unserializing, uses the 32-bit id form of the fixed header: twelve
    bytes on the wire, the id taken from the 32-bit field. *)
Theorem usbredirparser_ids_before_hello p :
  parser_reachable dm p -> have_peer_caps p = 0 ->
  usbredirparser_using_32bits_ids p = true
  /\ usbredirparser_get_header_len p = 12
  /\ packet_id p = header_32bit_id_id p.
Proof.
  intros Hreach Hnone.
  pose proof (parser_reachable_clear dm p Hreach Hnone) as Hzero.
  assert (H32 : usbredirparser_using_32bits_ids p = true).
  { unfold usbredirparser_using_32bits_ids, usbredirparser_peer_has_cap.
    rewrite Hzero, usbredirparser_caps_get_cap_zeros.
    apply orb_true_r. }
  unfold usbredirparser_get_header_len, packet_id. rewrite H32.
  repeat split; reflexivity.
Qed.

(** What [usbredirparser_do_read] does to the capabilities, it does in
    [usbredirparser_handle_hello]. *)
Lemma usbredirparser_do_read_caps (R : Z -> list Z -> list Z -> Prop) :
  let P q := R (have_peer_caps q) (our_caps q) (peer_caps q) in
  (forall q hello d dl,
      P q -> P (usbredirparser_handle_hello dm hello d dl q)) ->
  forall p, P p -> P (snd (usbredirparser_do_read dm p)).
Proof.
  intros P Hhello p HP.
  assert (Hqueue : forall type id th d dl q,
             P q -> P (usbredirparser_queue dm type id th d dl q)).
  { intros type id th d dl q Hq. unfold P.
    destruct (usbredirparser_queue_peer_caps dm type id th d dl q)
      as [-> ->].
    replace (our_caps (usbredirparser_queue dm type id th d dl q))
      with (our_caps q); [exact Hq|].
    unfold usbredirparser_queue.
    repeat match goal with
           | |- context [if ?b then _ else _] => destruct b
           end; reflexivity. }
  assert (Hcall : forall q, P q -> P (usbredirparser_call_type_func dm q)).
  { intros q Hq. unfold usbredirparser_call_type_func.
    destruct (packet_type_of _) as [t|]; [|exact Hq].
    destruct t; try exact Hq.
    - apply Hhello. exact Hq.
    - destruct (negb _); [apply Hqueue|]; exact Hq.
    - destruct (usbredirfilter_string_to_rules _ _ _ _) as [r rules].
      destruct (negb _); exact Hq. }
  assert (Hcomplete : forall q, P q ->
            match do_read_packet_complete dm q with
            | loop_continue _ p' | loop_return _ p' => P p'
            end).
  { intros q Hq. unfold do_read_packet_complete.
    destruct (usbredirparser_verify_type_header _ _ _ _ _ _) as [r hdr].
    assert (Hq' : P (if negb (r =? 0)
                     then usbredirparser_call_type_func dm
                            (set_type_header hdr q)
                     else set_type_header hdr q)).
    { destruct (negb (r =? 0)); [apply Hcall|]; exact Hq. }
    destruct (r =? 0); exact Hq'. }
  assert (Hturn : forall header_len q, P q ->
            match do_read_turn dm header_len q with
            | loop_continue _ p' | loop_return _ p' => P p'
            end).
  { intros header_len q0 Hq0.
    assert (Haccount : forall r q, P q ->
              match do_read_account dm header_len r q with
              | loop_continue _ p' | loop_return _ p' => P p'
              end).
    { intros r q Hq. unfold do_read_account.
      destruct (header_read q <? header_len).
      - match goal with
        | |- context [if ?b then _ else _] => destruct b
        end; [|exact Hq].
        unfold do_read_header_complete, skip_packet.
        repeat match goal with
               | |- context [if ?b then _ else _] => destruct b
               end; exact Hq.
      - destruct (type_header_read q <? type_header_len q); [exact Hq|].
        match goal with
        | |- context [if ?b then _ else _] => destruct b
        end; [apply Hcomplete|]; exact Hq. }
    unfold do_read_turn.
    destruct (do_read_dest header_len q0) as [r dest].
    destruct (r >? 0); [|apply Haccount; exact Hq0].
    destruct (read_to dest r q0) as [r' p'] eqn:E.
    assert (Hp' : P p').
    { unfold read_to, read_func in E. injection E as _ <-.
      destruct dest; exact Hq0. }
    destruct (r' <=? 0); [exact Hp' | apply Haccount; exact Hp']. }
  unfold usbredirparser_do_read.
  pose proof (skip_loop_invariant P
                ltac:(intros ? ? Hq; exact Hq)
                ltac:(intros ? ? Hq; exact Hq) p HP) as Hskip.
  destruct (skip_loop p) as [[r|] p1]; [exact Hskip|].
  apply (do_read_loop_invariant dm P Hturn). exact Hskip.
Qed.

(** X7.  Once the peer's capabilities are in place, no packet read
    changes them, a second hello included, nor our own: the form of the
    fixed header stays what the first hello made it. *)
Theorem usbredirparser_do_read_keeps_caps p :
  have_peer_caps p <> 0 ->
  let p' := snd (usbredirparser_do_read dm p) in
  have_peer_caps p' = have_peer_caps p
  /\ peer_caps p' = peer_caps p /\ our_caps p' = our_caps p
  /\ usbredirparser_get_header_len p' = usbredirparser_get_header_len p.
Proof.
  intros Hhave. cbv zeta.
  pose proof (usbredirparser_do_read_caps
                (fun a o c => a = have_peer_caps p /\ o = our_caps p
                              /\ c = peer_caps p)) as Hcaps.
  cbv beta zeta in Hcaps.
  assert (Hhello : forall q hello d dl,
             have_peer_caps q = have_peer_caps p /\ our_caps q = our_caps p
             /\ peer_caps q = peer_caps p ->
             have_peer_caps (usbredirparser_handle_hello dm hello d dl q)
             = have_peer_caps p
             /\ our_caps (usbredirparser_handle_hello dm hello d dl q)
                = our_caps p
             /\ peer_caps (usbredirparser_handle_hello dm hello d dl q)
                = peer_caps p).
  { intros q hello d dl (Ha & Ho & Hc).
    unfold usbredirparser_handle_hello.
    destruct (have_peer_caps q =? 0) eqn:E;
      [apply Z.eqb_eq in E; congruence | cbn [negb]; auto]. }
  destruct (Hcaps Hhello p (conj eq_refl (conj eq_refl eq_refl)))
    as (Ha & Ho & Hc).
  unfold usbredirparser_get_header_len, usbredirparser_using_32bits_ids,
    usbredirparser_have_cap, usbredirparser_peer_has_cap.
  rewrite Ha, Ho, Hc. auto.
Qed.

(** A cancel_data_packet read by a host side parser. *)
Lemma usbredirparser_do_read_cancel id p :
  Z.land (flags p) usbredirparser_fl_usb_host <> 0 ->
  to_skip p <= 0 -> header_read p = 0 -> type_header_read p = 0 ->
  data_read p = 0 ->
  0 <= id < (if usbredirparser_using_32bits_ids p then 2 ^ 32 else 2 ^ 64) ->
  read_input p
  = store32 (to_uint (packet_type_value usb_redir_cancel_data_packet))
    ++ store32 0
    ++ (if usbredirparser_using_32bits_ids p then store32 id
        else store64 id) ->
  exists p',
    usbredirparser_do_read dm p = (0, p')
    /\ callb p' = callb p ++ [callb_id usb_redir_cancel_data_packet id]
    /\ read_input p' = [] /\ header_read p' = 0.
Proof.
  intros Hhost Hs Hread Hthr Hdr Hid Hin.
  set (idb := if usbredirparser_using_32bits_ids p then store32 id
              else store64 id) in *.
  set (hdr := store32 (to_uint (packet_type_value
                                  usb_redir_cancel_data_packet))
              ++ store32 0 ++ idb) in *.
  set (hl := usbredirparser_get_header_len p).
  assert (Hlen : Z.of_nat (length hdr) = hl).
  { subst hdr idb hl. unfold usbredirparser_get_header_len.
    destruct (usbredirparser_using_32bits_ids p); reflexivity. }
  pose proof (header_received_cancel hl idb [] p) as [Hty Hlen0].
  cbv zeta in Hty, Hlen0. fold hdr in Hty, Hlen0.
  set (q := header_received hl hdr [] p) in *.
  rewrite usbredirparser_do_read_no_skip by exact Hs. fold hl.
  rewrite do_read_loop_eq.
  rewrite (do_read_turn_header dm hl hdr [])
    by (try apply usbredirparser_get_header_len_pos; try assumption;
        rewrite app_nil_r; exact Hin).
  fold q.
  assert (Hthl : usbredirparser_get_type_header_len q
                   (to_int (header_type q)) false = 0).
  { unfold usbredirparser_get_type_header_len. rewrite Hty.
    unfold command_for_host.
    change (flags q) with (flags p).
    destruct (Z.land (flags p) usbredirparser_fl_usb_host =? 0) eqn:E;
      [apply Z.eqb_eq in E; contradiction | reflexivity]. }
  assert (Hcomplete : do_read_header_complete dm hl q
                      = loop_continue hl
                          (set_data_len 0 (set_type_header_len 0 q))).
  { unfold do_read_header_complete. rewrite Hthl, Hlen0. reflexivity. }
  rewrite Hcomplete.
  rewrite do_read_loop_eq.
  assert (Hturn : do_read_turn dm hl
                    (set_data_len 0 (set_type_header_len 0 q))
                  = do_read_packet_complete dm
                      (set_data_read 0
                         (set_data_len 0 (set_type_header_len 0 q)))).
  { unfold do_read_turn, do_read_dest, do_read_account.
    change (header_read (set_data_len 0 (set_type_header_len 0 q)))
      with hl.
    change (type_header_read (set_data_len 0 (set_type_header_len 0 q)))
      with (type_header_read p).
    change (data_read (set_data_len 0 (set_type_header_len 0 q)))
      with (data_read p).
    rewrite Hthr, Hdr, Z.ltb_irrefl. reflexivity. }
  rewrite Hturn.
  destruct (do_read_packet_complete_cancel dm
              (set_data_read 0 (set_data_len 0 (set_type_header_len 0 q)))
              Hty) as (p4 & Hdisp & Hcallb & Hinput & Hhr).
  rewrite Hdisp, do_read_loop_eq.
  destruct (do_read_turn_starved dm
              (usbredirparser_get_header_len
                 (set_data_read 0
                    (set_data_len 0 (set_type_header_len 0 q)))) p4)
    as (p5 & Hlast & Hcallb5 & Hinput5 & Hhr5 & _).
  { rewrite Hhr. apply usbredirparser_get_header_len_pos. }
  { rewrite Hinput. reflexivity. }
  rewrite Hlast. exists p5. split; [reflexivity|].
  split; [|split; [exact Hinput5 | congruence]].
  rewrite Hcallb5, Hcallb. f_equal. f_equal. f_equal.
  unfold packet_id, header_32bit_id_id, header_id.
  change (usbredirparser_using_32bits_ids
            (set_data_read 0 (set_data_len 0 (set_type_header_len 0 q))))
    with (usbredirparser_using_32bits_ids p).
  change (header (set_data_read 0
                    (set_data_len 0 (set_type_header_len 0 q))))
    with (memcpy (header p) 0 hdr).
  rewrite memcpy_head. subst hdr idb. rewrite <- !app_assoc.
  change 8%nat with (4 + (4 + 0))%nat.
  destruct (usbredirparser_using_32bits_ids p).
  - rewrite !load32_behind_word, load32_store32.
    apply Z.mod_small. exact Hid.
  - unfold load64.
    change (4 + (4 + 0) + 4)%nat with (4 + (4 + 4))%nat.
    rewrite !load32_behind_word.
    fold (load64 0 (store64 id ++ skipn
                      (length (store32
                                 (to_uint (packet_type_value
                                             usb_redir_cancel_data_packet))
                               ++ store32 0 ++ store64 id)) (header p))).
    apply load64_store64. exact Hid.
Qed.

(** X8.  A cancel_data_packet sent to a host side parser in the form of
    the fixed header the capabilities select, with a 32-bit id unless
    both sides have the 64-bit id capability, is read as one packet:
    [cancel_data_packet_func] is called once, with the id that was sent,
    the bytes are used up and the parser is back at the start of a
    header. *)
Theorem usbredirparser_do_read_cancel_data_packet id p :
  Z.land (flags p) usbredirparser_fl_usb_host <> 0 ->
  to_skip p <= 0 -> header_read p = 0 -> type_header_read p = 0 ->
  data_read p = 0 ->
  0 <= id < (if usbredirparser_using_32bits_ids p then 2 ^ 32 else 2 ^ 64) ->
  read_input p
  = store32 (to_uint (packet_type_value usb_redir_cancel_data_packet))
    ++ store32 0
    ++ (if usbredirparser_using_32bits_ids p then store32 id
        else store64 id) ->
  exists p',
    usbredirparser_do_read dm p = (0, p')
    /\ callb p' = callb p ++ [callb_id usb_redir_cancel_data_packet id]
    /\ read_input p' = [] /\ header_read p' = 0.
Proof.
  exact (usbredirparser_do_read_cancel id p).
Qed.

End ParserReading.

Lemma usbredirparser_do_read_skips_witness :
  let p := parser_host (fixed_header_32 77 5 9 ++ [1; 2; 3; 4; 5]
                        ++ fixed_header_32 21 0 7) in
  let q := header_received 12 (fixed_header_32 77 5 9)
             ([1; 2; 3; 4; 5] ++ fixed_header_32 21 0 7) p in
  (to_skip p = 0 /\ header_read p = 0 /\ framing_violation q
   /\ header_length q = 5)
  /\ exists p1,
       usbredirparser_do_read LP64 p = (usbredirparser_read_parse_error, p1)
       /\ to_skip p1 = Z.of_nat (length [1; 2; 3; 4; 5])
       /\ header_read p1 = 0
       /\ read_input p1 = [1; 2; 3; 4; 5] ++ fixed_header_32 21 0 7
       /\ usbredirparser_do_read LP64 p1
          = usbredirparser_do_read LP64
              (set_to_skip 0 (set_read_input (fixed_header_32 21 0 7) p1)).
Proof.
  intros p q.
  assert (Hs : to_skip p = 0) by (vm_compute; reflexivity).
  assert (Hr : header_read p = 0) by (vm_compute; reflexivity).
  assert (Hl : Z.of_nat (length (fixed_header_32 77 5 9))
               = usbredirparser_get_header_len p)
    by (vm_compute; reflexivity).
  assert (Hi : read_input p
               = fixed_header_32 77 5 9 ++ [1; 2; 3; 4; 5]
                 ++ fixed_header_32 21 0 7) by (vm_compute; reflexivity).
  assert (Hv : framing_violation q) by (left; vm_compute; reflexivity).
  assert (HL : header_length q = 5) by (vm_compute; reflexivity).
  split; [repeat split; assumption|].
  apply (usbredirparser_do_read_skips LP64 (fixed_header_32 77 5 9)
           [1; 2; 3; 4; 5] (fixed_header_32 21 0 7) p);
    [lia | exact Hr | exact Hl | exact Hi | | | ].
  - change (usbredirparser_get_header_len p) with 12. exact Hv.
  - change (usbredirparser_get_header_len p) with 12. exact HL.
  - change (usbredirparser_get_header_len p) with 12. fold q. lia.
Defined.

Lemma usbredirparser_do_read_skips_in_pieces_witness :
  let p := set_to_skip 5 (parser_host [1; 2]) in
  let r1 := usbredirparser_do_read LP64 p in
  (to_skip p = Z.of_nat (length [1; 2] + length [3; 4; 5])
   /\ read_input p = [1; 2])
  /\ fst r1 = 0
  /\ read_input (snd r1) = []
  /\ to_skip (snd r1) = Z.of_nat (length [3; 4; 5])
  /\ usbredirparser_do_read LP64
       (receive ([3; 4; 5] ++ fixed_header_32 21 0 7) (snd r1))
     = usbredirparser_do_read LP64
         (set_to_skip 0 (set_read_input (fixed_header_32 21 0 7) p)).
Proof.
  intros p r1.
  assert (Hs : to_skip p = Z.of_nat (length [1; 2] + length [3; 4; 5]))
    by (vm_compute; reflexivity).
  assert (Hi : read_input p = [1; 2]) by (vm_compute; reflexivity).
  split; [split; assumption|].
  apply (usbredirparser_do_read_skips_in_pieces LP64 [1; 2] [3; 4; 5]
           (fixed_header_32 21 0 7) p Hs);
    [rewrite Hs; vm_compute; reflexivity | cbn; lia | exact Hi].
Defined.

Lemma usbredirparser_ids_before_hello_witness :
  let p := snd (usbredirparser_do_read LP64
                  (parser_host (fixed_header_32 21 0 7))) in
  (parser_reachable LP64 p /\ have_peer_caps p = 0)
  /\ usbredirparser_using_32bits_ids p = true
  /\ usbredirparser_get_header_len p = 12
  /\ packet_id p = header_32bit_id_id p.
Proof.
  intros p.
  assert (Hreach : parser_reachable LP64 p)
    by exact (reach_do_read LP64 _
                (reach_init LP64 (list_ascii_of_string "usbredirhost 0.12")
                   [0x24] 1 0x05 (fixed_header_32 21 0 7))).
  assert (Hnone : have_peer_caps p = 0) by (vm_compute; reflexivity).
  split; [split; assumption|].
  exact (usbredirparser_ids_before_hello LP64 p Hreach Hnone).
Defined.

Lemma usbredirparser_do_read_keeps_caps_witness :
  let p := receive (fixed_header_32 0 68 0
                    ++ hello_header (list_ascii_of_string "again")
                    ++ store32 0)
             (snd (usbredirparser_do_read LP64
                     (parser_host (hello_fixed_header ++ hello_payload)))) in
  let p' := snd (usbredirparser_do_read LP64 p) in
  (have_peer_caps p = 1 /\ peer_caps p = [0x24])
  /\ have_peer_caps p' = have_peer_caps p
  /\ peer_caps p' = peer_caps p /\ our_caps p' = our_caps p
  /\ usbredirparser_get_header_len p' = usbredirparser_get_header_len p.
Proof.
  intros p p'.
  assert (Hhave : have_peer_caps p = 1) by (vm_compute; reflexivity).
  assert (Hcaps : peer_caps p = [0x24]) by (vm_compute; reflexivity).
  split; [split; assumption|].
  apply (usbredirparser_do_read_keeps_caps LP64 p).
  rewrite Hhave. lia.
Defined.

Lemma usbredirparser_do_read_cancel_data_packet_witness :
  let p := receive (fixed_header_64 21 0 0x1122334455667788)
             (snd (usbredirparser_do_read LP64
                     (parser_host (hello_fixed_header ++ hello_payload)))) in
  (usbredirparser_using_32bits_ids p = false
   /\ Z.land (flags p) usbredirparser_fl_usb_host = 1
   /\ (to_skip p, header_read p, type_header_read p, data_read p)
      = (0, 0, 0, 0)
   /\ read_input p = fixed_header_64 21 0 0x1122334455667788)
  /\ exists p',
       usbredirparser_do_read LP64 p = (0, p')
       /\ callb p'
          = callb p
            ++ [callb_id usb_redir_cancel_data_packet 0x1122334455667788]
       /\ read_input p' = [] /\ header_read p' = 0.
Proof.
  intros p.
  assert (H64 : usbredirparser_using_32bits_ids p = false)
    by (vm_compute; reflexivity).
  assert (Hhost : Z.land (flags p) usbredirparser_fl_usb_host = 1)
    by (vm_compute; reflexivity).
  assert (Hidle : (to_skip p, header_read p, type_header_read p,
                   data_read p) = (0, 0, 0, 0))
    by (vm_compute; reflexivity).
  assert (Hin : read_input p = fixed_header_64 21 0 0x1122334455667788)
    by (vm_compute; reflexivity).
  clearbody p.
  split; [repeat split; assumption|].
  injection Hidle as Hs Hr Ht Hd.
  apply (usbredirparser_do_read_cancel_data_packet LP64
           0x1122334455667788 p).
  - rewrite Hhost. lia.
  - rewrite Hs. lia.
  - exact Hr.
  - exact Ht.
  - exact Hd.
  - rewrite H64. lia.
  - rewrite H64. exact Hin.
Defined.

(* --------------------------------------------------------------------- *)
(** ** The parser: writing                                                *)
(* --------------------------------------------------------------------- *)

Lemma to_int_add_l a b : to_int (to_int a + b) = to_int (a + b).
Proof.
  unfold to_int. f_equal.
  replace ((a + 2 ^ 31) mod 2 ^ 32 - 2 ^ 31 + b + 2 ^ 31)
    with ((a + 2 ^ 31) mod 2 ^ 32 + b) by lia.
  rewrite Zplus_mod_idemp_l. f_equal. lia.
Qed.

Lemma to_uint64_add_l a b : to_uint64 (to_uint64 a + b) = to_uint64 (a + b).
Proof.
  unfold to_uint64. apply Zplus_mod_idemp_l.
Qed.

Lemma to_int_sub_l a b : to_int (to_int a - b) = to_int (a - b).
Proof.
  rewrite <- !Z.add_opp_r. apply to_int_add_l.
Qed.

Lemma to_uint64_sub_l a b : to_uint64 (to_uint64 a - b) = to_uint64 (a - b).
Proof.
  rewrite <- !Z.add_opp_r. apply to_uint64_add_l.
Qed.

Lemma firstn_split_skipn {A} (a b : nat) (l : list A) :
  firstn (a + b) l = firstn a l ++ firstn b (skipn a l).
Proof.
  revert l. induction a as [|a IH]; intros l; [reflexivity|].
  destruct l as [|x l]; [cbn; now rewrite firstn_nil|].
  cbn [Nat.add firstn skipn app]. rewrite IH. reflexivity.
Qed.

Section ParserWritingProperties.
Context `{usbredirproto_h} `{usbredirparser_h}.

Lemma do_write_loop_keeps rooms :
  forall p written r p' out,
    write_invariants p ->
    do_write_loop rooms p written = Some (r, p', out) ->
    r <= 0
    /\ out ++ flat_map unwritten (write_buf p')
       = written ++ flat_map unwritten (write_buf p)
    /\ write_invariants p'
    /\ exists count bufs total, p' = set_write_buf count bufs total p.
Proof.
  induction rooms as [|room rooms IH]; intros p written r p' out Hinv.
  - cbn [do_write_loop].
    destruct (write_buf p) eqn:E; intros [= <- <- <-]; rewrite ?E;
      (split; [lia|]; split; [reflexivity|]; split; [exact Hinv|]);
      exists (write_buf_count p), (write_buf p), (write_buf_total_size p);
      destruct p; reflexivity.
  - cbn [do_write_loop].
    destruct (write_buf p) as [|wbuf next] eqn:E.
    { intros [= <- <- <-]. rewrite E.
      split; [lia|]. split; [reflexivity|]. split; [exact Hinv|].
      exists (write_buf_count p), [], (write_buf_total_size p).
      destruct p; cbn in *. subst. reflexivity. }
    pose proof Hinv as Hinv0.
    destruct Hinv as (Hok & Hcount & Htotal). rewrite E in Hok, Hcount, Htotal.
    apply Forall_cons_iff in Hok as [(Hpos & Hlen & Hbuf) Hnext].
    cbv zeta. rewrite to_int_small by lia.
    unfold write_func.
    destruct (room <=? 0) eqn:Hroom.
    { rewrite Hroom. intros [= <- <- <-]. rewrite E.
      apply Z.leb_le in Hroom.
      split; [exact Hroom|]. split; [reflexivity|].
      split; [exact Hinv0|].
      exists (write_buf_count p), (write_buf p), (write_buf_total_size p).
      destruct p; reflexivity. }
    apply Z.leb_gt in Hroom.
    set (w := Z.min room (len wbuf - pos wbuf)).
    destruct (w <=? 0) eqn:Hw.
    { intros [= <- <- <-]. rewrite E.
      apply Z.leb_le in Hw.
      split; [exact Hw|]. split; [reflexivity|].
      split; [exact Hinv0|].
      exists (write_buf_count p), (write_buf p), (write_buf_total_size p).
      destruct p; reflexivity. }
    apply Z.leb_gt in Hw.
    assert (Hwle : w <= len wbuf - pos wbuf) by (subst w; lia).
    destruct (negb _ && negb (w =? len wbuf)); [discriminate|].
    rewrite to_int_small by lia.
    destruct (pos wbuf + w =? len wbuf) eqn:Hend.
    + apply Z.eqb_eq in Hend. intros Hrec.
      apply IH in Hrec.
      * destruct Hrec as (Hr & Hout & Hinv' & count & bufs & total & ->).
        split; [exact Hr|]. split; [|split; [exact Hinv'|]].
        -- rewrite Hout. cbn [write_buf set_write_buf flat_map].
           rewrite <- app_assoc. f_equal. f_equal.
           unfold unwritten. f_equal. lia.
        -- exists count, bufs, total. destruct p; reflexivity.
      * split; [exact Hnext|]. cbn [write_buf set_write_buf
                                   write_buf_count write_buf_total_size].
        split.
        -- rewrite Hcount, to_int_sub_l. f_equal. cbn [length]. lia.
        -- rewrite Htotal, to_uint64_sub_l. f_equal.
           cbn [map fold_right]. lia.
    + apply Z.eqb_neq in Hend. intros Hrec.
      apply IH in Hrec.
      * destruct Hrec as (Hr & Hout & Hinv' & count & bufs & total & ->).
        split; [exact Hr|]. split; [|split; [exact Hinv'|]].
        -- rewrite Hout. cbn [write_buf set_write_buf flat_map].
           rewrite <- !app_assoc. f_equal. rewrite app_assoc. f_equal.
           unfold unwritten. cbn [pos len buf].
           replace (Z.to_nat (len wbuf - pos wbuf))
             with (Z.to_nat w + Z.to_nat (len wbuf - (pos wbuf + w)))%nat
             by lia.
           rewrite firstn_split_skipn. f_equal. f_equal.
           rewrite skipn_skipn. f_equal. lia.
        -- exists count, bufs, total. destruct p; reflexivity.
      * split.
        -- cbn [write_buf set_write_buf]. constructor; [|exact Hnext].
           unfold write_buf_ok. cbn [pos len buf]. lia.
        -- cbn [write_buf set_write_buf write_buf_count
                write_buf_total_size]. rewrite Hcount, Htotal.
           split; reflexivity.
Qed.

Lemma malloc_nonnegative dm size :
  - 2 ^ 31 <= size < 2 ^ 31 -> malloc dm size = true -> 0 <= size.
Proof.
  intros Hrange Hm. unfold malloc, to_size_t, PTRDIFF_MAX in Hm.
  apply Z.leb_le in Hm.
  destruct (Z_lt_dec size 0) as [Hneg|]; [|lia].
  exfalso.
  assert (Hbits : LONG_BITS dm = 32 \/ LONG_BITS dm = 64)
    by (destruct dm; auto).
  destruct Hbits as [Hb | Hb]; rewrite Hb in Hm.
  - replace size with (size + 2 ^ 32 + (-1) * 2 ^ 32) in Hm by lia.
    rewrite Z.mod_add in Hm by lia. rewrite Z.mod_small in Hm by lia.
    change (2 ^ (32 - 1)) with (2 ^ 31) in Hm. lia.
  - replace size with (size + 2 ^ 64 + (-1) * 2 ^ 64) in Hm by lia.
    rewrite Z.mod_add in Hm by lia.
    change (2 ^ 64) with 18446744073709551616 in Hm.
    change (2 ^ (64 - 1)) with 9223372036854775808 in Hm.
    change (2 ^ 31) with 2147483648 in Hrange.
    rewrite Z.mod_small in Hm by lia. lia.
Qed.

Lemma fold_right_add_acc l z :
  fold_right Z.add 0 l + z = fold_right Z.add (z + 0) l.
Proof.
  induction l as [|a l IH]; cbn [fold_right]; lia.
Qed.

Lemma take_bytes_length n src :
  length (take_bytes n src) = Z.to_nat n.
Proof.
  unfold take_bytes. rewrite firstn_length_le; [reflexivity|].
  rewrite length_app, repeat_length. lia.
Qed.

Lemma length_store32 v : length (store32 v) = 4%nat.
Proof. reflexivity. Qed.

Lemma length_store64 v : length (store64 v) = 8%nat.
Proof. reflexivity. Qed.

Section ParserQueue.
Variable dm : data_model.

(** [usbredirparser_queue] leaves the parser as it is or adds one buffer. *)
Lemma usbredirparser_queue_cases type id th d dl p :
  let header_len := usbredirparser_get_header_len p in
  let type_header_len :=
    usbredirparser_get_type_header_len p (to_int type) true in
  let total_size := to_int (header_len + type_header_len + dl) in
  usbredirparser_queue dm type id th d dl p = p
  \/ (0 <= type_header_len /\ malloc dm total_size = true
      /\ usbredirparser_queue dm type id th d dl p
         = set_write_buf (to_int (write_buf_count p + 1))
             (write_buf p
              ++ [mk_buf
                    (store32 type
                     ++ store32 (to_uint (type_header_len + dl))
                     ++ (if usbredirparser_using_32bits_ids p
                         then store32 id else store64 id)
                     ++ take_bytes type_header_len th
                     ++ take_bytes dl
                          (match d with Some d => d | None => [] end))
                    0 total_size])
             (to_uint64 (write_buf_total_size p + total_size)) p).
Proof.
  cbv zeta. unfold usbredirparser_queue.
  destruct (_ <? 0) eqn:E1; [left; reflexivity|].
  destruct (fst _ =? 0); [left; reflexivity|].
  destruct (malloc dm _) eqn:E3; cbn [negb]; [|left; reflexivity].
  right. apply Z.ltb_ge in E1. rewrite <- !app_assoc. auto.
Qed.

Lemma usbredirparser_queue_tail type id th d dl p :
  write_invariants p -> 0 <= dl ->
  usbredirparser_get_header_len p
  + usbredirparser_get_type_header_len p (to_int type) true + dl < 2 ^ 31 ->
  let p' := usbredirparser_queue dm type id th d dl p in
  write_invariants p'
  /\ (write_buf p' = write_buf p
      \/ exists wbuf,
           write_buf p' = write_buf p ++ [wbuf]
           /\ unwritten wbuf = buf wbuf
           /\ firstn (Z.to_nat (usbredirparser_get_header_len p))
                (buf wbuf)
              = store32 type
                ++ store32 (to_uint
                              (usbredirparser_get_type_header_len p
                                 (to_int type) true + dl))
                ++ (if usbredirparser_using_32bits_ids p
                    then store32 id else store64 id)).
Proof.
  intros Hinv Hdl Hsize. cbv zeta.
  destruct (usbredirparser_queue_cases type id th d dl p)
    as [-> | (Hthl & Hm & ->)]; [split; [exact Hinv | left; reflexivity]|].
  set (hl := usbredirparser_get_header_len p) in *.
  set (thl := usbredirparser_get_type_header_len p (to_int type) true) in *.
  pose proof (usbredirparser_get_header_len_pos p) as Hhl. fold hl in Hhl.
  assert (Htot : to_int (hl + thl + dl) = hl + thl + dl)
    by (apply to_int_small; lia).
  rewrite Htot in *.
  set (idb := if usbredirparser_using_32bits_ids p then store32 id
              else store64 id).
  assert (Hidb : Z.of_nat (length (store32 type
                                   ++ store32 (to_uint (thl + dl)) ++ idb))
                 = hl).
  { subst idb hl. unfold usbredirparser_get_header_len.
    destruct (usbredirparser_using_32bits_ids p); reflexivity. }
  assert (Hbuf : Z.of_nat
                   (length
                      (store32 type ++ store32 (to_uint (thl + dl)) ++ idb
                       ++ take_bytes thl th
                       ++ take_bytes dl
                            (match d with Some d0 => d0 | None => [] end)))
                 = hl + thl + dl).
  { rewrite !app_assoc, <- (app_assoc (store32 type)).
    rewrite length_app, length_app, !take_bytes_length.
    rewrite !Nat2Z.inj_add, Hidb. lia. }
  destruct Hinv as (Hok & Hcount & Htotal).
  split; [split; [|split]|].
  - cbn [write_buf set_write_buf]. apply Forall_app. split; [exact Hok|].
    constructor; [|constructor].
    unfold write_buf_ok. cbn [pos len buf]. lia.
  - cbn [write_buf set_write_buf write_buf_count].
    rewrite Hcount, to_int_add_l, length_app. f_equal. cbn [length]. lia.
  - cbn [write_buf set_write_buf write_buf_total_size].
    rewrite Htotal, to_uint64_add_l. f_equal.
    rewrite map_app, fold_right_app. cbn [map fold_right len].
    apply fold_right_add_acc.
  - right. eexists. split; [reflexivity|]. cbn [buf].
    split.
    + unfold unwritten. cbn [pos len buf]. rewrite Z.sub_0_r.
      cbn [Z.to_nat skipn]. apply firstn_all2. lia.
    + rewrite !app_assoc, <- (app_assoc (store32 type)).
      rewrite <- app_assoc.
      rewrite firstn_app.
      replace (Z.to_nat hl
               - length (store32 type ++ store32 (to_uint (thl + dl))
                         ++ idb))%nat with O by lia.
      rewrite firstn_O, app_nil_r. apply firstn_all2. lia.
Qed.

(** X9.  [usbredirparser_queue] keeps the queue invariants of
    [usbredirparser_assert_invariants], and it queues at the tail: the
    buffers already there stay as they are, in their order, and at most
    one is added behind them, whose bytes are all unwritten and begin
    with the type, the length of what follows the fixed header, and the
    id in the width in use. *)
Theorem usbredirparser_queue_keeps_invariants type id th d dl p :
  write_invariants p -> 0 <= dl ->
  usbredirparser_get_header_len p
  + usbredirparser_get_type_header_len p (to_int type) true + dl < 2 ^ 31 ->
  let p' := usbredirparser_queue dm type id th d dl p in
  write_invariants p'
  /\ (write_buf p' = write_buf p
      \/ exists wbuf,
           write_buf p' = write_buf p ++ [wbuf]
           /\ unwritten wbuf = buf wbuf
           /\ firstn (Z.to_nat (usbredirparser_get_header_len p))
                (buf wbuf)
              = store32 type
                ++ store32 (to_uint
                              (usbredirparser_get_type_header_len p
                                 (to_int type) true + dl))
                ++ (if usbredirparser_using_32bits_ids p
                    then store32 id else store64 id)).
Proof.
  exact (usbredirparser_queue_tail type id th d dl p).
Qed.

(** What [usbredirparser_do_read] does to the flags, the capabilities
    and the write queue, it does in [usbredirparser_handle_hello] and in
    queuing the acknowledgement of a device_disconnect. *)
Lemma usbredirparser_do_read_slow_fields
    (R : Z -> Z -> list Z -> list Z -> Z -> list usbredirparser_buf -> Z
         -> Prop) :
  let P q := R (flags q) (have_peer_caps q) (our_caps q) (peer_caps q)
               (write_buf_count q) (write_buf q) (write_buf_total_size q) in
  (forall q hello d dl,
      P q -> P (usbredirparser_handle_hello dm hello d dl q)) ->
  (forall q,
      P q ->
      P (usbredirparser_queue dm
           (to_uint (packet_type_value usb_redir_device_disconnect_ack))
           0 [] None 0 q)) ->
  forall p, P p -> P (snd (usbredirparser_do_read dm p)).
Proof.
  intros P Hhello Hack p HP.
  assert (Hcall : forall q, P q -> P (usbredirparser_call_type_func dm q)).
  { intros q Hq. unfold usbredirparser_call_type_func.
    destruct (packet_type_of _) as [t|]; [|exact Hq].
    destruct t; try exact Hq.
    - apply Hhello. exact Hq.
    - destruct (negb _); [apply Hack|]; exact Hq.
    - destruct (usbredirfilter_string_to_rules _ _ _ _) as [r rules].
      destruct (negb _); exact Hq. }
  assert (Hcomplete : forall q, P q ->
            match do_read_packet_complete dm q with
            | loop_continue _ p' | loop_return _ p' => P p'
            end).
  { intros q Hq. unfold do_read_packet_complete.
    destruct (usbredirparser_verify_type_header _ _ _ _ _ _) as [r hdr].
    assert (Hq' : P (if negb (r =? 0)
                     then usbredirparser_call_type_func dm
                            (set_type_header hdr q)
                     else set_type_header hdr q)).
    { destruct (negb (r =? 0)); [apply Hcall|]; exact Hq. }
    destruct (r =? 0); exact Hq'. }
  assert (Hturn : forall header_len q, P q ->
            match do_read_turn dm header_len q with
            | loop_continue _ p' | loop_return _ p' => P p'
            end).
  { intros header_len q0 Hq0.
    assert (Haccount : forall r q, P q ->
              match do_read_account dm header_len r q with
              | loop_continue _ p' | loop_return _ p' => P p'
              end).
    { intros r q Hq. unfold do_read_account.
      destruct (header_read q <? header_len).
      - match goal with
        | |- context [if ?b then _ else _] => destruct b
        end; [|exact Hq].
        unfold do_read_header_complete, skip_packet.
        repeat match goal with
               | |- context [if ?b then _ else _] => destruct b
               end; exact Hq.
      - destruct (type_header_read q <? type_header_len q); [exact Hq|].
        match goal with
        | |- context [if ?b then _ else _] => destruct b
        end; [apply Hcomplete|]; exact Hq. }
    unfold do_read_turn.
    destruct (do_read_dest header_len q0) as [r dest].
    destruct (r >? 0); [|apply Haccount; exact Hq0].
    destruct (read_to dest r q0) as [r' p'] eqn:E.
    assert (Hp' : P p').
    { unfold read_to, read_func in E. injection E as _ <-.
      destruct dest; exact Hq0. }
    destruct (r' <=? 0); [exact Hp' | apply Haccount; exact Hp']. }
  unfold usbredirparser_do_read.
  pose proof (skip_loop_invariant P
                ltac:(intros ? ? Hq; exact Hq)
                ltac:(intros ? ? Hq; exact Hq) p HP) as Hskip.
  destruct (skip_loop p) as [[r|] p1]; [exact Hskip|].
  apply (do_read_loop_invariant dm P Hturn). exact Hskip.
Qed.

Lemma usbredirparser_queue_ack_invariants q :
  write_invariants q ->
  write_invariants
    (usbredirparser_queue dm
       (to_uint (packet_type_value usb_redir_device_disconnect_ack))
       0 [] None 0 q).
Proof.
  intros Hq.
  apply (usbredirparser_queue_tail _ 0 [] None 0 q Hq); [lia|].
  assert (Hthl : usbredirparser_get_type_header_len q
                   (to_int (to_uint (packet_type_value
                                       usb_redir_device_disconnect_ack)))
                   true <= 0).
  { unfold usbredirparser_get_type_header_len.
    rewrite to_int_to_uint by apply packet_type_value_int.
    rewrite packet_type_of_value.
    destruct (command_for_host q true); lia. }
  assert (Hhl : usbredirparser_get_header_len q <= 16).
  { unfold usbredirparser_get_header_len.
    destruct (usbredirparser_using_32bits_ids q); cbv; discriminate. }
  lia.
Qed.

Lemma unserialize_data_alloc state remain b l state' remain' :
  unserialize_data dm state remain None 0 = Some (b, l, state', remain') ->
  0 <= l <= remain - 4
  /\ Z.of_nat (length (match b with Some d => d | None => [] end)) = l.
Proof.
  unfold unserialize_data.
  destruct (remain <? 4); [discriminate|].
  destruct (remain - 4 <? load32 0 state) eqn:E; [discriminate|].
  apply Z.ltb_ge in E.
  pose proof (load32_range 0 state) as Hr.
  destruct (load32 0 state >? 0) eqn:Hpos.
  - destruct (malloc dm _); [|discriminate].
    intros [= <- <- _ _]. split; [lia|].
    rewrite memcpy_head, take_bytes_length, length_app, take_bytes_length,
      length_skipn, repeat_length. lia.
  - destruct (0 <? load32 0 state); [discriminate|].
    intros [= <- <- _ _]. cbn [length].
    rewrite Z.gtb_ltb in Hpos. apply Z.ltb_ge in Hpos. lia.
Qed.

Lemma unserialize_write_bufs_invariants :
  forall i state remain p,
    remain < 2 ^ 31 -> write_invariants p ->
    write_invariants (snd (unserialize_write_bufs dm i state remain p)).
Proof.
  intros i state remain p.
  remember (Z.to_nat remain) as n eqn:Hn.
  revert i state remain p Hn.
  induction n as [n IH] using lt_wf_ind.
  intros i state remain p Hn Hmax Hinv.
  rewrite unserialize_write_bufs_eq.
  destruct (i =? 0); [destruct (negb _); exact Hinv|].
  destruct (unserialize_data dm state remain None 0)
    as [[[[b l] state'] remain']|] eqn:E; [|exact Hinv].
  destruct (l =? 0) eqn:Hl; [exact Hinv|].
  apply Z.eqb_neq in Hl.
  pose proof (unserialize_data_alloc _ _ _ _ _ _ E) as [Hrange Hlen].
  assert (Hrem : remain' = remain - 4 - l).
  { unfold unserialize_data in E.
    destruct (remain <? 4); [discriminate|].
    destruct (remain - 4 <? load32 0 state); [discriminate|].
    cbn in E.
    destruct (load32 0 state >? 0); [destruct (malloc _ _)|];
      try discriminate; try (destruct (0 <? load32 0 state); [discriminate|]);
      injection E as _ <- _ <-; reflexivity. }
  apply (IH (Z.to_nat remain')); [lia | reflexivity | lia |].
  destruct Hinv as (Hok & Hcount & Htotal).
  rewrite (to_int_small l) by lia.
  split; [|split].
  - cbn [write_buf set_write_buf]. apply Forall_app. split; [exact Hok|].
    constructor; [|constructor].
    unfold write_buf_ok. cbn [pos len buf]. lia.
  - cbn [write_buf set_write_buf write_buf_count].
    rewrite Hcount, to_int_add_l, length_app. f_equal. cbn [length]. lia.
  - cbn [write_buf set_write_buf write_buf_total_size].
    rewrite Htotal, to_uint64_add_l. f_equal.
    rewrite map_app, fold_right_app. cbn [map fold_right len].
    apply fold_right_add_acc.
Qed.

Lemma unserialize_int_remain state remain v state' remain' :
  unserialize_int state remain = Some (v, state', remain') ->
  remain' <= remain.
Proof.
  unfold unserialize_int. destruct (remain <? 4); [discriminate|].
  intros [= _ _ <-]. lia.
Qed.

Lemma unserialize_data_remain state remain d l d' i state' remain' :
  unserialize_data dm state remain d l = Some (d', i, state', remain') ->
  remain' <= remain.
Proof.
  unfold unserialize_data.
  destruct (remain <? 4); [discriminate|].
  destruct (remain - 4 <? load32 0 state); [discriminate|].
  pose proof (load32_range 0 state) as Hr.
  destruct d as [d|].
  - destruct (l <? load32 0 state); [discriminate|].
    intros [= _ _ _ <-]. lia.
  - destruct (load32 0 state >? 0).
    + destruct (malloc dm _); [|discriminate]. intros [= _ _ _ <-]. lia.
    + destruct (l <? load32 0 state); [discriminate|].
      intros [= _ _ _ <-]. lia.
Qed.

(** Case analysis along the steps of [usbredirparser_unserialize], with
    what each step leaves to read. *)
Ltac unserialize_steps :=
  repeat (cbv beta iota zeta;
          match goal with
          | |- context [match unserialize_data ?m ?s ?r ?d ?l with
                        | _ => _ end] =>
              let E := fresh "E" in
              destruct (unserialize_data m s r d l) as [[[[? ?] ?] ?]|]
                eqn:E; [apply unserialize_data_remain in E|]
          | |- context [match unserialize_int ?s ?r with _ => _ end] =>
              let E := fresh "E" in
              destruct (unserialize_int s r) as [[[? ?] ?]|] eqn:E;
                [apply unserialize_int_remain in E|]
          | |- context [if ?b then _ else _] => destruct b
          | |- context [match ?x with _ => _ end] =>
              lazymatch x with
              | context [unserialize_write_bufs] => fail
              | context [unserialize_packet_data] => fail
              | context [unserialize_packet] => fail
              | _ => destruct x
              end
          end).

Lemma unserialize_packet_data_invariants header_len state remain p :
  remain < 2 ^ 31 -> write_invariants p ->
  write_invariants
    (snd (unserialize_packet_data dm header_len state remain p)).
Proof.
  intros Hmax Hinv. unfold unserialize_packet_data.
  unserialize_steps; try exact Hinv.
  all: apply unserialize_write_bufs_invariants; [lia | exact Hinv].
Qed.

Lemma unserialize_packet_invariants state remain p :
  remain < 2 ^ 31 -> write_invariants p ->
  write_invariants (snd (unserialize_packet dm state remain p)).
Proof.
  intros Hmax Hinv. unfold unserialize_packet.
  unserialize_steps; try exact Hinv.
  all: apply unserialize_packet_data_invariants; [lia | exact Hinv].
Qed.

Lemma usbredirparser_unserialize_invariants state len p :
  0 <= len < 2 ^ 31 -> write_invariants p ->
  write_invariants (snd (usbredirparser_unserialize dm state len p)).
Proof.
  intros Hlen Hinv. unfold usbredirparser_unserialize.
  assert (Hrem : to_uint len < 2 ^ 31)
    by (unfold to_uint; rewrite Z.mod_small; lia).
  revert Hrem. generalize (to_uint len) at 1 2. intros remain Hrem.
  unserialize_steps; try exact Hinv.
  all: apply unserialize_packet_invariants; [lia | exact Hinv].
Qed.

Lemma usbredirparser_do_read_invariants p :
  write_invariants p ->
  write_invariants (snd (usbredirparser_do_read dm p)).
Proof.
  apply (usbredirparser_do_read_slow_fields
           (fun _ _ _ _ c b t =>
              Forall write_buf_ok b
              /\ c = to_int (Z.of_nat (length b))
              /\ t = to_uint64 (fold_right Z.add 0 (map len b)))).
  - intros q hello d dl Hq. unfold usbredirparser_handle_hello.
    destruct (negb _); exact Hq.
  - intros q Hq. apply usbredirparser_queue_ack_invariants. exact Hq.
Qed.

(** X10.  The queue invariants that [usbredirparser_assert_invariants]
    asserts hold in every state a run of the parser gets to: each write
    buffer has [0 <= pos <= len], [write_buf_count] is the number of
    buffers queued and [write_buf_total_size] the sum of their lengths.
    So [usbredirparser_has_data_to_write] is [0] exactly when nothing is
    queued. *)
Theorem parser_run_write_invariants p :
  sizeof_usb_redir_hello_header + USB_REDIR_CAPS_SIZE * 4 < 2 ^ 31 - 16 ->
  parser_run dm p ->
  write_invariants p
  /\ (Z.of_nat (length (write_buf p)) < 2 ^ 31 ->
      (usbredirparser_has_data_to_write p = 0 <-> write_buf p = [])).
Proof.
  intros Hhello Hrun.
  assert (Hinv : write_invariants p).
  { induction Hrun as [version caps caps_len flags_in transport
                      | bytes p _ IH | p _ IH
                      | type id th d dl p _ IH Hdl Hsize
                      | rooms p r p' written _ IH Hw
                      | state len p _ IH Hlen].
    - unfold usbredirparser_init. cbv zeta.
      match goal with
      | |- context [if ?b then usbredirparser_queue _ ?t ?i ?th ?d ?dl ?q
                    else _] =>
          assert (Hq : write_invariants q)
            by (repeat match goal with
                       | |- context [if ?c then _ else _] => destruct c
                       end; (split; [constructor | split; reflexivity]));
          destruct b; [|exact Hq];
          apply (usbredirparser_queue_tail t i th d dl q Hq)
      end.
      + pose proof USB_REDIR_CAPS_SIZE_pos. lia.
      + match goal with
        | |- usbredirparser_get_header_len ?q + ?thl + _ < _ =>
            assert (Hhl : usbredirparser_get_header_len q <= 16)
              by (unfold usbredirparser_get_header_len;
                  destruct (usbredirparser_using_32bits_ids q); cbv;
                  discriminate);
            assert (Hthl : thl <= sizeof_usb_redir_hello_header)
        end.
        { unfold usbredirparser_get_type_header_len.
          rewrite to_int_to_uint by apply packet_type_value_int.
          rewrite packet_type_of_value. lia. }
        lia.
    - exact IH.
    - apply usbredirparser_do_read_invariants. exact IH.
    - apply (usbredirparser_queue_tail type id th d dl p IH Hdl Hsize).
    - apply (do_write_loop_keeps rooms p [] r p' written IH Hw).
    - apply usbredirparser_unserialize_invariants; assumption. }
  split; [exact Hinv|].
  intros Hlen. unfold usbredirparser_has_data_to_write.
  destruct Hinv as (_ & Hcount & _). rewrite Hcount.
  rewrite to_int_small by lia.
  destruct (write_buf p); cbn [length]; split;
    intros E; try reflexivity; try discriminate; lia.
Qed.

End ParserQueue.

(** X11.  [usbredirparser_do_write] loses, repeats and reorders nothing:
    what the callback has been handed, followed by what is still queued,
    is what was queued before the call.  The value the call returns is not
    positive, the call touches nothing but the queue, and it keeps the
    queue invariants of [usbredirparser_assert_invariants]. *)
Theorem usbredirparser_do_write_conserves rooms p r p' out :
  write_invariants p ->
  usbredirparser_do_write rooms p = Some (r, p', out) ->
  r <= 0
  /\ out ++ flat_map unwritten (write_buf p')
     = flat_map unwritten (write_buf p)
  /\ write_invariants p'
  /\ exists count bufs total, p' = set_write_buf count bufs total p.
Proof.
  intros Hinv Hw.
  exact (do_write_loop_keeps rooms p [] r p' out Hinv Hw).
Qed.

Lemma do_write_loop_drains bufs :
  forall rooms p written,
    write_buf p = bufs -> write_invariants p ->
    Forall (fun wbuf => pos wbuf < len wbuf) bufs ->
    Z.land (flags p) usbredirparser_fl_write_cb_owns_buffer = 0
    \/ Forall (fun wbuf => pos wbuf = 0) bufs ->
    Forall (fun room => 2 ^ 31 <= room) rooms ->
    (length bufs <= length rooms)%nat ->
    do_write_loop rooms p written
    = Some (0, set_write_buf 0 [] 0 p, written ++ flat_map unwritten bufs).
Proof.
  induction bufs as [|wbuf next IH];
    intros rooms p written E Hinv Hne Hmode Hrooms Hlen.
  - destruct Hinv as (_ & Hcount & Htotal). rewrite E in Hcount, Htotal.
    destruct rooms; cbn [do_write_loop]; rewrite E; cbn [flat_map];
      rewrite app_nil_r; do 3 f_equal;
      destruct p; cbn in *; subst; reflexivity.
  - destruct rooms as [|room rooms]; [cbn in Hlen; lia|].
    cbn [do_write_loop]. rewrite E. cbv zeta.
    pose proof Hinv as (Hok & Hcount & Htotal).
    rewrite E in Hok, Hcount, Htotal.
    apply Forall_cons_iff in Hok as [(Hpos & Hl & Hbuf) Hnext].
    apply Forall_cons_iff in Hne as [Hlt Hne].
    apply Forall_cons_iff in Hrooms as [Hroom Hrooms].
    rewrite to_int_small by lia.
    unfold write_func.
    replace (room <=? 0) with false by (symmetry; apply Z.leb_gt; lia).
    rewrite Z.min_r by lia.
    replace (len wbuf - pos wbuf <=? 0) with false
      by (symmetry; apply Z.leb_gt; lia).
    assert (Hwhole : (negb (Z.land (flags p)
                              usbredirparser_fl_write_cb_owns_buffer =? 0)
                      && negb (len wbuf - pos wbuf =? len wbuf)) = false).
    { destruct Hmode as [Hflag | Hzero].
      - rewrite Hflag. reflexivity.
      - apply Forall_cons_iff in Hzero as [Hz _]. rewrite Hz, Z.sub_0_r.
        rewrite Z.eqb_refl. apply andb_false_r. }
    rewrite Hwhole.
    replace (pos wbuf + (len wbuf - pos wbuf)) with (len wbuf) by lia.
    rewrite to_int_small by lia. rewrite Z.eqb_refl.
    rewrite IH; [| reflexivity | | | | |].
    + cbn [flat_map]. rewrite <- app_assoc. reflexivity.
    + split; [exact Hnext|].
      cbn [write_buf set_write_buf write_buf_count write_buf_total_size].
      split.
      * rewrite Hcount, to_int_sub_l. f_equal. cbn [length]. lia.
      * rewrite Htotal, to_uint64_sub_l. f_equal.
        cbn [map fold_right]. lia.
    + exact Hne.
    + destruct Hmode as [Hflag | Hzero]; [left; exact Hflag|].
      right. apply Forall_cons_iff in Hzero as [_ Hz]. exact Hz.
    + exact Hrooms.
    + cbn [length] in Hlen. lia.
Qed.

(** X12.  When the callback takes whatever it is offered, one call of
    [usbredirparser_do_write] empties the queue: it returns [0], the
    callback has been handed the unwritten bytes of every buffer in queue
    order, and afterwards [usbredirparser_has_data_to_write] and
    [usbredirparser_get_bufferered_output_size] are both [0]. *)
Theorem usbredirparser_do_write_drains rooms p :
  write_invariants p ->
  Forall (fun wbuf => pos wbuf < len wbuf) (write_buf p) ->
  Z.land (flags p) usbredirparser_fl_write_cb_owns_buffer = 0
  \/ Forall (fun wbuf => pos wbuf = 0) (write_buf p) ->
  Forall (fun room => 2 ^ 31 <= room) rooms ->
  (length (write_buf p) <= length rooms)%nat ->
  exists p',
    usbredirparser_do_write rooms p
    = Some (0, p', flat_map unwritten (write_buf p))
    /\ write_buf p' = []
    /\ usbredirparser_has_data_to_write p' = 0
    /\ usbredirparser_get_bufferered_output_size p' = 0.
Proof.
  intros Hinv Hne Hmode Hrooms Hlen.
  exists (set_write_buf 0 [] 0 p). split; [|repeat split; reflexivity].
  unfold usbredirparser_do_write.
  rewrite (do_write_loop_drains (write_buf p) rooms p [] eq_refl Hinv Hne
             Hmode Hrooms Hlen).
  reflexivity.
Qed.

End ParserWritingProperties.

(* --------------------------------------------------------------------- *)
(** ** usbredirparser.c: the width of the id                              *)
(* --------------------------------------------------------------------- *)

Section ParserIdWidth.
Context `{usbredirproto_h} `{usbredirparser_h}.
Variable dm : data_model.


End ParserIdWidth.


(* --------------------------------------------------------------------- *)
(** ** usbredirparser.c: the serialized state                             *)
(* --------------------------------------------------------------------- *)

Section ParserState.
Context `{usbredirproto_h} `{usbredirparser_h}.
Variable dm : data_model.

Lemma to_uint_add_l a b : to_uint (to_uint a + b) = to_uint (a + b).
Proof.
  unfold to_uint. apply Zplus_mod_idemp_l.
Qed.

Lemma to_uint_small v : 0 <= v < 2 ^ 32 -> to_uint v = v.
Proof.
  intros Hv. unfold to_uint. apply Z.mod_small. exact Hv.
Qed.

(** [unserialize_int] and [unserialize_data] read back what
    [serialize_int] and [serialize_data] have written. *)
Lemma unserialize_int_store32 v rest remain :
  0 <= v < 2 ^ 32 -> 4 <= remain ->
  unserialize_int (store32 v ++ rest) remain = Some (v, rest, remain - 4).
Proof.
  intros Hv Hrem. unfold unserialize_int.
  destruct (remain <? 4) eqn:E; [apply Z.ltb_lt in E; lia|].
  rewrite load32_store32, Z.mod_small by exact Hv. reflexivity.
Qed.

Lemma take_bytes_app l d rest :
  Z.of_nat (length d) = l -> take_bytes l (d ++ rest) = d.
Proof.
  intros Hl. unfold take_bytes. rewrite <- app_assoc.
  replace (Z.to_nat l) with (length d + 0)%nat by lia.
  rewrite firstn_app_2. cbn [firstn]. apply app_nil_r.
Qed.

Lemma skipn_app_length {A} (d rest : list A) n :
  n = length d -> skipn n (d ++ rest) = rest.
Proof.
  intros ->. induction d as [|x d IH]; [reflexivity | exact IH].
Qed.

Lemma malloc_small size : 0 <= size < 2 ^ 31 -> malloc dm size = true.
Proof.
  intros Hs. unfold malloc, to_size_t, PTRDIFF_MAX. apply Z.leb_le.
  destruct dm; cbn [LONG_BITS]; rewrite Z.mod_small; lia.
Qed.

Lemma unserialize_data_store l d rest remain d0 lmax :
  0 <= l < 2 ^ 32 -> Z.of_nat (length d) = l -> l <= lmax ->
  4 + l <= remain ->
  unserialize_data dm (store32 l ++ d ++ rest) remain (Some d0) lmax
  = Some (Some (memcpy d0 0 d), l, rest, remain - 4 - l).
Proof.
  intros Hl Hd Hmax Hrem. unfold unserialize_data.
  destruct (remain <? 4) eqn:E; [apply Z.ltb_lt in E; lia|].
  rewrite load32_store32, Z.mod_small by exact Hl.
  change (skipn 4 (store32 l ++ d ++ rest)) with (d ++ rest).
  destruct (remain - 4 <? l) eqn:E1; [apply Z.ltb_lt in E1; lia|].
  destruct (lmax <? l) eqn:E2; [apply Z.ltb_lt in E2; lia|].
  rewrite take_bytes_app by exact Hd.
  rewrite skipn_app_length by lia. reflexivity.
Qed.

Lemma unserialize_data_store_none rest remain :
  4 <= remain ->
  unserialize_data dm (store32 0 ++ rest) remain None 0
  = Some (None, 0, rest, remain - 4).
Proof.
  intros Hrem. unfold unserialize_data.
  destruct (remain <? 4) eqn:E; [apply Z.ltb_lt in E; lia|].
  rewrite load32_store32.
  change (0 mod 2 ^ 32) with 0. cbv beta iota zeta.
  change (0 >? 0) with false. change (0 <? 0) with false.
  destruct (remain - 4 <? 0) eqn:E1; [apply Z.ltb_lt in E1; lia|].
  cbv beta iota. change (skipn 4 (store32 0 ++ rest)) with rest.
  rewrite Z.sub_0_r. reflexivity.
Qed.

Lemma unserialize_data_store_alloc l d rest remain :
  0 < l < 2 ^ 31 -> Z.of_nat (length d) = l -> 4 + l <= remain ->
  unserialize_data dm (store32 l ++ d ++ rest) remain None 0
  = Some (Some d, l, rest, remain - 4 - l).
Proof.
  intros Hl Hd Hrem. unfold unserialize_data.
  destruct (remain <? 4) eqn:E; [apply Z.ltb_lt in E; lia|].
  rewrite load32_store32, Z.mod_small by lia.
  change (skipn 4 (store32 l ++ d ++ rest)) with (d ++ rest).
  destruct (remain - 4 <? l) eqn:E1; [apply Z.ltb_lt in E1; lia|].
  destruct (l >? 0) eqn:E2; [|rewrite Z.gtb_ltb in E2; apply Z.ltb_ge in E2; lia].
  rewrite malloc_small by lia.
  rewrite take_bytes_app by exact Hd.
  rewrite skipn_app_length by lia.
  rewrite memcpy_head, skipn_all2 by (rewrite repeat_length; lia).
  rewrite app_nil_r. reflexivity.
Qed.


(** The loop over the write buffers in [usbredirparser_serialize]. *)
Lemma serialize_write_bufs_fold bufs :
  forall state count,
    fold_left
      (fun '(state, write_buf_count) wbuf =>
         (serialize_data (skipn (Z.to_nat (pos wbuf)) (buf wbuf))
            (to_uint (len wbuf - pos wbuf)) state,
          to_uint (write_buf_count + 1)))
      bufs (state, to_uint count)
    = (state ++ flat_map serialized_buf bufs,
       to_uint (count + Z.of_nat (length bufs))).
Proof.
  induction bufs as [|wbuf bufs IH]; intros state count.
  - cbn [fold_left flat_map length]. rewrite app_nil_r, Z.add_0_r.
    reflexivity.
  - cbn [fold_left flat_map]. rewrite to_uint_add_l, IH.
    unfold serialize_data. rewrite <- app_assoc. f_equal.
    f_equal. cbn [length]. lia.
Qed.

Lemma serialize_write_bufs_flat bufs state :
  serialize_write_bufs bufs state
  = (state ++ flat_map serialized_buf bufs,
     to_uint (Z.of_nat (length bufs))).
Proof.
  unfold serialize_write_bufs.
  change (state, 0) with (state, to_uint 0).
  apply serialize_write_bufs_fold.
Qed.

(** Patching a word in place. *)
Lemma memcpy_patch a b v w :
  memcpy (a ++ store32 v ++ b) (Z.of_nat (length a)) (store32 w)
  = a ++ store32 w ++ b.
Proof.
  unfold memcpy. rewrite Nat2Z.id.
  rewrite firstn_app, firstn_all, Nat.sub_diag. cbn [firstn].
  rewrite app_nil_r. f_equal. f_equal.
  change (length (store32 w)) with 4%nat.
  rewrite skipn_app, skipn_all2 by lia.
  replace (length a + 4 - length a)%nat with 4%nat by lia.
  reflexivity.
Qed.

Lemma memcpy_patch_4 m b v w :
  memcpy (store32 m ++ store32 v ++ b) 4 (store32 w)
  = store32 m ++ store32 w ++ b.
Proof.
  exact (memcpy_patch (store32 m) b v w).
Qed.

Lemma write_buf_ok_unwritten wbuf :
  write_buf_ok wbuf ->
  to_uint (len wbuf - pos wbuf) = len wbuf - pos wbuf
  /\ take_bytes (len wbuf - pos wbuf)
       (skipn (Z.to_nat (pos wbuf)) (buf wbuf)) = unwritten wbuf
  /\ Z.of_nat (length (unwritten wbuf)) = len wbuf - pos wbuf.
Proof.
  intros (Hpos & Hlen & Hbuf).
  assert (Hl : Z.of_nat (length (unwritten wbuf)) = len wbuf - pos wbuf).
  { unfold unwritten. rewrite length_firstn, length_skipn. lia. }
  split; [apply to_uint_small; lia|]. split; [|exact Hl].
  unfold unwritten, take_bytes.
  rewrite firstn_app.
  replace (Z.to_nat (len wbuf - pos wbuf)
           - length (skipn (Z.to_nat (pos wbuf)) (buf wbuf)))%nat
    with 0%nat by (rewrite length_skipn; lia).
  cbn [firstn]. apply app_nil_r.
Qed.

(** The loop over the write buffers in [usbredirparser_unserialize], on
    what the loop of [usbredirparser_serialize] has written. *)
Lemma unserialize_write_bufs_flat bufs :
  forall p,
    Forall write_buf_ok bufs ->
    Forall (fun wbuf => pos wbuf < len wbuf) bufs ->
    Z.of_nat (length bufs) < 2 ^ 32 ->
    exists count total,
      unserialize_write_bufs dm (Z.of_nat (length bufs))
        (flat_map serialized_buf bufs)
        (Z.of_nat (length (flat_map serialized_buf bufs))) p
      = (0, set_write_buf count (write_buf p ++ map restored bufs) total p).
Proof.
  induction bufs as [|wbuf bufs IH]; intros p Hok Hne Hcount.
  - exists (write_buf_count p), (write_buf_total_size p).
    rewrite unserialize_write_bufs_eq. cbn. rewrite app_nil_r.
    destruct p; reflexivity.
  - inversion Hok as [|? ? Hw Hok']; subst.
    inversion Hne as [|? ? Hw1 Hne']; subst.
    destruct (write_buf_ok_unwritten wbuf Hw) as (Hu & Htake & Hlen).
    pose proof Hw as (Hpos & Hmax & _).
    rewrite unserialize_write_bufs_eq. cbn [length] in Hcount.
    destruct (Z.of_nat (length (wbuf :: bufs)) =? 0) eqn:E;
      [apply Z.eqb_eq in E; cbn [length] in E; lia|].
    cbn [flat_map]. unfold serialized_buf at 1 3.
    rewrite Hu, Htake, <- app_assoc.
    rewrite unserialize_data_store_alloc;
      [| lia | exact Hlen | rewrite !length_app, length_store32; lia].
    destruct (len wbuf - pos wbuf =? 0) eqn:E0;
      [apply Z.eqb_eq in E0; lia|].
    replace (to_uint (Z.of_nat (length (wbuf :: bufs)) - 1))
      with (Z.of_nat (length bufs))
      by (cbn [length]; rewrite to_uint_small; lia).
    replace (Z.of_nat
               (length
                  (store32 (len wbuf - pos wbuf)
                   ++ unwritten wbuf ++ flat_map serialized_buf bufs))
             - 4 - (len wbuf - pos wbuf))
      with (Z.of_nat (length (flat_map serialized_buf bufs)))
      by (rewrite !length_app, length_store32; lia).
    edestruct (IH (set_write_buf (to_int (write_buf_count p + 1))
                     (write_buf p
                      ++ [mk_buf (unwritten wbuf) 0
                            (to_int (len wbuf - pos wbuf))])
                     (to_uint64
                        (write_buf_total_size p
                         + to_int (len wbuf - pos wbuf))) p) Hok' Hne')
      as (count & total & ->); [lia|].
    exists count, total. f_equal.
    rewrite (to_int_small (len wbuf - pos wbuf)) by lia.
    destruct p; cbn. rewrite <- app_assoc. reflexivity.
Qed.


Lemma bytes_words_behind_word n :
  forall off v bs,
    bytes_words n (4 + off) (store32 v ++ bs) = bytes_words n off bs.
Proof.
  induction n as [|n IH]; intros off v bs; [reflexivity|].
  cbn [bytes_words]. rewrite load32_behind_word. f_equal.
  apply (IH (off + 4)%nat).
Qed.

Lemma bytes_words_words_bytes ws rest :
  Forall (fun w => 0 <= w < 2 ^ 32) ws ->
  bytes_words (length ws) 0 (words_bytes ws ++ rest) = ws.
Proof.
  induction 1 as [|w ws Hw _ IH]; [reflexivity|].
  cbn [length bytes_words]. unfold words_bytes. cbn [flat_map].
  rewrite <- app_assoc, load32_store32, Z.mod_small by exact Hw.
  f_equal. change (0 + 4)%nat with (4 + 0)%nat.
  rewrite bytes_words_behind_word. exact IH.
Qed.

Lemma length_words_bytes ws :
  length (words_bytes ws) = (4 * length ws)%nat.
Proof.
  induction ws as [|w ws IH]; [reflexivity|].
  unfold words_bytes in *. cbn [flat_map]. rewrite length_app, IH.
  change (length (store32 w)) with 4%nat. cbn [length]. lia.
Qed.

Lemma take_bytes_all l d : Z.of_nat (length d) = l -> take_bytes l d = d.
Proof.
  intros Hl. rewrite <- (app_nil_r d) at 1. apply take_bytes_app, Hl.
Qed.

Lemma take_bytes_0 d : take_bytes 0 d = [].
Proof. reflexivity. Qed.

Lemma caps_array_bytes caps :
  caps_array caps ->
  Z.of_nat (length (words_bytes caps)) = USB_REDIR_CAPS_SIZE * 4.
Proof.
  intros [Hlen _]. rewrite length_words_bytes. lia.
Qed.

(** The serialized state of a parser between two packets. *)
Lemma usbredirparser_serialize_idle P :
  header_read P = 0 -> type_header_read P = 0 -> data_read P = 0 ->
  caps_array (our_caps P) -> caps_array (peer_caps P) ->
  let total := to_uint (8 + Z.of_nat (length (serialized_body P))) in
  usbredirparser_serialize P
  = (0,
     store32 USBREDIRPARSER_SERIALIZE_MAGIC ++ store32 total
     ++ serialized_body P,
     to_int total).
Proof.
  intros Hhr Htr Hdr Hours Hpeer total.
  unfold usbredirparser_serialize, serialize_int, serialize_data.
  rewrite Hhr, Htr, Hdr. change (to_uint 0) with 0.
  rewrite !take_bytes_0.
  rewrite !take_bytes_all by (apply caps_array_bytes; assumption).
  cbv zeta. rewrite serialize_write_bufs_flat. cbv beta iota.
  match goal with
  | |- context [memcpy _ (Z.of_nat (length ?a)) _] => set (A := a)
  end.
  rewrite <- (app_assoc A), memcpy_patch.
  assert (HA : A = store32 USBREDIRPARSER_SERIALIZE_MAGIC ++ store32 0
                   ++ (store32 (USB_REDIR_CAPS_SIZE * 4)
                       ++ words_bytes (our_caps P))
                   ++ (if have_peer_caps P =? 0 then store32 0
                       else store32 (USB_REDIR_CAPS_SIZE * 4)
                            ++ words_bytes (peer_caps P))
                   ++ store32 (to_uint (to_skip P))
                   ++ store32 0 ++ store32 0 ++ store32 0).
  { subst A. destruct (have_peer_caps P =? 0); cbn [negb app];
      rewrite <- ?app_assoc, ?app_nil_r; reflexivity. }
  rewrite HA. clear HA A.
  rewrite <- !app_assoc.
  rewrite memcpy_patch_4.
  unfold total, serialized_body. rewrite <- !app_assoc.
  match goal with
  | |- context [length (store32 USBREDIRPARSER_SERIALIZE_MAGIC
                        ++ store32 0 ++ ?x)] => set (X := x)
  end.
  replace (Z.of_nat (length (store32 USBREDIRPARSER_SERIALIZE_MAGIC
                             ++ store32 0 ++ X)))
    with (8 + Z.of_nat (length X))
    by (rewrite !length_app;
        change (length (store32 USBREDIRPARSER_SERIALIZE_MAGIC)) with 4%nat;
        change (length (store32 0)) with 4%nat; lia).
  reflexivity.
Qed.


Lemma length_serialized_body P :
  caps_array (our_caps P) -> caps_array (peer_caps P) ->
  Z.of_nat (length (serialized_body P))
  = 4 + USB_REDIR_CAPS_SIZE * 4
    + (if have_peer_caps P =? 0 then 4 else 4 + USB_REDIR_CAPS_SIZE * 4)
    + 20 + Z.of_nat (length (flat_map serialized_buf (write_buf P))).
Proof.
  intros Hours Hpeer. unfold serialized_body.
  apply caps_array_bytes in Hours, Hpeer.
  destruct (have_peer_caps P =? 0); rewrite !length_app;
    repeat match goal with
           | |- context [length (store32 ?v)] =>
               change (length (store32 v)) with 4%nat
           end; lia.
Qed.

(** Field updates of the parser record, unfolded. *)
Ltac parser_record :=
  unfold set_flags, set_have_peer_caps, set_our_caps, set_peer_caps,
    set_header, set_type_header, set_header_read, set_type_header_len,
    set_type_header_read, set_data, set_data_len, set_data_read,
    set_to_skip, set_write_buf, set_callb, set_read_input in *;
  cbn [flags have_peer_caps our_caps peer_caps header type_header
       header_read type_header_len type_header_read data data_len
       data_read to_skip write_buf_count write_buf write_buf_total_size
       callb read_input] in *.

(** [usbredirparser_unserialize] from the packet data, from the fixed
    header, and from [to_skip] on, for a state without a packet in
    progress. *)
Lemma unserialize_packet_data_idle header_len bufs p :
  type_header_read p = 0 -> type_header_len p = 0 -> header_length p = 0 ->
  data p = None -> header_read p = 0 -> 0 < header_len ->
  Forall write_buf_ok bufs ->
  Forall (fun wbuf => pos wbuf < len wbuf) bufs ->
  Z.of_nat (length bufs) < 2 ^ 32 ->
  let state :=
    store32 0 ++ store32 (to_uint (Z.of_nat (length bufs)))
    ++ flat_map serialized_buf bufs in
  exists count total,
    unserialize_packet_data dm header_len state (Z.of_nat (length state)) p
    = (0, set_write_buf count (write_buf p ++ map restored bufs) total
            (set_data_len 0 p)).
Proof.
  intros Hthr Hthl Hlen Hdata Hhr Hhl Hok Hne Hcount state.
  unfold header_length in Hlen.
  destruct p. parser_record. subst.
  unfold unserialize_packet_data, header_length. parser_record.
  rewrite Hlen. change (to_int (0 - 0)) with 0.
  cbn [Z.eqb negb]. parser_record.
  change (to_uint 0) with 0. change (0 >? 0) with false.
  rewrite andb_false_r.
  assert (Hflat : Z.of_nat (length state)
                  = 8 + Z.of_nat (length (flat_map serialized_buf bufs))).
  { subst state. rewrite !length_app.
    repeat match goal with
           | |- context [length (store32 ?v)] =>
               change (length (store32 v)) with 4%nat
           end. lia. }
  subst state.
  rewrite unserialize_data_store_none by lia.
  rewrite unserialize_int_store32;
    [| unfold to_uint; apply Z.mod_pos_bound; lia | lia].
  rewrite (to_uint_small (Z.of_nat (length bufs))) by lia.
  replace (Z.of_nat
             (length
                (store32 0 ++ store32 (Z.of_nat (length bufs))
                 ++ flat_map serialized_buf bufs)) - 4 - 4)
    with (Z.of_nat (length (flat_map serialized_buf bufs)))
    by (rewrite (to_uint_small (Z.of_nat (length bufs))) in Hflat by lia;
        lia).
  match goal with
  | |- context [unserialize_write_bufs _ _ _ _ ?p] =>
      destruct (unserialize_write_bufs_flat bufs p Hok Hne Hcount)
        as (count & total & ->)
  end.
  exists count, total. reflexivity.
Qed.

Lemma unserialize_packet_idle bufs p :
  type_header_read p = 0 -> header_length p = 0 ->
  data p = None -> 
  Forall write_buf_ok bufs ->
  Forall (fun wbuf => pos wbuf < len wbuf) bufs ->
  Z.of_nat (length bufs) < 2 ^ 32 ->
  let state :=
    store32 0 ++ store32 0 ++ store32 0
    ++ store32 (to_uint (Z.of_nat (length bufs)))
    ++ flat_map serialized_buf bufs in
  exists count total,
    unserialize_packet dm state (Z.of_nat (length state)) p
    = (0, set_write_buf count (write_buf p ++ map restored bufs) total
            (set_data_len 0
               (set_type_header_len 0 (set_header_read 0 p)))).
Proof.
  intros Hthr Hlen Hdata Hok Hne Hcount state.
  assert (Hhl : 0 < to_uint (usbredirparser_get_header_len p)
                /\ to_uint (usbredirparser_get_header_len p) < 2 ^ 32).
  { unfold usbredirparser_get_header_len.
    destruct (usbredirparser_using_32bits_ids p); cbv; split; reflexivity. }
  assert (Hflat : Z.of_nat (length state)
                  = 16 + Z.of_nat (length (flat_map serialized_buf bufs))).
  { subst state. rewrite !length_app.
    repeat match goal with
           | |- context [length (store32 ?v)] =>
               change (length (store32 v)) with 4%nat
           end. lia. }
  unfold unserialize_packet. subst state.
  change (store32 0 ++ store32 0 ++ store32 0
          ++ store32 (to_uint (Z.of_nat (length bufs)))
          ++ flat_map serialized_buf bufs)
    with (store32 0 ++ [] ++ store32 0 ++ store32 0
          ++ store32 (to_uint (Z.of_nat (length bufs)))
          ++ flat_map serialized_buf bufs) at 1.
  rewrite unserialize_data_store; [| lia | reflexivity | lia | lia].
  cbv beta iota zeta. rewrite memcpy_nothing.
  set (hl := to_uint (usbredirparser_get_header_len p)) in *.
  set (p1 := set_type_header_len 0
               (set_header_read (to_int 0) (set_header (header p) p))).
  change (header_read p1) with 0. change (to_uint 0) with 0.
  destruct (0 =? hl) eqn:E; [apply Z.eqb_eq in E; lia|].
  change (type_header_len p1) with 0. change (to_uint 0) with 0.
  change (store32 0 ++ store32 0
          ++ store32 (to_uint (Z.of_nat (length bufs)))
          ++ flat_map serialized_buf bufs)
    with (store32 0 ++ [] ++ store32 0
          ++ store32 (to_uint (Z.of_nat (length bufs)))
          ++ flat_map serialized_buf bufs) at 1.
  rewrite unserialize_data_store; [| lia | reflexivity | lia | lia].
  rewrite memcpy_nothing.
  change (header_read (set_type_header (type_header p1) p1)) with 0.
  change (to_uint 0) with 0. rewrite E.
  match goal with
  | |- context [unserialize_packet_data _ _ _ ?r ?p2] =>
      replace r
        with (Z.of_nat
                (length
                   (store32 0 ++ store32 (to_uint (Z.of_nat (length bufs)))
                    ++ flat_map serialized_buf bufs)))
        by (rewrite Hflat, !length_app;
            repeat match goal with
                   | |- context [length (store32 ?v)] =>
                       change (length (store32 v)) with 4%nat
                   end; lia);
      destruct (unserialize_packet_data_idle hl bufs p2)
        as (count & total & ->);
      [exact Hthr | reflexivity | exact Hlen | exact Hdata | reflexivity
      | lia | exact Hok | exact Hne | exact Hcount |]
  end.
  exists count, total. destruct p; reflexivity.
Qed.

Lemma caps_array_restored caps d0 rest :
  caps_array caps ->
  bytes_words (Z.to_nat USB_REDIR_CAPS_SIZE) 0
    (memcpy d0 0 (words_bytes caps) ++ rest) = caps.
Proof.
  intros [Hlen Hrange]. rewrite memcpy_head, <- app_assoc.
  replace (Z.to_nat USB_REDIR_CAPS_SIZE) with (length caps) by lia.
  apply bytes_words_words_bytes, Hrange.
Qed.

Lemma caps_array_words caps :
  caps_array caps ->
  bytes_words (Z.to_nat USB_REDIR_CAPS_SIZE) 0 (words_bytes caps) = caps.
Proof.
  intros [Hlen Hrange].
  replace (Z.to_nat USB_REDIR_CAPS_SIZE) with (length caps) by lia.
  rewrite <- (app_nil_r (words_bytes caps)).
  apply bytes_words_words_bytes, Hrange.
Qed.

Lemma length_flat_serialized bufs :
  Z.of_nat (length bufs)
  <= Z.of_nat (length (flat_map serialized_buf bufs)).
Proof.
  induction bufs as [|w l IH]; [reflexivity|].
  cbn [flat_map length]. unfold serialized_buf at 1.
  rewrite !length_app.
  change (length (store32 (to_uint (len w - pos w)))) with 4%nat.
  lia.
Qed.

Lemma unserialize_skip_idle P p2 remain :
  - 2 ^ 31 <= to_skip P < 2 ^ 31 ->
  Forall write_buf_ok (write_buf P) ->
  Forall (fun wbuf => pos wbuf < len wbuf) (write_buf P) ->
  type_header_read p2 = 0 -> header_length p2 = 0 -> data p2 = None ->
  header_read p2 = 0 -> write_buf p2 = [] ->
  remain = 20 + Z.of_nat (length (flat_map serialized_buf (write_buf P))) ->
  remain < 2 ^ 31 ->
  exists count total_size,
    match
      unserialize_int
        (store32 (to_uint (to_skip P)) ++ store32 0 ++ store32 0
         ++ store32 0
         ++ store32 (to_uint (Z.of_nat (length (write_buf P))))
         ++ flat_map serialized_buf (write_buf P)) remain
    with
    | Some (i, state, remain) =>
        unserialize_packet dm state remain (set_to_skip (to_int i) p2)
    | None => (-1, p2)
    end
    = (0, set_write_buf count (map restored (write_buf P)) total_size
            (set_data_len 0
               (set_type_header_len 0 (set_to_skip (to_skip P) p2)))).
Proof.
  intros Hskip Hok Hne Ht2 Hl2 Hd2 Hh2 Hw2 -> Hmax.
  pose proof (length_flat_serialized (write_buf P)) as Hflat.
  rewrite unserialize_int_store32;
    [| unfold to_uint; apply Z.mod_pos_bound; lia | lia].
  rewrite to_int_to_uint by exact Hskip.
  match goal with
  | |- context [unserialize_packet _ ?st ?r ?p3] =>
      replace r with (Z.of_nat (length st))
        by (rewrite !length_app;
            repeat match goal with
                   | |- context [length (store32 ?v)] =>
                       change (length (store32 v)) with 4%nat
                   end; lia);
      destruct (unserialize_packet_idle (write_buf P) p3)
        as (count & total_size & ->);
      [exact Ht2 | exact Hl2 | exact Hd2 | exact Hok | exact Hne | lia |]
  end.
  exists count, total_size. clear - Hh2 Hw2.
  destruct p2 as [a1 a2 a3 a4 a5 a6 a7 a8 a9 a10 a11 a12 a13 a14 a15 a16
                    a17 a18].
  cbn in Hh2, Hw2. subst a7 a15. reflexivity.
Qed.

Lemma usbredirparser_unserialize_body P q :
  0 <= USBREDIRPARSER_SERIALIZE_MAGIC < 2 ^ 32 ->
  caps_array (our_caps P) -> caps_array (peer_caps P) ->
  - 2 ^ 31 <= to_skip P < 2 ^ 31 ->
  Forall write_buf_ok (write_buf P) ->
  Forall (fun wbuf => pos wbuf < len wbuf) (write_buf P) ->
  pristine q = true -> header_length q = 0 ->
  caps_array (peer_caps q) ->
  caps_mismatch (our_caps P) (our_caps q) = false ->
  let total := 8 + Z.of_nat (length (serialized_body P)) in
  total < 2 ^ 31 ->
  exists count total_size,
    usbredirparser_unserialize dm
      (store32 USBREDIRPARSER_SERIALIZE_MAGIC ++ store32 total
       ++ serialized_body P) total q
    = (0, set_write_buf count (map restored (write_buf P)) total_size
            (set_data_len 0
               (set_type_header_len 0
                  (set_to_skip (to_skip P) (restored_caps P q))))).
Proof.
  intros Hmagic Hours Hpeer Hskip Hok Hne Hpristine Hzero Hpeerq Hcaps total
    Htotal.
  pose proof (length_serialized_body P Hours Hpeer) as Hbody.
  pose proof USB_REDIR_CAPS_SIZE_pos as Hsize.
  assert (Hpl : 4 <= (if have_peer_caps P =? 0 then 4
                      else 4 + USB_REDIR_CAPS_SIZE * 4))
    by (destruct (have_peer_caps P =? 0); lia).
  assert (Hq : write_buf q = [] /\ data q = None /\ header_read q = 0
               /\ type_header_read q = 0).
  { unfold pristine in Hpristine.
    repeat (apply andb_true_iff in Hpristine as [Hpristine ?]).
    destruct (write_buf q); [|discriminate].
    destruct (data q); [discriminate|].
    repeat split; try reflexivity; apply Z.eqb_eq; assumption. }
  destruct Hq as (Hwq & Hdq & Hhq & Htq).
  unfold usbredirparser_unserialize.
  rewrite (to_uint_small total) by lia.
  rewrite unserialize_int_store32 by lia.
  rewrite Z.eqb_refl, Hpristine. cbn [negb].
  rewrite unserialize_int_store32 by lia.
  rewrite Z.eqb_refl. cbn [negb].
  unfold serialized_body. rewrite <- !app_assoc.
  rewrite unserialize_data_store;
    [| lia | apply caps_array_bytes, Hours | lia | lia].
  cbv beta iota zeta.
  rewrite <- (app_nil_r (memcpy (words_bytes (our_caps q)) 0 _)).
  rewrite caps_array_restored by exact Hours.
  change (our_caps (set_our_caps (our_caps P) q)) with (our_caps P).
  rewrite Hcaps.
  change (peer_caps (set_our_caps (our_caps P) q)) with (peer_caps q).
  unfold restored_caps. cbv zeta.
  set (q1 := set_our_caps (our_caps P) q).
  destruct (have_peer_caps P =? 0) eqn:Ehp.
  - change (store32 0 ++ ?x) with (store32 0 ++ [] ++ x) at 1.
    rewrite unserialize_data_store; [| lia | reflexivity | lia | lia].
    cbv beta iota zeta. rewrite memcpy_nothing.
    rewrite caps_array_words by exact Hpeerq.
    change (negb (0 =? 0)) with false. cbv iota.
    destruct (unserialize_skip_idle P (set_peer_caps (peer_caps q) q1)
                (total - 4 - 4 - 4 - USB_REDIR_CAPS_SIZE * 4 - 4 - 0))
      as (count & total_size & ->);
      try assumption; try reflexivity; try lia.
    exists count, total_size. clear. subst q1. destruct q. reflexivity.
  - rewrite <- app_assoc.
    rewrite unserialize_data_store;
      [| lia | apply caps_array_bytes, Hpeer | lia | lia].
    cbv beta iota zeta.
    rewrite <- (app_nil_r (memcpy (words_bytes (peer_caps q)) 0 _)).
    rewrite caps_array_restored by exact Hpeer.
    destruct (USB_REDIR_CAPS_SIZE * 4 =? 0) eqn:E;
      [apply Z.eqb_eq in E; lia|].
    cbn [negb].
    destruct (unserialize_skip_idle P
                (set_have_peer_caps 1 (set_peer_caps (peer_caps P) q1))
                (total - 4 - 4 - 4 - USB_REDIR_CAPS_SIZE * 4 - 4
                 - USB_REDIR_CAPS_SIZE * 4))
      as (count & total_size & ->);
      try assumption; try reflexivity; try lia.
    exists count, total_size. reflexivity.
Qed.
Lemma unwritten_restored wbuf :
  write_buf_ok wbuf -> unwritten (restored wbuf) = unwritten wbuf.
Proof.
  intros Hok. destruct (write_buf_ok_unwritten wbuf Hok) as (_ & _ & Hlen).
  unfold restored, unwritten at 1. cbn [pos len buf].
  rewrite Z.sub_0_r. cbn [Z.to_nat skipn].
  apply firstn_all2. lia.
Qed.

Lemma serialized_buf_restored wbuf :
  write_buf_ok wbuf -> serialized_buf (restored wbuf) = serialized_buf wbuf.
Proof.
  intros Hok.
  destruct (write_buf_ok_unwritten wbuf Hok) as (Hu & Htake & Hlen).
  unfold serialized_buf, restored. cbn [pos len buf].
  rewrite Z.sub_0_r, Hu, Htake. cbn [Z.to_nat skipn].
  rewrite take_bytes_all by exact Hlen. reflexivity.
Qed.

Lemma flat_map_restored (f : usbredirparser_buf -> list Z) bufs :
  (forall wbuf, write_buf_ok wbuf -> f (restored wbuf) = f wbuf) ->
  Forall write_buf_ok bufs ->
  flat_map f (map restored bufs) = flat_map f bufs.
Proof.
  intros Hf. induction 1 as [|wbuf bufs Hw _ IH]; [reflexivity|].
  cbn [map flat_map]. rewrite Hf, IH by exact Hw. reflexivity.
Qed.

(** X13.  Serializing a parser between two packets and unserializing
    the result.  The source [P] has read no byte of a packet, its
    capability arrays have their [USB_REDIR_CAPS_SIZE] words, its queue
    satisfies the write invariants and every queued buffer has bytes
    left to write.  The target [q] passes the pristine test of
    [usbredirparser_unserialize], the [length] field of its fixed header
    buffer is [0], as [usbredirparser_create] leaves it (the code sizes
    the data buffer from this field, which the pristine test does not
    look at), and its [our_caps] lack no capability of the source.  Then
    [usbredirparser_unserialize] returns [0] and restores [our_caps],
    [to_skip] and the write queue with the unwritten bytes of each buffer
    in queue order, while the flags, callbacks and transport of the
    target stay.  The capabilities of the peer are restored when the
    source has them; when it has none, [have_peer_caps] and [peer_caps]
    of the target stay as they are.  Serializing the restored parser
    gives the same bytes again, provided the target has no capabilities
    of a peer when the source has none. *)
Theorem usbredirparser_serialize_round_trip P q state state_len :
  0 <= USBREDIRPARSER_SERIALIZE_MAGIC < 2 ^ 32 ->
  header_read P = 0 -> type_header_read P = 0 -> data_read P = 0 ->
  caps_array (our_caps P) -> caps_array (peer_caps P) ->
  - 2 ^ 31 <= to_skip P < 2 ^ 31 ->
  write_invariants P ->
  Forall (fun wbuf => pos wbuf < len wbuf) (write_buf P) ->
  pristine q = true -> header_length q = 0 ->
  caps_array (peer_caps q) ->
  caps_mismatch (our_caps P) (our_caps q) = false ->
  usbredirparser_serialize P = (0, state, state_len) ->
  Z.of_nat (length state) < 2 ^ 31 ->
  exists q',
    usbredirparser_unserialize dm state state_len q = (0, q')
    /\ our_caps q' = our_caps P /\ to_skip q' = to_skip P
    /\ (have_peer_caps P <> 0 ->
        have_peer_caps q' = 1 /\ peer_caps q' = peer_caps P)
    /\ (have_peer_caps P = 0 ->
        have_peer_caps q' = have_peer_caps q /\ peer_caps q' = peer_caps q)
    /\ header_read q' = 0 /\ type_header_read q' = 0 /\ data_read q' = 0
    /\ data q' = None
    /\ write_buf_count q' = write_buf_count P
    /\ write_buf q' = map restored (write_buf P)
    /\ flat_map unwritten (write_buf q') = flat_map unwritten (write_buf P)
    /\ write_invariants q'
    /\ flags q' = flags q /\ callb q' = callb q
    /\ read_input q' = read_input q
    /\ ((have_peer_caps P = 0 -> have_peer_caps q = 0) ->
        usbredirparser_serialize q' = usbredirparser_serialize P).
Proof.
  intros Hmagic Hhr Htr Hdr Hours Hpeer Hskip Hinv Hne Hpristine Hzero
    Hpeerq Hcaps Hser Hsize.
  pose proof Hinv as (Hok & HcountP & _).
  rewrite (usbredirparser_serialize_idle P Hhr Htr Hdr Hours Hpeer) in Hser.
  cbv zeta in Hser.
  set (total := 8 + Z.of_nat (length (serialized_body P))) in *.
  assert (Hlen : Z.of_nat (length state) = total).
  { pose proof (f_equal (fun x => snd (fst x)) Hser) as Hst.
    cbn [fst snd] in Hst. rewrite <- Hst. subst total.
    rewrite !length_app.
    change (length (store32 USBREDIRPARSER_SERIALIZE_MAGIC)) with 4%nat.
    change (length (store32 (to_uint (8 + Z.of_nat (length (serialized_body P))))))
      with 4%nat. lia. }
  assert (Htotal : 0 <= total < 2 ^ 31) by (subst total; lia).
  rewrite (to_uint_small total) in Hser by lia.
  rewrite (to_int_small total) in Hser by lia.
  pose proof (f_equal (fun x => snd (fst x)) Hser) as Hst.
  pose proof (f_equal snd Hser) as Hsl.
  cbn [fst snd] in Hst, Hsl. subst state state_len. clear Hser.
  destruct (usbredirparser_unserialize_body P q Hmagic Hours Hpeer Hskip Hok
              Hne Hpristine Hzero Hpeerq Hcaps (proj2 Htotal))
    as (count & total_size & Hun).
  fold total in Hun.
  assert (Hq : write_buf q = [] /\ data q = None /\ header_read q = 0
               /\ type_header_read q = 0 /\ data_read q = 0
               /\ write_buf_count q = 0 /\ write_buf_total_size q = 0).
  { clear - Hpristine. unfold pristine in Hpristine.
    repeat (apply andb_true_iff in Hpristine as [Hpristine ?]).
    destruct (write_buf q); [|discriminate].
    destruct (data q); [discriminate|].
    repeat split; try reflexivity; apply Z.eqb_eq; assumption. }
  destruct Hq as (Hwq & Hdq & Hhq & Htq & Hrq & Hcq & Hsq).
  assert (Hinvq : write_invariants q).
  { unfold write_invariants. rewrite Hwq, Hcq, Hsq.
    split; [constructor | split; reflexivity]. }
  pose proof (usbredirparser_unserialize_invariants dm
                (store32 USBREDIRPARSER_SERIALIZE_MAGIC ++ store32 total
                 ++ serialized_body P) total q Htotal Hinvq) as Hinv'.
  rewrite Hun in Hinv'. cbn [snd] in Hinv'.
  set (q' := set_write_buf count (map restored (write_buf P)) total_size
               (set_data_len 0
                  (set_type_header_len 0
                     (set_to_skip (to_skip P) (restored_caps P q))))) in *.
  assert (Hours' : our_caps q' = our_caps P)
    by (subst q'; unfold restored_caps; cbv zeta;
        destruct (have_peer_caps P =? 0); reflexivity).
  assert (Hskip' : to_skip q' = to_skip P) by reflexivity.
  assert (Hsome : have_peer_caps P <> 0 ->
                  have_peer_caps q' = 1 /\ peer_caps q' = peer_caps P).
  { intros Hp. apply Z.eqb_neq in Hp. subst q'. unfold restored_caps.
    cbv zeta. rewrite Hp. split; reflexivity. }
  assert (Hnone : have_peer_caps P = 0 ->
                  have_peer_caps q' = have_peer_caps q
                  /\ peer_caps q' = peer_caps q).
  { intros Hp. apply Z.eqb_eq in Hp. subst q'. unfold restored_caps.
    cbv zeta. rewrite Hp. split; reflexivity. }
  assert (Hsame : header_read q' = header_read q
                  /\ type_header_read q' = type_header_read q
                  /\ data_read q' = data_read q /\ data q' = data q
                  /\ flags q' = flags q /\ callb q' = callb q
                  /\ read_input q' = read_input q)
    by (subst q'; unfold restored_caps; cbv zeta;
        destruct (have_peer_caps P =? 0); repeat split; reflexivity).
  destruct Hsame as (Hhr' & Htr' & Hdr' & Hd' & Hf' & Hc' & Hr').
  assert (Hbufs : write_buf q' = map restored (write_buf P)) by reflexivity.
  clearbody q'.
  rewrite Hhq in Hhr'. rewrite Htq in Htr'. rewrite Hrq in Hdr'.
  rewrite Hdq in Hd'.
  assert (Hcount' : write_buf_count q' = write_buf_count P).
  { destruct Hinv' as (_ & -> & _).
    rewrite Hbufs, length_map. symmetry. exact HcountP. }
  exists q'. split; [exact Hun|].
  repeat (split; [assumption|]).
  split; [rewrite Hbufs;
          apply flat_map_restored; [apply unwritten_restored | exact Hok]|].
  repeat (split; [assumption|]).
  intros Hq0.
  assert (Hpc : (have_peer_caps q' =? 0) = (have_peer_caps P =? 0)
                /\ (have_peer_caps P <> 0 -> peer_caps q' = peer_caps P)
                /\ caps_array (peer_caps q')).
  { destruct (Z.eq_dec (have_peer_caps P) 0) as [E|E].
    - destruct (Hnone E) as [-> ->]. rewrite (Hq0 E), E.
      split; [reflexivity|]. split; [intros []; reflexivity | exact Hpeerq].
    - destruct (Hsome E) as [-> ->]. apply Z.eqb_neq in E. rewrite E.
      split; [reflexivity|]. split; [reflexivity | exact Hpeer]. }
  destruct Hpc as (Hpc1 & Hpc2 & Hpc3).
  rewrite (usbredirparser_serialize_idle P Hhr Htr Hdr Hours Hpeer).
  rewrite (usbredirparser_serialize_idle q' Hhr' Htr' Hdr');
    [| rewrite Hours'; exact Hours | exact Hpc3].
  assert (Hb : serialized_body q' = serialized_body P).
  { unfold serialized_body.
    rewrite Hours', Hskip', Hpc1, Hbufs, length_map.
    rewrite (flat_map_restored serialized_buf (write_buf P)
               serialized_buf_restored Hok).
    destruct (have_peer_caps P =? 0) eqn:E; [reflexivity|].
    apply Z.eqb_neq in E. rewrite (Hpc2 E). reflexivity. }
  cbv zeta. rewrite Hb. reflexivity.
Qed.

(** The results of [usbredirparser_unserialize]. *)
Lemma unserialize_write_bufs_codes :
  forall i state remain p,
    fst (unserialize_write_bufs dm i state remain p) = 0
    \/ fst (unserialize_write_bufs dm i state remain p) = -1.
Proof.
  intros i state remain p.
  remember (Z.to_nat remain) as n eqn:Hn.
  revert i state remain p Hn.
  induction n as [n IH] using lt_wf_ind.
  intros i state remain p Hn.
  rewrite unserialize_write_bufs_eq.
  destruct (i =? 0); [destruct (negb _); [right | left]; reflexivity|].
  destruct (unserialize_data dm state remain None 0)
    as [[[[b l] state'] remain']|] eqn:E; [|right; reflexivity].
  destruct (l =? 0) eqn:Hl; [right; reflexivity|].
  apply (IH (Z.to_nat remain')); [|reflexivity].
  subst n. apply Z.eqb_neq in Hl.
  destruct (unserialize_data_alloc dm state remain b l state' remain' E)
    as [Hrange _].
  pose proof (unserialize_data_remain dm state remain None 0 b l state'
                remain' E).
  unfold unserialize_data in E.
  destruct (remain <? 4) eqn:H4; [discriminate|].
  destruct (remain - 4 <? load32 0 state) eqn:Hlen; [discriminate|].
  apply Z.ltb_ge in H4, Hlen.
  assert (remain' = remain - 4 - l) as ->.
  { cbn in E.
    destruct (load32 0 state >? 0); [destruct (malloc _ _)|];
      try discriminate; try (destruct (0 <? load32 0 state); [discriminate|]);
      injection E as _ <- _ <-; reflexivity. }
  lia.
Qed.

(** Case analysis along the steps of [usbredirparser_unserialize]. *)
Ltac unserialize_cases :=
  repeat (cbv beta iota zeta;
          match goal with
          | |- context [if ?b then _ else _] => destruct b
          | |- context [match ?x with _ => _ end] =>
              lazymatch x with
              | context [unserialize_write_bufs] => fail
              | context [unserialize_packet_data] => fail
              | context [unserialize_packet] => fail
              | _ => destruct x
              end
          end).

Lemma unserialize_packet_data_codes header_len state remain p :
  fst (unserialize_packet_data dm header_len state remain p) = 0
  \/ fst (unserialize_packet_data dm header_len state remain p) = -1.
Proof.
  unfold unserialize_packet_data.
  unserialize_cases; try (right; reflexivity);
    apply unserialize_write_bufs_codes.
Qed.

Lemma unserialize_packet_codes state remain p :
  fst (unserialize_packet dm state remain p) = 0
  \/ fst (unserialize_packet dm state remain p) = -1.
Proof.
  unfold unserialize_packet.
  unserialize_cases; try (right; reflexivity);
    apply unserialize_packet_data_codes.
Qed.

Lemma load32_skipn n off bs :
  load32 off (skipn n bs) = load32 (n + off) bs.
Proof.
  unfold load32, byte_at. rewrite !nth_skipn, !Nat.add_assoc. reflexivity.
Qed.

(** X14.  [usbredirparser_unserialize] returns [0] or [-1].  It returns
    [0] only on a pristine parser, for a state of at least 8 bytes that
    begins with the magic and whose length field is [len]; when one of
    these fails it returns [-1] and leaves the parser as it was. *)
Theorem usbredirparser_unserialize_pristine state len p :
  let r := fst (usbredirparser_unserialize dm state len p) in
  let p' := snd (usbredirparser_unserialize dm state len p) in
  (r = 0 \/ r = -1)
  /\ (r = 0 ->
      pristine p = true /\ 8 <= to_uint len
      /\ load32 0 state = USBREDIRPARSER_SERIALIZE_MAGIC
      /\ load32 4 state = to_uint len)
  /\ (pristine p = false \/ to_uint len < 8
      \/ load32 0 state <> USBREDIRPARSER_SERIALIZE_MAGIC
      \/ load32 4 state <> to_uint len ->
      r = -1 /\ p' = p).
Proof.
  cbv zeta.
  remember (usbredirparser_unserialize dm state len p) as u eqn:Hu.
  unfold usbredirparser_unserialize in Hu.
  assert (Hfail : u = (-1, p) ->
    (fst u = 0 \/ fst u = -1)
    /\ (fst u = 0 ->
        pristine p = true /\ 8 <= to_uint len
        /\ load32 0 state = USBREDIRPARSER_SERIALIZE_MAGIC
        /\ load32 4 state = to_uint len)
    /\ (pristine p = false \/ to_uint len < 8
        \/ load32 0 state <> USBREDIRPARSER_SERIALIZE_MAGIC
        \/ load32 4 state <> to_uint len ->
        fst u = -1 /\ snd u = p)).
  { intros ->. cbn [fst snd]. split; [right; reflexivity|].
    split; [discriminate|]. intros _. split; reflexivity. }
  destruct (unserialize_int state (to_uint len)) as [[[i s1] r1]|] eqn:E1;
    [|exact (Hfail Hu)].
  unfold unserialize_int in E1.
  destruct (to_uint len <? 4) eqn:E4; [discriminate|].
  apply Z.ltb_ge in E4. injection E1 as <- <- <-.
  destruct (load32 0 state =? USBREDIRPARSER_SERIALIZE_MAGIC) eqn:Em;
    cbn [negb] in Hu; [|exact (Hfail Hu)].
  apply Z.eqb_eq in Em.
  destruct (pristine p) eqn:Ep; cbn [negb] in Hu; [|exact (Hfail Hu)].
  destruct (unserialize_int (skipn 4 state) (to_uint len - 4))
    as [[[i s2] r2]|] eqn:E2; [|exact (Hfail Hu)].
  unfold unserialize_int in E2.
  destruct (to_uint len - 4 <? 4) eqn:E8; [discriminate|].
  apply Z.ltb_ge in E8. injection E2 as <- <- <-.
  rewrite load32_skipn in Hu. change (4 + 0)%nat with 4%nat in Hu.
  destruct (load32 4 state =? to_uint len) eqn:El; cbn [negb] in Hu;
    [|exact (Hfail Hu)].
  apply Z.eqb_eq in El. clear Hfail.
  assert (Hcodes : fst u = 0 \/ fst u = -1).
  { subst u. unserialize_cases; try (right; reflexivity);
      apply unserialize_packet_codes. }
  split; [exact Hcodes|]. split.
  - intros _. repeat split; try assumption; lia.
  - intros [Hp | [Hl | [Hm | Hl]]];
      [discriminate | lia | contradiction | contradiction].
Qed.

End ParserState.

(* --------------------------------------------------------------------- *)
(** ** usbredirparser.c: the cursors of the reader                        *)
(* --------------------------------------------------------------------- *)

Section ParserReadInvariants.
Context `{usbredirproto_h} `{usbredirparser_h}.
Variable dm : data_model.

(** An invariant of the turns that ties the local [header_len] to the
    parser is an invariant of the loop. *)
Lemma do_read_loop_invariant_len (J : Z -> usbredirparser_priv -> Prop)
    (Q : usbredirparser_priv -> Prop) :
  (forall header_len p, J header_len p ->
     match do_read_turn dm header_len p with
     | loop_continue header_len' p' => J header_len' p'
     | loop_return _ p' => Q p'
     end) ->
  forall header_len p, J header_len p ->
    Q (snd (do_read_loop dm header_len p)).
Proof.
  intros Hturn header_len p.
  remember (do_read_measure header_len p) as n eqn:Hn.
  revert header_len p Hn.
  induction n as [n IH] using lt_wf_ind.
  intros header_len p Hn HJ.
  rewrite do_read_loop_eq.
  pose proof (Hturn header_len p HJ) as Hstep.
  destruct (do_read_turn dm header_len p) as [header_len' p' | r p'] eqn:E.
  - apply (IH (do_read_measure header_len' p')); [|reflexivity | exact Hstep].
    subst n. exact (do_read_turn_decreases dm _ _ _ _ E).
  - exact Hstep.
Qed.

Lemma length_memcpy dest off src :
  0 <= off -> off + Z.of_nat (length src) <= Z.of_nat (length dest) ->
  length (memcpy dest off src) = length dest.
Proof.
  intros Hoff Hfit. unfold memcpy.
  rewrite !length_app, length_firstn, length_skipn. lia.
Qed.

Lemma usbredirparser_queue_header type id th d dl p :
  header (usbredirparser_queue dm type id th d dl p) = header p.
Proof.
  unfold usbredirparser_queue.
  repeat match goal with
         | |- context [if ?b then _ else _] => destruct b
         end; reflexivity.
Qed.

Lemma usbredirparser_call_type_func_header p :
  header (usbredirparser_call_type_func dm p) = header p.
Proof.
  unfold usbredirparser_call_type_func.
  destruct (packet_type_of _) as [t|]; [|reflexivity].
  destruct t; try reflexivity.
  - unfold usbredirparser_handle_hello.
    destruct (negb _); reflexivity.
  - destruct (negb _); [|reflexivity].
    rewrite usbredirparser_queue_header. reflexivity.
  - destruct (usbredirfilter_string_to_rules _ _ _ _) as [r rules].
    destruct (negb _); reflexivity.
Qed.

Lemma do_read_packet_complete_read_invariants p :
  Z.of_nat (length (header p)) = sizeof_usb_redir_header ->
  match do_read_packet_complete dm p with
  | loop_continue header_len' p' =>
      header_len' = usbredirparser_get_header_len p' /\ read_invariants p'
  | loop_return _ p' => read_invariants p'
  end.
Proof.
  intros Hlen. unfold do_read_packet_complete.
  destruct (usbredirparser_verify_type_header _ _ _ _ _ _) as [r hdr].
  set (p1 := if negb (r =? 0)
             then usbredirparser_call_type_func dm (set_type_header hdr p)
             else set_type_header hdr p).
  assert (Hh : header p1 = header p).
  { subst p1. destruct (negb (r =? 0)); [|reflexivity].
    rewrite usbredirparser_call_type_func_header. reflexivity. }
  set (p2 := set_data None
               (set_data_read 0
                  (set_data_len 0
                     (set_type_header_read 0
                        (set_type_header_len 0 (set_header_read 0 p1)))))).
  assert (Hinv : read_invariants p2).
  { pose proof (usbredirparser_get_header_len_pos p2).
    unfold read_invariants. subst p2. cbn.
    change (sizeof_type_header) with 288.
    change MAX_PACKET_SIZE with (1024 + 128 * 1024 * 1024).
    rewrite Hh. cbn in H1. repeat split; try lia; try exact Hlen. }
  destruct (r =? 0); [exact Hinv | split; [reflexivity | exact Hinv]].
Qed.


Lemma do_read_header_complete_read_invariants header_len p :
  header_len = usbredirparser_get_header_len p ->
  header_read p = header_len ->
  type_header_read p = 0 -> data_read p = 0 -> data p = None ->
  data_len p = 0 -> 0 <= type_header_len p <= sizeof_type_header ->
  Z.of_nat (length (header p)) = sizeof_usb_redir_header ->
  match do_read_header_complete dm header_len p with
  | loop_continue header_len' p' =>
      header_len' = usbredirparser_get_header_len p' /\ read_invariants p'
  | loop_return _ p' => read_invariants p'
  end.
Proof.
  intros Hhl Hhr Htr Hdr Hdata Hdl Htl Hlen.
  pose proof (usbredirparser_get_header_len_pos p) as Hpos.
  assert (Hskip : match skip_packet p with
                  | loop_continue header_len' p' =>
                      header_len' = usbredirparser_get_header_len p'
                      /\ read_invariants p'
                  | loop_return _ p' => read_invariants p'
                  end).
  { unfold skip_packet, read_invariants. cbn.
    change (usbredirparser_get_header_len
              (set_header_read 0 (set_to_skip (to_int (header_length p)) p)))
      with (usbredirparser_get_header_len p).
    rewrite Htr, Hdr, Hdata, Hdl.
    change MAX_PACKET_SIZE with (1024 + 128 * 1024 * 1024).
    repeat split; try lia; try exact Hlen. }
  unfold do_read_header_complete.
  set (thl := usbredirparser_get_type_header_len p
                (to_int (header_type p)) false).
  destruct (thl <? 0) eqn:E1; [exact Hskip|]. apply Z.ltb_ge in E1.
  destruct (thl >? sizeof_type_header) eqn:E2; [exact Hskip|].
  rewrite Z.gtb_ltb in E2. apply Z.ltb_ge in E2.
  destruct (header_length p >? MAX_PACKET_SIZE) eqn:E3; [exact Hskip|].
  rewrite Z.gtb_ltb in E3. apply Z.ltb_ge in E3.
  destruct ((to_int (header_length p) <? thl)
            || ((to_int (header_length p) >? thl)
                && negb (usbredirparser_expect_extra_data p))) eqn:E4;
    [exact Hskip|].
  apply orb_false_iff in E4 as [E4 _]. apply Z.ltb_ge in E4.
  pose proof (load32_range 4 (header p)) as Hrange.
  fold (header_length p) in Hrange.
  assert (Hmax : MAX_PACKET_SIZE < 2 ^ 31) by reflexivity.
  rewrite (to_int_small (header_length p)) in E4 by lia.
  rewrite (to_int_small (header_length p - thl)) by lia.
  cbv zeta.
  destruct (negb (header_length p - thl =? 0)) eqn:E5.
  - apply negb_true_iff, Z.eqb_neq in E5.
    destruct (malloc dm (header_length p - thl)); [|exact Hskip].
    split; [exact Hhl|]. unfold read_invariants. cbn.
    change (usbredirparser_get_header_len _)
      with (usbredirparser_get_header_len p).
    rewrite Htr, Hdr, repeat_length.
    repeat split; try lia; try exact Hlen.
  - apply negb_false_iff, Z.eqb_eq in E5.
    split; [exact Hhl|]. unfold read_invariants. cbn.
    change (usbredirparser_get_header_len _)
      with (usbredirparser_get_header_len p).
    rewrite Htr, Hdr, Hdata.
    repeat split; try lia; try exact Hlen.
Qed.


Lemma read_func_length count input :
  0 <= count ->
  let '(r, bytes, rest) := read_func count input in
  0 <= r <= count /\ Z.of_nat (length bytes) = r.
Proof.
  intros Hc. unfold read_func. rewrite length_firstn. lia.
Qed.

(** Field updates of the parser record, unfolded in the goal. *)
Ltac parser_goal :=
  unfold set_flags, set_have_peer_caps, set_our_caps, set_peer_caps,
    set_header, set_type_header, set_header_read, set_type_header_len,
    set_type_header_read, set_data, set_data_len, set_data_read,
    set_to_skip, set_write_buf, set_callb, set_read_input;
  cbn [flags have_peer_caps our_caps peer_caps header type_header
       header_read type_header_len type_header_read data data_len
       data_read to_skip write_buf_count write_buf write_buf_total_size
       callb read_input].

Ltac read_invariants_goal p Hhl :=
  unfold read_invariants;
  change (usbredirparser_get_header_len _)
    with (usbredirparser_get_header_len p);
  rewrite <- Hhl; parser_goal;
  change sizeof_usb_redir_header with 16.

(** One turn of the loop keeps the cursors inside their buffers. *)
Lemma do_read_turn_read_invariants header_len p :
  header_len = usbredirparser_get_header_len p -> read_invariants p ->
  match do_read_turn dm header_len p with
  | loop_continue header_len' p' =>
      header_len' = usbredirparser_get_header_len p' /\ read_invariants p'
  | loop_return _ p' => read_invariants p'
  end.
Proof.
  intros Hhl (Hh & Ht & Htl & Hd & Hdl & Hdata & Hlen & Hstage).
  rewrite <- Hhl in Hh, Hstage.
  assert (H16 : header_len <= 16).
  { subst header_len. unfold usbredirparser_get_header_len.
    destruct (usbredirparser_using_32bits_ids p); cbv; discriminate. }
  change sizeof_usb_redir_header with 16 in Hlen.
  unfold do_read_turn, do_read_dest.
  destruct (header_read p <? header_len) eqn:E1.
  - apply Z.ltb_lt in E1. destruct (Hstage E1) as (Htr & Hdr & Hnone).
    assert (Hdl0 : data_len p = 0) by (rewrite Hnone in Hdata; exact Hdata).
    destruct (header_len - header_read p >? 0) eqn:Ec;
      [|rewrite Z.gtb_ltb in Ec; apply Z.ltb_ge in Ec; lia].
    unfold read_to.
    pose proof (read_func_length (header_len - header_read p)
                  (read_input p)) as Hread.
    destruct (read_func (header_len - header_read p) (read_input p))
      as [[r bytes] rest].
    destruct Hread as [Hr Hbytes]; [lia|].
    assert (Hlen1 : Z.of_nat (length (memcpy (header p) (header_read p)
                                        bytes)) = 16)
      by (rewrite length_memcpy; lia).
    destruct (r <=? 0) eqn:Er.
    + read_invariants_goal p Hhl.
      repeat split; try lia; try assumption.
    + apply Z.leb_gt in Er. unfold do_read_account. parser_goal.
      destruct (header_read p <? header_len) eqn:E1';
        [|apply Z.ltb_ge in E1'; lia].
      cbv zeta. parser_goal.
      destruct (header_read p + r =? header_len) eqn:E2.
      * apply Z.eqb_eq in E2.
        apply do_read_header_complete_read_invariants; parser_goal;
          first [exact Hhl | exact Hlen1 | assumption | lia].
      * apply Z.eqb_neq in E2. split; [exact Hhl|].
        read_invariants_goal p Hhl.
        repeat split; try lia; try assumption.
  - apply Z.ltb_ge in E1.
    destruct (type_header_read p <? type_header_len p) eqn:E2.
    + apply Z.ltb_lt in E2.
      destruct (type_header_len p - type_header_read p >? 0) eqn:Ec;
        [|rewrite Z.gtb_ltb in Ec; apply Z.ltb_ge in Ec; lia].
      unfold read_to.
      pose proof (read_func_length (type_header_len p - type_header_read p)
                    (read_input p)) as Hread.
      destruct (read_func (type_header_len p - type_header_read p)
                  (read_input p)) as [[r bytes] rest].
      destruct Hread as [Hr Hbytes]; [lia|].
      destruct (r <=? 0) eqn:Er.
      * read_invariants_goal p Hhl.
        repeat split; try lia; try assumption.
      * apply Z.leb_gt in Er. unfold do_read_account. parser_goal.
        destruct (header_read p <? header_len) eqn:E1';
          [apply Z.ltb_lt in E1'; lia|].
        destruct (type_header_read p <? type_header_len p) eqn:E2';
          [|apply Z.ltb_ge in E2'; lia].
        split; [exact Hhl|].
        read_invariants_goal p Hhl.
        repeat split; try lia; try assumption.
    + apply Z.ltb_ge in E2.
      assert (Hcomplete : forall q,
                Z.of_nat (length (header q)) = 16 ->
                match do_read_packet_complete dm q with
                | loop_continue header_len' p' =>
                    header_len' = usbredirparser_get_header_len p'
                    /\ read_invariants p'
                | loop_return _ p' => read_invariants p'
                end)
        by (intros q Hq; apply do_read_packet_complete_read_invariants;
            exact Hq).
      destruct (data_len p - data_read p >? 0) eqn:Ec.
      * rewrite Z.gtb_ltb in Ec. apply Z.ltb_lt in Ec.
        unfold read_to.
        pose proof (read_func_length (data_len p - data_read p)
                      (read_input p)) as Hread.
        destruct (read_func (data_len p - data_read p) (read_input p))
          as [[r bytes] rest].
        destruct Hread as [Hr Hbytes]; [lia|].
        assert (Hdata1 : match match data p with
                               | Some d =>
                                   Some (memcpy d (data_read p) bytes)
                               | None => None
                               end with
                         | Some d => data_len p <> 0
                                     /\ Z.of_nat (length d) = data_len p
                         | None => data_len p = 0
                         end).
        { destruct (data p) as [d|]; [|exact Hdata].
          destruct Hdata as [Hne Hd0]. split; [exact Hne|].
          rewrite length_memcpy; lia. }
        destruct (r <=? 0) eqn:Er.
        -- read_invariants_goal p Hhl.
           repeat split; try lia; try assumption.
        -- apply Z.leb_gt in Er. unfold do_read_account. parser_goal.
           destruct (header_read p <? header_len) eqn:E1';
             [apply Z.ltb_lt in E1'; lia|].
           destruct (type_header_read p <? type_header_len p) eqn:E2';
             [apply Z.ltb_lt in E2'; lia|].
           cbv zeta. parser_goal.
           destruct (data_read p + r =? data_len p) eqn:E3;
             [apply Hcomplete; exact Hlen|].
           apply Z.eqb_neq in E3. split; [exact Hhl|].
           read_invariants_goal p Hhl.
           repeat split; try lia; try assumption.
      * rewrite Z.gtb_ltb in Ec. apply Z.ltb_ge in Ec.
        unfold do_read_account.
        destruct (header_read p <? header_len) eqn:E1';
          [apply Z.ltb_lt in E1'; lia|].
        destruct (type_header_read p <? type_header_len p) eqn:E2';
          [apply Z.ltb_lt in E2'; lia|].
        cbv zeta. parser_goal.
        destruct (data_read p + (data_len p - data_read p) =? data_len p)
          eqn:E3; [apply Hcomplete; exact Hlen|].
        apply Z.eqb_neq in E3. lia.
Qed.

Lemma usbredirparser_do_read_keeps_read_invariants p :
  read_invariants p ->
  read_invariants (snd (usbredirparser_do_read dm p)).
Proof.
  intros Hinv. unfold usbredirparser_do_read.
  assert (Hskip : read_invariants (snd (skip_loop p))
                  /\ usbredirparser_get_header_len (snd (skip_loop p))
                     = usbredirparser_get_header_len p).
  { apply (skip_loop_invariant
             (fun q => read_invariants q
                       /\ usbredirparser_get_header_len q
                          = usbredirparser_get_header_len p));
      [intros q v Hq; exact Hq | intros q v Hq; exact Hq |].
    split; [exact Hinv | reflexivity]. }
  destruct (skip_loop p) as [[r|] p1]; cbn [snd] in *;
    [exact (proj1 Hskip)|].
  apply (do_read_loop_invariant_len
           (fun header_len q =>
              header_len = usbredirparser_get_header_len q
              /\ read_invariants q) read_invariants).
  - intros header_len q [Hhl Hq].
    apply do_read_turn_read_invariants; assumption.
  - split; [symmetry; exact (proj2 Hskip) | exact (proj1 Hskip)].
Qed.


Lemma usbredirparser_queue_read_invariants type id th d dl p :
  read_invariants p ->
  read_invariants (usbredirparser_queue dm type id th d dl p).
Proof.
  intros Hinv.
  destruct (usbredirparser_queue_cases dm type id th d dl p)
    as [-> | (_ & _ & ->)]; exact Hinv.
Qed.

Lemma usbredirparser_init_read_invariants version caps caps_len flags_in
    transport :
  read_invariants
    (usbredirparser_init dm version caps caps_len flags_in
       (usbredirparser_create transport)).
Proof.
  unfold usbredirparser_init. cbv zeta.
  match goal with
  | |- context [if ?b then usbredirparser_queue _ ?t ?i ?th ?d ?dl ?q
                else _] =>
      assert (Hq : read_invariants q);
      [|destruct b; [apply usbredirparser_queue_read_invariants|];
        exact Hq]
  end.
  match goal with
  | |- read_invariants ?q =>
      pose proof (usbredirparser_get_header_len_pos q) as Hpos;
      assert (Hf : header_read q = 0 /\ type_header_read q = 0
                   /\ type_header_len q = 0 /\ data_read q = 0
                   /\ data_len q = 0 /\ data q = None
                   /\ header q = repeat 0 (Z.to_nat sizeof_usb_redir_header))
        by (repeat match goal with
                   | |- context [if ?c then _ else _] => destruct c
                   end; repeat split; reflexivity);
      destruct Hf as (Hf1 & Hf2 & Hf3 & Hf4 & Hf5 & Hf6 & Hf7);
      unfold read_invariants; rewrite Hf1, Hf2, Hf3, Hf4, Hf5, Hf6, Hf7
  end.
  rewrite repeat_length.
  change sizeof_usb_redir_header with 16.
  change sizeof_type_header with 288.
  change MAX_PACKET_SIZE with (1024 + 128 * 1024 * 1024).
  repeat split; lia.
Qed.

(** X15.  [usbredirparser_do_read] keeps the read side of
    [usbredirparser_assert_invariants]: the three cursors stay between 0
    and the length of what they count, the type header length within the
    type header buffer, [data_len] within [MAX_PACKET_SIZE], [data] is
    allocated with [data_len] bytes exactly when [data_len] is not 0, and
    the fixed header stays its 16 bytes: no read goes past a buffer.
    The sending functions, which end in [usbredirparser_queue], leave the
    read side alone. *)
Theorem usbredirparser_read_invariants p :
  read_invariants p ->
  read_invariants (snd (usbredirparser_do_read dm p))
  /\ forall type id type_header_in data_in data_len,
       read_invariants
         (usbredirparser_queue dm type id type_header_in data_in data_len p).
Proof.
  intros Hinv. split.
  - apply usbredirparser_do_read_keeps_read_invariants. exact Hinv.
  - intros. apply usbredirparser_queue_read_invariants. exact Hinv.
Qed.

End ParserReadInvariants.

(* --------------------------------------------------------------------- *)
(** ** usbredirparser.c: the transport delivers in pieces                 *)
(* --------------------------------------------------------------------- *)

Section ParserChunks.
Context `{usbredirproto_h} `{usbredirparser_h}.
Variable dm : data_model.

(** What a function of the parser does not read from the transport it
    computes the same whatever the transport holds. *)
Ltac input_free x p :=
  repeat match goal with
         | |- context [?f (set_read_input x p)] =>
             progress change (f (set_read_input x p)) with (f p)
         end.

Lemma usbredirparser_queue_input type id th d dl x p :
  usbredirparser_queue dm type id th d dl (set_read_input x p)
  = set_read_input x (usbredirparser_queue dm type id th d dl p).
Proof.
  unfold usbredirparser_queue. input_free x p.
  repeat match goal with
         | |- context [if ?b then _ else _] => destruct b
         end; reflexivity.
Qed.

Lemma usbredirparser_call_type_func_input x p :
  usbredirparser_call_type_func dm (set_read_input x p)
  = set_read_input x (usbredirparser_call_type_func dm p).
Proof.
  unfold usbredirparser_call_type_func. input_free x p.
  destruct (packet_type_of _) as [t|]; [|reflexivity].
  destruct t; try reflexivity.
  - unfold usbredirparser_handle_hello. input_free x p.
    destruct (negb _); reflexivity.
  - change (call (callb_priv usb_redir_device_disconnect)
              (set_read_input x p))
      with (set_read_input x
              (call (callb_priv usb_redir_device_disconnect) p)).
    input_free x (call (callb_priv usb_redir_device_disconnect) p).
    destruct (negb _); [|reflexivity].
    apply usbredirparser_queue_input.
  - destruct (usbredirfilter_string_to_rules _ _ _ _) as [r rules].
    destruct (negb _); reflexivity.
Qed.

Lemma do_read_packet_complete_input x p :
  do_read_packet_complete dm (set_read_input x p)
  = step_input x (do_read_packet_complete dm p).
Proof.
  unfold do_read_packet_complete. input_free x p.
  destruct (usbredirparser_verify_type_header _ _ _ _ _ _) as [r hdr].
  change (set_type_header hdr (set_read_input x p))
    with (set_read_input x (set_type_header hdr p)).
  destruct (r =? 0); cbn [negb].
  - reflexivity.
  - rewrite usbredirparser_call_type_func_input. reflexivity.
Qed.

Lemma do_read_header_complete_input header_len x p :
  do_read_header_complete dm header_len (set_read_input x p)
  = step_input x (do_read_header_complete dm header_len p).
Proof.
  unfold do_read_header_complete, skip_packet. input_free x p.
  repeat match goal with
         | |- context [if ?b then _ else _] => destruct b
         end; reflexivity.
Qed.

Lemma do_read_account_input header_len r x p :
  do_read_account dm header_len r (set_read_input x p)
  = step_input x (do_read_account dm header_len r p).
Proof.
  unfold do_read_account. input_free x p.
  destruct (header_read p <? header_len).
  - cbv zeta.
    change (set_header_read (header_read p + r) (set_read_input x p))
      with (set_read_input x (set_header_read (header_read p + r) p)).
    input_free x (set_header_read (header_read p + r) p).
    destruct (_ =? _); [apply do_read_header_complete_input | reflexivity].
  - destruct (type_header_read p <? type_header_len p); [reflexivity|].
    cbv zeta.
    change (set_data_read (data_read p + r) (set_read_input x p))
      with (set_read_input x (set_data_read (data_read p + r) p)).
    input_free x (set_data_read (data_read p + r) p).
    destruct (_ =? _); [apply do_read_packet_complete_input | reflexivity].
Qed.

Ltac parser_goal :=
  cbn [flags have_peer_caps our_caps peer_caps header type_header
       header_read type_header_len type_header_read data data_len
       data_read to_skip write_buf_count write_buf write_buf_total_size
       callb read_input
       set_flags set_have_peer_caps set_our_caps set_peer_caps
       set_header set_type_header set_header_read set_type_header_len
       set_type_header_read set_data set_data_len set_data_read
       set_to_skip set_write_buf set_callb set_read_input].

Lemma memcpy_nil dest off : memcpy dest off [] = dest.
Proof.
  unfold memcpy. cbn [length app]. rewrite Nat.add_0_r.
  apply firstn_skipn.
Qed.

Lemma memcpy_app dest off b1 b2 :
  0 <= off ->
  memcpy (memcpy dest off b1) (off + Z.of_nat (length b1)) b2
  = memcpy dest off (b1 ++ b2).
Proof.
  intros Hoff. unfold memcpy.
  replace (Z.to_nat (off + Z.of_nat (length b1)))
    with (Z.to_nat off + length b1)%nat by lia.
  set (n := Z.to_nat off).
  rewrite length_app, <- !app_assoc. 
  destruct (Nat.le_gt_cases n (length dest)) as [Hle | Hgt].
  - assert (Hn : length (firstn n dest) = n) by (rewrite length_firstn; lia).
    rewrite (app_assoc (firstn n dest) b1).
    rewrite firstn_app.
    replace (length (firstn n dest ++ b1)) with (n + length b1)%nat
      by (rewrite length_app; lia).
    rewrite firstn_all2 by (rewrite length_app; lia).
    rewrite Nat.sub_diag. cbn [firstn]. rewrite app_nil_r.
    rewrite <- app_assoc. f_equal. f_equal. f_equal.
    rewrite skipn_app.
    rewrite (skipn_all2 (n := n + length b1 + length b2))
      by (rewrite length_app; lia).
    cbn [app].
    replace (n + length b1 + length b2 - length (firstn n dest ++ b1))%nat
      with (length b2)%nat by (rewrite length_app; lia).
    rewrite skipn_skipn. f_equal. lia.
  - rewrite !(firstn_all2 (n := n) dest) by lia.
    rewrite !(skipn_all2 dest) by lia.
    rewrite !app_nil_r.
    rewrite firstn_all2 by (rewrite length_app; lia).
    rewrite skipn_all2 by (rewrite length_app; lia).
    rewrite app_nil_r, <- app_assoc. reflexivity.
Qed.

Lemma set_read_input_same p : set_read_input (read_input p) p = p.
Proof. destruct p; reflexivity. Qed.

Lemma read_store_nil dest p : read_store dest [] p = p.
Proof.
  destruct dest; unfold read_store.
  - rewrite memcpy_nil. destruct p; reflexivity.
  - rewrite memcpy_nil. destruct p; reflexivity.
  - destruct p as [a1 a2 a3 a4 a5 a6 a7 a8 a9 [d|] a11 a12 a13 a14 a15 a16
                     a17 a18]; cbn; [rewrite memcpy_nil|]; reflexivity.
Qed.

Lemma read_store_input dest bytes x p :
  read_store dest bytes (set_read_input x p)
  = set_read_input x (read_store dest bytes p).
Proof. destruct dest; reflexivity. Qed.

Lemma read_advance_input dest r x p :
  read_advance dest r (set_read_input x p)
  = set_read_input x (read_advance dest r p).
Proof. destruct dest; reflexivity. Qed.

(** A turn that reads. *)
Lemma do_read_turn_reads header_len p c dest :
  do_read_dest header_len p = (c, dest) -> 0 < c ->
  let n := Nat.min (Z.to_nat c) (length (read_input p)) in
  let p' := read_store dest (firstn n (read_input p))
              (set_read_input (skipn n (read_input p)) p) in
  do_read_turn dm header_len p
  = if Z.of_nat n <=? 0 then loop_return (Z.of_nat n) p'
    else do_read_account dm header_len (Z.of_nat n) p'.
Proof.
  intros Hdest Hc. unfold do_read_turn. rewrite Hdest.
  replace (c >? 0) with true by (symmetry; apply Z.gtb_lt; lia).
  unfold read_to, read_func. destruct dest; reflexivity.
Qed.

Lemma do_read_turn_no_read header_len p c dest :
  do_read_dest header_len p = (c, dest) -> c <= 0 ->
  do_read_turn dm header_len p = do_read_account dm header_len c p.
Proof.
  intros Hdest Hc. unfold do_read_turn. rewrite Hdest.
  replace (c >? 0) with false; [reflexivity|].
  symmetry. rewrite Z.gtb_ltb. apply Z.ltb_ge. lia.
Qed.

(** [do_read_account] returns on a refused packet only. *)
Lemma do_read_header_complete_return header_len p r' q :
  do_read_header_complete dm header_len p = loop_return r' q ->
  r' = usbredirparser_read_parse_error.
Proof.
  unfold do_read_header_complete, skip_packet.
  repeat match goal with
         | |- context [if ?b then _ else _] => destruct b
         end; try discriminate; intros [= <- _]; reflexivity.
Qed.

Lemma do_read_packet_complete_return p r' q :
  do_read_packet_complete dm p = loop_return r' q ->
  r' = usbredirparser_read_parse_error.
Proof.
  unfold do_read_packet_complete.
  destruct (usbredirparser_verify_type_header _ _ _ _ _ _) as [v hdr].
  destruct (v =? 0); [|discriminate].
  intros [= <- _]. reflexivity.
Qed.

Lemma do_read_account_return header_len r p r' q :
  do_read_account dm header_len r p = loop_return r' q ->
  r' = usbredirparser_read_parse_error.
Proof.
  unfold do_read_account.
  destruct (header_read p <? header_len).
  - cbv zeta. destruct (_ =? _); [|discriminate].
    apply do_read_header_complete_return.
  - destruct (type_header_read p <? type_header_len p); [discriminate|].
    cbv zeta. destruct (_ =? _); [|discriminate].
    apply do_read_packet_complete_return.
Qed.

Lemma usbredirparser_queue_to_skip type id th d dl p :
  to_skip (usbredirparser_queue dm type id th d dl p) = to_skip p.
Proof.
  unfold usbredirparser_queue.
  repeat match goal with
         | |- context [if ?b then _ else _] => destruct b
         end; reflexivity.
Qed.

Lemma usbredirparser_call_type_func_to_skip p :
  to_skip (usbredirparser_call_type_func dm p) = to_skip p.
Proof.
  unfold usbredirparser_call_type_func.
  destruct (packet_type_of _) as [t|]; [|reflexivity].
  destruct t; try reflexivity.
  - unfold usbredirparser_handle_hello.
    destruct (negb _); reflexivity.
  - destruct (negb _); [|reflexivity].
    rewrite usbredirparser_queue_to_skip. reflexivity.
  - destruct (usbredirfilter_string_to_rules _ _ _ _) as [r rules].
    destruct (negb _); reflexivity.
Qed.

Lemma do_read_header_complete_to_skip header_len p header_len' p' :
  do_read_header_complete dm header_len p = loop_continue header_len' p' ->
  to_skip p' = to_skip p.
Proof.
  unfold do_read_header_complete, skip_packet.
  repeat match goal with
         | |- context [if ?b then _ else _] => destruct b
         end; try discriminate; intros [= <- <-]; reflexivity.
Qed.

Lemma do_read_packet_complete_to_skip p header_len' p' :
  do_read_packet_complete dm p = loop_continue header_len' p' ->
  to_skip p' = to_skip p.
Proof.
  unfold do_read_packet_complete.
  destruct (usbredirparser_verify_type_header _ _ _ _ _ _) as [v hdr].
  destruct (v =? 0); [discriminate|]. cbn [negb].
  intros [= _ <-].
  change (to_skip (usbredirparser_call_type_func dm (set_type_header hdr p))
          = to_skip (set_type_header hdr p)).
  apply usbredirparser_call_type_func_to_skip.
Qed.

Lemma do_read_account_to_skip header_len r p header_len' p' :
  do_read_account dm header_len r p = loop_continue header_len' p' ->
  to_skip p' = to_skip p.
Proof.
  unfold do_read_account.
  destruct (header_read p <? header_len).
  - cbv zeta. destruct (_ =? _).
    + intros Hc. apply do_read_header_complete_to_skip in Hc. exact Hc.
    + intros [= _ <-]. reflexivity.
  - destruct (type_header_read p <? type_header_len p).
    + intros [= _ <-]. reflexivity.
    + cbv zeta. destruct (_ =? _).
      * intros Hc. apply do_read_packet_complete_to_skip in Hc. exact Hc.
      * intros [= _ <-]. reflexivity.
Qed.

Lemma do_read_turn_to_skip header_len p header_len' p' :
  do_read_turn dm header_len p = loop_continue header_len' p' ->
  to_skip p' = to_skip p.
Proof.
  destruct (do_read_dest header_len p) as [c dest] eqn:Hdest.
  destruct (Z_lt_le_dec 0 c) as [Hc | Hc].
  - rewrite (do_read_turn_reads _ _ _ _ Hdest Hc). cbv zeta.
    destruct (_ <=? 0); [discriminate|].
    intros Hacc. apply do_read_account_to_skip in Hacc. rewrite Hacc.
    destruct dest; reflexivity.
  - rewrite (do_read_turn_no_read _ _ _ _ Hdest Hc).
    apply do_read_account_to_skip.
Qed.

(** A read that falls short of what the stage asks for leaves the parser
    in the stage, with the rest to ask for. *)
Lemma do_read_account_short header_len p c dest k bytes x :
  do_read_dest header_len p = (c, dest) -> 0 < k < c ->
  let p' := read_store dest bytes (set_read_input x p) in
  do_read_account dm header_len k p'
  = loop_continue header_len (read_advance dest k p')
  /\ do_read_dest header_len (read_advance dest k p') = (c - k, dest).
Proof.
  intros Hdest Hk. cbv zeta. unfold do_read_dest in Hdest.
  unfold do_read_account, do_read_dest.
  destruct (header_read p <? header_len) eqn:E1.
  - injection Hdest as <- <-. apply Z.ltb_lt in E1.
    unfold read_store, read_advance. parser_goal.
    replace (header_read p <? header_len) with true
      by (symmetry; apply Z.ltb_lt; lia).
    cbv zeta. parser_goal.
    replace (header_read p + k =? header_len) with false
      by (symmetry; apply Z.eqb_neq; lia).
    replace (header_read p + k <? header_len) with true
      by (symmetry; apply Z.ltb_lt; lia).
    split; [reflexivity | f_equal; lia].
  - destruct (type_header_read p <? type_header_len p) eqn:E2.
    + injection Hdest as <- <-. apply Z.ltb_lt in E2.
      unfold read_store, read_advance. parser_goal.
      rewrite E1.
      replace (type_header_read p <? type_header_len p) with true
        by (symmetry; apply Z.ltb_lt; lia).
      replace (type_header_read p + k <? type_header_len p) with true
        by (symmetry; apply Z.ltb_lt; lia).
      split; [reflexivity | f_equal; lia].
    + injection Hdest as <- <-.
      unfold read_store, read_advance. parser_goal.
      rewrite E1, E2. cbv zeta. parser_goal.
      replace (data_read p + k =? data_len p) with false
        by (symmetry; apply Z.eqb_neq; lia).
      split; [reflexivity | f_equal; lia].
Qed.

(** Bytes stored in two reads are accounted for as if stored in one. *)
Lemma do_read_account_joined header_len p c dest b1 bytes r x y :
  do_read_dest header_len p = (c, dest) ->
  0 <= header_read p -> 0 <= type_header_read p -> 0 <= data_read p ->
  0 < Z.of_nat (length b1) < c ->
  do_read_account dm header_len (Z.of_nat (length b1) + r)
    (read_store dest (b1 ++ bytes) (set_read_input x p))
  = do_read_account dm header_len r
      (read_store dest bytes
         (set_read_input x
            (read_advance dest (Z.of_nat (length b1))
               (read_store dest b1 (set_read_input y p))))).
Proof.
  intros Hdest Hh Ht Hd Hk. unfold do_read_dest in Hdest.
  unfold do_read_account.
  destruct (header_read p <? header_len) eqn:E1.
  - injection Hdest as <- <-. apply Z.ltb_lt in E1.
    unfold read_store, read_advance. parser_goal.
    replace (header_read p <? header_len) with true
      by (symmetry; apply Z.ltb_lt; lia).
    replace (header_read p + Z.of_nat (length b1) <? header_len) with true
      by (symmetry; apply Z.ltb_lt; lia).
    cbv zeta. parser_goal.
    rewrite memcpy_app by exact Hh.
    rewrite Z.add_assoc. reflexivity.
  - destruct (type_header_read p <? type_header_len p) eqn:E2.
    + injection Hdest as <- <-. apply Z.ltb_lt in E2.
      unfold read_store, read_advance. parser_goal.
      rewrite E1.
      replace (type_header_read p <? type_header_len p) with true
        by (symmetry; apply Z.ltb_lt; lia).
      replace (type_header_read p + Z.of_nat (length b1)
               <? type_header_len p) with true
        by (symmetry; apply Z.ltb_lt; lia).
      rewrite memcpy_app by exact Ht.
      rewrite Z.add_assoc. reflexivity.
    + injection Hdest as <- <-.
      unfold read_store, read_advance. parser_goal.
      rewrite E1, E2. cbv zeta. parser_goal.
      rewrite Z.add_assoc.
      destruct (data p) as [d|]; [rewrite memcpy_app by exact Hd|];
        reflexivity.
Qed.

Lemma receive_nil p : receive [] p = p.
Proof. unfold receive. rewrite app_nil_r. apply set_read_input_same. Qed.

Lemma read_advance_store_fields dest k bytes x p :
  let p' := read_advance dest k (read_store dest bytes (set_read_input x p)) in
  read_input p' = x /\ to_skip p' = to_skip p
  /\ usbredirparser_get_header_len p' = usbredirparser_get_header_len p.
Proof. destruct dest; repeat split; reflexivity. Qed.

(** The loop on a transport that is given its bytes in two pieces: when
    the loop has returned 0 on the first piece, the loop on the parser it
    left and the second piece does what the loop does on both pieces at
    once. *)
Lemma do_read_loop_chunks :
  usbredirparser_read_parse_error <> 0 ->
  forall n header_len p p1,
    do_read_measure header_len p = n ->
    header_len = usbredirparser_get_header_len p ->
    read_invariants p -> to_skip p <= 0 ->
    do_read_loop dm header_len p = (0, p1) ->
    to_skip p1 <= 0
    /\ forall b2,
         do_read_loop dm header_len (receive b2 p)
         = do_read_loop dm (usbredirparser_get_header_len p1)
             (receive b2 p1).
Proof.
  intros Herr n. induction n as [n IH] using lt_wf_ind.
  intros header_len p p1 Hn Hhl Hinv Hskip Hloop.
  pose proof Hloop as Hloop0.
  pose proof (do_read_turn_read_invariants dm header_len p Hhl Hinv)
    as Hturn_inv.
  pose proof (do_read_turn_to_skip header_len p) as Hturn_skip.
  pose proof (do_read_turn_decreases dm header_len p) as Hdec.
  rewrite do_read_loop_eq in Hloop.
  destruct (do_read_dest header_len p) as [c dest] eqn:Hdest.
  assert (Hdest2 : forall b2, do_read_dest header_len (receive b2 p)
                              = (c, dest)) by (intros b2; exact Hdest).
  destruct Hinv as (Hh & Ht & _ & Hd & _).
  destruct (Z_lt_le_dec 0 c) as [Hc | Hc].
  - pose proof (do_read_turn_reads header_len p c dest Hdest Hc) as ET.
    cbv zeta in ET.
    remember (read_input p) as b1 eqn:Hb1.
    remember (Nat.min (Z.to_nat c) (length b1)) as n1 eqn:Hn1.
    destruct (Nat.eq_dec n1 0%nat) as [Hz | Hnz].
    + assert (Hnil : b1 = []) by (destruct b1; [reflexivity | cbn in Hn1; lia]).
      rewrite ET, Hz in Hloop. cbn [Z.of_nat Z.leb Z.compare] in Hloop.
      rewrite Hnil in Hloop. cbn [firstn skipn] in Hloop.
      rewrite read_store_nil in Hloop.
      rewrite Hnil in Hb1. rewrite Hb1, set_read_input_same in Hloop.
      injection Hloop as <-.
      split; [exact Hskip|]. rewrite <- Hhl. reflexivity.
    + destruct (le_lt_dec (Z.to_nat c) (length b1)) as [Hfull | Hshort].
      * assert (Hn1c : Z.of_nat n1 = c) by lia.
        rewrite Hn1c in ET.
        replace (c <=? 0) with false in ET
          by (symmetry; apply Z.leb_gt; lia).
        rewrite read_store_input, do_read_account_input in ET.
        destruct (do_read_account dm header_len c
                    (read_store dest (firstn n1 b1) p))
          as [hl' q | r q] eqn:EA; cbn [step_input] in ET.
        -- rewrite ET in Hloop, Hturn_inv.
           destruct Hturn_inv as [Hhl' Hinv'].
           specialize (Hturn_skip _ _ ET). specialize (Hdec _ _ ET).
           subst n.
           destruct (IH _ Hdec hl' (set_read_input (skipn n1 b1) q) p1
                       eq_refl Hhl' Hinv' ltac:(lia) Hloop) as (G1 & G2).
           split; [exact G1|]. intros b2. rewrite <- G2.
           rewrite do_read_loop_eq.
           rewrite (do_read_turn_reads header_len (receive b2 p) c dest
                      (Hdest2 b2) Hc).
           cbv zeta.
           change (read_input (receive b2 p)) with (read_input p ++ b2).
           rewrite <- Hb1.
           replace (Nat.min (Z.to_nat c) (length (b1 ++ b2))) with n1
             by (rewrite length_app; lia).
           rewrite Hn1c.
           replace (c <=? 0) with false by (symmetry; apply Z.leb_gt; lia).
           change (set_read_input (skipn n1 (b1 ++ b2)) (receive b2 p))
             with (set_read_input (skipn n1 (b1 ++ b2)) p).
           rewrite read_store_input, do_read_account_input.
           rewrite firstn_app, skipn_app.
           replace (n1 - length b1)%nat with 0%nat by lia.
           cbn [firstn skipn]. rewrite app_nil_r, EA.
           reflexivity.
        -- rewrite ET in Hloop. injection Hloop as Hr _.
           apply do_read_account_return in EA. congruence.
      * assert (Hn1l : n1 = length b1) by lia.
        assert (Hk : 0 < Z.of_nat (length b1) < c) by lia.
        rewrite Hn1l in ET.
        replace (Z.of_nat (length b1) <=? 0) with false in ET
          by (symmetry; apply Z.leb_gt; lia).
        rewrite firstn_all, skipn_all in ET.
        destruct (do_read_account_short header_len p c dest
                    (Z.of_nat (length b1)) b1 [] Hdest Hk) as [EA Hdest'].
        rewrite EA in ET. clear EA.
        destruct (read_advance_store_fields dest (Z.of_nat (length b1)) b1
                    [] p) as (Hin' & Hskip' & Hlen').
        remember (read_advance dest (Z.of_nat (length b1))
                    (read_store dest b1 (set_read_input [] p))) as p' eqn:Hp'.
        rewrite ET in Hloop.
        assert (Hturn' : do_read_turn dm header_len p' = loop_return 0 p').
        { rewrite (do_read_turn_reads header_len p' _ dest Hdest')
            by lia.
          cbv zeta. rewrite Hin'. cbn [length].
          rewrite Nat.min_0_r. cbn [firstn skipn Z.of_nat Z.leb Z.compare].
          rewrite read_store_nil.
          pose proof (set_read_input_same p') as Hsame.
          rewrite Hin' in Hsame. rewrite Hsame. reflexivity. }
        rewrite do_read_loop_eq, Hturn' in Hloop.
        injection Hloop as <-.
        split; [lia|]. rewrite Hlen', <- Hhl.
        intros [|z b2].
        -- rewrite !receive_nil, Hloop0.
           rewrite do_read_loop_eq, Hturn'. reflexivity.
        -- rewrite (do_read_loop_eq dm _ (receive (z :: b2) p)).
           rewrite (do_read_loop_eq dm _ (receive (z :: b2) p')).
           rewrite (do_read_turn_reads header_len (receive (z :: b2) p) c
                      dest (Hdest2 (z :: b2)) Hc).
           rewrite (do_read_turn_reads header_len (receive (z :: b2) p')
                      (c - Z.of_nat (length b1)) dest)
             by (try exact Hdest'; lia).
           cbv zeta.
           change (read_input (receive (z :: b2) p))
             with (read_input p ++ z :: b2).
           change (read_input (receive (z :: b2) p'))
             with (read_input p' ++ z :: b2).
           rewrite <- Hb1, Hin'. cbn [app].
           set (b := z :: b2).
           set (n3 := Nat.min (Z.to_nat (c - Z.of_nat (length b1)))
                        (length b)).
           assert (Hn3 : (0 < n3)%nat) by (subst n3 b; cbn [length]; lia).
           replace (Nat.min (Z.to_nat c) (length (b1 ++ b)))
             with (length b1 + n3)%nat
             by (subst n3; rewrite length_app; lia).
           replace (Z.of_nat (length b1 + n3) <=? 0) with false
             by (symmetry; apply Z.leb_gt; lia).
           replace (Z.of_nat n3 <=? 0) with false
             by (symmetry; apply Z.leb_gt; lia).
           rewrite firstn_app, skipn_app.
           rewrite firstn_all2 by lia. rewrite skipn_all2 by lia.
           replace (length b1 + n3 - length b1)%nat with n3 by lia.
           cbn [app]. rewrite Nat2Z.inj_add.
           change (set_read_input (skipn n3 b) (receive b p))
             with (set_read_input (skipn n3 b) p).
           change (set_read_input (skipn n3 b) (receive b p'))
             with (set_read_input (skipn n3 b) p').
           rewrite Hp'.
           rewrite (do_read_account_joined header_len p c dest b1
                      (firstn n3 b) (Z.of_nat n3) (skipn n3 b) []
                      Hdest (proj1 Hh) (proj1 Ht) (proj1 Hd) Hk).
           reflexivity.
  - pose proof (do_read_turn_no_read header_len p c dest Hdest Hc) as ET.
    destruct (do_read_account dm header_len c p) as [hl' q | r q] eqn:EA.
    + pose proof (do_read_account_read_input dm _ _ _ _ _ EA) as Hq.
      rewrite ET in Hloop, Hturn_inv.
      destruct Hturn_inv as [Hhl' Hinv'].
      specialize (Hturn_skip _ _ ET). specialize (Hdec _ _ ET).
      subst n.
      destruct (IH _ Hdec hl' q p1 eq_refl Hhl' Hinv' ltac:(lia) Hloop)
        as (G1 & G2).
      split; [exact G1|]. intros b2. rewrite <- G2.
      rewrite do_read_loop_eq.
      rewrite (do_read_turn_no_read header_len (receive b2 p) c dest
                 (Hdest2 b2) Hc).
      unfold receive. rewrite do_read_account_input, EA, Hq.
      reflexivity.
    + rewrite ET in Hloop. injection Hloop as Hr _.
      apply do_read_account_return in EA. congruence.
Qed.

(** X16.  The bytes of the transport may come in any pieces.  When a call
    of [usbredirparser_do_read] has returned 0, the read would block,
    the next call, on the parser the first call left and the bytes that
    have come in since, returns what one call on all the bytes returns
    and leaves the same parser. *)
Theorem usbredirparser_do_read_chunks b2 p :
  usbredirparser_read_parse_error <> 0 ->
  read_invariants p -> to_skip p < 2 ^ 31 ->
  fst (usbredirparser_do_read dm p) = 0 ->
  usbredirparser_do_read dm (receive b2 (snd (usbredirparser_do_read dm p)))
  = usbredirparser_do_read dm (receive b2 p).
Proof.
  intros Herr Hinv Hmax Hret.
  destruct (Z_le_gt_dec (to_skip p) 0) as [Hs | Hs].
  - assert (E : usbredirparser_do_read dm p
                = do_read_loop dm (usbredirparser_get_header_len p) p)
      by (unfold usbredirparser_do_read;
          rewrite skip_loop_nothing by exact Hs; reflexivity).
    rewrite E in Hret |- *.
    destruct (do_read_loop dm (usbredirparser_get_header_len p) p)
      as [r p1] eqn:EL.
    cbn [fst] in Hret. subst r. cbn [snd].
    destruct (do_read_loop_chunks Herr _ _ p p1 eq_refl eq_refl Hinv Hs EL)
      as [G1 G2].
    unfold usbredirparser_do_read.
    rewrite (skip_loop_nothing (receive b2 p1)) by exact G1.
    rewrite (skip_loop_nothing (receive b2 p)) by exact Hs.
    symmetry. apply G2.
  - remember (read_input p) as b1 eqn:Hb1.
    destruct (Z_lt_le_dec (Z.of_nat (length b1)) (to_skip p)) as [Hlt | Hge].
    + assert (E : usbredirparser_do_read dm p
                  = (0, set_to_skip (to_skip p - Z.of_nat (length b1))
                          (set_read_input [] p))).
      { unfold usbredirparser_do_read.
        rewrite (skip_loop_starved b1 p) by (try (symmetry; exact Hb1); lia).
        reflexivity. }
      rewrite E. cbn [snd]. clear E Hret.
      set (p1 := set_to_skip (to_skip p - Z.of_nat (length b1))
                   (set_read_input [] p)).
      destruct (Z_lt_le_dec (Z.of_nat (length b2))
                  (to_skip p - Z.of_nat (length b1))) as [Hlt2 | Hge2].
      * unfold usbredirparser_do_read.
        rewrite (skip_loop_starved b2 (receive b2 p1))
          by (try reflexivity; cbn; lia).
        rewrite (skip_loop_starved (b1 ++ b2) (receive b2 p))
          by (try (cbn; rewrite <- Hb1; reflexivity);
              cbn; rewrite length_app; lia).
        f_equal.
        change (set_to_skip
                  (to_skip p - Z.of_nat (length b1) - Z.of_nat (length b2))
                  (set_read_input [] p)
                = set_to_skip (to_skip p - Z.of_nat (length (b1 ++ b2)))
                    (set_read_input [] p)).
        f_equal. rewrite length_app. lia.
      * set (k := Z.to_nat (to_skip p - Z.of_nat (length b1))).
        assert (Hk : (k <= length b2)%nat) by lia.
        unfold usbredirparser_do_read.
        rewrite (skip_loop_discards (firstn k b2) (receive b2 p1)
                   (skipn k b2));
          [| cbn; rewrite length_firstn; lia | cbn; lia
           | cbn; rewrite firstn_skipn; reflexivity].
        rewrite (skip_loop_discards (b1 ++ firstn k b2) (receive b2 p)
                   (skipn k b2));
          [| cbn; rewrite length_app, length_firstn; lia | cbn; lia
           | cbn; rewrite <- Hb1, <- app_assoc, firstn_skipn; reflexivity].
        reflexivity.
    + set (s := Z.to_nat (to_skip p)).
      assert (Hsl : (s <= length b1)%nat) by lia.
      set (q := set_to_skip 0 (set_read_input (skipn s b1) p)).
      assert (E : skip_loop p = (None, q)).
      { apply (skip_loop_discards (firstn s b1));
          [rewrite length_firstn; lia | exact Hmax
           | rewrite firstn_skipn; symmetry; exact Hb1]. }
      unfold usbredirparser_do_read in Hret |- *.
      rewrite E in Hret |- *.
      destruct (do_read_loop dm (usbredirparser_get_header_len p) q)
        as [r p1] eqn:EL.
      cbn [fst] in Hret. subst r. cbn [snd].
      assert (Hq0 : to_skip q <= 0) by (cbn; lia).
      destruct (do_read_loop_chunks Herr _ _ q p1 eq_refl eq_refl Hinv Hq0 EL)
        as [G1 G2].
      rewrite (skip_loop_nothing (receive b2 p1)) by exact G1.
      rewrite (skip_loop_discards (firstn s b1) (receive b2 p)
                 (skipn s b1 ++ b2));
        [| cbn; rewrite length_firstn; lia | exact Hmax
         | cbn; rewrite <- Hb1, app_assoc, firstn_skipn; reflexivity].
      symmetry. apply G2.
Qed.

End ParserChunks.

(* --------------------------------------------------------------------- *)
(** ** usbredirparser.c: from one side to the other                       *)
(* --------------------------------------------------------------------- *)

Section ParserWire.
Context `{usbredirproto_h} `{usbredirparser_h}.
Variable dm : data_model.

(** On the guest side the packet is queued, whatever the id. *)
Lemma usbredirparser_send_cancel_data_packet_queued id g :
  Z.land (flags g) usbredirparser_fl_usb_host = 0 ->
  let header_len := usbredirparser_get_header_len g in
  usbredirparser_send_cancel_data_packet dm id g
  = set_write_buf (to_int (write_buf_count g + 1))
      (write_buf g
       ++ [mk_buf
             (store32 (to_uint
                         (packet_type_value usb_redir_cancel_data_packet))
              ++ store32 0
              ++ (if usbredirparser_using_32bits_ids g
                  then store32 id else store64 id))
             0 header_len])
      (to_uint64 (write_buf_total_size g + header_len)) g.
Proof.
  intros Hguest header_len.
  unfold usbredirparser_send_cancel_data_packet, usbredirparser_queue.
  rewrite to_int_to_uint by apply packet_type_value_int.
  assert (Hthl : usbredirparser_get_type_header_len g
                   (packet_type_value usb_redir_cancel_data_packet) true
                 = 0).
  { unfold usbredirparser_get_type_header_len.
    rewrite packet_type_of_value. unfold command_for_host.
    rewrite Hguest. reflexivity. }
  rewrite Hthl. cbv zeta.
  unfold usbredirparser_verify_type_header.
  rewrite packet_type_of_value. cbn [fst Z.ltb Z.compare Z.eqb].
  fold header_len.
  assert (Hhl : header_len = 12 \/ header_len = 16).
  { subst header_len. unfold usbredirparser_get_header_len.
    destruct (usbredirparser_using_32bits_ids g); [left | right];
      reflexivity. }
  rewrite !Z.add_0_r.
  rewrite (to_int_small header_len) by lia.
  rewrite malloc_small by lia. cbn [negb].
  rewrite !take_bytes_0, !app_nil_r. reflexivity.
Qed.

(** The 32-bit field takes the low 32 bits of what is stored in it. *)
Lemma store32_mod v : store32 (v mod 2 ^ 32) = store32 v.
Proof.
  assert (Hbyte : forall k, 0 <= k <= 24 ->
            ((v mod 2 ^ 32) / 2 ^ k) mod 256 = (v / 2 ^ k) mod 256).
  { intros k Hk. change 256 with (2 ^ 8).
    rewrite <- !Z.shiftr_div_pow2 by lia.
    rewrite <- !Z.land_ones by lia.
    apply Z.bits_inj'. intros n Hn.
    rewrite !Z.land_spec, !Z.shiftr_spec, Z.land_spec by lia.
    destruct (Z.ltb_spec n 8) as [Hlow | Hhigh].
    - rewrite (Z.ones_spec_low 32) by lia.
      rewrite andb_true_r. reflexivity.
    - rewrite (Z.ones_spec_high 8) by lia.
      rewrite !andb_false_r. reflexivity. }
  unfold store32.
  pose proof (Hbyte 0 ltac:(lia)) as Hlow.
  change (2 ^ 0) with 1 in Hlow. rewrite !Z.div_1_r in Hlow.
  rewrite Hlow, (Hbyte 8), (Hbyte 16), (Hbyte 24) by lia.
  reflexivity.
Qed.

(** X17.  A cancel_data_packet crosses the wire: what
    [usbredirparser_send_cancel_data_packet] queues on the guest side
    for any [uint64_t] id and [usbredirparser_do_write] hands to the
    transport is read by [usbredirparser_do_read] on a host side parser
    that uses ids of the same width as one packet.
    [cancel_data_packet_func] is called with the id that was sent when
    the ids are 64 bits wide, and with its low 32 bits when they are 32
    bits wide: the sender stores the [uint64_t] in the 32-bit field. *)
Theorem usbredirparser_cancel_data_packet_crosses id g h :
  Z.land (flags g) usbredirparser_fl_usb_host = 0 ->
  write_buf g = [] -> write_invariants g ->
  Z.land (flags h) usbredirparser_fl_usb_host <> 0 ->
  to_skip h <= 0 -> header_read h = 0 -> type_header_read h = 0 ->
  data_read h = 0 ->
  usbredirparser_using_32bits_ids h = usbredirparser_using_32bits_ids g ->
  0 <= id < 2 ^ 64 ->
  exists g' wire h',
    usbredirparser_do_write [2 ^ 31]
      (usbredirparser_send_cancel_data_packet dm id g) = Some (0, g', wire)
    /\ write_buf g' = []
    /\ usbredirparser_do_read dm (set_read_input wire h) = (0, h')
    /\ callb h'
       = callb h
         ++ [callb_id usb_redir_cancel_data_packet
               (if usbredirparser_using_32bits_ids g then id mod 2 ^ 32
                else id)]
    /\ read_input h' = [] /\ header_read h' = 0.
Proof.
  intros Hguest Hempty Hinv Hhost Hskip Hhr Htr Hdr Hwidth Hid64.
  rewrite usbredirparser_send_cancel_data_packet_queued by exact Hguest.
  cbv zeta. rewrite Hempty. cbn [app].
  set (id' := if usbredirparser_using_32bits_ids g then id mod 2 ^ 32
              else id).
  assert (Hid : 0 <= id' < (if usbredirparser_using_32bits_ids g
                            then 2 ^ 32 else 2 ^ 64)).
  { subst id'. destruct (usbredirparser_using_32bits_ids g);
      [apply Z.mod_pos_bound; lia | exact Hid64]. }
  assert (Hidb : (if usbredirparser_using_32bits_ids g
                  then store32 id else store64 id)
                 = (if usbredirparser_using_32bits_ids g
                    then store32 id' else store64 id')).
  { subst id'. destruct (usbredirparser_using_32bits_ids g);
      [symmetry; apply store32_mod | reflexivity]. }
  rewrite Hidb. clearbody id'. clear Hidb.
  set (hl := usbredirparser_get_header_len g).
  assert (Hhl : hl = 12 \/ hl = 16).
  { subst hl. unfold usbredirparser_get_header_len.
    destruct (usbredirparser_using_32bits_ids g); [left | right];
      reflexivity. }
  set (wire := store32 (to_uint
                          (packet_type_value usb_redir_cancel_data_packet))
               ++ store32 0
               ++ (if usbredirparser_using_32bits_ids g
                   then store32 id' else store64 id')).
  assert (Hwire : Z.of_nat (length wire) = hl).
  { subst wire hl. unfold usbredirparser_get_header_len.
    destruct (usbredirparser_using_32bits_ids g); reflexivity. }
  set (g1 := set_write_buf (to_int (write_buf_count g + 1))
               [mk_buf wire 0 hl]
               (to_uint64 (write_buf_total_size g + hl)) g).
  assert (Hinv1 : write_invariants g1).
  { destruct Hinv as (_ & Hc & Ht). rewrite Hempty in Hc, Ht.
    cbn in Hc, Ht. subst g1. unfold write_invariants, set_write_buf.
    cbn [write_buf write_buf_count write_buf_total_size length map
         fold_right len].
    rewrite Hc, Ht. split; [|split].
    - constructor; [|constructor]. unfold write_buf_ok.
      cbn [pos len buf]. lia.
    - reflexivity.
    - rewrite Z.add_0_r. reflexivity. }
  pose proof (do_write_loop_drains [mk_buf wire 0 hl] [2 ^ 31] g1 []
                eq_refl Hinv1) as Hwrite.
  unfold usbredirparser_do_write. rewrite Hwrite; cycle 1.
  { constructor; [cbn; lia | constructor]. }
  { right. constructor; [reflexivity | constructor]. }
  { constructor; [lia | constructor]. }
  { cbn. lia. }
  cbn [flat_map app].
  assert (Hun : unwritten (mk_buf wire 0 hl) = wire).
  { unfold unwritten. cbn [pos len buf]. rewrite Z.sub_0_r.
    cbn [Z.to_nat skipn]. apply firstn_all2. lia. }
  rewrite Hun, app_nil_r.
  destruct (usbredirparser_do_read_cancel dm id' (set_read_input wire h))
    as (h' & Hread & Hcallb & Hin & Hhr');
    try assumption.
  - change (usbredirparser_using_32bits_ids (set_read_input wire h))
      with (usbredirparser_using_32bits_ids h).
    rewrite Hwidth. exact Hid.
  - change (usbredirparser_using_32bits_ids (set_read_input wire h))
      with (usbredirparser_using_32bits_ids h).
    rewrite Hwidth. reflexivity.
  - exists (set_write_buf 0 [] 0 g1), wire, h'.
    repeat split; assumption || reflexivity.
Qed.

End ParserWire.

(* --------------------------------------------------------------------- *)
(** ** usbredirparser.c: the capability bits                              *)
(* --------------------------------------------------------------------- *)

Section ParserCaps.
Context `{usbredirproto_h} `{usbredirparser_h}.

(** Testing and setting one bit of a word. *)
Lemma land_bit x k :
  0 <= k -> (Z.land x (Z.shiftl 1 k) =? 0) = negb (Z.testbit x k).
Proof.
  intros Hk. rewrite Z.shiftl_1_l.
  destruct (Z.testbit x k) eqn:E; cbn [negb].
  - apply Z.eqb_neq. intros Hz.
    assert (Hb : Z.testbit (Z.land x (2 ^ k)) k = true)
      by (rewrite Z.land_spec, E, Z.pow2_bits_true by exact Hk; reflexivity).
    rewrite Hz, Z.bits_0 in Hb. discriminate.
  - apply Z.eqb_eq. apply Z.bits_inj'. intros n Hn.
    rewrite Z.land_spec, Z.bits_0, Z.pow2_bits_eqb by exact Hk.
    destruct (k =? n) eqn:Ek; [|apply andb_false_r].
    apply Z.eqb_eq in Ek. subst n. rewrite E. reflexivity.
Qed.

Lemma lor_bit_range w k :
  0 <= w < 2 ^ 32 -> 0 <= k < 32 ->
  0 <= Z.lor w (Z.shiftl 1 k) < 2 ^ 32.
Proof.
  intros Hw Hk. rewrite Z.shiftl_1_l.
  assert (H2 : 0 <= 2 ^ k) by (apply Z.pow_nonneg; lia).
  split; [apply Z.lor_nonneg; split; lia|].
  destruct (Z.eq_dec (Z.lor w (2 ^ k)) 0) as [->|Hne]; [reflexivity|].
  apply Z.log2_lt_pow2; [pose proof (proj2 (Z.lor_nonneg w (2 ^ k))
                                       (conj (proj1 Hw) H2)); lia|].
  rewrite Z.log2_lor by lia.
  apply Z.max_lub_lt.
  - destruct (Z.eq_dec w 0) as [->|Hw0]; [reflexivity|].
    apply Z.log2_lt_pow2; lia.
  - rewrite Z.log2_pow2 by lia. lia.
Qed.

Lemma nth_caps_range caps i :
  Forall (fun w => 0 <= w < 2 ^ 32) caps -> 0 <= nth i caps 0 < 2 ^ 32.
Proof.
  intros Hc. revert i. induction Hc as [|w l Hw _ IH]; intros [|i];
    cbn [nth]; try lia; try exact Hw. apply IH.
Qed.

(** X18.  Set and test of a capability: after
    [usbredirparser_caps_set_cap] the capability set is found by
    [usbredirparser_caps_get_cap], every other capability is found as
    before, and the array is still an array of [USB_REDIR_CAPS_SIZE]
    32-bit words. *)
Theorem usbredirparser_caps_set_get caps cap cap' :
  caps_array caps -> 0 <= cap < 32 * USB_REDIR_CAPS_SIZE -> 0 <= cap' ->
  caps_array (usbredirparser_caps_set_cap caps cap)
  /\ usbredirparser_caps_get_cap (usbredirparser_caps_set_cap caps cap) cap'
     = if cap' =? cap then 1
       else usbredirparser_caps_get_cap caps cap'.
Proof.
  intros [Hlen Hrange] Hcap Hcap'.
  unfold usbredirparser_caps_set_cap, usbredirparser_caps_get_cap.
  rewrite !Z.quot_div_nonneg, !Z.rem_mod_nonneg by lia.
  pose proof (Z.mod_pos_bound cap 32 eq_refl) as Hk.
  pose proof (Z.mod_pos_bound cap' 32 eq_refl) as Hk'.
  assert (Hi : 0 <= cap / 32 < USB_REDIR_CAPS_SIZE)
    by (split; [apply Z.div_pos; lia | apply Z.div_lt_upper_bound; lia]).
  assert (Hi' : 0 <= cap' / 32) by (apply Z.div_pos; lia).
  pose proof (nth_caps_range caps (Z.to_nat (cap / 32)) Hrange) as Hw.
  pose proof (lor_bit_range _ _ Hw Hk) as Hlor.
  rewrite (to_uint_small _ Hlor).
  split.
  - split; [rewrite length_insert; exact Hlen|].
    apply Forall_insert; assumption.
  - destruct (cap' / 32 >=? USB_REDIR_CAPS_SIZE) eqn:Eo.
    + destruct (cap' =? cap) eqn:Ec; [|reflexivity].
      apply Z.eqb_eq in Ec. subst cap'.
      rewrite Z.geb_leb in Eo. apply Z.leb_le in Eo. lia.
    + rewrite !land_bit by lia.
      rewrite !negb_involutive.
      destruct (Z.eq_dec (cap' / 32) (cap / 32)) as [Ei|Ei].
      * rewrite Ei.
        rewrite (nth_lookup_Some _ _ 0 (Z.lor (nth (Z.to_nat (cap / 32)) caps 0)
                                          (Z.shiftl 1 (cap mod 32))))
          by (apply list_lookup_insert_eq; lia).
        rewrite Z.lor_spec, Z.shiftl_1_l, Z.pow2_bits_eqb by lia.
        destruct (cap' =? cap) eqn:Ec.
        -- apply Z.eqb_eq in Ec. subst cap'.
           rewrite Z.eqb_refl, orb_true_r. reflexivity.
        -- apply Z.eqb_neq in Ec.
           destruct (cap mod 32 =? cap' mod 32) eqn:Em.
           ++ apply Z.eqb_eq in Em. exfalso. apply Ec.
              rewrite (Z.div_mod cap' 32), (Z.div_mod cap 32) by lia. lia.
           ++ rewrite orb_false_r. reflexivity.
      * assert (Ec : (cap' =? cap) = false)
          by (apply Z.eqb_neq; intros ->; apply Ei; reflexivity).
        rewrite Ec.
        assert (Hn : nth (Z.to_nat (cap' / 32))
                       (<[Z.to_nat (cap / 32) :=
                            Z.lor (nth (Z.to_nat (cap / 32)) caps 0)
                              (Z.shiftl 1 (cap mod 32))]> caps) 0
                     = nth (Z.to_nat (cap' / 32)) caps 0).
        { rewrite !nth_lookup. rewrite list_lookup_insert_ne by lia.
          reflexivity. }
        rewrite Hn. reflexivity.
Qed.


Lemma usbredirparser_caps_get_cap_testbit caps cap :
  0 <= cap ->
  usbredirparser_caps_get_cap caps cap
  = if cap / 32 >=? USB_REDIR_CAPS_SIZE then 0
    else if Z.testbit (nth (Z.to_nat (cap / 32)) caps 0) (cap mod 32)
         then 1 else 0.
Proof.
  intros Hcap. unfold usbredirparser_caps_get_cap.
  rewrite !Z.quot_div_nonneg, !Z.rem_mod_nonneg by lia.
  pose proof (Z.mod_pos_bound cap 32 eq_refl) as Hk.
  rewrite land_bit, negb_involutive by lia. reflexivity.
Qed.

(** What [usbredirparser_verify_caps] returns. *)
Lemma usbredirparser_verify_caps_spec caps :
  caps_array caps -> 0 <= usb_redir_cap_bulk_streams < 32 ->
  0 <= usb_redir_cap_ep_info_max_packet_size ->
  let caps' := usbredirparser_verify_caps caps in
  caps_array caps'
  /\ (usbredirparser_caps_get_cap caps' usb_redir_cap_bulk_streams = 1 ->
      usbredirparser_caps_get_cap caps' usb_redir_cap_ep_info_max_packet_size
      = 1)
  /\ (forall cap,
        0 <= cap -> cap <> usb_redir_cap_bulk_streams ->
        usbredirparser_caps_get_cap caps' cap
        = usbredirparser_caps_get_cap caps cap)
  /\ usbredirparser_verify_caps caps' = caps'.
Proof.
  intros [Hlen Hrange] Hb He. cbv zeta.
  pose proof USB_REDIR_CAPS_SIZE_pos as Hsize.
  set (b := usb_redir_cap_bulk_streams) in *.
  set (e := usb_redir_cap_ep_info_max_packet_size) in *.
  assert (Hb0 : b / 32 = 0) by (apply Z.div_small; lia).
  assert (Hbm : b mod 32 = b) by (apply Z.mod_small; lia).
  assert (Hget : forall c cap,
            usbredirparser_caps_get_cap c cap = 0
            \/ usbredirparser_caps_get_cap c cap = 1).
  { intros c cap. unfold usbredirparser_caps_get_cap.
    destruct (_ >=? _); [left; reflexivity|].
    destruct (negb _); [right | left]; reflexivity. }
  unfold usbredirparser_verify_caps. fold b e.
  destruct (negb (usbredirparser_caps_get_cap caps b =? 0)
            && (usbredirparser_caps_get_cap caps e =? 0)) eqn:Ec.
  - apply andb_true_iff in Ec as [Ec1 Ec2].
    pose proof (nth_caps_range caps 0 Hrange) as Hw.
    set (w := nth 0 caps 0) in *.
    assert (Hland : 0 <= Z.land w (Z.lnot (Z.shiftl 1 b)) < 2 ^ 32).
    { assert (Hm : Z.land w (Z.lnot (Z.shiftl 1 b)) mod 2 ^ 32
                   = Z.land w (Z.lnot (Z.shiftl 1 b))).
      { rewrite <- Z.land_ones by lia.
        rewrite <- Z.land_assoc, (Z.land_comm (Z.lnot _)), Z.land_assoc.
        rewrite Z.land_ones, Z.mod_small by lia. reflexivity. }
      rewrite <- Hm. apply Z.mod_pos_bound. reflexivity. }
    rewrite (to_uint_small _ Hland).
    set (caps' := <[0%nat := Z.land w (Z.lnot (Z.shiftl 1 b))]> caps).
    assert (Hn0 : nth 0 caps' 0 = Z.land w (Z.lnot (Z.shiftl 1 b))).
    { apply nth_lookup_Some. subst caps'.
      apply list_lookup_insert_eq. lia. }
    assert (Hbulk : usbredirparser_caps_get_cap caps' b = 0).
    { rewrite usbredirparser_caps_get_cap_testbit by lia.
      rewrite Hb0, Hbm. change (Z.to_nat 0) with 0%nat. rewrite Hn0.
      rewrite Z.land_spec, Z.lnot_spec, Z.shiftl_1_l, Z.pow2_bits_true
        by lia.
      rewrite andb_false_r. destruct (0 >=? _); reflexivity. }
    split; [|split; [|split]].
    + split; [subst caps'; rewrite length_insert; exact Hlen|].
      apply Forall_insert; assumption.
    + rewrite Hbulk. discriminate.
    + intros cap Hcap Hne.
      rewrite !usbredirparser_caps_get_cap_testbit by lia.
      destruct (cap / 32 >=? USB_REDIR_CAPS_SIZE); [reflexivity|].
      assert (Hc : 0 <= cap / 32) by (apply Z.div_pos; lia).
      destruct (Z.eq_dec (cap / 32) 0) as [E0|E0].
      * rewrite E0. change (Z.to_nat 0) with 0%nat. rewrite Hn0. fold w.
        pose proof (Z.mod_pos_bound cap 32 eq_refl) as Hk.
        rewrite Z.land_spec, Z.lnot_spec, Z.shiftl_1_l, Z.pow2_bits_eqb
          by lia.
        destruct (b =? cap mod 32) eqn:Ek; [|rewrite andb_true_r;
                                              reflexivity].
        apply Z.eqb_eq in Ek. exfalso. apply Hne.
        rewrite (Z.div_mod cap 32) by lia. lia.
      * subst caps'. rewrite !nth_lookup.
        rewrite list_lookup_insert_ne by lia. reflexivity.
    + unfold usbredirparser_verify_caps. fold b e caps'.
      rewrite Hbulk. reflexivity.
  - split; [split; assumption|]. split; [|split].
    + intros Hone. apply andb_false_iff in Ec as [Ec|Ec].
      * rewrite Hone in Ec. discriminate.
      * apply Z.eqb_neq in Ec. destruct (Hget caps e); [contradiction|].
        assumption.
    + reflexivity.
    + unfold usbredirparser_verify_caps. fold b e. rewrite Ec. reflexivity.
Qed.

(** X19.  [usbredirparser_verify_caps] leaves no bulk_streams capability
    without ep_info_max_packet_size: the capabilities it returns have the
    second whenever they have the first; no capability but bulk_streams is
    changed, and a second call changes nothing. *)
Theorem usbredirparser_verify_caps_couples caps :
  caps_array caps -> 0 <= usb_redir_cap_bulk_streams < 32 ->
  0 <= usb_redir_cap_ep_info_max_packet_size ->
  let caps' := usbredirparser_verify_caps caps in
  caps_array caps'
  /\ (usbredirparser_caps_get_cap caps' usb_redir_cap_bulk_streams = 1 ->
      usbredirparser_caps_get_cap caps' usb_redir_cap_ep_info_max_packet_size
      = 1)
  /\ (forall cap,
        0 <= cap -> cap <> usb_redir_cap_bulk_streams ->
        usbredirparser_caps_get_cap caps' cap
        = usbredirparser_caps_get_cap caps cap)
  /\ usbredirparser_verify_caps caps' = caps'.
Proof.
  exact (usbredirparser_verify_caps_spec caps).
Qed.

End ParserCaps.

(* --------------------------------------------------------------------- *)
(** ** usbredirparser.c: the hello                                        *)
(* --------------------------------------------------------------------- *)

Section ParserHello.
Context `{usbredirproto_h} `{usbredirparser_h}.
Variable dm : data_model.

(** Field updates of the parser record, unfolded in the goal. *)
Ltac parser_goal :=
  unfold set_flags, set_have_peer_caps, set_our_caps, set_peer_caps,
    set_header, set_type_header, set_header_read, set_type_header_len,
    set_type_header_read, set_data, set_data_len, set_data_read,
    set_to_skip, set_write_buf, set_callb, set_read_input;
  cbn [flags have_peer_caps our_caps peer_caps header type_header
       header_read type_header_len type_header_read data data_len
       data_read to_skip write_buf_count write_buf write_buf_total_size
       callb read_input].

(** Turns of the loop that read a whole type header, and the whole data
    of a packet. *)
Lemma read_func_all bytes rest :
  read_func (Z.of_nat (length bytes)) (bytes ++ rest)
  = (Z.of_nat (length bytes), bytes, rest).
Proof.
  unfold read_func. rewrite Nat2Z.id.
  replace (Nat.min (length bytes) (length (bytes ++ rest)))
    with (length bytes) by (rewrite length_app; lia).
  rewrite firstn_app, Nat.sub_diag, firstn_all, firstn_O, app_nil_r.
  rewrite skipn_app, Nat.sub_diag, skipn_all. reflexivity.
Qed.

Lemma do_read_turn_type_header header_len th rest p :
  header_read p = header_len -> type_header_read p = 0 ->
  0 < type_header_len p ->
  Z.of_nat (length th) = type_header_len p ->
  read_input p = th ++ rest ->
  do_read_turn dm header_len p
  = loop_continue header_len
      (set_type_header_read (type_header_len p)
         (set_type_header (memcpy (type_header p) 0 th)
            (set_read_input rest p))).
Proof.
  intros Hhr Htr Hpos Hlen Hin.
  unfold do_read_turn, do_read_dest. rewrite Hhr, Htr, Z.ltb_irrefl.
  replace (0 <? type_header_len p) with true
    by (symmetry; apply Z.ltb_lt; lia).
  rewrite Z.sub_0_r.
  replace (type_header_len p >? 0) with true
    by (symmetry; apply Z.gtb_lt; lia).
  unfold read_to. rewrite Hin, <- Hlen, read_func_all.
  replace (Z.of_nat (length th) <=? 0) with false
    by (symmetry; apply Z.leb_gt; lia).
  unfold do_read_account. parser_goal.
  rewrite Hhr, Htr, Z.ltb_irrefl.
  replace (0 <? type_header_len p) with true
    by (symmetry; apply Z.ltb_lt; lia).
  rewrite Hlen. reflexivity.
Qed.

Lemma do_read_turn_data header_len d bytes rest p :
  header_read p = header_len ->
  type_header_read p = type_header_len p ->
  data p = Some d -> data_read p = 0 -> 0 < data_len p ->
  Z.of_nat (length bytes) = data_len p ->
  read_input p = bytes ++ rest ->
  do_read_turn dm header_len p
  = do_read_packet_complete dm
      (set_data_read (data_len p)
         (set_data (Some (memcpy d 0 bytes)) (set_read_input rest p))).
Proof.
  intros Hhr Htr Hd Hdr Hpos Hlen Hin.
  unfold do_read_turn, do_read_dest.
  rewrite Hhr, Htr, Hdr, !Z.ltb_irrefl, Z.sub_0_r.
  replace (data_len p >? 0) with true
    by (symmetry; apply Z.gtb_lt; lia).
  unfold read_to. rewrite Hin, <- Hlen, read_func_all.
  replace (Z.of_nat (length bytes) <=? 0) with false
    by (symmetry; apply Z.leb_gt; lia).
  unfold do_read_account. parser_goal.
  rewrite Hhr, Htr, Hd, Hdr, !Z.ltb_irrefl. cbv zeta. parser_goal.
  rewrite Hlen, Z.add_0_l, Z.eqb_refl. reflexivity.
Qed.

Lemma do_read_loop_starved header_len p :
  header_read p < header_len -> read_input p = [] ->
  do_read_loop dm header_len p
  = (0, set_header (memcpy (header p) (header_read p) []) p).
Proof.
  intros Hlt Hin. rewrite do_read_loop_eq.
  unfold do_read_turn, do_read_dest.
  replace (header_read p <? header_len) with true
    by (symmetry; apply Z.ltb_lt; lia).
  replace (header_len - header_read p >? 0) with true
    by (symmetry; apply Z.gtb_lt; lia).
  unfold read_to, read_func. rewrite Hin. cbn [length].
  rewrite Nat.min_0_r. cbn [firstn skipn Z.of_nat Z.leb Z.compare].
  destruct p; cbn in Hin; subst; reflexivity.
Qed.


(** The three stages of reading a hello. *)
Lemma header_received_hello dl rest p :
  0 <= sizeof_usb_redir_hello_header + dl < 2 ^ 32 ->
  let q := header_received 12 (hello_fixed dl) rest p in
  packet_type_of (to_int (header_type q)) = Some usb_redir_hello
  /\ header_length q = sizeof_usb_redir_hello_header + dl.
Proof.
  intros Hrange. cbv zeta.
  unfold header_type, header_length, header_received, hello_fixed.
  cbn [header set_header_read set_header].
  rewrite memcpy_head, <- !app_assoc. split.
  - rewrite load32_store32, to_uint_mod.
    rewrite to_int_to_uint by apply packet_type_value_int.
    apply packet_type_of_value.
  - change 4%nat with (4 + 0)%nat.
    rewrite load32_behind_word, load32_store32, to_uint_mod.
    apply to_uint_small. exact Hrange.
Qed.

Lemma do_read_header_complete_hello dl q :
  0 < dl ->
  0 < sizeof_usb_redir_hello_header <= sizeof_type_header ->
  sizeof_usb_redir_hello_header + dl <= MAX_PACKET_SIZE ->
  packet_type_of (to_int (header_type q)) = Some usb_redir_hello ->
  header_length q = sizeof_usb_redir_hello_header + dl ->
  do_read_header_complete dm 12 q
  = loop_continue 12
      (set_data_len dl
         (set_type_header_len sizeof_usb_redir_hello_header
            (set_data (Some (repeat 0 (Z.to_nat dl))) q))).
Proof.
  intros Hdl Hsize Hmax Hpt Hlen.
  assert (HMAX : MAX_PACKET_SIZE < 2 ^ 31) by reflexivity.
  set (thl := sizeof_usb_redir_hello_header) in *.
  unfold do_read_header_complete, usbredirparser_get_type_header_len,
    usbredirparser_expect_extra_data.
  rewrite Hpt, Hlen. fold thl.
  rewrite (to_int_small (thl + dl)) by lia.
  replace (thl + dl - thl) with dl by lia.
  rewrite (to_int_small dl) by lia.
  replace (thl <? 0) with false by (symmetry; apply Z.ltb_ge; lia).
  replace (thl >? sizeof_type_header) with false
    by (symmetry; rewrite Z.gtb_ltb; apply Z.ltb_ge; lia).
  replace (thl + dl >? MAX_PACKET_SIZE) with false
    by (symmetry; rewrite Z.gtb_ltb; apply Z.ltb_ge; lia).
  replace (thl + dl <? thl) with false
    by (symmetry; apply Z.ltb_ge; lia).
  cbn [negb andb orb]. rewrite andb_false_r. cbv zeta.
  replace (dl =? 0) with false by (symmetry; apply Z.eqb_neq; lia).
  cbn [negb]. rewrite malloc_small by lia. reflexivity.
Qed.

Lemma do_read_packet_complete_hello caps d0 q :
  caps_array caps ->
  packet_type_of (to_int (header_type q)) = Some usb_redir_hello ->
  have_peer_caps q = 0 ->
  data q = Some (memcpy d0 0 (words_bytes caps)) ->
  data_len q = USB_REDIR_CAPS_SIZE * 4 ->
  USB_REDIR_CAPS_SIZE * 4 < 2 ^ 31 ->
  let r' :=
    set_data None
      (set_data_read 0
         (set_data_len 0
            (set_type_header_read 0
               (set_type_header_len 0
                  (set_header_read 0
                     (call (callb_header usb_redir_hello (type_header q))
                        (set_have_peer_caps 1
                           (set_peer_caps (usbredirparser_verify_caps caps)
                              q)))))))) in
  do_read_packet_complete dm q
  = loop_continue (usbredirparser_get_header_len r') r'.
Proof.
  intros Hcaps Hpt Hnone Hdata Hdl Hmax.
  pose proof USB_REDIR_CAPS_SIZE_pos as Hcs.
  set (dl := USB_REDIR_CAPS_SIZE * 4) in *.
  unfold do_read_packet_complete, usbredirparser_verify_type_header.
  rewrite Hpt. cbv beta iota zeta. cbn [Z.eqb negb].
  unfold usbredirparser_call_type_func.
  change (header_type (set_type_header (type_header q) q))
    with (header_type q).
  rewrite Hpt. cbv beta iota zeta.
  unfold usbredirparser_handle_hello.
  change (have_peer_caps (set_type_header (type_header q) q))
    with (have_peer_caps q).
  change (data (set_type_header (type_header q) q)) with (data q).
  change (data_len (set_type_header (type_header q) q)) with (data_len q).
  change (type_header (set_type_header (type_header q) q))
    with (type_header q).
  rewrite Hnone, Hdata, Hdl. cbn [Z.eqb negb]. cbv zeta.
  assert (Hsz : to_size_t dm dl = dl)
    by (unfold to_size_t; apply Z.mod_small; destruct dm;
        cbn [LONG_BITS]; lia).
  rewrite Hsz. unfold sizeof_peer_caps. fold dl.
  replace (dl >? dl) with false
    by (symmetry; rewrite Z.gtb_ltb; apply Z.ltb_irrefl).
  rewrite Hsz.
  replace (dl / 4) with USB_REDIR_CAPS_SIZE
    by (subst dl; symmetry; apply Z.div_mul; lia).
  rewrite Nat.sub_diag. cbn [repeat]. rewrite app_nil_r.
  rewrite <- (app_nil_r (memcpy d0 0 (words_bytes caps))).
  rewrite caps_array_restored by exact Hcaps.
  destruct q; reflexivity.
Qed.

Lemma usbredirparser_do_read_hello hello caps r :
  0 < sizeof_usb_redir_hello_header <= sizeof_type_header ->
  sizeof_usb_redir_hello_header + USB_REDIR_CAPS_SIZE * 4
  <= MAX_PACKET_SIZE ->
  Z.of_nat (length hello) = sizeof_usb_redir_hello_header ->
  caps_array caps ->
  to_skip r <= 0 -> header_read r = 0 -> type_header_read r = 0 ->
  data_read r = 0 -> have_peer_caps r = 0 ->
  usbredirparser_using_32bits_ids r = true ->
  exists r',
    usbredirparser_do_read dm (set_read_input (hello_packet hello caps) r)
    = (0, r')
    /\ have_peer_caps r' = 1
    /\ peer_caps r' = usbredirparser_verify_caps caps
    /\ our_caps r' = our_caps r
    /\ callb r'
       = callb r
         ++ [callb_header usb_redir_hello
               (memcpy (type_header r) 0 hello)]
    /\ read_input r' = [] /\ header_read r' = 0.
Proof.
  intros Hsize Hmax Hhello Hcaps Hskip Hhr Htr Hdr Hnone H32.
  pose proof USB_REDIR_CAPS_SIZE_pos as Hcs.
  pose proof (caps_array_bytes caps Hcaps) as Hcb.
  assert (HMAX : MAX_PACKET_SIZE < 2 ^ 31) by reflexivity.
  set (thl := sizeof_usb_redir_hello_header) in *.
  set (dl := USB_REDIR_CAPS_SIZE * 4) in *.
  set (p := set_read_input (hello_packet hello caps) r).
  assert (Hhl : usbredirparser_get_header_len p = 12).
  { unfold usbredirparser_get_header_len.
    change (usbredirparser_using_32bits_ids p)
      with (usbredirparser_using_32bits_ids r).
    rewrite H32. reflexivity. }
  rewrite usbredirparser_do_read_no_skip by exact Hskip.
  rewrite Hhl, do_read_loop_eq.
  rewrite (do_read_turn_header dm 12 (hello_fixed dl)
             (hello ++ words_bytes caps))
    by (try reflexivity; try lia; exact Hhr).
  set (q := header_received 12 (hello_fixed dl) (hello ++ words_bytes caps)
              p).
  destruct (header_received_hello dl (hello ++ words_bytes caps) p)
    as [Hpt Hlen]; [fold thl; lia|]. fold q in Hpt, Hlen.
  rewrite (do_read_header_complete_hello dl q)
    by (try assumption; fold thl; lia).
  fold thl.
  set (q1 := set_data_len dl
               (set_type_header_len thl
                  (set_data (Some (repeat 0 (Z.to_nat dl))) q))).
  rewrite do_read_loop_eq.
  rewrite (do_read_turn_type_header 12 hello (words_bytes caps) q1);
    [| reflexivity | exact Htr | exact (proj1 Hsize) | exact Hhello
     | reflexivity].
  change (type_header_len q1) with thl.
  change (type_header q1) with (type_header r).
  set (q2 := set_type_header_read thl
               (set_type_header (memcpy (type_header r) 0 hello)
                  (set_read_input (words_bytes caps) q1))).
  rewrite do_read_loop_eq.
  rewrite (do_read_turn_data 12 (repeat 0 (Z.to_nat dl))
             (words_bytes caps) [] q2);
    [| reflexivity | reflexivity | reflexivity | exact Hdr
     | change (data_len q2) with dl; lia | exact Hcb
     | symmetry; apply app_nil_r].
  change (data_len q2) with dl.
  set (q3 := set_data_read dl
               (set_data
                  (Some (memcpy (repeat 0 (Z.to_nat dl)) 0
                           (words_bytes caps)))
                  (set_read_input [] q2))).
  rewrite (do_read_packet_complete_hello caps (repeat 0 (Z.to_nat dl)) q3);
    [| exact Hcaps | exact Hpt | exact Hnone | reflexivity | reflexivity
     | fold dl; lia].
  cbv zeta.
  match goal with
  | |- context [do_read_loop _ ?hl ?p'] =>
      set (hl' := hl); set (r' := p')
  end.
  assert (Hpos : 0 < hl') by apply usbredirparser_get_header_len_pos.
  rewrite do_read_loop_starved; [| exact Hpos | reflexivity].
  eexists. split; [reflexivity|].
  split; [reflexivity|]. split; [reflexivity|]. split; [reflexivity|].
  split; [reflexivity|]. split; reflexivity.
Qed.


Lemma caps_array_set_cap caps cap :
  caps_array caps -> caps_array (usbredirparser_caps_set_cap caps cap).
Proof.
  intros [Hlen Hrange]. unfold usbredirparser_caps_set_cap.
  split; [rewrite length_insert; exact Hlen|].
  destruct (decide (Z.to_nat (Z.quot cap 32) < length caps)%nat) as [Hi|Hi].
  - apply Forall_insert; [exact Hrange|].
    unfold to_uint. apply Z.mod_pos_bound. reflexivity.
  - rewrite list_insert_ge by lia. exact Hrange.
Qed.

(** What [usbredirparser_init] queues. *)
Lemma usbredirparser_init_hello version caps caps_len flags_in transport :
  0 < sizeof_usb_redir_hello_header ->
  sizeof_usb_redir_hello_header + USB_REDIR_CAPS_SIZE * 4 < 2 ^ 31 - 12 ->
  0 <= usb_redir_cap_bulk_streams < 32 ->
  0 <= usb_redir_cap_ep_info_max_packet_size ->
  Z.land flags_in usbredirparser_fl_no_hello = 0 ->
  Forall (fun w => 0 <= w < 2 ^ 32) caps ->
  0 <= caps_len <= Z.of_nat (length caps) ->
  let s := usbredirparser_init dm version caps caps_len flags_in
             (usbredirparser_create transport) in
  caps_array (our_caps s)
  /\ usbredirparser_verify_caps (our_caps s) = our_caps s
  /\ write_buf s
     = [mk_buf
          (hello_packet
             (take_bytes sizeof_usb_redir_hello_header
                (hello_header version))
             (our_caps s))
          0 (12 + sizeof_usb_redir_hello_header + USB_REDIR_CAPS_SIZE * 4)]
  /\ write_invariants s.
Proof.
  intros Hthl Hmax Hb He Hhello Hrange Hlen.
  pose proof USB_REDIR_CAPS_SIZE_pos as Hcs.
  set (thl := sizeof_usb_redir_hello_header) in *.
  set (dl := USB_REDIR_CAPS_SIZE * 4) in *.
  unfold usbredirparser_init. cbv zeta. rewrite Hhello. cbn [Z.eqb].
  match goal with
  | |- context [usbredirparser_queue _ _ _ _ _ _ ?q] => set (q0 := q)
  end.
  assert (H0caps : exists c, our_caps q0 = usbredirparser_verify_caps c
                             /\ caps_array c).
  { set (n := if caps_len >? USB_REDIR_CAPS_SIZE then USB_REDIR_CAPS_SIZE
              else caps_len).
    assert (Hn : 0 <= n <= USB_REDIR_CAPS_SIZE
                 /\ n <= Z.of_nat (length caps)).
    { subst n. destruct (caps_len >? USB_REDIR_CAPS_SIZE) eqn:E.
      - rewrite Z.gtb_ltb in E. apply Z.ltb_lt in E. lia.
      - rewrite Z.gtb_ltb in E. apply Z.ltb_ge in E. lia. }
    assert (Hc1 : caps_array
                    (firstn (Z.to_nat n) caps
                     ++ skipn (Z.to_nat n)
                          (repeat 0 (Z.to_nat USB_REDIR_CAPS_SIZE)))).
    { split.
      - rewrite length_app, length_firstn, length_skipn, repeat_length.
        lia.
      - apply Forall_app. split.
        + apply Forall_take. exact Hrange.
        + apply Forall_drop. apply List.Forall_forall.
          intros w Hw. apply repeat_spec in Hw. subst w. lia. }
    subst q0.
    destruct (Z.land flags_in usbredirparser_fl_usb_host =? 0);
      eexists; (split; [reflexivity|]);
      [apply caps_array_set_cap|]; exact Hc1. }
  destruct H0caps as (c & Hc & Hcarr).
  destruct (usbredirparser_verify_caps_spec c Hcarr Hb He)
    as (Harr & _ & _ & Hidem).
  rewrite <- Hc in Harr, Hidem.
  assert (Hq0 : write_buf q0 = [] /\ write_buf_count q0 = 0
                /\ write_buf_total_size q0 = 0
                /\ peer_caps q0 = repeat 0 (Z.to_nat USB_REDIR_CAPS_SIZE)).
  { subst q0.
    destruct (Z.land flags_in usbredirparser_fl_usb_host =? 0);
      repeat split; reflexivity. }
  destruct Hq0 as (Hw0 & Hc0 & Ht0 & Hp0).
  assert (H32 : usbredirparser_using_32bits_ids q0 = true).
  { unfold usbredirparser_using_32bits_ids, usbredirparser_peer_has_cap.
    rewrite Hp0, usbredirparser_caps_get_cap_zeros. apply orb_true_r. }
  assert (Hhl : usbredirparser_get_header_len q0 = 12)
    by (unfold usbredirparser_get_header_len; rewrite H32; reflexivity).
  unfold usbredirparser_queue.
  rewrite to_int_to_uint by apply packet_type_value_int.
  assert (Hthl' : usbredirparser_get_type_header_len q0
                    (packet_type_value usb_redir_hello) true = thl).
  { unfold usbredirparser_get_type_header_len.
    rewrite packet_type_of_value. reflexivity. }
  rewrite Hthl'. cbv zeta.
  unfold usbredirparser_verify_type_header.
  rewrite packet_type_of_value. cbn [fst Z.eqb].
  replace (thl <? 0) with false by (symmetry; apply Z.ltb_ge; lia).
  rewrite Hhl, H32. fold dl.
  rewrite (to_int_small (12 + thl + dl)) by lia.
  rewrite malloc_small by lia. cbn [negb].
  rewrite Hw0, Hc0, Ht0. cbn [app].
  change (our_caps (set_write_buf _ _ _ q0)) with (our_caps q0).
  rewrite (take_bytes_all dl (words_bytes (our_caps q0)))
    by (apply caps_array_bytes; exact Harr).
  split; [exact Harr|]. split; [exact Hidem|]. split.
  - unfold hello_packet, hello_fixed. fold thl dl.
    rewrite <- !app_assoc. reflexivity.
  - unfold write_invariants.
    cbn [write_buf write_buf_count write_buf_total_size set_write_buf
         length map fold_right len].
    split; [|split; [reflexivity|]].
    + constructor; [|constructor]. unfold write_buf_ok.
      cbn [pos len buf]. rewrite !length_app, take_bytes_length.
      repeat match goal with
             | |- context [length (store32 ?v)] =>
                 change (length (store32 v)) with 4%nat
             end.
      pose proof (caps_array_bytes _ Harr) as Hbytes. fold dl in Hbytes.
      lia.
    + rewrite Z.add_0_r, Z.add_0_l. unfold to_uint64.
      rewrite Z.mod_small by lia. reflexivity.
Qed.


(** X20.  The hello crosses the wire: what [usbredirparser_init] queues
    and [usbredirparser_do_write] hands to the transport is read by
    [usbredirparser_do_read] on a parser that has no capabilities of its
    peer yet as one packet; [hello_func] is called with the version sent,
    and from then on the receiver has the sender's capabilities as its
    peer's. *)
Theorem usbredirparser_hello_crosses version caps caps_len flags_in r :
  0 < sizeof_usb_redir_hello_header <= sizeof_type_header ->
  sizeof_usb_redir_hello_header + USB_REDIR_CAPS_SIZE * 4
  <= MAX_PACKET_SIZE ->
  0 <= usb_redir_cap_bulk_streams < 32 ->
  0 <= usb_redir_cap_ep_info_max_packet_size ->
  Z.land flags_in usbredirparser_fl_no_hello = 0 ->
  Forall (fun w => 0 <= w < 2 ^ 32) caps ->
  0 <= caps_len <= Z.of_nat (length caps) ->
  to_skip r <= 0 -> header_read r = 0 -> type_header_read r = 0 ->
  data_read r = 0 -> have_peer_caps r = 0 ->
  usbredirparser_using_32bits_ids r = true ->
  let s := usbredirparser_init dm version caps caps_len flags_in
             (usbredirparser_create []) in
  exists s' wire r',
    usbredirparser_do_write [2 ^ 31] s = Some (0, s', wire)
    /\ write_buf s' = []
    /\ usbredirparser_do_read dm (set_read_input wire r) = (0, r')
    /\ have_peer_caps r' = 1
    /\ peer_caps r' = our_caps s
    /\ our_caps r' = our_caps r
    /\ callb r'
       = callb r
         ++ [callb_header usb_redir_hello
               (memcpy (type_header r) 0
                  (take_bytes sizeof_usb_redir_hello_header
                     (hello_header version)))]
    /\ read_input r' = [] /\ header_read r' = 0.
Proof.
  intros Hsize Hmax Hb He Hhello Hrange Hlen Hskip Hhr Htr Hdr Hnone H32 s.
  assert (HMAX : MAX_PACKET_SIZE < 2 ^ 31 - 12) by reflexivity.
  pose proof USB_REDIR_CAPS_SIZE_pos as Hcs.
  destruct (usbredirparser_init_hello version caps caps_len flags_in [])
    as (Harr & Hidem & Hbuf & Hinv);
    try assumption; try lia.
  fold s in Harr, Hidem, Hbuf, Hinv.
  set (hello := take_bytes sizeof_usb_redir_hello_header
                  (hello_header version)) in *.
  set (wire := hello_packet hello (our_caps s)) in *.
  set (total := 12 + sizeof_usb_redir_hello_header
                + USB_REDIR_CAPS_SIZE * 4) in *.
  assert (Hok : write_buf_ok (mk_buf wire 0 total)).
  { destruct Hinv as (Hok & _). rewrite Hbuf in Hok.
    inversion Hok; assumption. }
  pose proof (do_write_loop_drains [mk_buf wire 0 total] [2 ^ 31] s []
                Hbuf Hinv) as Hwrite.
  unfold usbredirparser_do_write. rewrite Hwrite; cycle 1.
  { constructor; [|constructor]. cbn [pos len]. subst total. lia. }
  { right. constructor; [reflexivity | constructor]. }
  { constructor; [lia | constructor]. }
  { cbn. lia. }
  cbn [flat_map app].
  assert (Hun : unwritten (mk_buf wire 0 total) = wire).
  { destruct Hok as (_ & _ & Hl). cbn [buf len] in Hl.
    unfold unwritten. cbn [pos len buf]. rewrite Z.sub_0_r.
    cbn [Z.to_nat skipn]. apply firstn_all2. lia. }
  rewrite Hun, app_nil_r.
  destruct (usbredirparser_do_read_hello hello (our_caps s) r)
    as (r' & Hread & Hr1 & Hr2 & Hr3 & Hr4 & Hr5 & Hr6);
    try assumption.
  { subst hello. rewrite take_bytes_length. lia. }
  exists (set_write_buf 0 [] 0 s), wire, r'.
  rewrite Hidem in Hr2.
  repeat split; assumption || reflexivity.
Qed.

End ParserHello.

(* --------------------------------------------------------------------- *)
(** ** usbredirparser.c: a filter on the wire                             *)
(* --------------------------------------------------------------------- *)

Section ParserFilter.
Context `{usbredirproto_h} `{usbredirparser_h}.
Variable dm : data_model.

Lemma hex_digit_no_nul d : hex_digit d <> zero.
Proof.
  pose proof (hex_digit_cases d) as Hd. cbn [In] in Hd.
  repeat (destruct Hd as [<- | Hd]; [discriminate|]). contradiction.
Qed.

Lemma field_to_string_no_nul w v :
  Forall (fun c => c <> zero) (field_to_string w v).
Proof.
  unfold field_to_string. destruct (negb (v =? -1)).
  - constructor; [discriminate|]. constructor; [discriminate|].
    apply sprintf_0x_chars. exact hex_digit_no_nul.
  - repeat (constructor; [discriminate|]). constructor.
Qed.

Lemma rules_to_string_loop_no_nul rules :
  Forall (fun c => c <> zero) (rules_to_string_loop "," "|" rules).
Proof.
  induction rules as [|r rules IH]; [constructor|].
  cbn [rules_to_string_loop]. apply Forall_app. split; [|exact IH].
  rewrite rule_to_string_fields.
  repeat (apply Forall_app; split; [apply field_to_string_no_nul|];
          apply Forall_cons; split; [discriminate|]).
  apply Forall_cons. split.
  - destruct (negb (allow r =? 0)); discriminate.
  - destruct rules; [constructor|].
    unfold bar. constructor; [discriminate | constructor].
Qed.

(** The string that is read at the bytes of a string. *)
Lemma c_string_c_string_bytes str rest :
  Forall (fun c => c <> zero) str ->
  c_string (map (fun c => Z.of_nat (nat_of_ascii c)) str ++ 0 :: rest) = str.
Proof.
  induction str as [|c str IH]; intros Hs; [reflexivity|].
  apply Forall_cons in Hs as [Hc Hs].
  cbn [map app c_string].
  assert (Hne : Z.of_nat (nat_of_ascii c) <> 0).
  { intros Hz. apply Hc.
    rewrite <- (ascii_nat_embedding c).
    replace (nat_of_ascii c) with 0%nat by lia. reflexivity. }
  replace (Z.of_nat (nat_of_ascii c) =? 0) with false
    by (symmetry; apply Z.eqb_neq; exact Hne).
  rewrite Nat2Z.id, ascii_nat_embedding, IH by exact Hs. reflexivity.
Qed.

Lemma length_c_string_bytes str :
  Z.of_nat (length (c_string_bytes str)) = Z.of_nat (length str) + 1.
Proof.
  unfold c_string_bytes. rewrite length_app, length_map. cbn [length]. lia.
Qed.

Lemma c_string_bytes_last str :
  nth (length str) (c_string_bytes str) 0 = 0.
Proof.
  unfold c_string_bytes.
  rewrite app_nth2 by (rewrite length_map; lia).
  rewrite length_map, Nat.sub_diag. reflexivity.
Qed.

(** What the sender queues. *)
Lemma usbredirparser_send_filter_filter_queued rules g :
  usbredirfilter_verify rules = 0 ->
  usbredirparser_peer_has_cap g usb_redir_cap_filter <> 0 ->
  Z.of_nat (length rules) < 2 ^ 24 ->
  let str := rules_to_string_loop "," "|" rules in
  let dl := Z.of_nat (length str) + 1 in
  let header_len := usbredirparser_get_header_len g in
  usbredirparser_send_filter_filter dm rules g
  = Some
      (set_write_buf (to_int (write_buf_count g + 1))
         (write_buf g
          ++ [mk_buf
                ((store32
                    (to_uint (packet_type_value usb_redir_filter_filter))
                  ++ store32 dl
                  ++ (if usbredirparser_using_32bits_ids g
                      then store32 0 else store64 0))
                 ++ c_string_bytes str)
                0 (header_len + dl)])
         (to_uint64 (write_buf_total_size g + (header_len + dl))) g).
Proof.
  intros Hv Hcap Hcount str dl header_len.
  pose proof (rules_to_string_loop_length "," "|" rules Hv) as Hlen.
  fold str in Hlen.
  assert (Hdl : 1 <= dl < 2 ^ 30) by (subst dl; lia).
  assert (Hhl : header_len = 12 \/ header_len = 16).
  { subst header_len. unfold usbredirparser_get_header_len.
    destruct (usbredirparser_using_32bits_ids g); [left | right];
      reflexivity. }
  unfold usbredirparser_send_filter_filter.
  replace (usbredirparser_peer_has_cap g usb_redir_cap_filter =? 0)
    with false by (symmetry; apply Z.eqb_neq; exact Hcap).
  unfold usbredirfilter_rules_to_string. rewrite Hv.
  cbn [Z.eqb negb comma bar]. cbv zeta. fold str.
  rewrite (to_int_small (28 * Z.of_nat (length rules) + 1)) by lia.
  rewrite malloc_small by lia. cbn [negb].
  replace (to_size_t dm (28 * Z.of_nat (length rules) + 1))
    with (28 * Z.of_nat (length rules) + 1)
    by (unfold to_size_t; symmetry; apply Z.mod_small;
        destruct dm; cbn; lia).
  replace (Z.of_nat (length str) + 1 <=? _) with true
    by (symmetry; apply Z.leb_le; lia).
  fold dl. f_equal.
  rewrite (to_int_small dl) by lia.
  unfold usbredirparser_queue.
  rewrite to_int_to_uint by apply packet_type_value_int.
  assert (Hthl : usbredirparser_get_type_header_len g
                   (packet_type_value usb_redir_filter_filter) true = 0).
  { unfold usbredirparser_get_type_header_len.
    rewrite packet_type_of_value. reflexivity. }
  rewrite Hthl. cbv zeta.
  unfold usbredirparser_verify_type_header.
  rewrite packet_type_of_value. unfold verify_cap.
  replace (usbredirparser_peer_has_cap g usb_redir_cap_filter =? 0)
    with false by (symmetry; apply Z.eqb_neq; exact Hcap).
  cbn [andb orb negb fst].
  replace (dl <? 1) with false by (symmetry; apply Z.ltb_ge; lia).
  replace (Z.to_nat (dl - 1)) with (length str) by (subst dl; lia).
  rewrite c_string_bytes_last. cbn [Z.eqb negb Z.ltb Z.compare].
  fold header_len. rewrite Z.add_0_r, Z.add_0_l.
  rewrite (to_int_small (header_len + dl)) by lia.
  rewrite malloc_small by lia. cbn [negb].
  rewrite take_bytes_0. cbn [app].
  rewrite (take_bytes_all dl) by apply length_c_string_bytes.
  rewrite (to_uint_small dl) by lia.
  rewrite <- !app_assoc. reflexivity.
Qed.

(** The fixed header of a packet, received. *)
Lemma header_received_fixed t dl header_len idb rest p :
  0 <= dl < 2 ^ 32 ->
  let hdr := store32 (to_uint (packet_type_value t)) ++ store32 dl ++ idb in
  let q := header_received header_len hdr rest p in
  packet_type_of (to_int (header_type q)) = Some t
  /\ header_length q = dl.
Proof.
  intros Hdl. cbv zeta.
  unfold header_type, header_length, header_received.
  cbn [header set_header_read set_header].
  rewrite memcpy_head, <- !app_assoc. split.
  - rewrite load32_store32, to_uint_mod.
    rewrite to_int_to_uint by apply packet_type_value_int.
    apply packet_type_of_value.
  - change 4%nat with (4 + 0)%nat.
    rewrite load32_behind_word, load32_store32.
    apply Z.mod_small. exact Hdl.
Qed.

Lemma do_read_header_complete_filter_filter header_len dl q :
  0 < dl <= MAX_PACKET_SIZE ->
  packet_type_of (to_int (header_type q)) = Some usb_redir_filter_filter ->
  header_length q = dl ->
  do_read_header_complete dm header_len q
  = loop_continue header_len
      (set_data_len dl
         (set_type_header_len 0
            (set_data (Some (repeat 0 (Z.to_nat dl))) q))).
Proof.
  intros Hdl Hpt Hlen.
  assert (HMAX : MAX_PACKET_SIZE < 2 ^ 31) by reflexivity.
  unfold do_read_header_complete, usbredirparser_get_type_header_len,
    usbredirparser_expect_extra_data.
  rewrite Hpt, Hlen.
  rewrite (to_int_small dl) by lia.
  rewrite Z.sub_0_r. rewrite (to_int_small dl) by lia.
  cbn [Z.ltb Z.gtb Z.compare].
  replace (dl >? MAX_PACKET_SIZE) with false
    by (symmetry; rewrite Z.gtb_ltb; apply Z.ltb_ge; lia).
  replace (dl <? 0) with false by (symmetry; apply Z.ltb_ge; lia).
  cbn [negb andb orb]. rewrite andb_false_r. cbv zeta.
  replace (dl =? 0) with false by (symmetry; apply Z.eqb_neq; lia).
  cbn [negb]. rewrite malloc_small by lia. reflexivity.
Qed.

Lemma do_read_packet_complete_filter_filter rules q :
  usbredirfilter_verify rules = 0 ->
  usbredirparser_have_cap q usb_redir_cap_filter <> 0 ->
  packet_type_of (to_int (header_type q)) = Some usb_redir_filter_filter ->
  let str := rules_to_string_loop "," "|" rules in
  data q = Some (c_string_bytes str) ->
  data_len q = Z.of_nat (length str) + 1 ->
  let r' :=
    set_data None
      (set_data_read 0
         (set_data_len 0
            (set_type_header_read 0
               (set_type_header_len 0
                  (set_header_read 0
                     (call (callb_filter_filter (map normalize_allow rules)
                              (Z.of_nat (length rules))) q)))))) in
  do_read_packet_complete dm q
  = loop_continue (usbredirparser_get_header_len r') r'.
Proof.
  intros Hv Hcap Hpt str Hdata Hdl.
  unfold do_read_packet_complete, usbredirparser_verify_type_header.
  rewrite Hpt. cbv beta iota zeta. unfold verify_cap.
  replace (usbredirparser_have_cap q usb_redir_cap_filter =? 0)
    with false by (symmetry; apply Z.eqb_neq; exact Hcap).
  cbn [andb orb negb]. rewrite Hdl, Hdata.
  replace (Z.of_nat (length str) + 1 <? 1) with false
    by (symmetry; apply Z.ltb_ge; lia).
  replace (Z.to_nat (Z.of_nat (length str) + 1 - 1)) with (length str)
    by lia.
  rewrite c_string_bytes_last. cbn [Z.eqb negb].
  unfold usbredirparser_call_type_func.
  change (header_type (set_type_header (type_header q) q))
    with (header_type q).
  rewrite Hpt. cbv beta iota zeta.
  change (data (set_type_header (type_header q) q)) with (data q).
  rewrite Hdata. unfold c_string_bytes.
  rewrite c_string_c_string_bytes by apply rules_to_string_loop_no_nul.
  unfold usbredirfilter_string_to_rules.
  cbn [comma bar length Nat.eqb orb].
  unfold str.
  rewrite (parse_rules_rules_to_string dm rules [] Hv).
  cbn [app Z.eqb negb]. rewrite length_map.
  destruct q; reflexivity.
Qed.

(** A filter_filter packet that comes in as one piece. *)
Lemma usbredirparser_do_read_filter_filter rules idb p :
  usbredirfilter_verify rules = 0 ->
  usbredirparser_have_cap p usb_redir_cap_filter <> 0 ->
  28 * Z.of_nat (length rules) + 1 <= MAX_PACKET_SIZE ->
  to_skip p <= 0 -> header_read p = 0 -> type_header_read p = 0 ->
  data_read p = 0 ->
  Z.of_nat (length idb)
  = (if usbredirparser_using_32bits_ids p then 4 else 8) ->
  let str := rules_to_string_loop "," "|" rules in
  read_input p
  = (store32 (to_uint (packet_type_value usb_redir_filter_filter))
     ++ store32 (Z.of_nat (length str) + 1) ++ idb)
    ++ c_string_bytes str ->
  exists p',
    usbredirparser_do_read dm p = (0, p')
    /\ callb p'
       = callb p ++ [callb_filter_filter (map normalize_allow rules)
                       (Z.of_nat (length rules))]
    /\ read_input p' = [] /\ header_read p' = 0.
Proof.
  intros Hv Hcap Hmax Hs Hread Hthr Hdr Hidb str Hin.
  pose proof (rules_to_string_loop_length "," "|" rules Hv) as Hlen.
  fold str in Hlen.
  set (dl := Z.of_nat (length str) + 1) in *.
  assert (HMAX : MAX_PACKET_SIZE < 2 ^ 31) by reflexivity.
  assert (Hdl : 0 < dl <= MAX_PACKET_SIZE) by (subst dl; lia).
  set (hdr := store32 (to_uint (packet_type_value usb_redir_filter_filter))
              ++ store32 dl ++ idb) in *.
  set (hl := usbredirparser_get_header_len p).
  assert (Hhdr : Z.of_nat (length hdr) = hl).
  { subst hdr hl. unfold usbredirparser_get_header_len.
    rewrite !length_app, !length_store32.
    destruct (usbredirparser_using_32bits_ids p);
      change sizeof_usb_redir_header_32bit_id with 12;
      change sizeof_usb_redir_header with 16; lia. }
  pose proof (header_received_fixed usb_redir_filter_filter dl hl idb
                (c_string_bytes str) p ltac:(lia)) as [Hty Hlen0].
  cbv zeta in Hty, Hlen0. fold hdr in Hty, Hlen0.
  set (q := header_received hl hdr (c_string_bytes str) p) in *.
  rewrite usbredirparser_do_read_no_skip by exact Hs. fold hl.
  rewrite do_read_loop_eq.
  rewrite (do_read_turn_header dm hl hdr (c_string_bytes str))
    by (try apply usbredirparser_get_header_len_pos; assumption).
  fold q.
  rewrite (do_read_header_complete_filter_filter hl dl q Hdl Hty Hlen0).
  rewrite do_read_loop_eq.
  set (q1 := set_data_len dl
               (set_type_header_len 0
                  (set_data (Some (repeat 0 (Z.to_nat dl))) q))).
  rewrite (do_read_turn_data dm hl (repeat 0 (Z.to_nat dl))
             (c_string_bytes str) [] q1);
    [| reflexivity | exact Hthr | reflexivity | exact Hdr
     | exact (proj1 Hdl) | apply length_c_string_bytes
     | rewrite app_nil_r; reflexivity].
  set (q2 := set_data_read (data_len q1)
               (set_data
                  (Some (memcpy (repeat 0 (Z.to_nat dl)) 0
                           (c_string_bytes str)))
                  (set_read_input [] q1))).
  assert (Hdata2 : data q2 = Some (c_string_bytes str)).
  { subst q2. cbn [data set_data_read set_data]. f_equal.
    rewrite memcpy_head, skipn_all2, app_nil_r; [reflexivity|].
    rewrite repeat_length.
    pose proof (length_c_string_bytes str). fold dl in H1. lia. }
  rewrite (do_read_packet_complete_filter_filter rules q2 Hv Hcap Hty
             Hdata2 eq_refl).
  cbv zeta.
  match goal with
  | |- context [do_read_loop dm ?hl' ?p4] => set (r' := p4)
  end.
  rewrite do_read_loop_eq.
  destruct (do_read_turn_starved dm (usbredirparser_get_header_len r') r')
    as (p5 & Hlast & Hcallb5 & Hinput5 & Hhr5 & _).
  { apply usbredirparser_get_header_len_pos. }
  { reflexivity. }
  rewrite Hlast. exists p5. split; [reflexivity|].
  split; [rewrite Hcallb5; reflexivity|].
  split; [exact Hinput5 | rewrite Hhr5; reflexivity].
Qed.

(** X21.  A filter crosses the wire.  For a verified rule array whose
    buffer of [28 * rules_count + 1] bytes is at most [MAX_PACKET_SIZE],
    [usbredirparser_send_filter_filter] on a parser whose peer has the
    filter capability writes inside that buffer, and what it queues and
    [usbredirparser_do_write] hands to the transport is read by
    [usbredirparser_do_read] on a parser that has the capability and uses
    ids of the same width as one packet, and [filter_filter_func] is
    called with as many rules, the rules sent with their allow flags as
    0 or 1. *)
Theorem usbredirparser_filter_filter_crosses rules g h :
  usbredirfilter_verify rules = 0 ->
  28 * Z.of_nat (length rules) + 1 <= MAX_PACKET_SIZE ->
  usbredirparser_peer_has_cap g usb_redir_cap_filter <> 0 ->
  write_buf g = [] -> write_invariants g ->
  usbredirparser_have_cap h usb_redir_cap_filter <> 0 ->
  to_skip h <= 0 -> header_read h = 0 -> type_header_read h = 0 ->
  data_read h = 0 ->
  usbredirparser_using_32bits_ids h = usbredirparser_using_32bits_ids g ->
  exists g1,
    usbredirparser_send_filter_filter dm rules g = Some g1
    /\ exists g' wire h',
    usbredirparser_do_write [2 ^ 31] g1 = Some (0, g', wire)
    /\ write_buf g' = []
    /\ usbredirparser_do_read dm (set_read_input wire h) = (0, h')
    /\ callb h'
       = callb h ++ [callb_filter_filter (map normalize_allow rules)
                       (Z.of_nat (length rules))]
    /\ read_input h' = [] /\ header_read h' = 0.
Proof.
  intros Hv Hmax Hpeer Hempty Hinv Hcap Hskip Hhr Htr Hdr Hwidth.
  assert (HMAX : MAX_PACKET_SIZE < 2 ^ 28) by reflexivity.
  pose proof (usbredirparser_send_filter_filter_queued rules g Hv Hpeer
                ltac:(lia)) as Hsend.
  cbv zeta in Hsend. rewrite Hempty in Hsend. cbn [app] in Hsend.
  pose proof (rules_to_string_loop_length "," "|" rules Hv) as Hlen.
  set (str := rules_to_string_loop "," "|" rules) in *.
  set (dl := Z.of_nat (length str) + 1).
  set (hl := usbredirparser_get_header_len g).
  assert (Hhl : hl = 12 \/ hl = 16).
  { subst hl. unfold usbredirparser_get_header_len.
    destruct (usbredirparser_using_32bits_ids g); [left | right];
      reflexivity. }
  set (idb := if usbredirparser_using_32bits_ids g
              then store32 0 else store64 0).
  set (wire := (store32 (to_uint
                           (packet_type_value usb_redir_filter_filter))
                ++ store32 dl ++ idb) ++ c_string_bytes str).
  assert (Hwire : Z.of_nat (length wire) = hl + dl).
  { subst wire hl idb dl. unfold usbredirparser_get_header_len.
    rewrite !length_app, !length_store32.
    pose proof (length_c_string_bytes str).
    destruct (usbredirparser_using_32bits_ids g);
      rewrite ?length_store32, ?length_store64;
      change sizeof_usb_redir_header_32bit_id with 12;
      change sizeof_usb_redir_header with 16; lia. }
  set (g1 := set_write_buf (to_int (write_buf_count g + 1))
               [mk_buf wire 0 (hl + dl)]
               (to_uint64 (write_buf_total_size g + (hl + dl))) g).
  exists g1. split; [exact Hsend|].
  assert (Hdl : 1 <= dl < 2 ^ 28) by (subst dl; lia).
  assert (Hinv1 : write_invariants g1).
  { destruct Hinv as (_ & Hc & Ht). rewrite Hempty in Hc, Ht.
    cbn in Hc, Ht. subst g1. unfold write_invariants, set_write_buf.
    cbn [write_buf write_buf_count write_buf_total_size length map
         fold_right len].
    rewrite Hc, Ht. split; [|split].
    - constructor; [|constructor]. unfold write_buf_ok.
      cbn [pos len buf]. lia.
    - reflexivity.
    - rewrite Z.add_0_r. reflexivity. }
  pose proof (do_write_loop_drains [mk_buf wire 0 (hl + dl)] [2 ^ 31] g1 []
                eq_refl Hinv1) as Hwrite.
  unfold usbredirparser_do_write. rewrite Hwrite; cycle 1.
  { constructor; [cbn; lia | constructor]. }
  { right. constructor; [reflexivity | constructor]. }
  { constructor; [lia | constructor]. }
  { cbn. lia. }
  cbn [flat_map app].
  assert (Hun : unwritten (mk_buf wire 0 (hl + dl)) = wire).
  { unfold unwritten. cbn [pos len buf]. rewrite Z.sub_0_r.
    cbn [Z.to_nat skipn]. apply firstn_all2. lia. }
  rewrite Hun, app_nil_r.
  destruct (usbredirparser_do_read_filter_filter rules idb
              (set_read_input wire h))
    as (h' & Hread & Hcallb & Hin & Hhr');
    try assumption.
  - change (usbredirparser_using_32bits_ids (set_read_input wire h))
      with (usbredirparser_using_32bits_ids h).
    rewrite Hwidth. subst idb.
    destruct (usbredirparser_using_32bits_ids g); reflexivity.
  - reflexivity.
  - exists (set_write_buf 0 [] 0 g1), wire, h'.
    repeat split; assumption || reflexivity.
Qed.

End ParserFilter.

(* --------------------------------------------------------------------- *)
(** ** usbredirparser.c: the direction of the packet types                *)
(* --------------------------------------------------------------------- *)

Section ParserDirections.
Context `{usbredirproto_h} `{usbredirparser_h}.

Lemma both_have_cap_peer g h cap :
  our_caps g = peer_caps h -> peer_caps g = our_caps h ->
  both_have_cap g cap = both_have_cap h cap.
Proof.
  intros Ho Hp.
  unfold both_have_cap, usbredirparser_have_cap, usbredirparser_peer_has_cap.
  rewrite Ho, Hp. apply andb_comm.
Qed.

(** X22.  The two ends agree on the type header of every packet type: on
    two parsers of which one is the host side, each holding the other's
    capabilities as its peer's, the length
    [usbredirparser_get_type_header_len] gives the sender is the length it
    gives the receiver, refusal included.  And no end both sends and
    accepts a packet type that has a direction: for every type but hello,
    filter_filter and the four data packets, one of the two is refused. *)
Theorem usbredirparser_type_header_len_agrees g h :
  (Z.land (flags g) usbredirparser_fl_usb_host =? 0)
  = negb (Z.land (flags h) usbredirparser_fl_usb_host =? 0) ->
  our_caps g = peer_caps h -> peer_caps g = our_caps h ->
  (forall type,
     usbredirparser_get_type_header_len g type true
     = usbredirparser_get_type_header_len h type false)
  /\ (forall t,
        ~ In t [usb_redir_hello; usb_redir_filter_filter;
                usb_redir_control_packet; usb_redir_bulk_packet;
                usb_redir_iso_packet; usb_redir_interrupt_packet] ->
        usbredirparser_get_type_header_len g (packet_type_value t) true = -1
        \/ usbredirparser_get_type_header_len g (packet_type_value t) false
           = -1).
Proof.
  intros Hside Ho Hp. split.
  - intros type. unfold usbredirparser_get_type_header_len.
    assert (Hc : command_for_host g true = command_for_host h false).
    { unfold command_for_host. rewrite Hside.
      destruct (Z.land (flags h) usbredirparser_fl_usb_host =? 0);
        reflexivity. }
    rewrite Hc.
    rewrite !(both_have_cap_peer g h) by assumption.
    reflexivity.
  - intros t Hnot. unfold usbredirparser_get_type_header_len.
    rewrite packet_type_of_value. unfold command_for_host.
    destruct (negb (Z.land (flags g) usbredirparser_fl_usb_host =? 0));
      cbn [negb];
      destruct t; try (left; reflexivity); try (right; reflexivity);
      exfalso; apply Hnot; cbn; tauto.
Qed.

End ParserDirections.

(* --------------------------------------------------------------------- *)
(** ** usbredirhost.c: completions and the cancelling of a stream         *)
(* --------------------------------------------------------------------- *)

(** A record that has been unlinked is not found again. *)
Lemma find_filter_removed (a : nat) (l : list usbredirtransfer) :
  List.find (fun t => (t_transfer t =? a)%nat)
    (List.filter (fun t' => negb (t_transfer t' =? a)%nat) l) = None.
Proof.
  induction l as [|t l IH]; [reflexivity|].
  cbn [List.filter]. destruct (t_transfer t =? a)%nat eqn:E; cbn [negb].
  - exact IH.
  - cbn [List.find]. rewrite E. exact IH.
Qed.

Lemma parser_remove_and_free_transfer t h :
  parser (usbredirhost_remove_and_free_transfer t h) = parser h.
Proof. reflexivity. Qed.

Lemma transfers_head_remove_and_free_transfer t h :
  transfers_head (usbredirhost_remove_and_free_transfer t h)
  = List.filter (fun t' => negb (t_transfer t' =? t_transfer t)%nat)
      (transfers_head h).
Proof. reflexivity. Qed.

(** X23.  The completion of a transfer that is on the list and not
    cancelled sends one data packet under the id of the transfer, with the
    status of libusb translated (behind the device_disconnect a NO_DEVICE
    status may bring), unlinks the record, and leaves nothing for a second
    completion of the same transfer to find. *)
Theorem usbredirhost_transfer_complete_live a status buffer h t :
  List.find (fun t => (t_transfer t =? a)%nat) (transfers_head h) = Some t ->
  t_cancelled t = 0 ->
  let h' := transfer_complete a status buffer h in
  let st := snd (libusb_status_or_error_to_redir_status h status) in
  (exists pre reply,
     calls (parser h') = calls (parser h) ++ pre ++ [reply]
     /\ Forall (fun c => is_data_packet c = false) pre
     /\ data_packet_id reply = Some (t_id t)
     /\ data_packet_status reply = Some st)
  /\ transfers_head h'
     = List.filter (fun t' => negb (t_transfer t' =? a)%nat)
         (transfers_head h)
  /\ forall status' buffer', transfer_complete a status' buffer' h' = h'.
Proof.
  intros Hfind Hlive. cbv zeta.
  pose proof (List.find_some _ _ Hfind) as [_ Ha].
  apply Nat.eqb_eq in Ha.
  assert (Hmain :
    (exists pre reply,
       calls (parser (transfer_complete a status buffer h))
       = calls (parser h) ++ pre ++ [reply]
       /\ Forall (fun c => is_data_packet c = false) pre
       /\ data_packet_id reply = Some (t_id t)
       /\ data_packet_status reply
          = Some (snd (libusb_status_or_error_to_redir_status h status)))
    /\ transfers_head (transfer_complete a status buffer h)
       = List.filter (fun t' => negb (t_transfer t' =? a)%nat)
           (transfers_head h)).
  { unfold transfer_complete. rewrite Hfind.
    pose proof (calls_status h status) as (pre & Hpre & Hnodata).
    pose proof (transfers_head_status h status) as Hhead.
    destruct (t_header t) as [cp | bp | ip];
      [unfold usbredirhost_control_packet_complete
      |unfold usbredirhost_bulk_packet_complete
      |unfold usbredirhost_interrupt_out_packet_complete];
      destruct (libusb_status_or_error_to_redir_status h status)
        as [h1 st];
      cbn [fst snd] in *; rewrite Hlive; cbn [Z.eqb];
      rewrite transfers_head_remove_and_free_transfer,
        parser_remove_and_free_transfer;
      repeat match goal with
             | |- context [if ?b then _ else _] => destruct b
             end;
      rewrite calls_send, Hpre, <- app_assoc;
      (split; [eexists; eexists; split; [reflexivity|];
               split; [exact Hnodata|]; split; reflexivity|]);
      rewrite <- Ha; cbn; rewrite Hhead; reflexivity. }
  destruct Hmain as [Hcalls Hhead].
  split; [exact Hcalls|]. split; [exact Hhead|].
  intros status' buffer'. unfold transfer_complete at 1.
  rewrite Hhead, find_filter_removed. reflexivity.
Qed.

Lemma ring_handles_insert submitted n :
  forall i k x ring,
    (k < i)%nat ->
    ring_handles submitted n i (<[k := x]> ring)
    = ring_handles submitted n i ring.
Proof.
  induction n as [|n IH]; intros i k x ring Hk; [reflexivity|].
  cbn [ring_handles]. rewrite nth_insert_other by lia.
  rewrite IH by lia. reflexivity.
Qed.

(** Records freed one after the other. *)
Lemma filter_removed_cons (x : nat) (xs l : list nat) :
  List.filter (fun a => negb (existsb (Nat.eqb a) (x :: xs))) l
  = List.filter (fun a => negb (existsb (Nat.eqb a) xs))
      (List.filter (fun a => negb (a =? x)%nat) l).
Proof.
  induction l as [|a l IH]; [reflexivity|].
  cbn [List.filter].
  change (existsb (Nat.eqb a) (x :: xs))
    with ((a =? x)%nat || existsb (Nat.eqb a) xs).
  destruct (a =? x)%nat; cbn [orb negb List.filter]; rewrite IH;
    reflexivity.
Qed.

Lemma filter_removed_nil (l : list nat) :
  List.filter (fun a => negb (existsb (Nat.eqb a) [])) l = l.
Proof.
  induction l as [|a l IH]; [reflexivity|]. cbn. f_equal. exact IH.
Qed.

(** The loop of [usbredirhost_cancel_stream_unlocked] over the slots
    [i .. i + n - 1], each of which holds a record. *)
Lemma cancel_stream_loop_spec ep n :
  forall i h,
    (EP2I ep < length (endpoint h))%nat ->
    ring_filled ep i n h ->
    let ring := transfer (host_ep h ep) in
    let e := host_ep h ep in
    exists h',
      cancel_stream_loop n i ep h = Some h'
      /\ let e' := host_ep h' ep in
         cancel_calls (device h')
         = cancel_calls (device h) ++ ring_handles true n i ring
         /\ cancels_pending h'
            = cancels_pending h
              + Z.of_nat (length (ring_handles true n i ring))
         /\ allocated (device h')
            = List.filter
                (fun a => negb (existsb (Nat.eqb a)
                                  (ring_handles false n i ring)))
                (allocated (device h))
         /\ (forall k,
               nth k (transfer e') None
               = if ((i <=? k) && (k <? i + n))%nat then None
                 else nth k ring None)
         /\ length (transfer e') = length ring
         /\ (ep_type e', warn_on_drop e', stream_started e',
             ep_pkts_per_transfer e', ep_transfer_count e', out_idx e',
             drop_packets e', ep_max_packetsize e')
            = (ep_type e, warn_on_drop e, stream_started e,
               ep_pkts_per_transfer e, ep_transfer_count e, out_idx e,
               drop_packets e, ep_max_packetsize e)
         /\ calls (parser h') = calls (parser h)
         /\ submit_calls (device h') = submit_calls (device h)
         /\ disconnected h' = disconnected h
         /\ length (endpoint h') = length (endpoint h).
Proof.
  induction n as [|n IH]; intros i h Hep Hf; cbv zeta.
  - exists h. split; [reflexivity|].
    cbn [ring_handles length Z.of_nat].
    rewrite app_nil_r, Z.add_0_r, filter_removed_nil.
    repeat split; try reflexivity.
    intros k. destruct (i <=? k)%nat eqn:E1; [|reflexivity].
    destruct (k <? i + 0)%nat eqn:E2; [|reflexivity].
    apply Nat.leb_le in E1. apply Nat.ltb_lt in E2. lia.
  - cbn [cancel_stream_loop]. cbv zeta.
    assert (Hi : ep_transfer (host_ep h ep) i <> None)
      by (apply Hf; lia).
    assert (Hlt : (i < length (transfer (host_ep h ep)))%nat).
    { destruct (Nat.lt_ge_cases i (length (transfer (host_ep h ep))))
        as [H|H]; [exact H|].
      exfalso. apply Hi. unfold ep_transfer. apply nth_overflow.
      exact H. }
    destruct (ep_transfer (host_ep h ep) i) as [t|] eqn:Et;
      [clear Hi | exfalso; apply Hi; reflexivity].
    unfold ep_transfer in Et.
    set (h1 := if s_packet_idx t =? SUBMITTED_IDX then _ else _).
    assert (H1 : endpoint h1 = endpoint h
                 /\ calls (parser h1) = calls (parser h)
                 /\ submit_calls (device h1) = submit_calls (device h)
                 /\ disconnected h1 = disconnected h
                 /\ cancel_calls (device h1)
                    = cancel_calls (device h)
                      ++ (if Bool.eqb (s_packet_idx t =? SUBMITTED_IDX)
                               true
                          then [s_transfer t] else [])
                 /\ cancels_pending h1
                    = cancels_pending h
                      + Z.of_nat
                          (length
                             (if Bool.eqb
                                   (s_packet_idx t =? SUBMITTED_IDX) true
                              then [s_transfer t] else []))
                 /\ allocated (device h1)
                    = List.filter
                        (fun a =>
                           negb (existsb (Nat.eqb a)
                                   (if Bool.eqb
                                         (s_packet_idx t =? SUBMITTED_IDX)
                                         false
                                    then [s_transfer t] else [])))
                        (allocated (device h))).
    { subst h1.
      destruct (s_packet_idx t =? SUBMITTED_IDX);
        cbn [Bool.eqb length Z.of_nat];
        rewrite ?app_nil_r, ?Z.add_0_r, ?filter_removed_nil;
        repeat split; try reflexivity.
      cbn. clear. induction (allocated (device h)) as [|a l IHl];
        [reflexivity|].
      cbn. rewrite orb_false_r. destruct (a =? s_transfer t)%nat;
        cbn; rewrite <- IHl; reflexivity. }
    destruct H1 as (He1 & Hc1 & Hs1 & Hd1 & Hcc1 & Hcp1 & Ha1).
    assert (Hhe1 : host_ep h1 ep = host_ep h ep)
      by (unfold host_ep; rewrite He1; reflexivity).
    set (h2 := set_slot ep i None h1).
    assert (Hep2 : (EP2I ep < length (endpoint h2))%nat).
    { subst h2. unfold set_slot.
      rewrite length_endpoint_set_host_ep, He1. exact Hep. }
    assert (Hhe2 : host_ep h2 ep
                   = ep_set_transfer i None (host_ep h ep)).
    { subst h2. unfold set_slot. rewrite host_ep_set_host_ep
        by (rewrite He1; exact Hep).
      rewrite Hhe1. reflexivity. }
    assert (Hring2 : transfer (host_ep h2 ep)
                     = <[i := None]> (transfer (host_ep h ep)))
      by (rewrite Hhe2; reflexivity).
    assert (Hf2 : ring_filled ep (S i) n h2).
    { intros k Hk. unfold ep_transfer. rewrite Hring2.
      rewrite nth_insert_other by lia. apply (Hf k). lia. }
    destruct (IH (S i) h2 Hep2 Hf2) as
      (h' & Hrun & Hcc & Hcp & Ha & Hslots & Hlen & Hfields & Hcalls
       & Hsub & Hdis & Hends).
    exists h'. split; [exact Hrun|].
    rewrite Hring2 in Hcc, Hcp, Ha, Hslots, Hlen.
    rewrite !ring_handles_insert in Hcc, Hcp, Ha by lia.
    rewrite length_insert in Hlen.
    assert (Hdev2 : device h2 = device h1) by reflexivity.
    assert (Hcp2 : cancels_pending h2 = cancels_pending h1) by reflexivity.
    assert (Hpar2 : parser h2 = parser h1) by reflexivity.
    assert (Hdis2 : disconnected h2 = disconnected h1) by reflexivity.
    rewrite Hdev2 in Hcc, Ha, Hsub. rewrite Hcp2 in Hcp.
    rewrite Hpar2 in Hcalls. rewrite Hdis2 in Hdis.
    cbn [ring_handles]. rewrite Et.
    split; [rewrite Hcc, Hcc1, <- app_assoc; reflexivity|].
    split; [rewrite Hcp, Hcp1, length_app; lia|].
    split.
    { rewrite Ha, Ha1.
      destruct (Bool.eqb (s_packet_idx t =? SUBMITTED_IDX) false);
        cbn [app]; rewrite ?filter_removed_nil; try reflexivity.
      rewrite (filter_removed_cons (s_transfer t)
                 (ring_handles false n (S i) (transfer (host_ep h ep)))),
        (filter_removed_cons (s_transfer t) []), filter_removed_nil.
      reflexivity. }
    split.
    { intros k. rewrite Hslots.
      destruct (Nat.eq_dec k i) as [->|Hk].
      - replace (S i <=? i)%nat with false
          by (symmetry; apply Nat.leb_gt; lia).
        cbn [andb]. rewrite Nat.leb_refl.
        replace (i <? i + S n)%nat with true
          by (symmetry; apply Nat.ltb_lt; lia).
        cbn [andb]. apply nth_insert_same. exact Hlt.
      - rewrite nth_insert_other by lia.
        replace (k <? S i + n)%nat with (k <? i + S n)%nat
          by (f_equal; lia).
        destruct (S i <=? k)%nat eqn:E1; destruct (i <=? k)%nat eqn:E2;
          try reflexivity.
        + apply Nat.leb_le in E1. apply Nat.leb_gt in E2. lia.
        + apply Nat.leb_gt in E1. apply Nat.leb_le in E2. lia. }
    split; [exact Hlen|].
    split; [rewrite Hfields, Hhe2; reflexivity|].
    split; [rewrite Hcalls; exact Hc1|].
    split; [rewrite Hsub; exact Hs1|].
    split; [rewrite Hdis; exact Hd1|].
    rewrite Hends. subst h2. unfold set_slot.
    rewrite length_endpoint_set_host_ep, He1. reflexivity.
Qed.

(** X24.  On an endpoint whose ring holds a transfer record in every slot
    below [transfer_count] (the loop of the code reads [packet_idx] of
    each of them without a test for NULL),
    [usbredirhost_cancel_stream_unlocked] returns, empties these slots
    and resets the stream state of the endpoint.  The transfers that are
    submitted are cancelled in libusb, in slot order, and counted in
    [cancels_pending]; the others are freed; nothing is sent and nothing
    submitted. *)
Theorem usbredirhost_cancel_stream_unlocked_empties ep h :
  (EP2I ep < length (endpoint h))%nat ->
  let e := host_ep h ep in
  let n := Z.to_nat (ep_transfer_count e) in
  ring_filled ep 0 n h ->
  exists h',
    usbredirhost_cancel_stream_unlocked ep h = Some h'
    /\ let e' := host_ep h' ep in
       (forall k, (k < n)%nat -> ep_transfer e' k = None)
       /\ (stream_started e', ep_pkts_per_transfer e',
           ep_transfer_count e', out_idx e', drop_packets e')
          = (0, 0, 0, 0, 0)
       /\ cancel_calls (device h')
          = cancel_calls (device h) ++ ring_handles true n 0 (transfer e)
       /\ cancels_pending h'
          = cancels_pending h
            + Z.of_nat (length (ring_handles true n 0 (transfer e)))
       /\ allocated (device h')
          = List.filter
              (fun a => negb (existsb (Nat.eqb a)
                                (ring_handles false n 0 (transfer e))))
              (allocated (device h))
       /\ calls (parser h') = calls (parser h)
       /\ submit_calls (device h') = submit_calls (device h).
Proof.
  intros Hep e n Hf.
  destruct (cancel_stream_loop_spec ep n 0 h Hep Hf)
    as (h1 & Hrun & Hcc & Hcp & Ha & Hslots & Hlen & Hfields & Hcalls
        & Hsub & Hdis & Hends).
  unfold usbredirhost_cancel_stream_unlocked. fold e n. rewrite Hrun.
  eexists. split; [reflexivity|]. cbv zeta.
  rewrite host_ep_set_host_ep by (rewrite Hends; exact Hep).
  split.
  { intros k Hk. unfold ep_transfer. cbn [transfer]. rewrite Hslots.
    replace (k <? 0 + n)%nat with true
      by (symmetry; apply Nat.ltb_lt; lia).
    reflexivity. }
  split; [reflexivity|].
  repeat split; assumption.
Qed.

(* --------------------------------------------------------------------- *)
(** ** usbredirhost.c: the disconnect is reported once                    *)
(* --------------------------------------------------------------------- *)

Section HostDisconnect.
Context `{usbredirhost_h}.

Lemma device_disconnects_send c h :
  device_disconnects (send c h)
  = (device_disconnects h + if is_disconnect c then 1 else 0)%nat.
Proof.
  unfold device_disconnects, send. cbn [parser set_parser calls].
  rewrite List.filter_app, length_app. cbn [List.filter].
  destruct c; reflexivity.
Qed.

Lemma disconnect_step_refl h : disconnect_step h h.
Proof. left. split; reflexivity. Qed.

Lemma disconnect_step_trans h1 h2 h3 :
  disconnect_step h1 h2 -> disconnect_step h2 h3 -> disconnect_step h1 h3.
Proof.
  unfold disconnect_step.
  intros [[A1 A2] | (A1 & A2 & A3)] [[B1 B2] | (B1 & B2 & B3)].
  - left. split; congruence.
  - right. repeat split; congruence.
  - right. repeat split; congruence.
  - rewrite A2 in B1. discriminate.
Qed.

Lemma quiet_refl h : quiet h h.
Proof. split; reflexivity. Qed.

Lemma quiet_trans h1 h2 h3 : quiet h1 h2 -> quiet h2 h3 -> quiet h1 h3.
Proof. intros [A1 A2] [B1 B2]. split; congruence. Qed.

Lemma quiet_step h h' : quiet h h' -> disconnect_step h h'.
Proof. intros Hq. left. exact Hq. Qed.

Lemma quiet_send c h : is_disconnect c = false -> quiet h (send c h).
Proof.
  intros Hc. split; [|reflexivity].
  rewrite device_disconnects_send, Hc. lia.
Qed.

Lemma quiet_send_stream_status id ep status h :
  quiet h (usbredirhost_send_stream_status id ep status h).
Proof.
  unfold usbredirhost_send_stream_status.
  destruct (ep_type (host_ep h ep));
    first [apply quiet_refl | apply quiet_send; reflexivity].
Qed.

Lemma quiet_free_transfer t h : quiet h (usbredirhost_free_transfer t h).
Proof. destruct t; split; reflexivity. Qed.

Lemma quiet_set_slot ep i t h : quiet h (set_slot ep i t h).
Proof. split; reflexivity. Qed.

Lemma quiet_cancel_stream_loop n : forall i ep h h',
  cancel_stream_loop n i ep h = Some h' -> quiet h h'.
Proof.
  induction n as [|n IH]; intros i ep h h' Hrun.
  - injection Hrun as <-. apply quiet_refl.
  - cbn [cancel_stream_loop] in Hrun.
    destruct (ep_transfer (host_ep h ep) i) as [t|]; [|discriminate].
    eapply quiet_trans; [|apply (IH _ _ _ _ Hrun)].
    eapply quiet_trans; [|apply quiet_set_slot].
    destruct (s_packet_idx t =? SUBMITTED_IDX); split; reflexivity.
Qed.

Lemma quiet_cancel_stream_unlocked ep h h' :
  usbredirhost_cancel_stream_unlocked ep h = Some h' -> quiet h h'.
Proof.
  unfold usbredirhost_cancel_stream_unlocked.
  destruct (cancel_stream_loop _ 0 ep h) as [h1|] eqn:E; [|discriminate].
  intros Hrun. injection Hrun as <-.
  eapply quiet_trans; [apply (quiet_cancel_stream_loop _ _ _ _ _ E)|].
  split; reflexivity.
Qed.

Lemma quiet_allocate h : quiet h (fst (allocate h)).
Proof.
  unfold allocate. destruct (alloc_results (device h)); split; reflexivity.
Qed.

Lemma quiet_alloc_transfer h : quiet h (fst (usbredirhost_alloc_transfer h)).
Proof.
  unfold usbredirhost_alloc_transfer.
  pose proof (quiet_allocate h) as Q1.
  destruct (allocate h) as [h1 r1]. cbn [fst] in Q1.
  pose proof (quiet_allocate h1) as Q2.
  destruct (allocate h1) as [h2 r2]. cbn [fst] in Q2.
  eapply quiet_trans; [exact Q1|]. eapply quiet_trans; [exact Q2|].
  destruct (negb r1 || negb r2); split; reflexivity.
Qed.

Lemma quiet_set_iso_threshold a b c h :
  quiet h (usbredirhost_set_iso_threshold a b c h).
Proof. split; reflexivity. Qed.

Lemma quiet_alloc_stream_loop n : forall i ep type ppt ps tc h,
  quiet h (fst (alloc_stream_loop n i ep type ppt ps tc h)).
Proof.
  induction n as [|n IH]; intros i ep type ppt ps tc h; [apply quiet_refl|].
  cbn [alloc_stream_loop].
  pose proof (quiet_alloc_transfer h) as Q1.
  destruct (usbredirhost_alloc_transfer h) as [h1 t]. cbn [fst] in Q1.
  eapply quiet_trans; [exact Q1|].
  destruct t as [t|]; [|split; reflexivity].
  pose proof (quiet_allocate (set_slot ep i (Some t) h1)) as Q2.
  destruct (allocate (set_slot ep i (Some t) h1)) as [h2 b].
  cbn [fst] in Q2.
  eapply quiet_trans; [apply (quiet_set_slot ep i (Some t))|].
  eapply quiet_trans; [exact Q2|].
  destruct (negb b); [apply quiet_refl|].
  eapply quiet_trans; [|apply IH].
  destruct type; split; reflexivity.
Qed.

Lemma quiet_free_partial_stream i : forall ep h,
  quiet h (free_partial_stream i ep h).
Proof.
  induction i as [|i IH]; intros ep h; cbn [free_partial_stream].
  - eapply quiet_trans; [apply quiet_free_transfer | apply quiet_set_slot].
  - eapply quiet_trans; [|apply IH].
    eapply quiet_trans; [apply quiet_free_transfer | apply quiet_set_slot].
Qed.

Lemma quiet_can_write_iso_package h :
  quiet h (fst (usbredirhost_can_write_iso_package h)).
Proof.
  unfold usbredirhost_can_write_iso_package.
  destruct (if negb _ then _ else _) as [size|]; [|apply quiet_refl].
  cbn [fst].
  destruct (size >=? _); [split; reflexivity|].
  destruct (size <? _); split; reflexivity.
Qed.

Lemma quiet_send_stream_data id ep status data h :
  quiet h (usbredirhost_send_stream_data id ep status data h).
Proof.
  unfold usbredirhost_send_stream_data.
  destruct (_ >? 800).
  - destruct (negb _); split; reflexivity.
  - destruct (ep_type (host_ep h ep));
      try apply quiet_refl; try (apply quiet_send; reflexivity).
    pose proof (quiet_can_write_iso_package h) as Q.
    destruct (usbredirhost_can_write_iso_package h) as [h1 b].
    cbn [fst] in Q. destruct b; [|exact Q].
    eapply quiet_trans; [exact Q | apply quiet_send; reflexivity].
Qed.

Lemma quiet_cancel_data_packet id h :
  quiet h (usbredirhost_cancel_data_packet id h).
Proof.
  unfold usbredirhost_cancel_data_packet.
  destruct (List.find _ _) as [t|]; [|apply quiet_refl].
  destruct (t_header t);
    (eapply quiet_trans; [|apply quiet_send; reflexivity]);
    split; reflexivity.
Qed.

Lemma quiet_remove_and_free_transfer t h :
  quiet h (usbredirhost_remove_and_free_transfer t h).
Proof. split; reflexivity. Qed.

(** The one function that reports. *)
Lemma usbredirhost_handle_disconnect_step h :
  disconnect_step h (usbredirhost_handle_disconnect h).
Proof.
  unfold usbredirhost_handle_disconnect.
  destruct (disconnected h =? 0) eqn:E; [|apply disconnect_step_refl].
  apply Z.eqb_eq in E. right. split; [exact E|].
  cbv zeta.
  destruct (peer_has_cap_device_disconnect_ack _);
    (split; [reflexivity|]);
    change (device_disconnects
              (send usbredirparser_send_device_disconnect h)
            = S (device_disconnects h));
    rewrite device_disconnects_send; cbn; lia.
Qed.

Lemma libusb_status_or_error_to_redir_status_step h status :
  disconnect_step h (fst (libusb_status_or_error_to_redir_status h status)).
Proof.
  destruct status; cbn [libusb_status_or_error_to_redir_status fst];
    first [apply disconnect_step_refl
          | apply usbredirhost_handle_disconnect_step].
Qed.

Lemma transfer_complete_step a status buffer h :
  disconnect_step h (transfer_complete a status buffer h).
Proof.
  unfold transfer_complete.
  destruct (List.find _ _) as [t|]; [|apply disconnect_step_refl].
  pose proof (libusb_status_or_error_to_redir_status_step h status) as S1.
  destruct (t_header t) as [cp | bp | ip];
    unfold usbredirhost_control_packet_complete,
      usbredirhost_bulk_packet_complete,
      usbredirhost_interrupt_out_packet_complete;
    destruct (libusb_status_or_error_to_redir_status h status) as [h1 st];
    cbn [fst] in S1; cbv zeta;
    (eapply disconnect_step_trans; [exact S1|]);
    apply quiet_step;
    (eapply quiet_trans; [|apply quiet_remove_and_free_transfer]);
    destruct (t_cancelled t =? 0); try apply quiet_refl;
    try (destruct (negb _)); apply quiet_send; reflexivity.
Qed.

Lemma usbredirhost_submit_stream_transfer_unlocked_step ep i h h' status :
  usbredirhost_submit_stream_transfer_unlocked ep i h = Some (h', status) ->
  disconnect_step h h'.
Proof.
  unfold usbredirhost_submit_stream_transfer_unlocked. cbv zeta.
  destruct (ep_transfer _ i) as [t|]; [|discriminate].
  unfold libusb_submit_transfer. cbv zeta.
  set (h0 := set_reset 0 h).
  assert (Q0 : quiet h h0) by (split; reflexivity).
  destruct (match submit_results (device h0) with
            | [] => (None, [])
            | r :: rest => (r, rest)
            end) as [r rest].
  match goal with
  | |- context [set_device ?d h0] =>
      assert (Q1 : quiet h (set_device d h0)) by (split; reflexivity);
      set (h1 := set_device d h0) in *
  end.
  destruct r as [code|].
  - destruct code;
      try (destruct (usbredirhost_cancel_stream_unlocked ep h1) as [h2|]
             eqn:E; [|discriminate];
           intros Hrun; injection Hrun as <- _;
           apply quiet_step; eapply quiet_trans; [exact Q1|];
           eapply quiet_trans;
             [apply (quiet_cancel_stream_unlocked _ _ _ E)
             | apply quiet_send_stream_status]).
    intros Hrun. injection Hrun as <- _.
    eapply disconnect_step_trans; [apply quiet_step; exact Q1|].
    apply usbredirhost_handle_disconnect_step.
  - intros Hrun. injection Hrun as <- _.
    apply quiet_step. eapply quiet_trans; [exact Q1|]. split; reflexivity.
Qed.

Lemma start_stream_loop_step n : forall i ep h h' status,
  start_stream_loop n i ep h = Some (h', status) -> disconnect_step h h'.
Proof.
  induction n as [|n IH]; intros i ep h h' status Hrun.
  - injection Hrun as <- _. apply disconnect_step_refl.
  - cbn [start_stream_loop] in Hrun. cbv zeta in Hrun.
    match type of Hrun with
    | match ?numbered with _ => _ end = _ =>
        assert (Q0 : forall h0, numbered = Some h0 -> quiet h h0);
        [|destruct numbered as [h0|]; [|discriminate];
          specialize (Q0 h0 eq_refl)]
    end.
    { intros h0. destruct (negb _).
      - destruct (ep_transfer _ i); [|discriminate].
        intros E; injection E as <-. split; reflexivity.
      - intros E; injection E as <-. apply quiet_refl. }
    destruct (usbredirhost_submit_stream_transfer_unlocked ep i h0)
      as [[h1 st]|] eqn:E; [|discriminate].
    pose proof (usbredirhost_submit_stream_transfer_unlocked_step
                  _ _ _ _ _ E) as S1.
    eapply disconnect_step_trans; [apply quiet_step; exact Q0|].
    eapply disconnect_step_trans; [exact S1|].
    destruct (negb (usb_redir_status_eqb st usb_redir_success)).
    + injection Hrun as <- _. apply disconnect_step_refl.
    + apply (IH _ _ _ _ _ Hrun).
Qed.

Lemma usbredirhost_start_stream_unlocked_step ep h h' status :
  usbredirhost_start_stream_unlocked ep h = Some (h', status) ->
  disconnect_step h h'.
Proof.
  unfold usbredirhost_start_stream_unlocked. cbv zeta.
  match goal with
  | |- context [start_stream_loop ?n ?i ep h] =>
      destruct (start_stream_loop n i ep h) as [[h1 st]|] eqn:E;
      [pose proof (start_stream_loop_step _ _ _ _ _ _ E) as S1
      |discriminate]
  end.
  destruct (negb (usb_redir_status_eqb st usb_redir_success));
    intros Hrun; injection Hrun as <- _; [exact S1|].
  eapply disconnect_step_trans; [exact S1|].
  apply quiet_step. split; reflexivity.
Qed.

Lemma usbredirhost_alloc_stream_unlocked_step id ep type ppt ps tc ss h h' :
  usbredirhost_alloc_stream_unlocked id ep type ppt ps tc ss h = Some h' ->
  disconnect_step h h'.
Proof.
  unfold usbredirhost_alloc_stream_unlocked.
  repeat match goal with
         | |- context [if ?b
                       then Some (usbredirhost_send_stream_status _ _ _ _)
                       else _] =>
             destruct b;
             [intros Hrun; injection Hrun as <-;
              apply quiet_step; apply quiet_send_stream_status|]
         end.
  pose proof (quiet_alloc_stream_loop (Z.to_nat tc) 0 ep type ppt ps tc h)
    as Q1.
  destruct (alloc_stream_loop (Z.to_nat tc) 0 ep type ppt ps tc h)
    as [h1 [i|]]; cbn [fst] in Q1.
  - intros Hrun. injection Hrun as <-.
    apply quiet_step. eapply quiet_trans; [exact Q1|].
    eapply quiet_trans; [apply quiet_free_partial_stream
                        | apply quiet_send_stream_status].
  - cbv zeta.
    match goal with
    | |- context [usbredirhost_start_stream_unlocked ep ?h0] =>
        assert (Q2 : quiet h1 h0) by (split; reflexivity);
        set (h2 := h0) in *
    end.
    intros Hrun.
    eapply disconnect_step_trans; [apply quiet_step; exact Q1|].
    eapply disconnect_step_trans; [apply quiet_step; exact Q2|].
    destruct (negb (Z.land ep LIBUSB_ENDPOINT_IN =? 0)).
    + destruct (usbredirhost_start_stream_unlocked ep h2)
        as [[h3 status]|] eqn:E; [|discriminate].
      pose proof (usbredirhost_start_stream_unlocked_step _ _ _ _ E) as S1.
      eapply disconnect_step_trans; [exact S1|].
      destruct (_ && _); injection Hrun as <-;
        [|apply disconnect_step_refl].
      apply quiet_step, quiet_send_stream_status.
    + destruct (_ && _); injection Hrun as <-;
        [|apply disconnect_step_refl].
      apply quiet_step, quiet_send_stream_status.
Qed.

Lemma host_call_do_step c h h' :
  host_call_do c h = Some h' -> disconnect_step h h'.
Proof.
  destruct c; cbn [host_call_do]; intros Hrun.
  - injection Hrun as <-. apply quiet_step, quiet_cancel_data_packet.
  - injection Hrun as <-. apply transfer_complete_step.
  - apply quiet_step, (quiet_cancel_stream_unlocked _ _ _ Hrun).
  - destruct (usbredirhost_submit_stream_transfer_unlocked ep i h)
      as [[h1 st]|] eqn:E; [|discriminate].
    injection Hrun as <-.
    apply (usbredirhost_submit_stream_transfer_unlocked_step _ _ _ _ _ E).
  - destruct (usbredirhost_start_stream_unlocked ep h)
      as [[h1 st]|] eqn:E; [|discriminate].
    injection Hrun as <-.
    apply (usbredirhost_start_stream_unlocked_step _ _ _ _ E).
  - apply (usbredirhost_alloc_stream_unlocked_step _ _ _ _ _ _ _ _ _ Hrun).
  - injection Hrun as <-. apply quiet_step, quiet_send_stream_data.
Qed.

Lemma host_calls_step cs : forall h h',
  host_calls cs h = Some h' -> disconnect_step h h'.
Proof.
  induction cs as [|c cs IH]; intros h h' Hrun.
  - injection Hrun as <-. apply disconnect_step_refl.
  - cbn [host_calls] in Hrun.
    destruct (host_call_do c h) as [h1|] eqn:E; [|discriminate].
    eapply disconnect_step_trans;
      [apply (host_call_do_step _ _ _ E) | apply (IH _ _ Hrun)].
Qed.

(** X25.  The host reports a disconnect once.  Over any sequence of calls
    of the functions that packets from the guest and completions of
    transfers lead to, on which the code dereferences no NULL slot of a
    ring and so reaches a state [h'], either no device_disconnect is sent
    and the [disconnected] flag is as it was, or the host was not
    disconnected before, is disconnected after, and one device_disconnect
    was sent. *)
Theorem usbredirhost_disconnect_once cs h h' :
  host_calls cs h = Some h' ->
  (device_disconnects h' = device_disconnects h
   /\ disconnected h' = disconnected h)
  \/ (disconnected h = 0 /\ disconnected h' = 1
      /\ device_disconnects h' = S (device_disconnects h)).
Proof.
  exact (host_calls_step cs h h').
Qed.

End HostDisconnect.

(* --------------------------------------------------------------------- *)
(** ** usbredirfilter.c: the size of the string buffer in [int]           *)
(* --------------------------------------------------------------------- *)

Lemma rule_to_string_min_length ts rs r last :
  (13 <= length (rule_to_string ts rs r last))%nat.
Proof.
  unfold rule_to_string. repeat rewrite length_app.
  assert (Hfield : forall (w : nat) (v : Z),
             (3 <= length (if negb (v =? -1)%Z
                           then ["0"; "x"]%char ++ sprintf_0x w v ++ [ts]
                           else ["-"; "1"]%char ++ [ts]))%nat).
  { intros w v. destruct (negb (v =? -1)%Z).
    - rewrite !length_app. cbn [length]. lia.
    - cbn [length app]. lia. }
  pose proof (Hfield 2%nat (device_class r)).
  pose proof (Hfield 4%nat (vendor_id r)).
  pose proof (Hfield 4%nat (product_id r)).
  pose proof (Hfield 4%nat (device_version_bcd r)).
  cbn [length]. lia.
Qed.

Lemma rules_to_string_loop_min_length ts rs rules :
  (13 * length rules <= length (rules_to_string_loop ts rs rules))%nat.
Proof.
  induction rules as [|r rules IH]; [cbn; lia|].
  cbn [rules_to_string_loop length]. rewrite length_app.
  pose proof (rule_to_string_min_length ts rs r
                (match rules with [] => true | _ => false end)).
  lia.
Qed.

Lemma usbredirfilter_verify_repeat r n :
  rule_in_range r -> usbredirfilter_verify (repeat r n) = 0.
Proof.
  intros Hr. induction n as [|n IH]; [reflexivity|].
  cbn [repeat]. apply usbredirfilter_verify_cons. split; assumption.
Qed.

(** The writer on [n] copies of a rule, when [28 * n + 1] wraps to 25. *)
Lemma rules_to_string_repeat_overflows dm r n :
  rule_in_range r -> Z.of_nat n = 153391690 ->
  usbredirfilter_verify (repeat r n) = 0
  /\ to_int (28 * Z.of_nat (length (repeat r n)) + 1) = 25
  /\ malloc dm 25 = true
  /\ usbredirfilter_rules_to_string dm (repeat r n) comma bar = None.
Proof.
  intros Hr Hn.
  assert (Hv : usbredirfilter_verify (repeat r n) = 0)
    by (apply usbredirfilter_verify_repeat; exact Hr).
  assert (Hlen : Z.of_nat (length (repeat r n)) = 153391690)
    by (rewrite repeat_length; exact Hn).
  assert (Hint : to_int (28 * Z.of_nat (length (repeat r n)) + 1) = 25)
    by (rewrite Hlen; reflexivity).
  assert (Hm : malloc dm 25 = true) by (destruct dm; reflexivity).
  pose proof (rules_to_string_loop_min_length "," "|" (repeat r n))
    as Hmin.
  set (rules := repeat r n) in *. clearbody rules.
  split; [exact Hv|]. split; [exact Hint|]. split; [exact Hm|].
  unfold usbredirfilter_rules_to_string. rewrite Hv.
  cbn [Z.eqb negb comma bar]. cbv zeta. rewrite Hint, Hm. cbn [negb].
  assert (Hsz : to_size_t dm 25 = 25) by (destruct dm; reflexivity).
  rewrite Hsz.
  replace (_ <=? 25) with false by (symmetry; apply Z.leb_gt; lia).
  reflexivity.
Qed.

(** X26.  With 153,391,690 rules the size [28 * rules_count + 1] wraps,
    in [int], to 25: [malloc] grants 25 bytes and
    [usbredirfilter_rules_to_string] writes past them, every rule taking
    13 characters at least.  The behaviour is undefined. *)
Theorem usbredirfilter_rules_to_string_overflows dm :
  let rules := repeat (mk_rule (-1) (-1) (-1) (-1) 0)
                 (Z.to_nat 153391690) in
  usbredirfilter_verify rules = 0
  /\ to_int (28 * Z.of_nat (length rules) + 1) = 25
  /\ malloc dm 25 = true
  /\ usbredirfilter_rules_to_string dm rules comma bar = None.
Proof.
  assert (Hr : rule_in_range (mk_rule (-1) (-1) (-1) (-1) 0))
    by (repeat split; cbn; lia).
  exact (rules_to_string_repeat_overflows dm _ (Z.to_nat 153391690) Hr
           (Z2Nat.id 153391690 ltac:(lia))).
Qed.

Lemma write_invariants_example :
  write_invariants
    (set_write_buf 2 [mk_buf [1; 2; 3] 1 3; mk_buf [4; 5] 0 2] 5
       (usbredirparser_create (H := usbredirproto_h_0_12) [])).
Proof.
  split; [|split; reflexivity].
  repeat constructor; cbn; lia.
Qed.

Lemma usbredirparser_do_write_conserves_witness :
  let p := set_write_buf 2 [mk_buf [1; 2; 3] 1 3; mk_buf [4; 5] 0 2] 5
             (usbredirparser_create []) in
  let p' := set_write_buf 2 [mk_buf [1; 2; 3] 2 3; mk_buf [4; 5] 0 2] 5 p in
  (write_invariants p
   /\ usbredirparser_do_write [1; 0] p = Some (0, p', [2]))
  /\ 0 <= 0
  /\ [2] ++ flat_map unwritten (write_buf p')
     = flat_map unwritten (write_buf p)
  /\ write_invariants p'
  /\ exists count bufs total, p' = set_write_buf count bufs total p.
Proof.
  intros p p'.
  assert (Hw : usbredirparser_do_write [1; 0] p = Some (0, p', [2]))
    by (vm_compute; reflexivity).
  split; [split; [exact write_invariants_example | exact Hw]|].
  exact (usbredirparser_do_write_conserves [1; 0] p 0 p' [2]
           write_invariants_example Hw).
Defined.

Lemma usbredirparser_do_write_drains_witness :
  let p := set_write_buf 2 [mk_buf [1; 2; 3] 1 3; mk_buf [4; 5] 0 2] 5
             (usbredirparser_create []) in
  (write_invariants p
   /\ Z.land (flags p) usbredirparser_fl_write_cb_owns_buffer = 0)
  /\ exists p',
       usbredirparser_do_write [2 ^ 31; 2 ^ 31] p
       = Some (0, p', flat_map unwritten (write_buf p))
       /\ write_buf p' = []
       /\ usbredirparser_has_data_to_write p' = 0
       /\ usbredirparser_get_bufferered_output_size p' = 0.
Proof.
  intros p.
  assert (Hflag : Z.land (flags p) usbredirparser_fl_write_cb_owns_buffer
                  = 0) by (vm_compute; reflexivity).
  split; [split; [exact write_invariants_example | exact Hflag]|].
  apply (usbredirparser_do_write_drains [2 ^ 31; 2 ^ 31] p
           write_invariants_example).
  - repeat constructor.
  - left. exact Hflag.
  - repeat constructor; lia.
  - cbn. lia.
Defined.

Lemma usbredirparser_queue_keeps_invariants_witness :
  let p := usbredirparser_create [] in
  let p' := usbredirparser_queue LP64 21 7 [] None 0 p in
  (write_invariants p
   /\ usbredirparser_get_header_len p
      + usbredirparser_get_type_header_len p (to_int 21) true + 0 = 12)
  /\ write_invariants p'
  /\ (write_buf p' = write_buf p
      \/ exists wbuf,
           write_buf p' = write_buf p ++ [wbuf]
           /\ unwritten wbuf = buf wbuf
           /\ firstn (Z.to_nat (usbredirparser_get_header_len p))
                (buf wbuf)
              = store32 21
                ++ store32 (to_uint
                              (usbredirparser_get_type_header_len p
                                 (to_int 21) true + 0))
                ++ (if usbredirparser_using_32bits_ids p
                    then store32 7 else store64 7)).
Proof.
  intros p p'.
  assert (Hinv : write_invariants p)
    by (split; [constructor | split; reflexivity]).
  assert (Hsize : usbredirparser_get_header_len p
                  + usbredirparser_get_type_header_len p (to_int 21) true
                  + 0 = 12) by (vm_compute; reflexivity).
  split; [split; assumption|].
  apply (usbredirparser_queue_keeps_invariants LP64 21 7 [] None 0 p Hinv);
    [lia | rewrite Hsize; lia].
Defined.

Lemma parser_run_write_invariants_witness :
  let p := snd (usbredirparser_do_read LP64
                  (receive (hello_fixed_header ++ hello_payload)
                     (parser_host []))) in
  (sizeof_usb_redir_hello_header + USB_REDIR_CAPS_SIZE * 4 < 2 ^ 31 - 16
   /\ parser_run LP64 p)
  /\ write_invariants p
  /\ (Z.of_nat (length (write_buf p)) < 2 ^ 31 ->
      (usbredirparser_has_data_to_write p = 0 <-> write_buf p = [])).
Proof.
  intros p.
  assert (Hhello : sizeof_usb_redir_hello_header + USB_REDIR_CAPS_SIZE * 4
                   < 2 ^ 31 - 16) by (vm_compute; reflexivity).
  assert (Hrun : parser_run LP64 p)
    by exact (run_do_read LP64 _
                (run_receive LP64 (hello_fixed_header ++ hello_payload) _
                   (run_init LP64 (list_ascii_of_string "usbredirhost 0.12")
                      [0x24] 1 0x05 []))).
  clearbody p.
  exact (conj (conj Hhello Hrun)
           (parser_run_write_invariants LP64 p Hhello Hrun)).
Defined.

Lemma usbredirparser_serialize_round_trip_witness :
  let P := set_write_buf 2 [mk_buf [1; 2; 3] 1 3; mk_buf [4; 5] 0 2] 5
             (set_have_peer_caps 1 (set_peer_caps [0x24] (parser_host []))) in
  let q := parser_host [] in
  let state := snd (fst (usbredirparser_serialize P)) in
  let state_len := snd (usbredirparser_serialize P) in
  (pristine q = true
   /\ usbredirparser_serialize P = (0, state, state_len)
   /\ state_len = 56)
  /\ exists q',
       usbredirparser_unserialize LP64 state state_len q = (0, q')
       /\ our_caps q' = our_caps P /\ to_skip q' = to_skip P
       /\ (have_peer_caps P <> 0 ->
           have_peer_caps q' = 1 /\ peer_caps q' = peer_caps P)
       /\ (have_peer_caps P = 0 ->
           have_peer_caps q' = have_peer_caps q
           /\ peer_caps q' = peer_caps q)
       /\ header_read q' = 0 /\ type_header_read q' = 0
       /\ data_read q' = 0 /\ data q' = None
       /\ write_buf_count q' = write_buf_count P
       /\ write_buf q' = map restored (write_buf P)
       /\ flat_map unwritten (write_buf q')
          = flat_map unwritten (write_buf P)
       /\ write_invariants q'
       /\ flags q' = flags q /\ callb q' = callb q
       /\ read_input q' = read_input q
       /\ ((have_peer_caps P = 0 -> have_peer_caps q = 0) ->
           usbredirparser_serialize q' = usbredirparser_serialize P).
Proof.
  intros P q state state_len.
  assert (Hmagic : 0 <= USBREDIRPARSER_SERIALIZE_MAGIC < 2 ^ 32)
    by (vm_compute; split; [discriminate | reflexivity]).
  assert (Hwords : forall w, (w = 0x24 \/ w = 0) ->
                             caps_array [w])
    by (intros w [-> | ->]; (split; [reflexivity | repeat constructor; lia])).
  assert (Hours : caps_array (our_caps P)) by (apply Hwords; left; reflexivity).
  assert (Hpeer : caps_array (peer_caps P)) by (apply Hwords; left; reflexivity).
  assert (Hpeerq : caps_array (peer_caps q))
    by (apply Hwords; right; reflexivity).
  assert (Hskip : - 2 ^ 31 <= to_skip P < 2 ^ 31)
    by (vm_compute; split; [discriminate | reflexivity]).
  assert (Hinv : write_invariants P)
    by (split; [repeat constructor; cbn; lia | split; reflexivity]).
  assert (Hne : Forall (fun wbuf => pos wbuf < len wbuf) (write_buf P))
    by (repeat constructor).
  assert (Hpristine : pristine q = true) by (vm_compute; reflexivity).
  assert (Hzero : header_length q = 0) by (vm_compute; reflexivity).
  assert (Hcaps : caps_mismatch (our_caps P) (our_caps q) = false)
    by (vm_compute; reflexivity).
  assert (Hser : usbredirparser_serialize P = (0, state, state_len))
    by (vm_compute; reflexivity).
  assert (Hlen : state_len = 56) by (vm_compute; reflexivity).
  assert (Hsize : Z.of_nat (length state) < 2 ^ 31)
    by (vm_compute; reflexivity).
  split; [repeat split; assumption|].
  exact (usbredirparser_serialize_round_trip LP64 P q state state_len Hmagic
           eq_refl eq_refl eq_refl Hours Hpeer Hskip Hinv Hne Hpristine
           Hzero Hpeerq Hcaps Hser Hsize).
Defined.

Lemma usbredirparser_read_invariants_witness :
  let p := parser_host (fixed_header_32 21 0 7) in
  read_invariants p
  /\ read_invariants (snd (usbredirparser_do_read LP64 p))
  /\ forall type id type_header_in data_in data_len,
       read_invariants
         (usbredirparser_queue LP64 type id type_header_in data_in data_len
            p).
Proof.
  intros p.
  assert (Hinv : read_invariants p)
    by exact (usbredirparser_init_read_invariants LP64
                (list_ascii_of_string "usbredirhost 0.12") [0x24] 1 0x05
                (fixed_header_32 21 0 7)).
  clearbody p.
  exact (conj Hinv (usbredirparser_read_invariants LP64 p Hinv)).
Defined.

Lemma usbredirparser_do_read_chunks_witness :
  let p := parser_host [21; 0; 0; 0; 0] in
  let rest := [0; 0; 0; 7; 0; 0; 0] in
  (usbredirparser_read_parse_error <> 0 /\ read_invariants p
   /\ to_skip p < 2 ^ 31 /\ fst (usbredirparser_do_read LP64 p) = 0)
  /\ usbredirparser_do_read LP64
       (receive rest (snd (usbredirparser_do_read LP64 p)))
     = usbredirparser_do_read LP64 (receive rest p).
Proof.
  intros p rest.
  assert (Herr : usbredirparser_read_parse_error <> 0)
    by (vm_compute; discriminate).
  assert (Hinv : read_invariants p)
    by exact (usbredirparser_init_read_invariants LP64
                (list_ascii_of_string "usbredirhost 0.12") [0x24] 1 0x05
                [21; 0; 0; 0; 0]).
  assert (Hmax : to_skip p < 2 ^ 31) by (vm_compute; reflexivity).
  assert (Hret : fst (usbredirparser_do_read LP64 p) = 0)
    by (vm_compute; reflexivity).
  clearbody p.
  exact (conj (conj Herr (conj Hinv (conj Hmax Hret)))
           (usbredirparser_do_read_chunks LP64 rest p Herr Hinv Hmax Hret)).
Defined.

Lemma usbredirparser_cancel_data_packet_crosses_witness :
  let g := usbredirparser_init LP64 (list_ascii_of_string "guest") [0x24] 1
             0x04 (usbredirparser_create []) in
  let h := parser_host [] in
  let id := 2 ^ 32 + 7 in
  (Z.land (flags g) usbredirparser_fl_usb_host = 0
   /\ Z.land (flags h) usbredirparser_fl_usb_host <> 0
   /\ usbredirparser_using_32bits_ids h = usbredirparser_using_32bits_ids g
   /\ 0 <= id < 2 ^ 64)
  /\ exists g' wire h',
       usbredirparser_do_write [2 ^ 31]
         (usbredirparser_send_cancel_data_packet LP64 id g)
       = Some (0, g', wire)
       /\ write_buf g' = []
       /\ usbredirparser_do_read LP64 (set_read_input wire h) = (0, h')
       /\ callb h'
          = callb h
            ++ [callb_id usb_redir_cancel_data_packet
                  (if usbredirparser_using_32bits_ids g
                   then id mod 2 ^ 32 else id)]
       /\ read_input h' = [] /\ header_read h' = 0.
Proof.
  intros g h id.
  assert (Hguest : Z.land (flags g) usbredirparser_fl_usb_host = 0)
    by (vm_compute; reflexivity).
  assert (Hempty : write_buf g = []) by (vm_compute; reflexivity).
  assert (Hinv : write_invariants g)
    by (split; [rewrite Hempty; constructor
               | split; vm_compute; reflexivity]).
  assert (Hhost : Z.land (flags h) usbredirparser_fl_usb_host <> 0)
    by (vm_compute; discriminate).
  assert (Hskip : to_skip h <= 0) by (vm_compute; discriminate).
  assert (Hwidth : usbredirparser_using_32bits_ids h
                   = usbredirparser_using_32bits_ids g)
    by (vm_compute; reflexivity).
  assert (Hid : 0 <= id < 2 ^ 64)
    by (vm_compute; split; [discriminate | reflexivity]).
  split; [exact (conj Hguest (conj Hhost (conj Hwidth Hid)))|].
  exact (usbredirparser_cancel_data_packet_crosses LP64 id g h Hguest
           Hempty Hinv Hhost Hskip eq_refl eq_refl eq_refl Hwidth Hid).
Defined.

Lemma usbredirparser_caps_set_get_witness :
  (caps_array [0x24] /\ 0 <= 6 < 32 * USB_REDIR_CAPS_SIZE /\ 0 <= 2)
  /\ caps_array (usbredirparser_caps_set_cap [0x24] 6)
  /\ usbredirparser_caps_get_cap (usbredirparser_caps_set_cap [0x24] 6) 2
     = if 2 =? 6 then 1 else usbredirparser_caps_get_cap [0x24] 2.
Proof.
  assert (Hcaps : caps_array [0x24])
    by (split; [reflexivity | repeat constructor; lia]).
  assert (Hcap : 0 <= 6 < 32 * USB_REDIR_CAPS_SIZE)
    by (vm_compute; split; [discriminate | reflexivity]).
  assert (Hcap' : 0 <= 2) by lia.
  split; [exact (conj Hcaps (conj Hcap Hcap'))|].
  exact (usbredirparser_caps_set_get [0x24] 6 2 Hcaps Hcap Hcap').
Defined.

Lemma usbredirparser_verify_caps_couples_witness :
  let caps' := usbredirparser_verify_caps [0x01] in
  (caps_array [0x01] /\ 0 <= usb_redir_cap_bulk_streams < 32
   /\ 0 <= usb_redir_cap_ep_info_max_packet_size)
  /\ caps_array caps'
  /\ (usbredirparser_caps_get_cap caps' usb_redir_cap_bulk_streams = 1 ->
      usbredirparser_caps_get_cap caps'
        usb_redir_cap_ep_info_max_packet_size = 1)
  /\ (forall cap,
        0 <= cap -> cap <> usb_redir_cap_bulk_streams ->
        usbredirparser_caps_get_cap caps' cap
        = usbredirparser_caps_get_cap [0x01] cap)
  /\ usbredirparser_verify_caps caps' = caps'.
Proof.
  intros caps'.
  assert (Hcaps : caps_array [0x01])
    by (split; [reflexivity | repeat constructor; lia]).
  assert (Hb : 0 <= usb_redir_cap_bulk_streams < 32)
    by (vm_compute; split; [discriminate | reflexivity]).
  assert (He : 0 <= usb_redir_cap_ep_info_max_packet_size)
    by (vm_compute; discriminate).
  split; [exact (conj Hcaps (conj Hb He))|].
  exact (usbredirparser_verify_caps_couples [0x01] Hcaps Hb He).
Defined.

Lemma usbredirparser_hello_crosses_witness :
  let s := usbredirparser_init LP64
             (list_ascii_of_string "usbredirguest 0.12") [0x24] 1 0x00
             (usbredirparser_create []) in
  let r := parser_host [] in
  (Z.land 0x00 usbredirparser_fl_no_hello = 0 /\ have_peer_caps r = 0
   /\ usbredirparser_using_32bits_ids r = true)
  /\ exists s' wire r',
       usbredirparser_do_write [2 ^ 31] s = Some (0, s', wire)
       /\ write_buf s' = []
       /\ usbredirparser_do_read LP64 (set_read_input wire r) = (0, r')
       /\ have_peer_caps r' = 1
       /\ peer_caps r' = our_caps s
       /\ our_caps r' = our_caps r
       /\ callb r'
          = callb r
            ++ [callb_header usb_redir_hello
                  (memcpy (type_header r) 0
                     (take_bytes sizeof_usb_redir_hello_header
                        (hello_header
                           (list_ascii_of_string "usbredirguest 0.12"))))]
       /\ read_input r' = [] /\ header_read r' = 0.
Proof.
  intros s r.
  assert (Hsize : 0 < sizeof_usb_redir_hello_header <= sizeof_type_header)
    by (vm_compute; split; [reflexivity | discriminate]).
  assert (Hmax : sizeof_usb_redir_hello_header + USB_REDIR_CAPS_SIZE * 4
                 <= MAX_PACKET_SIZE) by (vm_compute; discriminate).
  assert (Hb : 0 <= usb_redir_cap_bulk_streams < 32)
    by (vm_compute; split; [discriminate | reflexivity]).
  assert (He : 0 <= usb_redir_cap_ep_info_max_packet_size)
    by (vm_compute; discriminate).
  assert (Hhello : Z.land 0x00 usbredirparser_fl_no_hello = 0)
    by (vm_compute; reflexivity).
  assert (Hrange : Forall (fun w => 0 <= w < 2 ^ 32) [0x24])
    by (repeat constructor; lia).
  assert (Hlen : 0 <= 1 <= Z.of_nat (length [0x24])) by (cbn; lia).
  assert (Hskip : to_skip r <= 0) by (vm_compute; discriminate).
  assert (Hnone : have_peer_caps r = 0) by (vm_compute; reflexivity).
  assert (H32 : usbredirparser_using_32bits_ids r = true)
    by (vm_compute; reflexivity).
  split; [exact (conj Hhello (conj Hnone H32))|].
  exact (usbredirparser_hello_crosses LP64
           (list_ascii_of_string "usbredirguest 0.12") [0x24] 1 0x00 r
           Hsize Hmax Hb He Hhello Hrange Hlen Hskip eq_refl eq_refl eq_refl
           Hnone H32).
Defined.

Lemma usbredirparser_filter_filter_crosses_witness :
  let rules := [mk_rule 3 (-1) (-1) (-1) 0;
                mk_rule (-1) 0x1234 0xabcd 0x0100 2] in
  let g := set_have_peer_caps 1
             (set_peer_caps [0x04]
                (usbredirparser_init LP64 (list_ascii_of_string "guest")
                   [0x24] 1 0x04 (usbredirparser_create []))) in
  let h := parser_host [] in
  (usbredirfilter_verify rules = 0
   /\ 28 * Z.of_nat (length rules) + 1 <= MAX_PACKET_SIZE
   /\ usbredirparser_peer_has_cap g usb_redir_cap_filter <> 0
   /\ write_buf g = [] /\ write_invariants g
   /\ usbredirparser_have_cap h usb_redir_cap_filter <> 0
   /\ to_skip h <= 0 /\ header_read h = 0 /\ type_header_read h = 0
   /\ data_read h = 0
   /\ usbredirparser_using_32bits_ids h = usbredirparser_using_32bits_ids g)
  /\ exists g1,
       usbredirparser_send_filter_filter LP64 rules g = Some g1
       /\ exists g' wire h',
       usbredirparser_do_write [2 ^ 31] g1 = Some (0, g', wire)
       /\ write_buf g' = []
       /\ usbredirparser_do_read LP64 (set_read_input wire h) = (0, h')
       /\ callb h'
          = callb h ++ [callb_filter_filter (map normalize_allow rules)
                          (Z.of_nat (length rules))]
       /\ read_input h' = [] /\ header_read h' = 0.
Proof.
  intros rules g h.
  assert (H1 : usbredirfilter_verify rules = 0) by (vm_compute; reflexivity).
  assert (H2 : 28 * Z.of_nat (length rules) + 1 <= MAX_PACKET_SIZE)
    by (vm_compute; discriminate).
  assert (H3 : usbredirparser_peer_has_cap g usb_redir_cap_filter <> 0)
    by (vm_compute; discriminate).
  assert (H4 : write_buf g = []) by (vm_compute; reflexivity).
  assert (H5 : write_invariants g).
  { unfold write_invariants. rewrite H4.
    split; [constructor|]. split; vm_compute; reflexivity. }
  assert (H6 : usbredirparser_have_cap h usb_redir_cap_filter <> 0)
    by (vm_compute; discriminate).
  assert (H7 : to_skip h <= 0) by (vm_compute; discriminate).
  assert (H8 : header_read h = 0) by (vm_compute; reflexivity).
  assert (H9 : type_header_read h = 0) by (vm_compute; reflexivity).
  assert (H10 : data_read h = 0) by (vm_compute; reflexivity).
  assert (H11 : usbredirparser_using_32bits_ids h
                = usbredirparser_using_32bits_ids g)
    by (vm_compute; reflexivity).
  clearbody g h.
  exact (conj
           (conj H1 (conj H2 (conj H3 (conj H4 (conj H5 (conj H6 (conj H7
              (conj H8 (conj H9 (conj H10 H11))))))))))
           (usbredirparser_filter_filter_crosses LP64 rules g h
              H1 H2 H3 H4 H5 H6 H7 H8 H9 H10 H11)).
Defined.

Lemma usbredirparser_type_header_len_agrees_witness :
  let g := set_have_peer_caps 1
             (set_peer_caps (our_caps (parser_host [])) (parser_guest [])) in
  let h := set_have_peer_caps 1
             (set_peer_caps (our_caps (parser_guest [])) (parser_host [])) in
  ((Z.land (flags g) usbredirparser_fl_usb_host =? 0)
   = negb (Z.land (flags h) usbredirparser_fl_usb_host =? 0)
   /\ our_caps g = peer_caps h /\ peer_caps g = our_caps h)
  /\ (forall type,
        usbredirparser_get_type_header_len g type true
        = usbredirparser_get_type_header_len h type false)
  /\ (forall t,
        ~ In t [usb_redir_hello; usb_redir_filter_filter;
                usb_redir_control_packet; usb_redir_bulk_packet;
                usb_redir_iso_packet; usb_redir_interrupt_packet] ->
        usbredirparser_get_type_header_len g (packet_type_value t) true = -1
        \/ usbredirparser_get_type_header_len g (packet_type_value t) false
           = -1).
Proof.
  intros g h.
  assert (Hside : (Z.land (flags g) usbredirparser_fl_usb_host =? 0)
                  = negb (Z.land (flags h) usbredirparser_fl_usb_host =? 0))
    by (vm_compute; reflexivity).
  assert (Ho : our_caps g = peer_caps h) by (vm_compute; reflexivity).
  assert (Hp : peer_caps g = our_caps h) by (vm_compute; reflexivity).
  clearbody g h.
  exact (conj (conj Hside (conj Ho Hp))
           (usbredirparser_type_header_len_agrees g h Hside Ho Hp)).
Defined.

Lemma usbredirhost_transfer_complete_live_witness :
  let h := host_two_transfers in
  let h' := transfer_complete 2 LIBUSB_TRANSFER_COMPLETED [1; 2; 3] h in
  let st := snd (libusb_status_or_error_to_redir_status h
                   LIBUSB_TRANSFER_COMPLETED) in
  (List.find (fun t => (t_transfer t =? 2)%nat) (transfers_head h)
   = Some transfer_control_42
   /\ t_cancelled transfer_control_42 = 0)
  /\ (exists pre reply,
        calls (parser h') = calls (parser h) ++ pre ++ [reply]
        /\ Forall (fun c => is_data_packet c = false) pre
        /\ data_packet_id reply = Some (t_id transfer_control_42)
        /\ data_packet_status reply = Some st)
  /\ transfers_head h'
     = List.filter (fun t' => negb (t_transfer t' =? 2)%nat)
         (transfers_head h)
  /\ forall status' buffer', transfer_complete 2 status' buffer' h' = h'.
Proof.
  intros h h' st.
  assert (Hfind : List.find (fun t => (t_transfer t =? 2)%nat)
                    (transfers_head h) = Some transfer_control_42)
    by (vm_compute; reflexivity).
  assert (Hlive : t_cancelled transfer_control_42 = 0)
    by (vm_compute; reflexivity).
  split; [exact (conj Hfind Hlive)|].
  exact (usbredirhost_transfer_complete_live 2 LIBUSB_TRANSFER_COMPLETED
           [1; 2; 3] h transfer_control_42 Hfind Hlive).
Defined.

Lemma usbredirhost_cancel_stream_unlocked_empties_witness :
  let ring := Some (mk_stream_transfer 5 0 0 SUBMITTED_IDX None)
              :: Some (mk_stream_transfer 6 8 0 0 None)
              :: repeat None 14 in
  let h := set_device (mk_device_layer [] [] [] [5%nat] [6%nat; 5%nat] 7 [])
             (set_host_ep 0x81
                (mk_ep usb_redir_type_iso 1 1 8 2 0 0 512 ring) host_zero) in
  let e := host_ep h 0x81 in
  let n := Z.to_nat (ep_transfer_count e) in
  ((EP2I 0x81 < length (endpoint h))%nat
   /\ ring_filled 0x81 0 n h)
  /\ exists h',
       usbredirhost_cancel_stream_unlocked 0x81 h = Some h'
       /\ let e' := host_ep h' 0x81 in
          (forall k, (k < n)%nat -> ep_transfer e' k = None)
          /\ (stream_started e', ep_pkts_per_transfer e',
              ep_transfer_count e', out_idx e', drop_packets e')
             = (0, 0, 0, 0, 0)
          /\ cancel_calls (device h')
             = cancel_calls (device h)
               ++ ring_handles true n 0 (transfer e)
          /\ cancels_pending h'
             = cancels_pending h
               + Z.of_nat (length (ring_handles true n 0 (transfer e)))
          /\ allocated (device h')
             = List.filter
                 (fun a => negb (existsb (Nat.eqb a)
                                   (ring_handles false n 0 (transfer e))))
                 (allocated (device h))
          /\ calls (parser h') = calls (parser h)
          /\ submit_calls (device h') = submit_calls (device h).
Proof.
  intros ring h e n.
  assert (Hep : (EP2I 0x81 < length (endpoint h))%nat)
    by (vm_compute; lia).
  assert (Hf : ring_filled 0x81 0 n h).
  { intros k Hk. assert (Hn : n = 2%nat) by (vm_compute; reflexivity).
    rewrite Hn in Hk.
    destruct k as [|[|k]]; [vm_compute; discriminate
                           | vm_compute; discriminate | lia]. }
  split; [exact (conj Hep Hf)|].
  exact (usbredirhost_cancel_stream_unlocked_empties 0x81 h Hep Hf).
Defined.

Lemma usbredirhost_disconnect_once_witness :
  let h :=
    set_device
      (mk_device_layer []
         [Some LIBUSB_ERROR_NO_DEVICE; Some LIBUSB_ERROR_NO_DEVICE] [] []
         [5%nat] 6 [])
      (set_host_ep 0x81
         (mk_ep usb_redir_type_iso 1 0 8 1 0 0 512
            (Some (mk_stream_transfer 5 0 0 0 None) :: repeat None 15))
         host_zero) in
  let cs := [call_submit_stream_transfer 0x81 0;
             call_send_stream_data 0 0x81 usb_redir_success [1; 2];
             call_submit_stream_transfer 0x81 0] in
  let r := host_calls (H := usbredirhost_h_0_12) cs h in
  let h' := match r with Some h' => h' | None => h end in
  r = Some h'
  /\ ((device_disconnects h' = device_disconnects h
       /\ disconnected h' = disconnected h)
      \/ (disconnected h = 0 /\ disconnected h' = 1
          /\ device_disconnects h' = S (device_disconnects h))).
Proof.
  intros h cs r h'.
  assert (Hrun : r = Some h') by (vm_compute; reflexivity).
  exact (conj Hrun
           (usbredirhost_disconnect_once (H := usbredirhost_h_0_12)
              cs h h' Hrun)).
Defined.
